(** * Visual Novel Script Creator: the export and analysis helpers of
      [streamlit_template/utils.py], embedded and verified.

    Python values are modelled as follows.
    - [str] is a sequence of Unicode code points: [list N].
    - [int] is [Z].
    - A record built by [create_character], [create_story_arc],
      [create_milestone] or the scene form of the page is a Rocq record with
      one field per dictionary key.
    - [datetime.now().isoformat()] is read from the clock: the reading is an
      explicit argument [now].
    - [str.lower] and the platform line terminator used by pandas are
      parameters of the sections that need them.
    - [json.dumps], [json.loads] and [DataFrame.to_csv] are modelled after
      the libraries, on the values an export contains.

    - A [pd.DataFrame] is the list of its columns, each a label with its
      cells; the arithmetic of the cells is a parameter.
    - A page of [app.py] is modelled by its handlers: functions from the
      values of the widgets and the session state to the new session state.

    The functions are embedded twice: first on values, where a list is a
    Rocq list, then (modules [Heap] and [Store]) over a store of list and
    dict objects, where the arguments are references and every in-place
    operation names the object it changes.  The two embeddings are proved
    to return the same results.  Module [Pages] holds
    [initialize_session_state] over the same store.

    Two modules add what can raise inside a library call: module [Limit]
    embeds the functions that write integers with the limit of CPython on
    the digits of an integer turned into text, and module [Cells] embeds
    [process_data] with cell operations that can fail.  Both are related
    to the functions on values. *)

From Stdlib Require Import ZArith NArith List String Ascii Lia Decimal DecimalZ DecimalPos DecimalFacts.
From Stdlib Require Import Sorting.Permutation Sorting.Sorted.
From stdpp Require Import base decidable option list gmap sets.

Set Warnings "-register-all".
Open Scope Z_scope.

(** ** Text *)

Abbreviation pystr := (list N).

(** A source literal: the code points of an ASCII string. *)
Definition u (s : string) : pystr :=
  List.map N_of_ascii (list_ascii_of_string s).
Arguments u s%_string.

Definition LF : N := 10%N.

(** [sep.join(parts)] *)
Fixpoint join (sep : pystr) (parts : list pystr) : pystr :=
  match parts with
  | [] => []
  | [p] => p
  | p :: rest => p ++ sep ++ join sep rest
  end.

Definition digit_cp (d : N) : N := (48 + d)%N.

Fixpoint uint_cps (d : Decimal.uint) : pystr :=
  match d with
  | Decimal.Nil => []
  | Decimal.D0 r => digit_cp 0 :: uint_cps r
  | Decimal.D1 r => digit_cp 1 :: uint_cps r
  | Decimal.D2 r => digit_cp 2 :: uint_cps r
  | Decimal.D3 r => digit_cp 3 :: uint_cps r
  | Decimal.D4 r => digit_cp 4 :: uint_cps r
  | Decimal.D5 r => digit_cp 5 :: uint_cps r
  | Decimal.D6 r => digit_cp 6 :: uint_cps r
  | Decimal.D7 r => digit_cp 7 :: uint_cps r
  | Decimal.D8 r => digit_cp 8 :: uint_cps r
  | Decimal.D9 r => digit_cp 9 :: uint_cps r
  end.

(** [str(z)] for an [int]: decimal digits, a leading minus sign when
    negative.  The digits are written for every integer; the refusal of
    CPython to write more than 4300 of them is added in module [Limit]. *)
Definition str_of_Z (z : Z) : pystr :=
  match Z.to_int z with
  | Decimal.Pos d => uint_cps d
  | Decimal.Neg d => 45%N :: uint_cps d
  end.

(** [len(l)] as a Python [int]. *)
Definition len {A} (l : list A) : Z := Z.of_nat (length l).

(** ** Records *)

Record Character := {
  char_name : pystr;
  char_role : pystr;
  char_age : Z;
  char_personality : pystr;
  char_background : pystr;
  char_goals : pystr;
  char_created_at : pystr
}.

Record StoryArc := {
  arc_name : pystr;
  arc_description : pystr;
  arc_start_chapter : Z;
  arc_end_chapter : Z;
  arc_themes : pystr;
  arc_characters : list pystr;
  arc_created_at : pystr
}.

Record Milestone := {
  ms_name : pystr;
  ms_description : pystr;
  ms_chapter : Z;
  ms_type : pystr;
  ms_impact : pystr;
  ms_related_arc : option pystr;
  ms_created_at : pystr
}.

Record DialogueScene := {
  scene_name : pystr;
  scene_chapter : Z;
  scene_characters : list pystr;
  scene_dialogue : pystr;
  scene_branches : list pystr
}.

(** The [export_data] dictionary of [export_script_format]. *)
Record ExportBundle := {
  story_concept : pystr;
  characters : list Character;
  story_arcs : list StoryArc;
  milestones : list Milestone;
  dialogue_scenes : list DialogueScene;
  export_date : pystr
}.

(** ** Record factories *)

Definition create_character (now : pystr)
    (name role : pystr) (age : Z) (personality background goals : pystr)
    : Character :=
  {| char_name := name; char_role := role; char_age := age;
     char_personality := personality; char_background := background;
     char_goals := goals; char_created_at := now |}.

Definition create_story_arc (now : pystr)
    (name description : pystr) (start_chapter end_chapter : Z)
    (themes : pystr) (chars : list pystr) : StoryArc :=
  {| arc_name := name; arc_description := description;
     arc_start_chapter := start_chapter; arc_end_chapter := end_chapter;
     arc_themes := themes; arc_characters := chars; arc_created_at := now |}.

Definition create_milestone (now : pystr)
    (name description : pystr) (chapter : Z) (milestone_type impact : pystr)
    (related_arc : option pystr) : Milestone :=
  {| ms_name := name; ms_description := description; ms_chapter := chapter;
     ms_type := milestone_type; ms_impact := impact;
     ms_related_arc := related_arc; ms_created_at := now |}.

(** ** Built-ins on lists of integers *)

(** [max(l)]: [None] stands for the [ValueError] raised on an empty
    sequence. *)
Definition py_max (l : list Z) : option Z :=
  match l with
  | [] => None
  | x :: r => Some (fold_left Z.max r x)
  end.

(** What it means for [m] to be the maximum of [l]. *)
Definition is_max (m : Z) (l : list Z) : Prop :=
  In m l /\ forall x, In x l -> x <= m.

(** Stable insertion into a list sorted by [key]: [x] goes before the first
    element whose key is not smaller. *)
Fixpoint insert_by {A} (key : A -> Z) (x : A) (l : list A) : list A :=
  match l with
  | [] => [x]
  | y :: r => if key x <=? key y then x :: y :: r else y :: insert_by key x r
  end.

(** [sorted(l, key=key)]: Python's sort is stable, which determines the
    result; a stable insertion sort computes it. *)
Fixpoint sorted_by {A} (key : A -> Z) (l : list A) : list A :=
  match l with
  | [] => []
  | x :: r => insert_by key x (sorted_by key r)
  end.

(** [l.sort()] on a list of integers. *)
Definition sort_ints (l : list Z) : list Z := sorted_by (fun z => z) l.

(** ** JSON values and [json.dumps(obj, indent=2)]

    The encoder of Python's [json] module, restricted to the values that
    occur in an export: [None], [int], [str], [list] and [dict] with string
    keys (kept in insertion order). *)

Inductive json :=
| JNull
| JInt (z : Z)
| JStr (s : pystr)
| JArr (items : list json)
| JObj (members : list (pystr * json)).

Definition hex_digit (n : N) : N :=
  (if n <? 10 then 48 + n else 87 + n)%N.

(** ['{0:04x}'.format(n)] for [n < 0x10000]. *)
Definition hex4 (n : N) : pystr :=
  [hex_digit (n / 4096 mod 16); hex_digit (n / 256 mod 16);
   hex_digit (n / 16 mod 16); hex_digit (n mod 16)]%N.

Definition u_escape (n : N) : pystr := 92%N :: 117%N :: hex4 n.

(** The replacement [encode_basestring_ascii] makes for one code point:
    the short escapes of [ESCAPE_DCT], printable ASCII kept, everything else
    as [\uXXXX], code points above the BMP as a surrogate pair. *)
Definition escape_cp (c : N) : pystr :=
  (if c =? 34 then [92; 34]
   else if c =? 92 then [92; 92]
   else if c =? 10 then [92; 110]
   else if c =? 13 then [92; 114]
   else if c =? 9 then [92; 116]
   else if c =? 8 then [92; 98]
   else if c =? 12 then [92; 102]
   else if (32 <=? c) && (c <=? 126) then [c]
   else if c <? 65536 then u_escape c
   else
     let n := c - 65536 in
     u_escape (N.lor 55296 (N.land (N.shiftr n 10) 1023))
     ++ u_escape (N.lor 56320 (N.land n 1023)))%N.

Definition encode_basestring_ascii (s : pystr) : pystr :=
  34%N :: List.concat (List.map escape_cp s) ++ [34%N].

(** ['\n' + ' ' * (2 * level)] *)
Definition newline_indent (level : nat) : pystr :=
  LF :: List.repeat 32%N (2 * level).

Fixpoint dumps_at (level : nat) (v : json) : pystr :=
  match v with
  | JNull => u "null"
  | JInt z => str_of_Z z
  | JStr s => encode_basestring_ascii s
  | JArr [] => u "[]"
  | JArr items =>
      u "[" ++ newline_indent (S level)
      ++ join (u "," ++ newline_indent (S level))
              (List.map (dumps_at (S level)) items)
      ++ newline_indent level ++ u "]"
  | JObj [] => u "{}"
  | JObj members =>
      u "{" ++ newline_indent (S level)
      ++ join (u "," ++ newline_indent (S level))
              (List.map (fun kv => encode_basestring_ascii (fst kv) ++ u ": "
                                   ++ dumps_at (S level) (snd kv)) members)
      ++ newline_indent level ++ u "}"
  end.

(** [json.dumps(v, indent=2)] *)
Definition dumps (v : json) : pystr := dumps_at 0 v.

(** The dictionaries as [json.dumps] sees them. *)
Definition json_of_strs (l : list pystr) : json := JArr (List.map JStr l).

Definition json_of_character (c : Character) : json :=
  JObj [(u "name", JStr (char_name c));
        (u "role", JStr (char_role c));
        (u "age", JInt (char_age c));
        (u "personality", JStr (char_personality c));
        (u "background", JStr (char_background c));
        (u "goals", JStr (char_goals c));
        (u "created_at", JStr (char_created_at c))].

Definition json_of_arc (a : StoryArc) : json :=
  JObj [(u "name", JStr (arc_name a));
        (u "description", JStr (arc_description a));
        (u "start_chapter", JInt (arc_start_chapter a));
        (u "end_chapter", JInt (arc_end_chapter a));
        (u "themes", JStr (arc_themes a));
        (u "characters", json_of_strs (arc_characters a));
        (u "created_at", JStr (arc_created_at a))].

Definition json_of_milestone (m : Milestone) : json :=
  JObj [(u "name", JStr (ms_name m));
        (u "description", JStr (ms_description m));
        (u "chapter", JInt (ms_chapter m));
        (u "type", JStr (ms_type m));
        (u "impact", JStr (ms_impact m));
        (u "related_arc",
           match ms_related_arc m with Some a => JStr a | None => JNull end);
        (u "created_at", JStr (ms_created_at m))].

Definition json_of_scene (s : DialogueScene) : json :=
  JObj [(u "name", JStr (scene_name s));
        (u "chapter", JInt (scene_chapter s));
        (u "characters", json_of_strs (scene_characters s));
        (u "dialogue", JStr (scene_dialogue s));
        (u "branches", json_of_strs (scene_branches s))].

Definition json_of_bundle (d : ExportBundle) : json :=
  JObj [(u "story_concept", JStr (story_concept d));
        (u "characters", JArr (List.map json_of_character (characters d)));
        (u "story_arcs", JArr (List.map json_of_arc (story_arcs d)));
        (u "milestones", JArr (List.map json_of_milestone (milestones d)));
        (u "dialogue_scenes", JArr (List.map json_of_scene (dialogue_scenes d)));
        (u "export_date", JStr (export_date d))].

(** ** String tests *)

Definition str_eqb (a b : pystr) : bool := bool_decide (a = b).

Fixpoint is_prefix (p s : pystr) : bool :=
  match p, s with
  | [], _ => true
  | _ :: _, [] => false
  | a :: p', b :: s' => (a =? b)%N && is_prefix p' s'
  end.

(** [sub in s] *)
Fixpoint contains (s sub : pystr) : bool :=
  is_prefix sub s ||
  match s with
  | [] => false
  | _ :: r => contains r sub
  end.

(** Truth value of a list and of an optional string. *)
Definition nonempty {A} (l : list A) : bool :=
  match l with [] => false | _ :: _ => true end.

Definition truthy (o : option pystr) : bool :=
  match o with Some (_ :: _) => true | _ => false end.

(** ** generate_dialogue_options *)

Section DialogueOptions.

(** [str.lower]: Unicode lower-casing, left abstract. *)
Variable lower : pystr -> pystr.

Definition generate_dialogue_options
    (character_name situation personality_traits : pystr) : list pystr :=
  let base_options :=
    [ u "What should we do about " ++ situation ++ u "?";
      u "I think we need to consider our options here.";
      u "This reminds me of something that happened before.";
      u "Let's approach this carefully." ] in
  let base_options :=
    if contains (lower personality_traits) (u "confident")
    then base_options ++ [u "I know exactly what to do in this situation!"]
    else base_options in
  let base_options :=
    if contains (lower personality_traits) (u "shy")
    then base_options ++ [u "Um... maybe we should think about this more?"]
    else base_options in
  let base_options :=
    if contains (lower personality_traits) (u "aggressive")
    then base_options ++ [u "We need to take action now!"]
    else base_options in
  firstn 4 base_options.

End DialogueOptions.

(** ** generate_markdown_export *)

Definition md_character (c : Character) : list pystr :=
  [ LF :: u "### " ++ char_name c ++ u " (" ++ char_role c ++ u ")";
    u "- **Age:** " ++ str_of_Z (char_age c);
    u "- **Personality:** " ++ char_personality c;
    u "- **Background:** " ++ char_background c;
    u "- **Goals:** " ++ char_goals c ].

Definition md_arc (a : StoryArc) : list pystr :=
  [ LF :: u "### " ++ arc_name a;
    u "**Chapters:** " ++ str_of_Z (arc_start_chapter a) ++ u " - "
      ++ str_of_Z (arc_end_chapter a);
    u "**Description:** " ++ arc_description a;
    u "**Themes:** " ++ arc_themes a ]
  ++ (if nonempty (arc_characters a)
      then [u "**Characters:** " ++ join (u ", ") (arc_characters a)]
      else []).

Definition md_milestone (m : Milestone) : list pystr :=
  [ LF :: u "### Chapter " ++ str_of_Z (ms_chapter m) ++ u ": " ++ ms_name m;
    u "**Type:** " ++ ms_type m;
    u "**Impact:** " ++ ms_impact m;
    u "**Description:** " ++ ms_description m ]
  ++ (if truthy (ms_related_arc m)
      then [u "**Related Arc:** " ++ default [] (ms_related_arc m)]
      else []).

(** [for i, branch in enumerate(branches, i): f"{i}. {branch}"] *)
Fixpoint md_branches (i : Z) (branches : list pystr) : list pystr :=
  match branches with
  | [] => []
  | b :: r => (str_of_Z i ++ u ". " ++ b) :: md_branches (i + 1) r
  end.

Definition md_scene (s : DialogueScene) : list pystr :=
  [ LF :: u "### " ++ scene_name s ++ u " (Chapter "
      ++ str_of_Z (scene_chapter s) ++ u ")";
    u "**Characters:** " ++ join (u ", ") (scene_characters s);
    u "**Dialogue:** " ++ scene_dialogue s ]
  ++ (if nonempty (scene_branches s)
      then u "**Response Options:**" :: md_branches 1 (scene_branches s)
      else []).

Definition md_title (data : ExportBundle) : list pystr :=
  [ u "# Visual Novel Script";
    LF :: u "**Export Date:** " ++ export_date data;
    LF :: u "## Story Concept";
    LF :: story_concept data ].

Definition md_characters (data : ExportBundle) : list pystr :=
  if nonempty (characters data)
  then (LF :: u "## Characters") :: flat_map md_character (characters data)
  else [].

Definition md_story_arcs (data : ExportBundle) : list pystr :=
  if nonempty (story_arcs data)
  then (LF :: u "## Story Arcs") :: flat_map md_arc (story_arcs data)
  else [].

Definition md_milestones (data : ExportBundle) : list pystr :=
  if nonempty (milestones data)
  then
    let sorted_milestones := sorted_by ms_chapter (milestones data) in
    (LF :: u "## Story Milestones") :: flat_map md_milestone sorted_milestones
  else [].

Definition md_dialogue_scenes (data : ExportBundle) : list pystr :=
  if nonempty (dialogue_scenes data)
  then (LF :: u "## Dialogue Scenes") :: flat_map md_scene (dialogue_scenes data)
  else [].

Definition generate_markdown_export (data : ExportBundle) : pystr :=
  let md_content :=
    md_title data ++ md_characters data ++ md_story_arcs data
    ++ md_milestones data ++ md_dialogue_scenes data in
  join [LF] md_content.

(** ** generate_csv_summary and export_script_format *)

Section Platform.

(** [os.linesep], the line terminator pandas writes. *)
Variable linesep : pystr.

(** [pd.DataFrame({'Metric': ..., 'Count': ...}).to_csv(index=False)] for a
    frame with a text column and an integer column: the header line, then
    one line per row.  The model writes every label bare: it is used for
    the seven fixed labels below, none of which needs quoting. *)
Definition to_csv (columns : pystr * pystr) (rows : list (pystr * Z)) : pystr :=
  (fst columns ++ u "," ++ snd columns ++ linesep)
  ++ List.concat
       (List.map (fun r => fst r ++ u "," ++ str_of_Z (snd r) ++ linesep) rows).

Definition estimated_chapters (ms : list Milestone) : option Z :=
  if nonempty ms then py_max (List.map ms_chapter ms ++ [0]) else Some 0.

Definition is_main (c : Character) : bool :=
  str_eqb (char_role c) (u "Main Character").

Definition is_supporting (c : Character) : bool :=
  negb (existsb (str_eqb (char_role c)) [u "Main Character"; u "Love Interest"]).

(** The [summary_data] dictionary: the two columns, zipped row by row.
    [None] stands for an exception of [max]. *)
Definition summary_data (data : ExportBundle) : option (list (pystr * Z)) :=
  chapters ← estimated_chapters (milestones data);
  Some [ (u "Total Characters", len (characters data));
         (u "Total Story Arcs", len (story_arcs data));
         (u "Total Milestones", len (milestones data));
         (u "Total Dialogue Scenes", len (dialogue_scenes data));
         (u "Estimated Chapters", chapters);
         (u "Main Characters", len (List.filter is_main (characters data)));
         (u "Supporting Characters",
            len (List.filter is_supporting (characters data))) ].

Definition generate_csv_summary (data : ExportBundle) : option pystr :=
  rows ← summary_data data;
  Some (to_csv (u "Metric", u "Count") rows).

(** [None] stands for a raised exception. *)
Definition export_script_format (now : pystr)
    (concept : pystr) (cs : list Character) (arcs : list StoryArc)
    (ms : list Milestone) (scenes : list DialogueScene)
    (format_type : pystr) : option pystr :=
  let export_data :=
    {| story_concept := concept; characters := cs; story_arcs := arcs;
       milestones := ms; dialogue_scenes := scenes; export_date := now |} in
  if str_eqb format_type (u "JSON") then
    Some (dumps (json_of_bundle export_data))
  else if str_eqb format_type (u "Markdown") then
    Some (generate_markdown_export export_data)
  else if str_eqb format_type (u "CSV Summary") then
    generate_csv_summary export_data
  else
    Some (dumps (json_of_bundle export_data)).

End Platform.

(** ** analyze_story_structure *)

Record Analysis := {
  character_count : Z;
  arc_count : Z;
  milestone_count : Z;
  estimated_length : Z;
  character_roles : gmap pystr Z;
  pacing_analysis : list pystr
}.

Definition count_role (roles : gmap pystr Z) (c : Character) : gmap pystr Z :=
  let role := char_role c in
  <[role := default 0 (roles !! role) + 1]> roles.

Definition gap_message (a b : Z) : pystr :=
  u "Large gap between chapters " ++ str_of_Z a ++ u " and " ++ str_of_Z b.

(** One iteration of the pacing loop at index [i]; a failed lookup stands for
    [IndexError]. *)
Definition pacing_step (milestone_chapters : list Z)
    (acc : option (list pystr)) (i : nat) : option (list pystr) :=
  out ← acc;
  a ← milestone_chapters !! i;
  b ← milestone_chapters !! S i;
  let gap := b - a in
  Some (if 3 <? gap then out ++ [gap_message a b] else out).

Definition pacing_loop (milestone_chapters : list Z) : option (list pystr) :=
  fold_left (pacing_step milestone_chapters)
            (seq 0 (length milestone_chapters - 1)) (Some []).

Definition analyze_story_structure
    (cs : list Character) (arcs : list StoryArc) (ms : list Milestone)
    : option Analysis :=
  let roles := fold_left count_role cs ∅ in
  length_estimate ←
    (if nonempty ms then py_max (List.map ms_chapter ms)
     else if nonempty arcs then py_max (List.map arc_end_chapter arcs)
     else Some 0);
  pacing ←
    (if nonempty ms
     then pacing_loop (sort_ints (List.map ms_chapter ms))
     else Some []);
  Some {| character_count := len cs;
          arc_count := len arcs;
          milestone_count := len ms;
          estimated_length := length_estimate;
          character_roles := roles;
          pacing_analysis := pacing |}.

(** ** validate_story_structure *)

Definition warn_no_main : pystr :=
  u "Consider adding a Main Character to your story.".
Definition warn_many_main : pystr :=
  u "You have many Main Characters - consider if some should be Supporting characters.".
Definition warn_coverage : pystr :=
  u "Some chapters may not be covered by any story arc.".
Definition warn_many_critical : pystr :=
  u "You have many Critical milestones - consider varying the impact levels.".
Definition warn_no_high : pystr :=
  u "Consider adding some High or Critical impact milestones for dramatic tension.".

(** [range(a, b)] *)
Definition py_range (a b : Z) : list Z := seqZ a (b - a).

Definition cover (covered_chapters : gset Z) (arc : StoryArc) : gset Z :=
  covered_chapters
  ∪ list_to_set (py_range (arc_start_chapter arc) (arc_end_chapter arc + 1)).

Definition count_str (x : pystr) (l : list pystr) : Z :=
  len (List.filter (str_eqb x) l).

Definition validate_story_structure
    (cs : list Character) (arcs : list StoryArc) (ms : list Milestone)
    : option (list pystr) :=
  let warnings := [] in
  let main_chars := List.filter is_main cs in
  let warnings :=
    if len main_chars =? 0 then warnings ++ [warn_no_main]
    else if 3 <? len main_chars then warnings ++ [warn_many_main]
    else warnings in
  warnings ←
    (if nonempty arcs then
       total_chapters ←
         (if nonempty arcs then py_max (List.map arc_end_chapter arcs)
          else Some 0);
       let covered_chapters := fold_left cover arcs ∅ in
       Some (if Z.of_nat (size covered_chapters) <? total_chapters
             then warnings ++ [warn_coverage] else warnings)
     else Some warnings);
  let warnings :=
    if nonempty ms && (0 <? len ms) then
      let milestone_impacts := List.map ms_impact ms in
      let warnings :=
        if 3 <? count_str (u "Critical") milestone_impacts
        then warnings ++ [warn_many_critical] else warnings in
      if negb (existsb (str_eqb (u "High")) milestone_impacts)
         && negb (existsb (str_eqb (u "Critical")) milestone_impacts)
      then warnings ++ [warn_no_high] else warnings
    else warnings in
  Some warnings.

(** ** [json.loads]

    The decoder of Python's [json] module on the fragment of JSON that the
    encoder above emits: objects, arrays, strings, integers and [null],
    separated by white space.  [None] stands for a [JSONDecodeError], and
    also for the tokens outside the fragment ([true], [false], [NaN],
    numbers with a fraction or an exponent). *)

Definition is_ws (c : N) : bool :=
  ((c =? 32) || (c =? 9) || (c =? 10) || (c =? 13))%N.

Fixpoint skip_ws (s : pystr) : pystr :=
  match s with
  | [] => []
  | c :: r => if is_ws c then skip_ws r else s
  end.

Definition is_digit (c : N) : bool := ((48 <=? c) && (c <=? 57))%N.

Definition hex_val (c : N) : option N :=
  (if (48 <=? c) && (c <=? 57) then Some (c - 48)
   else if (97 <=? c) && (c <=? 102) then Some (c - 87)
   else if (65 <=? c) && (c <=? 70) then Some (c - 55)
   else None)%N.

(** [int(esc, 16)] for the four characters after a backslash-u. *)
Definition decode_hex4 (a b c d : N) : option N :=
  a' ← hex_val a; b' ← hex_val b; c' ← hex_val c; d' ← hex_val d;
  Some (((a' * 16 + b') * 16 + c') * 16 + d')%N.

Definition is_high_surrogate (c : N) : bool := ((55296 <=? c) && (c <=? 56319))%N.
Definition is_low_surrogate (c : N) : bool := ((56320 <=? c) && (c <=? 57343))%N.

(** [0x10000 + (((uni - 0xd800) << 10) | (uni2 - 0xdc00))] *)
Definition join_pair (uni uni2 : N) : N :=
  (65536 + N.lor (N.shiftl (uni - 55296) 10) (uni2 - 56320))%N.

(** The [BACKSLASH] table of the decoder. *)
Definition backslash (e : N) : option N :=
  (if e =? 34 then Some 34
   else if e =? 92 then Some 92
   else if e =? 47 then Some 47
   else if e =? 98 then Some 8
   else if e =? 102 then Some 12
   else if e =? 110 then Some 10
   else if e =? 114 then Some 13
   else if e =? 116 then Some 9
   else None)%N.

(** [scanstring(s, end, strict=True)], started after the opening quote:
    the decoded text and what follows the closing quote. *)
Fixpoint scanstring (s : pystr) : option (pystr * pystr) :=
  match s with
  | [] => None
  | c :: r =>
      if (c =? 34)%N then Some ([], r)
      else if (c =? 92)%N then
        match r with
        | [] => None
        | e :: r1 =>
            if (e =? 117)%N then
              match r1 with
              | h1 :: h2 :: h3 :: h4 :: r2 =>
                  match decode_hex4 h1 h2 h3 h4 with
                  | None => None
                  | Some uni =>
                      let single :=
                        match scanstring r2 with
                        | Some (text, rest) => Some (uni :: text, rest)
                        | None => None
                        end in
                      if is_high_surrogate uni then
                        match r2 with
                        | bs :: r3 =>
                            match r3 with
                            | uu :: r4 =>
                                if (bs =? 92)%N && (uu =? 117)%N then
                                  match r4 with
                                  | x1 :: x2 :: x3 :: x4 :: r5 =>
                                      match decode_hex4 x1 x2 x3 x4 with
                                      | None => None
                                      | Some uni2 =>
                                          if is_low_surrogate uni2 then
                                            match scanstring r5 with
                                            | Some (text, rest) =>
                                                Some (join_pair uni uni2 :: text, rest)
                                            | None => None
                                            end
                                          else single
                                      end
                                  | _ => None
                                  end
                                else single
                            | [] => single
                            end
                        | [] => single
                        end
                      else single
                  end
              | _ => None
              end
            else
              match backslash e with
              | None => None
              | Some c' =>
                  match scanstring r1 with
                  | Some (text, rest) => Some (c' :: text, rest)
                  | None => None
                  end
              end
        end
      else if (c <? 32)%N then None
      else
        match scanstring r with
        | Some (text, rest) => Some (c :: text, rest)
        | None => None
        end
  end.

(** The digits at the front of [s], as a [Decimal.uint], and the rest. *)
Fixpoint read_digits (s : pystr) : Decimal.uint * pystr :=
  match s with
  | [] => (Decimal.Nil, [])
  | c :: r =>
      if is_digit c then
        let '(d, rest) := read_digits r in
        ((if c =? 48 then Decimal.D0 d
          else if c =? 49 then Decimal.D1 d
          else if c =? 50 then Decimal.D2 d
          else if c =? 51 then Decimal.D3 d
          else if c =? 52 then Decimal.D4 d
          else if c =? 53 then Decimal.D5 d
          else if c =? 54 then Decimal.D6 d
          else if c =? 55 then Decimal.D7 d
          else if c =? 56 then Decimal.D8 d
          else Decimal.D9 d)%N, rest)
      else (Decimal.Nil, s)
  end.

(** The integer part of [NUMBER_RE]: a single 0, or a nonzero digit and the
    digits after it. *)
Definition match_integer (s : pystr) : option (Decimal.uint * pystr) :=
  match s with
  | [] => None
  | c :: r =>
      if (c =? 48)%N then Some (Decimal.D0 Decimal.Nil, r)
      else if is_digit c then Some (read_digits s)
      else None
  end.

(** A fraction or an exponent may follow: the number would be a float. *)
Definition float_follows (s : pystr) : bool :=
  match s with
  | [] => false
  | c :: _ => ((c =? 46) || (c =? 101) || (c =? 69))%N
  end.

Definition match_number (s : pystr) : option (json * pystr) :=
  match s with
  | [] => None
  | c :: r =>
      if (c =? 45)%N then
        match match_integer r with
        | Some (d, rest) =>
            if float_follows rest then None
            else Some (JInt (Z.of_int (Decimal.Neg d)), rest)
        | None => None
        end
      else
        match match_integer s with
        | Some (d, rest) =>
            if float_follows rest then None
            else Some (JInt (Z.of_int (Decimal.Pos d)), rest)
        | None => None
        end
  end.

(** [scan_once], [JSONArray] and [JSONObject]; [fuel] bounds the number of
    nested calls.  [parse_values] starts at the first element of a non-empty
    array, [parse_pairs] after the opening quote of a key. *)
Fixpoint scan_once (fuel : nat) (s : pystr) : option (json * pystr) :=
  match fuel with
  | O => None
  | S fuel =>
      match s with
      | [] => None
      | c :: r =>
          if (c =? 34)%N then
            match scanstring r with
            | Some (text, rest) => Some (JStr text, rest)
            | None => None
            end
          else if (c =? 123)%N then
            match skip_ws r with
            | [] => None
            | c' :: r' =>
                if (c' =? 125)%N then Some (JObj [], r')
                else if (c' =? 34)%N then
                  match parse_pairs fuel r' with
                  | Some (pairs, rest) => Some (JObj pairs, rest)
                  | None => None
                  end
                else None
            end
          else if (c =? 91)%N then
            match skip_ws r with
            | [] => None
            | c' :: r' =>
                if (c' =? 93)%N then Some (JArr [], r')
                else
                  match parse_values fuel (c' :: r') with
                  | Some (values, rest) => Some (JArr values, rest)
                  | None => None
                  end
            end
          else if is_prefix (u "null") s then Some (JNull, skipn 4 s)
          else match_number s
      end
  end
with parse_values (fuel : nat) (s : pystr) : option (list json * pystr) :=
  match fuel with
  | O => None
  | S fuel =>
      match scan_once fuel s with
      | None => None
      | Some (value, r) =>
          match skip_ws r with
          | [] => None
          | c :: r' =>
              if (c =? 93)%N then Some ([value], r')
              else if (c =? 44)%N then
                match parse_values fuel (skip_ws r') with
                | Some (values, rest) => Some (value :: values, rest)
                | None => None
                end
              else None
          end
      end
  end
with parse_pairs (fuel : nat) (s : pystr)
    : option (list (pystr * json) * pystr) :=
  match fuel with
  | O => None
  | S fuel =>
      match scanstring s with
      | None => None
      | Some (key, r) =>
          match skip_ws r with
          | [] => None
          | c :: r1 =>
              if (c =? 58)%N then
                match scan_once fuel (skip_ws r1) with
                | None => None
                | Some (value, r2) =>
                    match skip_ws r2 with
                    | [] => None
                    | c2 :: r3 =>
                        if (c2 =? 125)%N then Some ([(key, value)], r3)
                        else if (c2 =? 44)%N then
                          match skip_ws r3 with
                          | [] => None
                          | q :: r4 =>
                              if (q =? 34)%N then
                                match parse_pairs fuel r4 with
                                | Some (pairs, rest) =>
                                    Some ((key, value) :: pairs, rest)
                                | None => None
                                end
                              else None
                          end
                        else None
                    end
                end
              else None
          end
      end
  end.

(** [json.loads(s)]: one value, white space around it, nothing else. *)
Definition loads (s : pystr) : option json :=
  match scan_once (S (length s)) (skip_ws s) with
  | Some (value, rest) =>
      match skip_ws rest with
      | [] => Some value
      | _ :: _ => None
      end
  | None => None
  end.

(** [dict(pairs)[key]]: the last pair with that key wins. *)
Fixpoint dict_get (key : pystr) (pairs : list (pystr * json)) : option json :=
  match pairs with
  | [] => None
  | (k, v) :: rest =>
      match dict_get key rest with
      | Some v' => Some v'
      | None => if str_eqb k key then Some v else None
      end
  end.

(** [obj[key]] on a decoded object. *)
Definition getitem (obj : json) (key : pystr) : option json :=
  match obj with
  | JObj pairs => dict_get key pairs
  | _ => None
  end.

(** [len(obj[key])] for a decoded array. *)
Definition array_len (obj : json) (key : pystr) : option Z :=
  match getitem obj key with
  | Some (JArr items) => Some (len items)
  | _ => None
  end.

(** ** Data frames: validate_dataframe and process_data

    A [pd.DataFrame] is modelled by its columns, in order: the label of a
    column and the cells it holds, one per row.  The columns [value_a] and
    [value_b] hold numbers; the type of a number and its arithmetic
    (addition, subtraction, division by 2 and absolute value, applied by
    pandas cell by cell) are parameters.  Here the arithmetic is defined on
    every cell and the labels of a frame differ from each other; module
    [Cells] has the arithmetic that can raise. *)

(** The outcome of a call that may raise [ValueError]. *)
Inductive outcome (A : Type) :=
| Returns (x : A)
| ValueError (message : pystr).
Arguments Returns {A} x.
Arguments ValueError {A} message.

Section Frames.

Variable cell : Type.
Variables (add sub : cell -> cell -> cell) (halve absolute : cell -> cell).

Definition DataFrame := list (pystr * list cell).

(** [df.columns] *)
Definition columns (df : DataFrame) : list pystr := List.map fst df.

(** [col in df.columns] *)
Definition has_column (col : pystr) (df : DataFrame) : bool :=
  existsb (str_eqb col) (columns df).

(** [df[col]]: [None] stands for [KeyError]. *)
Fixpoint frame_get (df : DataFrame) (col : pystr) : option (list cell) :=
  match df with
  | [] => None
  | (label, cells) :: rest =>
      if str_eqb label col then Some cells else frame_get rest col
  end.

(** [df[col] = cells]: an existing column is replaced where it stands, a
    new one is added after the last column. *)
Fixpoint frame_set (df : DataFrame) (col : pystr) (cells : list cell)
    : DataFrame :=
  match df with
  | [] => [(col, cells)]
  | (label, old) :: rest =>
      if str_eqb label col then (label, cells) :: rest
      else (label, old) :: frame_set rest col cells
  end.

(** [a + b], [a - b], [a / 2] and [abs(a)] on columns of one frame. *)
Definition series_add (a b : list cell) : list cell := zip_with add a b.
Definition series_sub (a b : list cell) : list cell := zip_with sub a b.
Definition series_halve (a : list cell) : list cell := List.map halve a.
Definition series_abs (a : list cell) : list cell := List.map absolute a.

Definition process_data (df : DataFrame) : option DataFrame :=
  let processed := df in
  if has_column (u "value_a") processed && has_column (u "value_b") processed
  then
    a ← frame_get processed (u "value_a");
    b ← frame_get processed (u "value_b");
    let processed := frame_set processed (u "sum") (series_add a b) in
    a ← frame_get processed (u "value_a");
    b ← frame_get processed (u "value_b");
    let processed :=
      frame_set processed (u "mean") (series_halve (series_add a b)) in
    a ← frame_get processed (u "value_a");
    b ← frame_get processed (u "value_b");
    let processed :=
      frame_set processed (u "abs_diff") (series_abs (series_sub a b)) in
    Some processed
  else Some processed.

Definition validate_dataframe (df : DataFrame)
    (required_columns : option (list pystr)) : outcome bool :=
  let required_columns :=
    match required_columns with
    | None => [u "value_a"; u "value_b"]
    | Some given => given
    end in
  let missing_cols :=
    List.filter (fun col => negb (has_column col df)) required_columns in
  if nonempty missing_cols then
    ValueError (u "DataFrame is missing required columns: "
                ++ join (u ", ") missing_cols)
  else Returns true.

End Frames.

Arguments columns {cell} df.
Arguments has_column {cell} col df.
Arguments frame_get {cell} df col.
Arguments frame_set {cell} df col cells.
Arguments series_add {cell} add a b.
Arguments series_sub {cell} sub a b.
Arguments series_halve {cell} halve a.
Arguments series_abs {cell} absolute a.
Arguments process_data {cell} add sub halve absolute df.
Arguments validate_dataframe {cell} df required_columns.

(** ** The pages of the application (app.py)

    The session state holds the four lists and the concept.  A page reads
    its widgets and, when a form is submitted or a button is pressed,
    updates the session state; the values of the widgets are the arguments
    of the handlers below. *)

Record Session := {
  st_characters : list Character;
  st_story_arcs : list StoryArc;
  st_milestones : list Milestone;
  st_dialogue_scenes : list DialogueScene;
  st_story_concept : pystr
}.

(** The session state that [initialize_session_state] sets up. *)
Definition initial_session : Session :=
  {| st_characters := []; st_story_arcs := []; st_milestones := [];
     st_dialogue_scenes := []; st_story_concept := [] |}.

(** [l.pop(i)] for [i >= 0]: the list without its item at [i]; [None]
    stands for [IndexError]. *)
Definition pop {A} (i : nat) (l : list A) : option (list A) :=
  match l !! i with
  | Some _ => Some (delete i l)
  | None => None
  end.

(** [l.index(x)]: the position of the first item equal to [x]; [None]
    stands for [ValueError]. *)
Fixpoint index {A} `{EqDecision A} (x : A) (l : list A) : option nat :=
  match l with
  | [] => None
  | y :: rest => if decide (y = x) then Some 0%nat else S <$> index x rest
  end.

#[global] Instance Milestone_eq_dec : EqDecision Milestone.
Proof. solve_decision. Defined.

(** The choices of the select boxes. *)
Definition role_options : list pystr :=
  [ u "Main Character"; u "Love Interest"; u "Rival"; u "Friend"; u "Mentor";
    u "Antagonist"; u "Supporting" ].

Definition milestone_type_options : list pystr :=
  [ u "Plot Point"; u "Character Development"; u "Relationship Change";
    u "World Building"; u "Conflict Resolution" ].

Definition impact_options : list pystr :=
  [ u "Low"; u "Medium"; u "High"; u "Critical" ].

(** *** story_concept_section: the detected genres and the Save Concept
        button *)

Section StoryConcept.

(** [str.lower], as in [generate_dialogue_options]. *)
Variable lower : pystr -> pystr.

(** [any(word in concept.lower() for word in words)] *)
Definition mentions (concept : pystr) (words : list pystr) : bool :=
  existsb (contains (lower concept)) words.

(** The list [genres] that the page builds for a non-empty concept. *)
Definition detect_genres (concept : pystr) : list pystr :=
  let genres := [] in
  let genres :=
    if mentions concept [u "love"; u "romance"; u "heart"]
    then genres ++ [u "Romance"] else genres in
  let genres :=
    if mentions concept [u "mystery"; u "detective"; u "crime"]
    then genres ++ [u "Mystery"] else genres in
  let genres :=
    if mentions concept [u "magic"; u "fantasy"; u "dragon"]
    then genres ++ [u "Fantasy"] else genres in
  let genres :=
    if mentions concept [u "school"; u "student"; u "class"]
    then genres ++ [u "Slice of Life"] else genres in
  genres.

End StoryConcept.

Definition save_concept (concept : pystr) (st : Session) : Session :=
  {| st_characters := st_characters st; st_story_arcs := st_story_arcs st;
     st_milestones := st_milestones st;
     st_dialogue_scenes := st_dialogue_scenes st;
     st_story_concept := concept |}.

(** *** characters_section *)

(** The form is submitted: [if submitted and char_name]. *)
Definition submit_character (now char_name char_role : pystr) (char_age : Z)
    (char_personality char_background char_goals : pystr) (st : Session)
    : Session :=
  if nonempty char_name then
    let character :=
      create_character now char_name char_role char_age char_personality
        char_background char_goals in
    {| st_characters := st_characters st ++ [character];
       st_story_arcs := st_story_arcs st; st_milestones := st_milestones st;
       st_dialogue_scenes := st_dialogue_scenes st;
       st_story_concept := st_story_concept st |}
  else st.

(** The Delete button of the character shown at position [i]. *)
Definition delete_character (i : nat) (st : Session) : option Session :=
  rest ← pop i (st_characters st);
  Some {| st_characters := rest;
          st_story_arcs := st_story_arcs st; st_milestones := st_milestones st;
          st_dialogue_scenes := st_dialogue_scenes st;
          st_story_concept := st_story_concept st |}.

(** *** story_arcs_section *)

Definition submit_arc (now arc_name arc_description : pystr)
    (arc_start arc_end : Z) (arc_themes : pystr) (involved_chars : list pystr)
    (st : Session) : Session :=
  if nonempty arc_name then
    let arc :=
      create_story_arc now arc_name arc_description arc_start arc_end
        arc_themes involved_chars in
    {| st_characters := st_characters st;
       st_story_arcs := st_story_arcs st ++ [arc];
       st_milestones := st_milestones st;
       st_dialogue_scenes := st_dialogue_scenes st;
       st_story_concept := st_story_concept st |}
  else st.

Definition delete_arc (i : nat) (st : Session) : option Session :=
  rest ← pop i (st_story_arcs st);
  Some {| st_characters := st_characters st; st_story_arcs := rest;
          st_milestones := st_milestones st;
          st_dialogue_scenes := st_dialogue_scenes st;
          st_story_concept := st_story_concept st |}.

(** *** milestones_section *)

(** The choices of the Related Arc box. *)
Definition related_arc_options (st : Session) : list pystr :=
  if nonempty (st_story_arcs st)
  then u "None" :: List.map arc_name (st_story_arcs st)
  else [u "None"].

Definition submit_milestone (now milestone_name milestone_description : pystr)
    (milestone_chapter : Z) (milestone_type milestone_impact related_arc : pystr)
    (st : Session) : Session :=
  if nonempty milestone_name then
    let milestone :=
      create_milestone now milestone_name milestone_description
        milestone_chapter milestone_type milestone_impact
        (if negb (str_eqb related_arc (u "None")) then Some related_arc
         else None) in
    {| st_characters := st_characters st; st_story_arcs := st_story_arcs st;
       st_milestones := st_milestones st ++ [milestone];
       st_dialogue_scenes := st_dialogue_scenes st;
       st_story_concept := st_story_concept st |}
  else st.

(** The milestones as the page lists them. *)
Definition shown_milestones (st : Session) : list Milestone :=
  sorted_by ms_chapter (st_milestones st).

(** One run of the loop over the shown milestones in which the Delete
    button of the milestone at position [pressed] is pressed.  For each
    milestone in turn the page looks it up in the stored list and makes its
    Delete button, whose key carries the position found; [used] holds the
    keys of the buttons made before.  The pressed button removes the stored
    item at its position and the run ends there ([st.rerun]); without a
    press the stored list stays.  [None] stands for an exception: the
    [ValueError] of [index], the error that Streamlit raises when a second
    widget is made with a key already used, the [IndexError] of [pop]. *)
Fixpoint press_delete (pressed : nat) (sorted_milestones : list Milestone)
    (used : list nat) (stored : list Milestone) {struct sorted_milestones}
    : option (list Milestone) :=
  match sorted_milestones with
  | [] => Some stored
  | milestone :: later =>
      milestone_idx ← index milestone stored;
      if bool_decide (milestone_idx ∈ used) then None
      else
        match pressed with
        | O => pop milestone_idx stored
        | S earlier =>
            press_delete earlier later (milestone_idx :: used) stored
        end
  end.

(** The Delete button of the milestone shown at position [i]. *)
Definition delete_milestone (i : nat) (st : Session) : option Session :=
  let sorted_milestones := shown_milestones st in
  rest ← press_delete i sorted_milestones [] (st_milestones st);
  Some {| st_characters := st_characters st; st_story_arcs := st_story_arcs st;
          st_milestones := rest;
          st_dialogue_scenes := st_dialogue_scenes st;
          st_story_concept := st_story_concept st |}.

(** *** dialogue_and_export_section *)

(** The Add Scene button; it is on the page only when there are characters
    and some are selected for the scene.  [branch_texts] are the texts of
    the branch inputs, of which the non-empty ones are kept. *)
Definition add_scene (scene_name : pystr) (scene_chapter : Z)
    (scene_characters : list pystr) (dialogue_text : pystr)
    (branch_texts : list pystr) (st : Session) : Session :=
  if nonempty (st_characters st) then
    if nonempty scene_characters then
      let branches := List.filter nonempty branch_texts in
      let scene :=
        {| scene_name := scene_name; scene_chapter := scene_chapter;
           scene_characters := scene_characters;
           scene_dialogue := dialogue_text; scene_branches := branches |} in
      {| st_characters := st_characters st; st_story_arcs := st_story_arcs st;
         st_milestones := st_milestones st;
         st_dialogue_scenes := st_dialogue_scenes st ++ [scene];
         st_story_concept := st_story_concept st |}
    else st
  else st.

(** The Generate Export button; it is on the page only when one of the four
    lists is not empty ([None]: no button).  The inner [option] is the
    result of [export_script_format]. *)
Definition generate_export (linesep now export_format : pystr) (st : Session)
    : option (option pystr) :=
  if nonempty (st_characters st) || nonempty (st_story_arcs st)
     || nonempty (st_milestones st) || nonempty (st_dialogue_scenes st)
  then
    Some (export_script_format linesep now (st_story_concept st)
            (st_characters st) (st_story_arcs st) (st_milestones st)
            (st_dialogue_scenes st) export_format)
  else None.

(** *** Sessions *)

(** What the user does on a page, with the values read from the widgets. *)
Inductive event :=
| SaveConcept (concept : pystr)
| SubmitCharacter (now char_name char_role : pystr) (char_age : Z)
    (char_personality char_background char_goals : pystr)
| DeleteCharacter (i : nat)
| SubmitArc (now arc_name arc_description : pystr) (arc_start arc_end : Z)
    (arc_themes : pystr) (involved_chars : list pystr)
| DeleteArc (i : nat)
| SubmitMilestone (now milestone_name milestone_description : pystr)
    (milestone_chapter : Z)
    (milestone_type milestone_impact related_arc : pystr)
| DeleteMilestone (i : nat)
| AddScene (scene_name : pystr) (scene_chapter : Z)
    (scene_characters : list pystr) (dialogue_text : pystr)
    (branch_texts : list pystr).

Definition handle (e : event) (st : Session) : option Session :=
  match e with
  | SaveConcept concept => Some (save_concept concept st)
  | SubmitCharacter now name role age personality background goals =>
      Some (submit_character now name role age personality background goals st)
  | DeleteCharacter i => delete_character i st
  | SubmitArc now name description arc_start arc_end themes involved =>
      Some (submit_arc now name description arc_start arc_end themes involved st)
  | DeleteArc i => delete_arc i st
  | SubmitMilestone now name description chapter type impact related =>
      Some (submit_milestone now name description chapter type impact related st)
  | DeleteMilestone i => delete_milestone i st
  | AddScene name chapter chars dialogue branch_texts =>
      Some (add_scene name chapter chars dialogue branch_texts st)
  end.

(** The values the widgets of the page can deliver in the session [st]:
    select boxes return one of their choices, number inputs a number within
    their bounds, multi-selects some of the names on offer, the slider
    between 1 and 4 branch inputs, and a Delete button belongs to an entry
    that is shown.  The Delete button of a milestone is on the page when
    the keys of the buttons up to it differ, which they do when the
    milestones shown up to it are pairwise different. *)
Definition widgets_allow (st : Session) (e : event) : Prop :=
  match e with
  | SaveConcept _ => True
  | SubmitCharacter _ _ role age _ _ _ =>
      In role role_options /\ 10 <= age <= 100
  | DeleteCharacter i => (i < length (st_characters st))%nat
  | SubmitArc _ _ _ arc_start arc_end _ involved =>
      1 <= arc_start /\ 1 <= arc_end
      /\ incl involved (List.map char_name (st_characters st))
  | DeleteArc i => (i < length (st_story_arcs st))%nat
  | SubmitMilestone _ _ _ chapter type impact related =>
      1 <= chapter /\ In type milestone_type_options
      /\ In impact impact_options /\ In related (related_arc_options st)
  | DeleteMilestone i =>
      (i < length (st_milestones st))%nat
      /\ NoDup (take (S i) (shown_milestones st))
  | AddScene _ chapter chars _ branch_texts =>
      1 <= chapter
      /\ incl chars (List.map char_name (st_characters st))
      /\ (1 <= length branch_texts <= 4)%nat
  end.

(** The session states that the pages can produce. *)
Inductive reachable : Session -> Prop :=
| reachable_initial : reachable initial_session
| reachable_step (st st' : Session) (e : event) :
    reachable st -> widgets_allow st e -> handle e st = Some st' ->
    reachable st'.

(** What holds of every record of such a session. *)
Definition character_ok (c : Character) : Prop :=
  char_name c <> [] /\ In (char_role c) role_options /\ 10 <= char_age c <= 100.

Definition arc_ok (a : StoryArc) : Prop :=
  arc_name a <> [] /\ 1 <= arc_start_chapter a /\ 1 <= arc_end_chapter a.

Definition milestone_ok (m : Milestone) : Prop :=
  ms_name m <> [] /\ 1 <= ms_chapter m
  /\ In (ms_type m) milestone_type_options
  /\ In (ms_impact m) impact_options
  /\ ms_related_arc m <> Some (u "None").

Definition scene_ok (s : DialogueScene) : Prop :=
  1 <= scene_chapter s /\ scene_characters s <> []
  /\ (length (scene_branches s) <= 4)%nat
  /\ Forall (fun b => b <> []) (scene_branches s).

Definition session_ok (st : Session) : Prop :=
  Forall character_ok (st_characters st)
  /\ Forall arc_ok (st_story_arcs st)
  /\ Forall milestone_ok (st_milestones st)
  /\ Forall scene_ok (st_dialogue_scenes st).

(** ** The limit on the conversion of integers to text

    Since version 3.11 CPython refuses to convert an [int] of more than
    [sys.get_int_max_str_digits()] decimal digits, 4300 unless configured
    otherwise, to text: [str], [repr], the formatting in an f-string and
    with them [json.dumps] raise [ValueError].  The functions above write
    the digits of every integer; module [Limit] embeds the functions that
    write integers once more, with that check, [None] standing for the
    [ValueError]. *)

Module Limit.

(** [sys.int_info.default_max_str_digits] *)
Definition int_max_str_digits : Z := 4300.

(** [z] has at most [int_max_str_digits] decimal digits. *)
Definition fits (z : Z) : bool := Z.abs z <? 10 ^ int_max_str_digits.

(** [str(z)], [repr(z)], [f"{z}"] *)
Definition str (z : Z) : option pystr :=
  if fits z then Some (str_of_Z z) else None.

(** *** json.dumps *)

Fixpoint dumps_at (level : nat) (v : json) : option pystr :=
  match v with
  | JNull => Some (u "null")
  | JInt z => str z
  | JStr s => Some (encode_basestring_ascii s)
  | JArr [] => Some (u "[]")
  | JArr items =>
      chunks ← mapM (dumps_at (S level)) items;
      Some (u "[" ++ newline_indent (S level)
            ++ join (u "," ++ newline_indent (S level)) chunks
            ++ newline_indent level ++ u "]")
  | JObj [] => Some (u "{}")
  | JObj members =>
      chunks ← mapM (fun kv =>
                       value ← dumps_at (S level) (snd kv);
                       Some (encode_basestring_ascii (fst kv) ++ u ": "
                             ++ value))
                    members;
      Some (u "{" ++ newline_indent (S level)
            ++ join (u "," ++ newline_indent (S level)) chunks
            ++ newline_indent level ++ u "}")
  end.

Definition dumps (v : json) : option pystr := dumps_at 0 v.

(** *** generate_markdown_export *)

Definition md_character (c : Character) : option (list pystr) :=
  age ← str (char_age c);
  Some [ LF :: u "### " ++ char_name c ++ u " (" ++ char_role c ++ u ")";
         u "- **Age:** " ++ age;
         u "- **Personality:** " ++ char_personality c;
         u "- **Background:** " ++ char_background c;
         u "- **Goals:** " ++ char_goals c ].

Definition md_arc (a : StoryArc) : option (list pystr) :=
  first ← str (arc_start_chapter a);
  last ← str (arc_end_chapter a);
  Some ([ LF :: u "### " ++ arc_name a;
          u "**Chapters:** " ++ first ++ u " - " ++ last;
          u "**Description:** " ++ arc_description a;
          u "**Themes:** " ++ arc_themes a ]
        ++ (if nonempty (arc_characters a)
            then [u "**Characters:** " ++ join (u ", ") (arc_characters a)]
            else [])).

Definition md_milestone (m : Milestone) : option (list pystr) :=
  chapter ← str (ms_chapter m);
  Some ([ LF :: u "### Chapter " ++ chapter ++ u ": " ++ ms_name m;
          u "**Type:** " ++ ms_type m;
          u "**Impact:** " ++ ms_impact m;
          u "**Description:** " ++ ms_description m ]
        ++ (if truthy (ms_related_arc m)
            then [u "**Related Arc:** " ++ default [] (ms_related_arc m)]
            else [])).

Fixpoint md_branches (i : Z) (branches : list pystr) : option (list pystr) :=
  match branches with
  | [] => Some []
  | b :: r =>
      number ← str i;
      rest ← md_branches (i + 1) r;
      Some ((number ++ u ". " ++ b) :: rest)
  end.

Definition md_scene (s : DialogueScene) : option (list pystr) :=
  chapter ← str (scene_chapter s);
  options ←
    (if nonempty (scene_branches s)
     then
       numbered ← md_branches 1 (scene_branches s);
       Some (u "**Response Options:**" :: numbered)
     else Some []);
  Some ([ LF :: u "### " ++ scene_name s ++ u " (Chapter " ++ chapter ++ u ")";
          u "**Characters:** " ++ join (u ", ") (scene_characters s);
          u "**Dialogue:** " ++ scene_dialogue s ]
        ++ options).

(** One section: the heading and the entries of the records, when there
    are records. *)
Definition md_section {A} (heading : pystr) (entry : A -> option (list pystr))
    (records : list A) : option (list pystr) :=
  if nonempty records then
    entries ← mapM entry records;
    Some ((LF :: heading) :: List.concat entries)
  else Some [].

Definition generate_markdown_export (data : ExportBundle) : option pystr :=
  chars ← md_section (u "## Characters") md_character (characters data);
  arcs ← md_section (u "## Story Arcs") md_arc (story_arcs data);
  ms ← md_section (u "## Story Milestones") md_milestone
         (sorted_by ms_chapter (milestones data));
  scenes ← md_section (u "## Dialogue Scenes") md_scene (dialogue_scenes data);
  Some (join [LF] (md_title data ++ chars ++ arcs ++ ms ++ scenes)).

(** *** generate_csv_summary and export_script_format *)

Section Platform.

Variable linesep : pystr.

(** [DataFrame.to_csv]: the cells of the integer column are written as
    [str] writes them. *)
Definition to_csv (columns : pystr * pystr) (rows : list (pystr * Z))
    : option pystr :=
  lines ← mapM (fun r =>
                  count ← str (snd r);
                  Some (fst r ++ u "," ++ count ++ linesep))
               rows;
  Some ((fst columns ++ u "," ++ snd columns ++ linesep) ++ List.concat lines).

Definition generate_csv_summary (data : ExportBundle) : option pystr :=
  rows ← summary_data data;
  to_csv (u "Metric", u "Count") rows.

Definition export_script_format (now : pystr)
    (concept : pystr) (cs : list Character) (arcs : list StoryArc)
    (ms : list Milestone) (scenes : list DialogueScene)
    (format_type : pystr) : option pystr :=
  let export_data :=
    {| story_concept := concept; characters := cs; story_arcs := arcs;
       milestones := ms; dialogue_scenes := scenes; export_date := now |} in
  if str_eqb format_type (u "JSON") then
    dumps (json_of_bundle export_data)
  else if str_eqb format_type (u "Markdown") then
    generate_markdown_export export_data
  else if str_eqb format_type (u "CSV Summary") then
    generate_csv_summary export_data
  else
    dumps (json_of_bundle export_data).

End Platform.

(** *** analyze_story_structure *)

Definition gap_message (a b : Z) : option pystr :=
  first ← str a;
  second ← str b;
  Some (u "Large gap between chapters " ++ first ++ u " and " ++ second).

Definition pacing_step (milestone_chapters : list Z)
    (acc : option (list pystr)) (i : nat) : option (list pystr) :=
  out ← acc;
  a ← milestone_chapters !! i;
  b ← milestone_chapters !! S i;
  let gap := b - a in
  if 3 <? gap then
    message ← gap_message a b;
    Some (out ++ [message])
  else Some out.

Definition pacing_loop (milestone_chapters : list Z) : option (list pystr) :=
  fold_left (pacing_step milestone_chapters)
            (seq 0 (length milestone_chapters - 1)) (Some []).

Definition analyze_story_structure
    (cs : list Character) (arcs : list StoryArc) (ms : list Milestone)
    : option Analysis :=
  let roles := fold_left count_role cs ∅ in
  length_estimate ←
    (if nonempty ms then py_max (List.map ms_chapter ms)
     else if nonempty arcs then py_max (List.map arc_end_chapter arcs)
     else Some 0);
  pacing ←
    (if nonempty ms
     then pacing_loop (sort_ints (List.map ms_chapter ms))
     else Some []);
  Some {| character_count := len cs;
          arc_count := len arcs;
          milestone_count := len ms;
          estimated_length := length_estimate;
          character_roles := roles;
          pacing_analysis := pacing |}.

End Limit.
(** ** process_data on cells whose arithmetic can raise

    pandas applies [+], [-], [/ 2] and [abs] to a column cell by cell, and
    the statement raises when the operation raises on one of the cells, as
    [/ 2] does on a text ([TypeError]).  In this module the four operations
    on cells can fail, and [process_data] fails when a statement of it
    does.  The labels of a frame are taken to differ from each other: with
    a label that occurs twice [df[col]] is not a column but a frame, which
    the model does not follow. *)
Module Cells.

Section Frames.

Variable cell : Type.
Variables (add sub : cell -> cell -> option cell).
Variables (halve absolute : cell -> option cell).

Definition series_add (a b : list cell) : option (list cell) :=
  mapM (fun p => add (fst p) (snd p)) (zip a b).
Definition series_sub (a b : list cell) : option (list cell) :=
  mapM (fun p => sub (fst p) (snd p)) (zip a b).
Definition series_halve (a : list cell) : option (list cell) := mapM halve a.
Definition series_abs (a : list cell) : option (list cell) :=
  mapM absolute a.

Definition process_data (df : DataFrame cell) : option (DataFrame cell) :=
  let processed := df in
  if has_column (u "value_a") processed && has_column (u "value_b") processed
  then
    a ← frame_get processed (u "value_a");
    b ← frame_get processed (u "value_b");
    total ← series_add a b;
    let processed := frame_set processed (u "sum") total in
    a ← frame_get processed (u "value_a");
    b ← frame_get processed (u "value_b");
    total ← series_add a b;
    mean ← series_halve total;
    let processed := frame_set processed (u "mean") mean in
    a ← frame_get processed (u "value_a");
    b ← frame_get processed (u "value_b");
    difference ← series_sub a b;
    abs_diff ← series_abs difference;
    let processed := frame_set processed (u "abs_diff") abs_diff in
    Some processed
  else Some processed.

End Frames.

Arguments series_add {cell} add a b.
Arguments series_sub {cell} sub a b.
Arguments series_halve {cell} halve a.
Arguments series_abs {cell} absolute a.
Arguments process_data {cell} add sub halve absolute df.

End Cells.

(** ** Notions used to state the properties *)

(** Order of two records by their sort key. *)
Definition key_le {A} (key : A -> Z) (a b : A) : Prop := key a <= key b.

(** The adjacent pairs of a list, left to right. *)
Definition adjacent_pairs (l : list Z) : list (Z * Z) := combine l (tl l).

(** The pairs further apart than three chapters. *)
Definition wide (p : Z * Z) : bool := 3 <? snd p - fst p.

(** The message for one pair. *)
Definition gap_text (p : Z * Z) : pystr := gap_message (fst p) (snd p).

(** An arc covers the chapters from its start to its end, both included. *)
Definition covers (a : StoryArc) (c : Z) : Prop :=
  arc_start_chapter a <= c <= arc_end_chapter a.

(** A bundle whose only milestone sits at chapter -5. *)
Definition negative_bundle : ExportBundle :=
  {| story_concept := u "A prologue told backwards";
     characters := [];
     story_arcs := [];
     milestones :=
       [create_milestone (u "2024-01-01T00:00:00") (u "Prologue")
          (u "Before the story") (-5) (u "Plot Point") (u "Low") None];
     dialogue_scenes := [];
     export_date := u "2024-01-02T00:00:00" |}.

(** The end-to-end example: Ava and the Reveal. *)
Definition ava : Character :=
  create_character (u "2024-01-01T00:00:00") (u "Ava") (u "Main Character") 17
    (u "curious") (u "grew up by the sea") (u "find her brother").

Definition reveal : Milestone :=
  create_milestone (u "2024-01-01T00:00:01") (u "Reveal") (u "The truth comes out")
    5 (u "Plot Point") (u "High") None.

(** ** What a decoded export is compared with *)

(** A Unicode code point. *)
Definition is_code_point (c : N) : bool := (c <? 1114112)%N.

(** Every string inside [v] is a sequence of code points. *)
Fixpoint well_formed (v : json) : bool :=
  match v with
  | JNull | JInt _ => true
  | JStr s => forallb is_code_point s
  | JArr items => forallb well_formed items
  | JObj members =>
      forallb (fun kv => forallb is_code_point (fst kv) && well_formed (snd kv))
              members
  end.

(** The text that comes back from a decoder that joins every high surrogate
    followed by a low surrogate into the code point they encode. *)
Fixpoint join_surrogates (s : pystr) : pystr :=
  match s with
  | [] => []
  | c :: r =>
      match r with
      | [] => [c]
      | l :: r' =>
          if is_high_surrogate c && is_low_surrogate l
          then join_pair c l :: join_surrogates r'
          else c :: join_surrogates r
      end
  end.

(** No high surrogate is immediately followed by a low surrogate. *)
Fixpoint surrogate_pair_free (s : pystr) : bool :=
  match s with
  | [] => true
  | c :: r =>
      match r with
      | [] => true
      | l :: _ =>
          negb (is_high_surrogate c && is_low_surrogate l)
          && surrogate_pair_free r
      end
  end.

Fixpoint decoded (v : json) : json :=
  match v with
  | JNull => JNull
  | JInt z => JInt z
  | JStr s => JStr (join_surrogates s)
  | JArr items => JArr (List.map decoded items)
  | JObj members =>
      JObj (List.map (fun kv => (join_surrogates (fst kv), decoded (snd kv)))
                     members)
  end.

(** One more decoded code point in front of a scan result. *)
Definition cons_text (c : N) (r : option (pystr * pystr))
    : option (pystr * pystr) :=
  match r with
  | Some (text, rest) => Some (c :: text, rest)
  | None => None
  end.

(** The text ahead does not start with the escape of a low surrogate (and
    a backslash-u ahead is followed by four hexadecimal digits). *)
Definition no_low_ahead (tail : pystr) : Prop :=
  match tail with
  | bs :: uu :: r =>
      if ((bs =? 92) && (uu =? 117))%N then
        match r with
        | x1 :: x2 :: x3 :: x4 :: _ =>
            match decode_hex4 x1 x2 x3 x4 with
            | Some uni2 => is_low_surrogate uni2 = false
            | None => False
            end
        | _ => False
        end
      else True
  | _ => True
  end.

(** What follows a value in an encoded document: nothing, a comma or a line
    break. *)
Definition ends_value (rest : pystr) : Prop :=
  match rest with
  | [] => True
  | c :: _ => c = 44%N \/ c = 10%N
  end.

(** The first character of an encoded value: a quote, a brace, a bracket,
    the n of null, a minus sign or a digit. *)
Definition starts_value (c : N) : Prop :=
  c = 34%N \/ c = 123%N \/ c = 91%N \/ c = 110%N \/ c = 45%N
  \/ is_digit c = true.

(** One member of an encoded object, as [dumps_at] writes it. *)
Definition member_text (level : nat) (kv : pystr * json) : pystr :=
  encode_basestring_ascii (fst kv) ++ u ": " ++ dumps_at (S level) (snd kv).

(** Decoding the encoding of [v] gives [decoded v], whatever follows. *)
Definition round_trips (v : json) : Prop :=
  well_formed v = true ->
  forall (level : nat) (rest : pystr) (fuel : nat),
    ends_value rest ->
    (length (dumps_at level v) <= fuel)%nat ->
    scan_once fuel (dumps_at level v ++ rest) = Some (decoded v, rest).

(** ** Notions used to state the further properties *)

(** The characters that have a given role. *)
Definition with_role (role : pystr) (cs : list Character) : list Character :=
  List.filter (fun c => bool_decide (char_role c = role)) cs.

(** The sum of the counts of a role distribution. *)
Definition total_count (roles : gmap pystr Z) : Z :=
  map_fold (fun _ n total => n + total) 0 roles.

(** A line feed or a printable ASCII character. *)
Definition is_plain (c : N) : bool :=
  ((c =? 10) || ((32 <=? c) && (c <=? 126)))%N.

(** No string inside [v], keys included, holds a high surrogate immediately
    followed by a low surrogate. *)
Fixpoint pair_free (v : json) : bool :=
  match v with
  | JNull | JInt _ => true
  | JStr s => surrogate_pair_free s
  | JArr items => forallb pair_free items
  | JObj members =>
      forallb (fun kv => surrogate_pair_free (fst kv) && pair_free (snd kv))
              members
  end.

(** The bundle that [export_script_format] builds from its arguments. *)
Definition bundle_of (now concept : pystr) (cs : list Character)
    (arcs : list StoryArc) (ms : list Milestone) (scenes : list DialogueScene)
    : ExportBundle :=
  {| story_concept := concept; characters := cs; story_arcs := arcs;
     milestones := ms; dialogue_scenes := scenes; export_date := now |}.

(** A frame over the integers with the two value columns and one more. *)
Definition sample_frame : DataFrame Z :=
  [ (u "value_a", [3; -1]); (u "value_b", [5; 4]); (u "weight", [1; 1]) ].

(** The genres of the concept page with their keywords. *)
Definition genre_keywords : list (pystr * list pystr) :=
  [ (u "Romance", [u "love"; u "romance"; u "heart"]);
    (u "Mystery", [u "mystery"; u "detective"; u "crime"]);
    (u "Fantasy", [u "magic"; u "fantasy"; u "dragon"]);
    (u "Slice of Life", [u "school"; u "student"; u "class"]) ].

(** [word] occurs in [text] as a run of consecutive characters. *)
Definition occurs_in (word text : pystr) : Prop :=
  exists before after : pystr, text = before ++ word ++ after.

(** A session with one character, one arc, two milestones stored against
    their chapter order, and one scene. *)
Definition sample_session : Session :=
  add_scene (u "Meeting") 1 [u "Ava"] (u "Hello") [u "Wave"; []]
    (submit_milestone [] (u "Reveal") [] 5 (u "Plot Point") (u "High")
       (u "None")
       (submit_milestone [] (u "Finale") [] 9 (u "Plot Point") (u "Critical")
          (u "Main")
          (submit_arc [] (u "Main") [] 1 5 [] [u "Ava"]
             (submit_character [] (u "Ava") (u "Main Character") 18 [] [] []
                initial_session)))).

(** A session in which the same milestone was added twice. *)
Definition repeated_session : Session :=
  submit_milestone [] (u "Reveal") [] 5 (u "Plot Point") (u "High") (u "None")
    (submit_milestone [] (u "Reveal") [] 5 (u "Plot Point") (u "High")
       (u "None") initial_session).

(** Cells that hold a whole number or a text, with the arithmetic of
    Python: [+] adds numbers and joins texts; [-], [/ 2] and [abs] are
    defined on numbers only.  The sample frames below halve even numbers
    only, where the half is a whole number again. *)
Inductive mixed_cell :=
| Number (z : Z)
| Text (s : pystr).

Definition mixed_add (x y : mixed_cell) : option mixed_cell :=
  match x, y with
  | Number a, Number b => Some (Number (a + b))
  | Text s, Text t => Some (Text (s ++ t))
  | _, _ => None
  end.

Definition mixed_sub (x y : mixed_cell) : option mixed_cell :=
  match x, y with
  | Number a, Number b => Some (Number (a - b))
  | _, _ => None
  end.

Definition mixed_halve (x : mixed_cell) : option mixed_cell :=
  match x with
  | Number a => Some (Number (a / 2))
  | Text _ => None
  end.

Definition mixed_abs (x : mixed_cell) : option mixed_cell :=
  match x with
  | Number a => Some (Number (Z.abs a))
  | Text _ => None
  end.

(** A frame of numbers and a frame with texts in its value columns. *)
Definition number_frame : DataFrame mixed_cell :=
  [ (u "value_a", [Number 3; Number (-1)]);
    (u "value_b", [Number 5; Number 5]);
    (u "weight", [Number 1; Number 1]) ].

Definition text_frame : DataFrame mixed_cell :=
  [ (u "value_a", [Text (u "x")]); (u "value_b", [Text (u "y")]) ].

(** ** Which integers can be written *)

(** Every integer inside [v] has at most 4300 digits. *)
Fixpoint ints_fit (v : json) : bool :=
  match v with
  | JNull | JStr _ => true
  | JInt z => Limit.fits z
  | JArr items => forallb ints_fit items
  | JObj members => forallb (fun kv => ints_fit (snd kv)) members
  end.

(** The integers of the records. *)
Definition character_fits (c : Character) : bool := Limit.fits (char_age c).

Definition arc_fits (a : StoryArc) : bool :=
  Limit.fits (arc_start_chapter a) && Limit.fits (arc_end_chapter a).

Definition milestone_fits (m : Milestone) : bool := Limit.fits (ms_chapter m).

Definition scene_fits (s : DialogueScene) : bool :=
  Limit.fits (scene_chapter s).

(** Every age and every chapter of the bundle has at most 4300 digits. *)
Definition bundle_fits (data : ExportBundle) : bool :=
  forallb character_fits (characters data)
  && forallb arc_fits (story_arcs data)
  && forallb milestone_fits (milestones data)
  && forallb scene_fits (dialogue_scenes data).

(** The numbers [i], [i + 1], ... of the response options. *)
Fixpoint numbers_fit (i : Z) (branches : list pystr) : bool :=
  match branches with
  | [] => true
  | _ :: r => Limit.fits i && numbers_fit (i + 1) r
  end.

(** The integers that the Markdown export writes: ages, chapters and the
    numbers of the response options. *)
Definition markdown_fits (data : ExportBundle) : bool :=
  forallb character_fits (characters data)
  && forallb arc_fits (story_arcs data)
  && forallb milestone_fits (milestones data)
  && forallb (fun s => scene_fits s && numbers_fit 1 (scene_branches s))
             (dialogue_scenes data).

(** The integers that the CSV summary writes: the seven counts. *)
Definition csv_fits (data : ExportBundle) : bool :=
  match summary_data data with
  | Some rows => forallb (fun r => Limit.fits (snd r)) rows
  | None => false
  end.

(** The integers that an export in the given format writes. *)
Definition export_fits (format_type : pystr) (data : ExportBundle) : bool :=
  if str_eqb format_type (u "Markdown") then markdown_fits data
  else if str_eqb format_type (u "CSV Summary") then csv_fits data
  else bundle_fits data.

(** The chapters named by the pacing messages. *)
Definition pacing_fits (ms : list Milestone) : bool :=
  forallb (fun p => Limit.fits (fst p) && Limit.fits (snd p))
          (List.filter wide
             (adjacent_pairs (sort_ints (List.map ms_chapter ms)))).

(** A milestone whose chapter has 4301 digits. *)
Definition far_milestone : Milestone :=
  create_milestone (u "2024-01-01T00:00:02") (u "Epilogue")
    (u "Long after the story") (10 ^ 4300) (u "Plot Point") (u "Low") None.

(** ** The text of the Markdown export *)

(** The bundle without its milestones, and without its scenes. *)
Definition without_milestones (data : ExportBundle) : ExportBundle :=
  {| story_concept := story_concept data; characters := characters data;
     story_arcs := story_arcs data; milestones := [];
     dialogue_scenes := dialogue_scenes data;
     export_date := export_date data |}.

Definition without_scenes (data : ExportBundle) : ExportBundle :=
  {| story_concept := story_concept data; characters := characters data;
     story_arcs := story_arcs data; milestones := milestones data;
     dialogue_scenes := []; export_date := export_date data |}.

(** The text of one milestone in the export: a blank line, the heading
    with chapter and name, then type, impact and description on a line
    each, and the related arc on one more line when there is one. *)
Definition milestone_entry (m : Milestone) : pystr :=
  [LF; LF] ++ u "### Chapter " ++ str_of_Z (ms_chapter m) ++ u ": " ++ ms_name m
  ++ [LF] ++ u "**Type:** " ++ ms_type m
  ++ [LF] ++ u "**Impact:** " ++ ms_impact m
  ++ [LF] ++ u "**Description:** " ++ ms_description m
  ++ match ms_related_arc m with
     | Some (c :: arc) => [LF] ++ u "**Related Arc:** " ++ c :: arc
     | _ => []
     end.

(** The text of one response option: a line break, the number of the
    option, counted from 1, and the branch. *)
Definition option_entry (k : nat) (branch : pystr) : pystr :=
  [LF] ++ str_of_Z (Z.of_nat k + 1) ++ u ". " ++ branch.

(** The text of one dialogue scene in the export. *)
Definition scene_entry (s : DialogueScene) : pystr :=
  [LF; LF] ++ u "### " ++ scene_name s ++ u " (Chapter "
  ++ str_of_Z (scene_chapter s) ++ u ")"
  ++ [LF] ++ u "**Characters:** " ++ join (u ", ") (scene_characters s)
  ++ [LF] ++ u "**Dialogue:** " ++ scene_dialogue s
  ++ match scene_branches s with
     | [] => []
     | branches =>
         [LF] ++ u "**Response Options:**"
         ++ List.concat (imap option_entry branches)
     end.

(** ** The functions over a store of Python objects

    The functions above compute on values.  Python passes references: the
    four lists handed to a function are the caller's own list objects, each
    record in them is a dict object, and [list.sort], [list.append],
    [set.update] and item assignment change an object in place, for everyone
    who holds a reference to it.  Module [Heap] models the objects and the
    operations on them, module [Store] embeds the same functions over that
    store, so that which object every operation touches is part of the
    model. *)

Module Heap.

Definition loc := positive.

Inductive val :=
| VNone
| VInt (z : Z)
| VStr (s : pystr)
| VRef (l : loc).

Inductive pyobj :=
| OList (items : list val)
| ODict (entries : list (pystr * val))
| OSet (elems : gset Z).

Abbreviation heap := (gmap loc pyobj).

(** A computation reads and updates the store; [None] is a raised
    exception. *)
Definition M (A : Type) : Type := heap -> option (A * heap).

#[global] Instance M_ret : MRet M := fun A x h => Some (x, h).

#[global] Instance M_bind : MBind M :=
  fun A B f m h =>
    match m h with
    | Some (x, h') => f x h'
    | None => None
    end.

Definition fail {A} : M A := fun _ => None.

Definition lift {A} (o : option A) : M A :=
  fun h => match o with Some x => Some (x, h) | None => None end.

(** A new object, at an address not in use. *)
Definition alloc (o : pyobj) : M loc :=
  fun h => let l := fresh (dom h) in Some (l, <[l := o]> h).

Definition load (l : loc) : M pyobj :=
  fun h => match h !! l with Some o => Some (o, h) | None => None end.

(** In-place update of the object at [l]. *)
Definition store (l : loc) (o : pyobj) : M unit :=
  fun h => match h !! l with Some _ => Some (tt, <[l := o]> h) | None => None end.

(** [for x in xs: body(x)] over the items read from a list. *)
Fixpoint for_ {A} (xs : list A) (body : A -> M unit) : M unit :=
  match xs with
  | [] => mret tt
  | x :: rest => body x ;; for_ rest body
  end.

Fixpoint mapM {A B} (f : A -> M B) (xs : list A) : M (list B) :=
  match xs with
  | [] => mret []
  | x :: rest => y ← f x; ys ← mapM f rest; mret (y :: ys)
  end.

(** *** Values *)

Definition as_int (v : val) : M Z :=
  match v with VInt z => mret z | _ => fail end.

Definition as_str (v : val) : M pystr :=
  match v with VStr s => mret s | _ => fail end.

Definition as_opt_str (v : val) : M (option pystr) :=
  match v with
  | VNone => mret None
  | VStr s => mret (Some s)
  | _ => fail
  end.

(** *** Lists *)

Definition load_list (lst : val) : M (list val) :=
  match lst with
  | VRef l =>
      o ← load l;
      match o with OList items => mret items | _ => fail end
  | _ => fail
  end.

(** A list display or a comprehension: a new list object. *)
Definition list_new (items : list val) : M val :=
  l ← alloc (OList items); mret (VRef l).

(** [lst.append(x)] *)
Definition list_append (lst : val) (x : val) : M unit :=
  match lst with
  | VRef l => items ← load_list lst; store l (OList (items ++ [x]))
  | _ => fail
  end.

(** Several [append]s in a row. *)
Definition extend (lst : val) (lines : list pystr) : M unit :=
  for_ lines (fun s => list_append lst (VStr s)).

(** [len(lst)] *)
Definition list_len (lst : val) : M Z :=
  items ← load_list lst; mret (len items).

(** [lst[i]] *)
Definition list_getitem (lst : val) (i : nat) : M val :=
  items ← load_list lst; lift (items !! i).

(** [a + b]: a new list. *)
Definition list_concat (a b : val) : M val :=
  xs ← load_list a; ys ← load_list b; list_new (xs ++ ys).

Definition ints (lst : val) : M (list Z) :=
  items ← load_list lst; mapM as_int items.

Definition strs (lst : val) : M (list pystr) :=
  items ← load_list lst; mapM as_str items.

(** [lst.sort()] on integers: the same object, reordered. *)
Definition list_sort (lst : val) : M unit :=
  match lst with
  | VRef l => zs ← ints lst; store l (OList (List.map VInt (sort_ints zs)))
  | _ => fail
  end.

(** [sorted(lst, key=key)]: a new list holding the same items. *)
Definition sorted_key (lst : val) (key : val -> M Z) : M val :=
  items ← load_list lst;
  keyed ← mapM (fun x => k ← key x; mret (k, x)) items;
  list_new (List.map snd (sorted_by fst keyed)).

(** [[x for x in lst if test(x)]]: a new list holding the items kept. *)
Definition filter_by (lst : val) (test : val -> M bool) : M val :=
  items ← load_list lst;
  flags ← mapM test items;
  list_new (List.map fst (List.filter snd (combine items flags))).

(** *** Dicts *)

Fixpoint dict_lookup (key : pystr) (entries : list (pystr * val)) : option val :=
  match entries with
  | [] => None
  | (k, v) :: rest => if str_eqb k key then Some v else dict_lookup key rest
  end.

Fixpoint dict_set (key : pystr) (x : val) (entries : list (pystr * val))
    : list (pystr * val) :=
  match entries with
  | [] => [(key, x)]
  | (k, v) :: rest =>
      if str_eqb k key then (k, x) :: rest else (k, v) :: dict_set key x rest
  end.

Definition load_dict (d : val) : M (list (pystr * val)) :=
  match d with
  | VRef l =>
      o ← load l;
      match o with ODict entries => mret entries | _ => fail end
  | _ => fail
  end.

(** A dict display: a new dict object. *)
Definition dict_new (entries : list (pystr * val)) : M val :=
  l ← alloc (ODict entries); mret (VRef l).

(** [d[key]] *)
Definition dict_getitem (d : val) (key : pystr) : M val :=
  entries ← load_dict d; lift (dict_lookup key entries).

(** [d.get(key, dflt)] *)
Definition dict_get_default (d : val) (key : pystr) (dflt : val) : M val :=
  entries ← load_dict d; mret (default dflt (dict_lookup key entries)).

(** [d[key] = x] *)
Definition dict_setitem (d : val) (key : pystr) (x : val) : M unit :=
  match d with
  | VRef l => entries ← load_dict d; store l (ODict (dict_set key x entries))
  | _ => fail
  end.

Definition str_item (d : val) (key : pystr) : M pystr :=
  x ← dict_getitem d key; as_str x.

Definition int_item (d : val) (key : pystr) : M Z :=
  x ← dict_getitem d key; as_int x.

Definition strs_item (d : val) (key : pystr) : M (list pystr) :=
  x ← dict_getitem d key; strs x.

(** *** Sets of integers *)

Definition set_new : M val := l ← alloc (OSet ∅); mret (VRef l).

(** [s.update(zs)] *)
Definition set_update (s : val) (zs : list Z) : M unit :=
  match s with
  | VRef l =>
      o ← load l;
      match o with
      | OSet elems => store l (OSet (elems ∪ list_to_set zs))
      | _ => fail
      end
  | _ => fail
  end.

(** [len(s)] *)
Definition set_len (s : val) : M Z :=
  match s with
  | VRef l =>
      o ← load l;
      match o with OSet elems => mret (Z.of_nat (size elems)) | _ => fail end
  | _ => fail
  end.

(** *** The records, read field by field from their dict objects *)

Definition read_character (c : val) : M Character :=
  name ← str_item c (u "name");
  role ← str_item c (u "role");
  age ← int_item c (u "age");
  personality ← str_item c (u "personality");
  background ← str_item c (u "background");
  goals ← str_item c (u "goals");
  created_at ← str_item c (u "created_at");
  mret {| char_name := name; char_role := role; char_age := age;
          char_personality := personality; char_background := background;
          char_goals := goals; char_created_at := created_at |}.

Definition read_arc (a : val) : M StoryArc :=
  name ← str_item a (u "name");
  description ← str_item a (u "description");
  start_chapter ← int_item a (u "start_chapter");
  end_chapter ← int_item a (u "end_chapter");
  themes ← str_item a (u "themes");
  chars ← strs_item a (u "characters");
  created_at ← str_item a (u "created_at");
  mret {| arc_name := name; arc_description := description;
          arc_start_chapter := start_chapter; arc_end_chapter := end_chapter;
          arc_themes := themes; arc_characters := chars;
          arc_created_at := created_at |}.

Definition read_milestone (m : val) : M Milestone :=
  name ← str_item m (u "name");
  description ← str_item m (u "description");
  chapter ← int_item m (u "chapter");
  type ← str_item m (u "type");
  impact ← str_item m (u "impact");
  related_arc ← (x ← dict_getitem m (u "related_arc"); as_opt_str x);
  created_at ← str_item m (u "created_at");
  mret {| ms_name := name; ms_description := description;
          ms_chapter := chapter; ms_type := type; ms_impact := impact;
          ms_related_arc := related_arc; ms_created_at := created_at |}.

Definition read_scene (s : val) : M DialogueScene :=
  name ← str_item s (u "name");
  chapter ← int_item s (u "chapter");
  chars ← strs_item s (u "characters");
  dialogue ← str_item s (u "dialogue");
  branches ← strs_item s (u "branches");
  mret {| scene_name := name; scene_chapter := chapter;
          scene_characters := chars; scene_dialogue := dialogue;
          scene_branches := branches |}.

(** [data[key]] read as a list of records. *)
Definition records {A} (read : val -> M A) (data : val) (key : pystr)
    : M (list A) :=
  lst ← dict_getitem data key; items ← load_list lst; mapM read items.



(** *** How the store represents the inputs *)

Definition dict_of_character (c : Character) : list (pystr * val) :=
  [ (u "name", VStr (char_name c));
    (u "role", VStr (char_role c));
    (u "age", VInt (char_age c));
    (u "personality", VStr (char_personality c));
    (u "background", VStr (char_background c));
    (u "goals", VStr (char_goals c));
    (u "created_at", VStr (char_created_at c)) ].

Definition dict_of_arc (chars : val) (a : StoryArc) : list (pystr * val) :=
  [ (u "name", VStr (arc_name a));
    (u "description", VStr (arc_description a));
    (u "start_chapter", VInt (arc_start_chapter a));
    (u "end_chapter", VInt (arc_end_chapter a));
    (u "themes", VStr (arc_themes a));
    (u "characters", chars);
    (u "created_at", VStr (arc_created_at a)) ].

Definition dict_of_milestone (m : Milestone) : list (pystr * val) :=
  [ (u "name", VStr (ms_name m));
    (u "description", VStr (ms_description m));
    (u "chapter", VInt (ms_chapter m));
    (u "type", VStr (ms_type m));
    (u "impact", VStr (ms_impact m));
    (u "related_arc",
       match ms_related_arc m with Some a => VStr a | None => VNone end);
    (u "created_at", VStr (ms_created_at m)) ].

Definition dict_of_scene (chars branches : val) (s : DialogueScene)
    : list (pystr * val) :=
  [ (u "name", VStr (scene_name s));
    (u "chapter", VInt (scene_chapter s));
    (u "characters", chars);
    (u "dialogue", VStr (scene_dialogue s));
    (u "branches", branches) ].

(** [v] refers to a list object holding the strings [ss]. *)
Definition is_strs (h : heap) (v : val) (ss : list pystr) : Prop :=
  exists l, v = VRef l /\ h !! l = Some (OList (List.map VStr ss)).

(** [v] refers to the dict object of a record. *)
Definition is_character (h : heap) (v : val) (c : Character) : Prop :=
  exists l, v = VRef l /\ h !! l = Some (ODict (dict_of_character c)).

Definition is_arc (h : heap) (v : val) (a : StoryArc) : Prop :=
  exists l chars,
    v = VRef l /\ h !! l = Some (ODict (dict_of_arc chars a))
    /\ is_strs h chars (arc_characters a).

Definition is_milestone (h : heap) (v : val) (m : Milestone) : Prop :=
  exists l, v = VRef l /\ h !! l = Some (ODict (dict_of_milestone m)).

Definition is_scene (h : heap) (v : val) (s : DialogueScene) : Prop :=
  exists l chars branches,
    v = VRef l /\ h !! l = Some (ODict (dict_of_scene chars branches s))
    /\ is_strs h chars (scene_characters s)
    /\ is_strs h branches (scene_branches s).

(** [v] refers to a list object whose items represent [xs], in order. *)
Definition is_list {A} (R : heap -> val -> A -> Prop)
    (h : heap) (v : val) (xs : list A) : Prop :=
  exists l items,
    v = VRef l /\ h !! l = Some (OList items) /\ Forall2 (R h) items xs.

(** [m] run in [h] returns, with a result and a store satisfying [Q]. *)
Definition wp {A} (m : M A) (h : heap) (Q : A -> heap -> Prop) : Prop :=
  match m h with
  | Some (x, h') => Q x h'
  | None => False
  end.

(** A computation that only reads: it returns [x] and leaves the store as
    it is. *)
Definition reads {A} (m : M A) (h : heap) (x : A) : Prop := m h = Some (x, h).
(** The entries of a dict stand for the map [m] from roles to counts. *)
Definition roles_rep (entries : list (pystr * val)) (m : gmap pystr Z) : Prop :=
  forall role, dict_lookup role entries = VInt <$> (m !! role).

(** [v] refers to the dict that [analyze_story_structure] returns. *)
Definition is_analysis (h : heap) (v : val) (a : Analysis) : Prop :=
  exists l roles pacing entries,
    v = VRef l
    /\ h !! l
       = Some (ODict [ (u "character_count", VInt (character_count a));
                       (u "arc_count", VInt (arc_count a));
                       (u "milestone_count", VInt (milestone_count a));
                       (u "estimated_length", VInt (estimated_length a));
                       (u "character_roles", VRef roles);
                       (u "pacing_analysis", VRef pacing) ])
    /\ h !! roles = Some (ODict entries)
    /\ roles_rep entries (character_roles a)
    /\ h !! pacing = Some (OList (List.map VStr (pacing_analysis a))).

(** [v] refers to the [export_data] dict of the bundle [d]. *)
Definition is_bundle (h : heap) (v : val) (d : ExportBundle) : Prop :=
  exists l vc va vm vs,
    v = VRef l
    /\ h !! l
       = Some (ODict [ (u "story_concept", VStr (story_concept d));
                       (u "characters", vc);
                       (u "story_arcs", va);
                       (u "milestones", vm);
                       (u "dialogue_scenes", vs);
                       (u "export_date", VStr (export_date d)) ])
    /\ is_list is_character h vc (characters d)
    /\ is_list is_arc h va (story_arcs d)
    /\ is_list is_milestone h vm (milestones d)
    /\ is_list is_scene h vs (dialogue_scenes d).

(** Every object of the store [h] is still there in [h'], at the same
    address and with the same content. *)
Definition unchanged (h h' : heap) : Prop :=
  forall l o, h !! l = Some o -> h' !! l = Some o.

(** A store holding Ava and the Reveal: the four input lists at addresses
    1 to 4, the two records at 10 and 20. *)
Definition example_store : heap :=
  <[1%positive := OList [VRef 10%positive]]>
  (<[2%positive := OList []]>
  (<[3%positive := OList [VRef 20%positive]]>
  (<[4%positive := OList []]>
  (<[10%positive := ODict (dict_of_character ava)]>
  (<[20%positive := ODict (dict_of_milestone reveal)]> ∅))))).

End Heap.

Module Store.
Import Heap.

(** *** generate_markdown_export *)

Definition generate_markdown_export (data : val) : M pystr :=
  md_content ← list_new [];
  list_append md_content (VStr (u "# Visual Novel Script"));;
  date ← str_item data (u "export_date");
  list_append md_content (VStr (LF :: u "**Export Date:** " ++ date));;
  list_append md_content (VStr (LF :: u "## Story Concept"));;
  concept ← str_item data (u "story_concept");
  list_append md_content (VStr (LF :: concept));;
  (chars ← dict_getitem data (u "characters");
   items ← load_list chars;
   if nonempty items then
     list_append md_content (VStr (LF :: u "## Characters"));;
     for_ items (fun char =>
       c ← read_character char; extend md_content (md_character c))
   else mret tt);;
  (arcs ← dict_getitem data (u "story_arcs");
   items ← load_list arcs;
   if nonempty items then
     list_append md_content (VStr (LF :: u "## Story Arcs"));;
     for_ items (fun arc =>
       a ← read_arc arc; extend md_content (md_arc a))
   else mret tt);;
  (milestones ← dict_getitem data (u "milestones");
   items ← load_list milestones;
   if nonempty items then
     list_append md_content (VStr (LF :: u "## Story Milestones"));;
     sorted_milestones ←
       sorted_key milestones (fun x => int_item x (u "chapter"));
     items ← load_list sorted_milestones;
     for_ items (fun milestone =>
       m ← read_milestone milestone; extend md_content (md_milestone m))
   else mret tt);;
  (scenes ← dict_getitem data (u "dialogue_scenes");
   items ← load_list scenes;
   if nonempty items then
     list_append md_content (VStr (LF :: u "## Dialogue Scenes"));;
     for_ items (fun scene =>
       s ← read_scene scene; extend md_content (md_scene s))
   else mret tt);;
  lines ← strs md_content;
  mret (join [LF] lines).

(** *** generate_csv_summary *)

Definition role_is (role : pystr) (c : val) : M bool :=
  r ← str_item c (u "role"); mret (str_eqb r role).

Definition role_not_in (roles : list pystr) (c : val) : M bool :=
  r ← str_item c (u "role"); mret (negb (existsb (str_eqb r) roles)).

Section Platform.

Variable linesep : pystr.

Definition generate_csv_summary (data : val) : M pystr :=
  n_characters ← (lst ← dict_getitem data (u "characters"); list_len lst);
  n_arcs ← (lst ← dict_getitem data (u "story_arcs"); list_len lst);
  n_milestones ← (lst ← dict_getitem data (u "milestones"); list_len lst);
  n_scenes ← (lst ← dict_getitem data (u "dialogue_scenes"); list_len lst);
  chapters ←
    (milestones ← dict_getitem data (u "milestones");
     items ← load_list milestones;
     if nonempty items then
       cs ← mapM (fun m => int_item m (u "chapter")) items;
       listed ← list_new (List.map VInt cs);
       zero ← list_new [VInt 0];
       both ← list_concat listed zero;
       zs ← ints both;
       lift (py_max zs)
     else mret 0);
  n_main ←
    (chars ← dict_getitem data (u "characters");
     kept ← filter_by chars (role_is (u "Main Character"));
     list_len kept);
  n_supporting ←
    (chars ← dict_getitem data (u "characters");
     kept ← filter_by chars
              (role_not_in [u "Main Character"; u "Love Interest"]);
     list_len kept);
  metric ← list_new [ VStr (u "Total Characters");
                      VStr (u "Total Story Arcs");
                      VStr (u "Total Milestones");
                      VStr (u "Total Dialogue Scenes");
                      VStr (u "Estimated Chapters");
                      VStr (u "Main Characters");
                      VStr (u "Supporting Characters") ];
  count ← list_new [ VInt n_characters; VInt n_arcs; VInt n_milestones;
                     VInt n_scenes; VInt chapters; VInt n_main;
                     VInt n_supporting ];
  summary_data ← dict_new [(u "Metric", metric); (u "Count", count)];
  labels ← strs_item summary_data (u "Metric");
  counts ← (lst ← dict_getitem summary_data (u "Count"); ints lst);
  mret (to_csv linesep (u "Metric", u "Count") (combine labels counts)).

(** [json.dumps(data, indent=2)]: the encoder walks the dict, the four
    lists and their records. *)
Definition json_dumps (data : val) : M pystr :=
  concept ← str_item data (u "story_concept");
  cs ← records read_character data (u "characters");
  arcs ← records read_arc data (u "story_arcs");
  ms ← records read_milestone data (u "milestones");
  scenes ← records read_scene data (u "dialogue_scenes");
  date ← str_item data (u "export_date");
  mret (dumps (json_of_bundle
                 {| story_concept := concept; characters := cs;
                    story_arcs := arcs; milestones := ms;
                    dialogue_scenes := scenes; export_date := date |})).

Definition export_script_format (now : pystr) (concept : pystr)
    (characters story_arcs milestones dialogue_scenes : val)
    (format_type : pystr) : M pystr :=
  export_data ←
    dict_new [ (u "story_concept", VStr concept);
               (u "characters", characters);
               (u "story_arcs", story_arcs);
               (u "milestones", milestones);
               (u "dialogue_scenes", dialogue_scenes);
               (u "export_date", VStr now) ];
  if str_eqb format_type (u "JSON") then json_dumps export_data
  else if str_eqb format_type (u "Markdown") then
    generate_markdown_export export_data
  else if str_eqb format_type (u "CSV Summary") then
    generate_csv_summary export_data
  else json_dumps export_data.

End Platform.

(** *** analyze_story_structure *)

Definition analyze_story_structure (characters story_arcs milestones : val)
    : M val :=
  n_characters ← list_len characters;
  n_arcs ← list_len story_arcs;
  n_milestones ← list_len milestones;
  roles ← dict_new [];
  pacing ← list_new [];
  analysis ←
    dict_new [ (u "character_count", VInt n_characters);
               (u "arc_count", VInt n_arcs);
               (u "milestone_count", VInt n_milestones);
               (u "estimated_length", VInt 0);
               (u "character_roles", roles);
               (u "pacing_analysis", pacing) ];
  (items ← load_list characters;
   for_ items (fun char =>
     role ← str_item char (u "role");
     character_roles ← dict_getitem analysis (u "character_roles");
     seen ← (x ← dict_get_default character_roles role (VInt 0); as_int x);
     dict_setitem character_roles role (VInt (seen + 1))));;
  ms ← load_list milestones;
  arcs ← load_list story_arcs;
  (if nonempty ms then
     chapters ← mapM (fun m => int_item m (u "chapter")) ms;
     longest ← lift (py_max chapters);
     dict_setitem analysis (u "estimated_length") (VInt longest)
   else if nonempty arcs then
     ends ← mapM (fun arc => int_item arc (u "end_chapter")) arcs;
     longest ← lift (py_max ends);
     dict_setitem analysis (u "estimated_length") (VInt longest)
   else mret tt);;
  (if nonempty ms then
     chapters ← mapM (fun m => int_item m (u "chapter")) ms;
     milestone_chapters ← list_new (List.map VInt chapters);
     list_sort milestone_chapters;;
     n ← list_len milestone_chapters;
     for_ (seq 0 (Z.to_nat (n - 1))) (fun i =>
       a ← (x ← list_getitem milestone_chapters i; as_int x);
       b ← (x ← list_getitem milestone_chapters (S i); as_int x);
       let gap := b - a in
       if 3 <? gap then
         pacing_analysis ← dict_getitem analysis (u "pacing_analysis");
         list_append pacing_analysis (VStr (gap_message a b))
       else mret tt)
   else mret tt);;
  mret analysis.

(** *** validate_story_structure *)

Definition validate_story_structure (characters story_arcs milestones : val)
    : M val :=
  warnings ← list_new [];
  main_chars ← filter_by characters (role_is (u "Main Character"));
  n_main ← list_len main_chars;
  (if n_main =? 0 then list_append warnings (VStr warn_no_main)
   else if 3 <? n_main then list_append warnings (VStr warn_many_main)
   else mret tt);;
  arcs ← load_list story_arcs;
  (if nonempty arcs then
     ends ← mapM (fun arc => int_item arc (u "end_chapter")) arcs;
     total_chapters ← lift (py_max ends);
     covered_chapters ← set_new;
     for_ arcs (fun arc =>
       first ← int_item arc (u "start_chapter");
       last ← int_item arc (u "end_chapter");
       set_update covered_chapters (py_range first (last + 1)));;
     n_covered ← set_len covered_chapters;
     if n_covered <? total_chapters
     then list_append warnings (VStr warn_coverage)
     else mret tt
   else mret tt);;
  ms ← load_list milestones;
  (if nonempty ms && (0 <? len ms) then
     impacts ← mapM (fun m => str_item m (u "impact")) ms;
     milestone_impacts ← list_new (List.map VStr impacts);
     (seen ← strs milestone_impacts;
      if 3 <? count_str (u "Critical") seen
      then list_append warnings (VStr warn_many_critical)
      else mret tt);;
     seen ← strs milestone_impacts;
     if negb (existsb (str_eqb (u "High")) seen)
        && negb (existsb (str_eqb (u "Critical")) seen)
     then list_append warnings (VStr warn_no_high)
     else mret tt
   else mret tt);;
  mret warnings.

End Store.

(** ** The session state as an object of the store *)

Module Pages.
Import Heap.

(** [key in d] *)
Definition dict_contains (d : val) (key : pystr) : M bool :=
  entries ← load_dict d;
  mret (match dict_lookup key entries with Some _ => true | None => false end).

(** [initialize_session_state()]; [session_state] refers to the dict behind
    [st.session_state]. *)
Definition initialize_session_state (session_state : val) : M unit :=
  (present ← dict_contains session_state (u "characters");
   if negb present then
     characters ← list_new [];
     dict_setitem session_state (u "characters") characters
   else mret tt);;
  (present ← dict_contains session_state (u "story_arcs");
   if negb present then
     story_arcs ← list_new [];
     dict_setitem session_state (u "story_arcs") story_arcs
   else mret tt);;
  (present ← dict_contains session_state (u "milestones");
   if negb present then
     milestones ← list_new [];
     dict_setitem session_state (u "milestones") milestones
   else mret tt);;
  (present ← dict_contains session_state (u "dialogue_scenes");
   if negb present then
     dialogue_scenes ← list_new [];
     dict_setitem session_state (u "dialogue_scenes") dialogue_scenes
   else mret tt);;
  (present ← dict_contains session_state (u "story_concept");
   if negb present then dict_setitem session_state (u "story_concept") (VStr [])
   else mret tt).

(** The keys that hold lists, and all the keys. *)
Definition list_keys : list pystr :=
  [u "characters"; u "story_arcs"; u "milestones"; u "dialogue_scenes"].

Definition session_keys : list pystr := list_keys ++ [u "story_concept"].

(** The store and the entries of the session dict at [l] after one of the
    five steps of [initialize_session_state]: nothing changes when the key
    is present; otherwise the key is set, to a new empty list or to the
    empty string. *)
Definition list_step (l : loc) (key : pystr)
    (s : heap * list (pystr * val)) : heap * list (pystr * val) :=
  let '(h, entries) := s in
  match dict_lookup key entries with
  | Some _ => s
  | None =>
      let new := fresh (dom h) in
      let entries' := dict_set key (VRef new) entries in
      (<[l := ODict entries']> (<[new := OList []]> h), entries')
  end.

Definition concept_step (l : loc) (s : heap * list (pystr * val))
    : heap * list (pystr * val) :=
  let '(h, entries) := s in
  match dict_lookup (u "story_concept") entries with
  | Some _ => s
  | None =>
      let entries' := dict_set (u "story_concept") (VStr []) entries in
      (<[l := ODict entries']> h, entries')
  end.

(** What the steps for the keys [done] have made of the store [h0], in
    which the session dict at [l] held [entries0]. *)
Definition initialized (l : loc) (h0 : heap) (entries0 : list (pystr * val))
    (done : list pystr) (s : heap * list (pystr * val)) : Prop :=
  let '(h, entries) := s in
  h !! l = Some (ODict entries)
  /\ (forall l' o, l' <> l -> h0 !! l' = Some o -> h !! l' = Some o)
  /\ (forall key x,
        dict_lookup key entries0 = Some x -> dict_lookup key entries = Some x)
  /\ (forall key,
        ~ In key done -> dict_lookup key entries = dict_lookup key entries0)
  /\ (forall key,
        In key done -> dict_lookup key entries0 = None ->
        exists new,
          dict_lookup key entries = Some (VRef new)
          /\ h0 !! new = None /\ h !! new = Some (OList []))
  /\ (forall k1 k2 new,
        dict_lookup k1 entries0 = None -> dict_lookup k2 entries0 = None ->
        dict_lookup k1 entries = Some (VRef new) ->
        dict_lookup k2 entries = Some (VRef new) -> k1 = k2).

End Pages.

(** * Properties *)

(** ** Maximum and sorting *)

Lemma fold_left_max_ge (l : list Z) (x : Z) :
  x <= fold_left Z.max l x /\ forall y, In y l -> y <= fold_left Z.max l x.
Proof.
  revert x; induction l as [|a l IH]; intros x; simpl.
  - split; [lia | tauto].
  - destruct (IH (Z.max x a)) as [H1 H2]. split; [lia |].
    intros y [<- | Hy]; [lia | auto].
Qed.

Lemma fold_left_max_in (l : list Z) (x : Z) :
  fold_left Z.max l x = x \/ In (fold_left Z.max l x) l.
Proof.
  revert x; induction l as [|a l IH]; intros x; simpl; [now left |].
  destruct (IH (Z.max x a)) as [H | H]; [| now right; right].
  rewrite H. destruct (Z.max_spec x a) as [[_ ->] | [_ ->]]; auto.
Qed.

Lemma py_max_cons (x : Z) (l : list Z) :
  exists m, py_max (x :: l) = Some m /\ is_max m (x :: l).
Proof.
  eexists; split; [reflexivity |]. split.
  - destruct (fold_left_max_in l x) as [-> | H]; [now left | now right].
  - destruct (fold_left_max_ge l x) as [H1 H2].
    intros y [<- | Hy]; [exact H1 | now apply H2].
Qed.

Lemma py_max_nonempty (l : list Z) :
  l <> [] -> exists m, py_max l = Some m /\ is_max m l.
Proof. destruct l; [congruence | intros _; apply py_max_cons]. Qed.

Lemma is_max_unique (l : list Z) (m m' : Z) :
  is_max m l -> is_max m' l -> m = m'.
Proof. intros [H1 H2] [H3 H4]. apply Z.le_antisymm; auto. Qed.

Lemma is_max_app_zero (l : list Z) (m m0 : Z) :
  is_max m l -> is_max m0 (l ++ [0]) -> m0 = Z.max 0 m.
Proof.
  intros [Hin Hle] [Hin0 Hle0].
  assert (m <= m0) by (apply Hle0, in_or_app; now left).
  assert (0 <= m0) by (apply Hle0, in_or_app; right; now left).
  apply in_app_or in Hin0 as [Hin0 | [<- | []]]; [apply Hle in Hin0 |]; lia.
Qed.

Section SortedBy.
Context {A : Type} (key : A -> Z).

Lemma insert_by_perm (x : A) (l : list A) :
  Permutation (insert_by key x l) (x :: l).
Proof.
  induction l as [|y l IH]; simpl; [reflexivity |].
  destruct (key x <=? key y); [reflexivity |].
  rewrite IH. apply perm_swap.
Qed.

Lemma sorted_by_perm (l : list A) : Permutation (sorted_by key l) l.
Proof.
  induction l as [|x l IH]; simpl; [reflexivity |].
  rewrite insert_by_perm. now constructor.
Qed.

Lemma insert_by_sorted (x : A) (l : list A) :
  StronglySorted (key_le key) l ->
  StronglySorted (key_le key) (insert_by key x l).
Proof.
  induction 1 as [|y l Hs IH Hall]; simpl.
  - repeat constructor.
  - destruct (Z.leb_spec (key x) (key y)) as [Hle | Hgt].
    + constructor; [now constructor |].
      constructor; [exact Hle |].
      eapply List.Forall_impl; [| exact Hall].
      unfold key_le; intros; lia.
    + constructor; [exact IH |].
      rewrite (insert_by_perm x l).
      constructor; [unfold key_le; lia | exact Hall].
Qed.

Lemma sorted_by_sorted (l : list A) :
  StronglySorted (key_le key) (sorted_by key l).
Proof.
  induction l; simpl; [constructor | now apply insert_by_sorted].
Qed.

(** Stability: records with the same key keep their input order. *)
Lemma insert_by_same_key (k : Z) (x : A) (l : list A) :
  StronglySorted (key_le key) l ->
  List.filter (fun a => key a =? k) (insert_by key x l)
  = List.filter (fun a => key a =? k) (x :: l).
Proof.
  induction 1 as [|y l Hs IH Hall]; [reflexivity |].
  cbn [insert_by]. destruct (Z.leb_spec (key x) (key y)) as [Hle | Hgt];
    [reflexivity |].
  cbn [List.filter] in *. rewrite IH.
  destruct (Z.eqb_spec (key x) k), (Z.eqb_spec (key y) k); try reflexivity.
  lia.
Qed.

Lemma sorted_by_stable (k : Z) (l : list A) :
  List.filter (fun a => key a =? k) (sorted_by key l)
  = List.filter (fun a => key a =? k) l.
Proof.
  induction l as [|x l IH]; [reflexivity |].
  cbn [sorted_by]. rewrite insert_by_same_key by apply sorted_by_sorted.
  cbn [List.filter]. now rewrite IH.
Qed.
End SortedBy.

(** Two ascending lists with the same elements are the same list. *)
Lemma sorted_perm_unique (l l' : list Z) :
  StronglySorted Z.le l -> StronglySorted Z.le l' -> Permutation l l' -> l = l'.
Proof.
  intros Hl; revert l'; induction Hl as [|x l Hs IH Hall]; intros l' Hl' Hp.
  - now apply Permutation_nil in Hp.
  - destruct Hl' as [|y l' Hs' Hall'];
      [apply Permutation_sym, Permutation_nil in Hp; discriminate |].
    assert (x = y) as <-.
    { rewrite List.Forall_forall in Hall, Hall'.
      assert (In y (x :: l)) as Hy
        by (eapply Permutation_in; [symmetry; exact Hp | now left]).
      assert (In x (y :: l')) as Hx
        by (eapply Permutation_in; [exact Hp | now left]).
      apply Z.le_antisymm.
      - destruct Hy as [-> | Hy]; [lia | now apply Hall].
      - destruct Hx as [-> | Hx]; [lia | now apply Hall']. }
    f_equal. apply IH; [exact Hs' |]. now apply Permutation_cons_inv in Hp.
Qed.

Lemma sorted_map_key {A} (key : A -> Z) (l : list A) :
  StronglySorted (key_le key) l -> StronglySorted Z.le (List.map key l).
Proof.
  induction 1 as [|x l Hs IH Hall]; simpl; constructor; [exact IH |].
  rewrite List.Forall_forall in *. intros k Hk.
  apply in_map_iff in Hk as (a & <- & Ha). now apply Hall.
Qed.

Lemma sort_ints_sorted (l : list Z) : StronglySorted Z.le (sort_ints l).
Proof.
  unfold sort_ints.
  rewrite <- (List.map_id (sorted_by (fun z => z) l)).
  apply (sorted_map_key (fun z => z)), sorted_by_sorted.
Qed.

Lemma sort_ints_perm (l : list Z) : Permutation (sort_ints l) l.
Proof. apply sorted_by_perm. Qed.

(** ** CSV summary *)

Lemma estimated_chapters_spec (ms : list Milestone) :
  exists est, estimated_chapters ms = Some est
    /\ (ms = [] -> est = 0)
    /\ (forall m, is_max m (List.map ms_chapter ms) -> est = Z.max 0 m).
Proof.
  destruct ms as [|x r].
  - exists 0. split; [reflexivity |]. split; [reflexivity |].
    intros m [[] _].
  - unfold estimated_chapters, nonempty.
    destruct (py_max_nonempty (List.map ms_chapter (x :: r) ++ [0]))
      as (m0 & -> & Hm0); [now destruct r |].
    exists m0. split; [reflexivity |]. split; [discriminate |].
    intros m Hm. eapply is_max_app_zero; eassumption.
Qed.

(** C1 (as amended).  [generate_csv_summary], also when reached through
    [export_script_format] with format "CSV Summary", returns the header
    Metric,Count followed by exactly seven rows in the fixed order; the first
    four counts are the list lengths, Main Characters counts the role
    "Main Character", Supporting Characters counts the roles other than
    "Main Character" and "Love Interest", and Estimated Chapters is 0 for an
    empty milestone list and otherwise the larger of 0 and the maximum
    milestone chapter. *)
Theorem csv_summary_rows (linesep now : pystr) (data : ExportBundle) :
  exists est : Z,
    generate_csv_summary linesep data
    = Some (to_csv linesep (u "Metric", u "Count")
              [ (u "Total Characters", len (characters data));
                (u "Total Story Arcs", len (story_arcs data));
                (u "Total Milestones", len (milestones data));
                (u "Total Dialogue Scenes", len (dialogue_scenes data));
                (u "Estimated Chapters", est);
                (u "Main Characters",
                   len (List.filter
                          (fun c => bool_decide (char_role c = u "Main Character"))
                          (characters data)));
                (u "Supporting Characters",
                   len (List.filter
                          (fun c => bool_decide
                                      (char_role c <> u "Main Character"
                                       /\ char_role c <> u "Love Interest"))
                          (characters data))) ])
    /\ (milestones data = [] -> est = 0)
    /\ (forall m, is_max m (List.map ms_chapter (milestones data)) ->
        est = Z.max 0 m)
    /\ export_script_format linesep now (story_concept data) (characters data)
         (story_arcs data) (milestones data) (dialogue_scenes data)
         (u "CSV Summary")
       = generate_csv_summary linesep
           {| story_concept := story_concept data;
              characters := characters data;
              story_arcs := story_arcs data;
              milestones := milestones data;
              dialogue_scenes := dialogue_scenes data;
              export_date := now |}.
Proof.
  destruct (estimated_chapters_spec (milestones data)) as (est & He & H0 & Hm).
  exists est. split; [| split; [exact H0 | split; [exact Hm | reflexivity]]].
  unfold generate_csv_summary, summary_data. rewrite He. cbn [mbind option_bind].
  do 8 f_equal.
  apply (f_equal (fun l => [(u "Supporting Characters", len l)])).
  apply List.filter_ext. intros c. unfold is_supporting, str_eqb.
  cbn [existsb]. repeat case_bool_decide; try reflexivity; tauto.
Qed.

(** C1 with "Estimated Chapters equals the maximum chapter" does not hold:
    with a single milestone at chapter -5 the maximum chapter is -5 but the
    Estimated Chapters row shows 0. *)
Lemma csv_estimated_chapters_negative :
  milestones negative_bundle <> []
  /\ is_max (-5) (List.map ms_chapter (milestones negative_bundle))
  /\ generate_csv_summary [LF] negative_bundle
     = Some (join [LF]
               [ u "Metric,Count";
                 u "Total Characters,0";
                 u "Total Story Arcs,0";
                 u "Total Milestones,1";
                 u "Total Dialogue Scenes,0";
                 u "Estimated Chapters,0";
                 u "Main Characters,0";
                 u "Supporting Characters,0";
                 [] ])
  /\ generate_csv_summary [LF] negative_bundle
     <> Some (join [LF]
               [ u "Metric,Count";
                 u "Total Characters,0";
                 u "Total Story Arcs,0";
                 u "Total Milestones,1";
                 u "Total Dialogue Scenes,0";
                 u "Estimated Chapters,-5";
                 u "Main Characters,0";
                 u "Supporting Characters,0";
                 [] ]).
Proof.
  split; [discriminate |]. split.
  - split; [now left |]. cbn. intros x [<- | []]. lia.
  - split; [vm_compute; reflexivity | vm_compute; discriminate].
Qed.

(** The end-to-end example of the spec: the summary of Ava and the Reveal
    has the rows Main Characters,1 and Estimated Chapters,5. *)
Example csv_summary_ava :
  export_script_format [LF] (u "2024-01-02T00:00:00") (u "A seaside mystery")
    [ava] [] [reveal] [] (u "CSV Summary")
  = Some (join [LF]
            [ u "Metric,Count";
              u "Total Characters,1";
              u "Total Story Arcs,0";
              u "Total Milestones,1";
              u "Total Dialogue Scenes,0";
              u "Estimated Chapters,5";
              u "Main Characters,1";
              u "Supporting Characters,0";
              [] ]).
Proof. vm_compute. reflexivity. Qed.

(** ** The text of the Markdown export *)

(** Joining with line feeds puts a line feed before every entry but the
    first. *)
Lemma join_lines (p : pystr) (rest : list pystr) :
  join [LF] (p :: rest) = p ++ List.concat (List.map (cons LF) rest).
Proof.
  revert p. induction rest as [|q rest IH]; intros p.
  - cbn. now rewrite app_nil_r.
  - change (join [LF] (p :: q :: rest)) with (p ++ [LF] ++ join [LF] (q :: rest)).
    rewrite IH. cbn [List.map List.concat app]. reflexivity.
Qed.

Lemma join_lines_app (p : pystr) (first rest : list pystr) :
  join [LF] ((p :: first) ++ rest)
  = join [LF] (p :: first) ++ List.concat (List.map (cons LF) rest).
Proof.
  cbn [app]. rewrite !join_lines, List.map_app, List.concat_app.
  now rewrite app_assoc.
Qed.

Lemma markdown_text (data : ExportBundle) :
  generate_markdown_export data
  = join [LF] (md_title data)
    ++ List.concat (List.map (cons LF) (md_characters data))
    ++ List.concat (List.map (cons LF) (md_story_arcs data))
    ++ List.concat (List.map (cons LF) (md_milestones data))
    ++ List.concat (List.map (cons LF) (md_dialogue_scenes data)).
Proof.
  unfold generate_markdown_export. cbv zeta.
  unfold md_title at 1. rewrite join_lines_app.
  now rewrite !List.map_app, !List.concat_app.
Qed.

Lemma entries_text {A} (lines : A -> list pystr) (records : list A) :
  List.concat (List.map (cons LF) (flat_map lines records))
  = List.concat
      (List.map (fun x => List.concat (List.map (cons LF) (lines x))) records).
Proof.
  induction records as [|x records IH]; [reflexivity |].
  cbn [flat_map List.map List.concat].
  now rewrite List.map_app, List.concat_app, IH.
Qed.

Lemma section_text {A} (heading : pystr) (lines : A -> list pystr)
    (records : list A) :
  List.concat (List.map (cons LF)
                 (if nonempty records
                  then (LF :: heading) :: flat_map lines records else []))
  = if nonempty records
    then [LF; LF] ++ heading
         ++ List.concat
              (List.map (fun x => List.concat (List.map (cons LF) (lines x)))
                        records)
    else [].
Proof.
  destruct (nonempty records); [| reflexivity].
  cbn [List.map List.concat app]. now rewrite entries_text.
Qed.

Lemma milestone_entry_text (m : Milestone) :
  List.concat (List.map (cons LF) (md_milestone m)) = milestone_entry m.
Proof.
  unfold md_milestone, milestone_entry.
  destruct (ms_related_arc m) as [[|c arc]|]; cbn [truthy default];
    cbn [app List.map List.concat]; rewrite <- ?app_assoc; cbn [app];
    rewrite ?app_nil_r; repeat (f_equal; rewrite <- ?app_assoc; cbn [app]).
Qed.

(** C2.  The text of the Markdown export is the text of the export of the
    same project without milestones, with the Story Milestones section put
    in before the dialogue scenes.  The section is absent for an empty
    milestone list; otherwise it is a blank line, the heading and one entry
    per milestone, the milestones being taken in non-decreasing chapter
    order whatever their order in the input (milestones of one chapter keep
    their input order); an entry shows chapter and name, type, impact and
    description, and the related arc only when one is present. *)
Theorem markdown_milestones_sorted (data : ExportBundle) :
  exists (shown : list Milestone) (scenes_text : pystr),
    Permutation shown (milestones data)
    /\ StronglySorted (key_le ms_chapter) shown
    /\ (forall k : Z,
          List.filter (fun m => ms_chapter m =? k) shown
          = List.filter (fun m => ms_chapter m =? k) (milestones data))
    /\ (forall other : ExportBundle,
          Permutation (milestones other) (milestones data) ->
          List.map ms_chapter (sorted_by ms_chapter (milestones other))
          = List.map ms_chapter shown)
    /\ generate_markdown_export (without_milestones data)
       = generate_markdown_export (without_scenes (without_milestones data))
         ++ scenes_text
    /\ generate_markdown_export data
       = generate_markdown_export (without_scenes (without_milestones data))
         ++ match milestones data with
            | [] => []
            | _ :: _ =>
                [LF; LF] ++ u "## Story Milestones"
                ++ List.concat (List.map milestone_entry shown)
            end
         ++ scenes_text
    /\ (forall m : Milestone,
          milestone_entry m
          = [LF; LF] ++ u "### Chapter " ++ str_of_Z (ms_chapter m) ++ u ": "
            ++ ms_name m
            ++ [LF] ++ u "**Type:** " ++ ms_type m
            ++ [LF] ++ u "**Impact:** " ++ ms_impact m
            ++ [LF] ++ u "**Description:** " ++ ms_description m
            ++ match ms_related_arc m with
               | Some (c :: arc) => [LF] ++ u "**Related Arc:** " ++ c :: arc
               | _ => []
               end).
Proof.
  exists (sorted_by ms_chapter (milestones data)),
    (List.concat (List.map (cons LF) (md_dialogue_scenes data))).
  split; [apply sorted_by_perm |]. split; [apply sorted_by_sorted |].
  split; [intros k; apply sorted_by_stable |]. split; [| split; [| split]].
  - intros other Hp. apply sorted_perm_unique.
    + apply sorted_map_key, sorted_by_sorted.
    + apply sorted_map_key, sorted_by_sorted.
    + apply Permutation_map. rewrite !sorted_by_perm. exact Hp.
  - rewrite !markdown_text. cbn [List.map List.concat app].
    rewrite !app_nil_r, <- !app_assoc. reflexivity.
  - rewrite !markdown_text. cbn [List.map List.concat app].
    rewrite !app_nil_r, <- !app_assoc.
    do 3 f_equal. f_equal.
    change (md_milestones data)
      with (if nonempty (milestones data)
            then (LF :: u "## Story Milestones")
                 :: flat_map md_milestone (sorted_by ms_chapter (milestones data))
            else []).
    destruct (milestones data) as [|m ms] eqn:Hms; [reflexivity |].
    cbn [nonempty]. cbn [List.map List.concat app].
    rewrite entries_text.
    rewrite (List.map_ext _ milestone_entry milestone_entry_text).
    reflexivity.
  - intros m. reflexivity.
Qed.

(** ** Dialogue options *)

(** C10.  [generate_dialogue_options] returns the four base options, which
    depend on the situation only: the result has length 4, is the same for
    any character name and personality traits, and contains none of the
    three personality-specific options. *)
Theorem dialogue_options_fixed (lower : pystr -> pystr)
    (character_name situation personality_traits : pystr) :
  let options :=
    generate_dialogue_options lower character_name situation personality_traits in
  options
  = [ u "What should we do about " ++ situation ++ u "?";
      u "I think we need to consider our options here.";
      u "This reminds me of something that happened before.";
      u "Let's approach this carefully." ]
  /\ length options = 4%nat
  /\ (forall (lower' : pystr -> pystr) (name' traits' : pystr),
        generate_dialogue_options lower' name' situation traits' = options)
  /\ ~ In (u "I know exactly what to do in this situation!") options
  /\ ~ In (u "Um... maybe we should think about this more?") options
  /\ ~ In (u "We need to take action now!") options.
Proof.
  assert (Hfix : forall lw nm tr,
    generate_dialogue_options lw nm situation tr
    = [ u "What should we do about " ++ situation ++ u "?";
        u "I think we need to consider our options here.";
        u "This reminds me of something that happened before.";
        u "Let's approach this carefully." ]).
  { intros lw nm tr. unfold generate_dialogue_options.
    destruct (contains (lw tr) (u "confident")),
             (contains (lw tr) (u "shy")),
             (contains (lw tr) (u "aggressive")); reflexivity. }
  cbv zeta. rewrite Hfix.
  split; [reflexivity |]. split; [reflexivity |].
  split; [intros; apply Hfix |].
  repeat split; intros Hin; vm_compute in Hin;
    repeat (destruct Hin as [Hin | Hin]; [discriminate Hin |]); exact Hin.
Qed.

(** ** Story analysis *)

Lemma pacing_fold (mc pre : list Z) (acc : list pystr) :
  fold_left (pacing_step (pre ++ mc))
            (seq (length pre) (length mc - 1)) (Some acc)
  = Some (acc ++ List.map gap_text (List.filter wide (adjacent_pairs mc))).
Proof.
  revert pre acc. induction mc as [|a mc IH]; intros pre acc.
  - cbn. now rewrite app_nil_r.
  - destruct mc as [|b r].
    + cbn. now rewrite app_nil_r.
    + replace (length (a :: b :: r) - 1)%nat with (S (length (b :: r) - 1))
        by (cbn; lia).
      cbn [seq fold_left]. unfold pacing_step at 2. cbn [mbind option_bind].
      rewrite (list_lookup_middle pre (b :: r) a (length pre) eq_refl).
      cbn [mbind option_bind].
      replace (pre ++ a :: b :: r) with ((pre ++ [a]) ++ b :: r)
        by now rewrite <- app_assoc.
      rewrite (list_lookup_middle (pre ++ [a]) r b (S (length pre)))
        by (rewrite length_app; cbn; lia).
      cbn [mbind option_bind].
      replace (S (length pre)) with (length (pre ++ [a]))
        by (rewrite length_app; cbn; lia).
      rewrite IH.
      change (adjacent_pairs (a :: b :: r))
        with ((a, b) :: adjacent_pairs (b :: r)).
      cbn [List.filter]. unfold wide at 2. cbn [fst snd].
      destruct (3 <? b - a); [| reflexivity].
      now rewrite <- app_assoc.
Qed.

Lemma pacing_loop_spec (mc : list Z) :
  pacing_loop mc
  = Some (List.map gap_text (List.filter wide (adjacent_pairs mc))).
Proof. exact (pacing_fold mc [] []). Qed.

Lemma analyze_story_structure_total
    (cs : list Character) (arcs : list StoryArc) (ms : list Milestone) :
  exists est : Z,
    (if nonempty ms then py_max (List.map ms_chapter ms)
     else if nonempty arcs then py_max (List.map arc_end_chapter arcs)
     else Some 0) = Some est
    /\ analyze_story_structure cs arcs ms
       = Some {| character_count := len cs;
                 arc_count := len arcs;
                 milestone_count := len ms;
                 estimated_length := est;
                 character_roles := fold_left count_role cs ∅;
                 pacing_analysis :=
                   List.map gap_text
                     (List.filter wide
                        (adjacent_pairs (sort_ints (List.map ms_chapter ms)))) |}.
Proof.
  unfold analyze_story_structure.
  destruct ms as [|m ms].
  - destruct arcs as [|a arcs]; eexists; split; reflexivity.
  - cbn [nonempty]. rewrite pacing_loop_spec.
    eexists; split; reflexivity.
Qed.

(** ** Estimated length *)

(** C6.  [analyze_story_structure] always returns, and its estimated length
    is the maximum milestone chapter when there are milestones, otherwise
    the maximum arc end chapter when there are arcs, otherwise 0. *)
Theorem estimated_length_spec
    (cs : list Character) (arcs : list StoryArc) (ms : list Milestone) :
  exists a : Analysis,
    analyze_story_structure cs arcs ms = Some a
    /\ (ms <> [] -> is_max (estimated_length a) (List.map ms_chapter ms))
    /\ (ms = [] -> arcs <> [] ->
        is_max (estimated_length a) (List.map arc_end_chapter arcs))
    /\ (ms = [] -> arcs = [] -> estimated_length a = 0).
Proof.
  destruct (analyze_story_structure_total cs arcs ms) as (est & Hest & ->).
  eexists; split; [reflexivity |]. cbn [estimated_length].
  destruct ms as [|m ms]; [destruct arcs as [|a arcs] |]; cbn [nonempty] in Hest.
  - injection Hest as <-.
    split; [congruence | split; [congruence | reflexivity]].
  - destruct (py_max_cons (arc_end_chapter a) (List.map arc_end_chapter arcs))
      as (m0 & Hm0 & Hmax).
    cbn [List.map] in Hest. rewrite Hm0 in Hest. injection Hest as <-.
    split; [congruence | split; [intros; exact Hmax | congruence]].
  - destruct (py_max_cons (ms_chapter m) (List.map ms_chapter ms))
      as (m0 & Hm0 & Hmax).
    cbn [List.map] in Hest. rewrite Hm0 in Hest. injection Hest as <-.
    split; [intros; exact Hmax | split; congruence].
Qed.

(** ** Pacing gaps *)

(** C5.  The pacing analysis lists, for the milestone chapters in ascending
    order, one message per adjacent pair further apart than 3 chapters, naming
    both chapters, and nothing for a pair 3 or fewer apart: chapters 1, 2, 10
    give the single gap between 2 and 10, chapters 1, 2, 3 give none. *)
Theorem pacing_gaps
    (cs : list Character) (arcs : list StoryArc) (ms : list Milestone) :
  exists (a : Analysis) (ascending : list Z),
    analyze_story_structure cs arcs ms = Some a
    /\ Permutation ascending (List.map ms_chapter ms)
    /\ StronglySorted Z.le ascending
    /\ pacing_analysis a
       = List.map
           (fun p => u "Large gap between chapters " ++ str_of_Z (fst p)
                     ++ u " and " ++ str_of_Z (snd p))
           (List.filter (fun p => bool_decide (snd p - fst p > 3))
                        (adjacent_pairs ascending))
    /\ (List.map ms_chapter ms = [1; 2; 10] ->
        pacing_analysis a = [u "Large gap between chapters 2 and 10"])
    /\ (List.map ms_chapter ms = [1; 2; 3] -> pacing_analysis a = []).
Proof.
  destruct (analyze_story_structure_total cs arcs ms) as (est & _ & ->).
  exists
    {| character_count := len cs;
       arc_count := len arcs;
       milestone_count := len ms;
       estimated_length := est;
       character_roles := fold_left count_role cs ∅;
       pacing_analysis :=
         List.map gap_text
           (List.filter wide
              (adjacent_pairs (sort_ints (List.map ms_chapter ms)))) |},
    (sort_ints (List.map ms_chapter ms)).
  split; [reflexivity |]. split; [apply sort_ints_perm |].
  split; [apply sort_ints_sorted |]. cbn [pacing_analysis].
  split; [| split].
  - f_equal. apply List.filter_ext. intros [x y]. unfold wide. cbn [fst snd].
    destruct (Z.ltb_spec 3 (y - x)); case_bool_decide; try reflexivity; lia.
  - intros ->. vm_compute. reflexivity.
  - intros ->. vm_compute. reflexivity.
Qed.

(** ** Validation warnings *)

Lemma validate_story_structure_total
    (cs : list Character) (arcs : list StoryArc) (ms : list Milestone) :
  validate_story_structure cs arcs ms
  = Some
      ((if len (List.filter is_main cs) =? 0 then [warn_no_main]
        else if 3 <? len (List.filter is_main cs) then [warn_many_main]
        else [])
       ++ match py_max (List.map arc_end_chapter arcs) with
          | Some total_chapters =>
              if Z.of_nat (size (fold_left cover arcs ∅)) <? total_chapters
              then [warn_coverage] else []
          | None => []
          end
       ++ (if nonempty ms then
             (if 3 <? count_str (u "Critical") (List.map ms_impact ms)
              then [warn_many_critical] else [])
             ++ (if negb (existsb (str_eqb (u "High")) (List.map ms_impact ms))
                    && negb (existsb (str_eqb (u "Critical"))
                                     (List.map ms_impact ms))
                 then [warn_no_high] else [])
           else [])).
Proof.
  unfold validate_story_structure.
  set (main := len (List.filter is_main cs)).
  set (crit := 3 <? count_str (u "Critical") (List.map ms_impact ms)).
  set (calm := negb (existsb (str_eqb (u "High")) (List.map ms_impact ms))
               && negb (existsb (str_eqb (u "Critical")) (List.map ms_impact ms))).
  assert (Hlen : nonempty ms && (0 <? len ms) = nonempty ms).
  { destruct ms; [reflexivity |]. unfold len. cbn [nonempty length].
    now destruct (Z.ltb_spec 0 (Z.of_nat (S (length ms)))); [| lia]. }
  rewrite Hlen. clear Hlen.
  destruct arcs as [|a arcs].
  - cbn [nonempty py_max List.map mbind option_bind app].
    destruct (main =? 0), (3 <? main), (nonempty ms), crit, calm; reflexivity.
  - cbn [nonempty py_max List.map mbind option_bind].
    set (covered := Z.of_nat (size (fold_left cover (a :: arcs) ∅))
                    <? fold_left Z.max (List.map arc_end_chapter arcs)
                         (arc_end_chapter a)).
    destruct (main =? 0), (3 <? main), covered, (nonempty ms), crit, calm;
      reflexivity.
Qed.

Lemma in_single_if {A} (b : bool) (w x : A) :
  In w (if b then [x] else []) <-> b = true /\ w = x.
Proof.
  destruct b; cbn; [| intuition discriminate].
  split; [intros [<- | []]; auto | intros [_ ->]; now left].
Qed.

Lemma existsb_str_eqb (x : pystr) (l : list pystr) :
  existsb (str_eqb x) l = true <-> In x l.
Proof.
  rewrite existsb_exists. unfold str_eqb. split.
  - intros (y & Hy & Heq). apply bool_decide_eq_true in Heq. now subst.
  - intros H. exists x. split; [exact H | now apply bool_decide_eq_true].
Qed.

Lemma count_str_filter {A} (f : A -> pystr) (x : pystr) (l : list A) :
  count_str x (List.map f l)
  = len (List.filter (fun a => bool_decide (f a = x)) l).
Proof.
  unfold count_str, len. f_equal.
  induction l as [|a l IH]; [reflexivity |].
  cbn [List.map List.filter]. unfold str_eqb at 1.
  rewrite (bool_decide_ext (x = f a) (f a = x)) by (split; congruence).
  destruct (bool_decide (f a = x)); cbn [length]; congruence.
Qed.

(** Which warnings are returned, and when. *)
Lemma validate_story_structure_warns
    (cs : list Character) (arcs : list StoryArc) (ms : list Milestone) :
  exists warnings : list pystr,
    validate_story_structure cs arcs ms = Some warnings
    /\ forall w : pystr,
         In w warnings <->
           (w = warn_no_main /\ len (List.filter is_main cs) = 0)
           \/ (w = warn_many_main /\ 3 < len (List.filter is_main cs))
           \/ (w = warn_coverage /\
               exists total_chapters,
                 py_max (List.map arc_end_chapter arcs) = Some total_chapters
                 /\ Z.of_nat (size (fold_left cover arcs ∅)) < total_chapters)
           \/ (w = warn_many_critical /\ ms <> [] /\
               3 < len (List.filter
                          (fun m => bool_decide (ms_impact m = u "Critical")) ms))
           \/ (w = warn_no_high /\ ms <> [] /\
               forall m, In m ms ->
                 ms_impact m <> u "High" /\ ms_impact m <> u "Critical").
Proof.
  rewrite validate_story_structure_total. eexists; split; [reflexivity |].
  intros w. rewrite count_str_filter.
  set (mains := len (List.filter is_main cs)).
  set (criticals := len (List.filter _ ms)).
  assert (Hcalm :
    negb (existsb (str_eqb (u "High")) (List.map ms_impact ms))
    && negb (existsb (str_eqb (u "Critical")) (List.map ms_impact ms)) = true
    <-> forall m, In m ms ->
          ms_impact m <> u "High" /\ ms_impact m <> u "Critical").
  { rewrite andb_true_iff, !negb_true_iff, <- !not_true_iff_false,
      !existsb_str_eqb, !List.in_map_iff.
    split.
    - intros [Hh Hc] m Hm. split; intros Heq; [apply Hh | apply Hc]; eauto.
    - intros H. split; intros (m & Heq & Hm); destruct (H m Hm); congruence. }
  assert (Hne : nonempty ms = true <-> ms <> [])
    by (destruct ms; cbn; split; congruence).
  rewrite !in_app_iff.
  assert (HA : In w (if mains =? 0 then [warn_no_main]
                     else if 3 <? mains then [warn_many_main] else [])
               <-> (w = warn_no_main /\ mains = 0)
                   \/ (w = warn_many_main /\ 3 < mains)).
  { destruct (Z.eqb_spec mains 0), (Z.ltb_spec 3 mains); cbn;
      intuition (try lia; try congruence). }
  assert (HB : In w match py_max (List.map arc_end_chapter arcs) with
                    | Some total_chapters =>
                        if Z.of_nat (size (fold_left cover arcs ∅))
                           <? total_chapters
                        then [warn_coverage] else []
                    | None => []
                    end
               <-> w = warn_coverage /\
                   exists total_chapters,
                     py_max (List.map arc_end_chapter arcs) = Some total_chapters
                     /\ Z.of_nat (size (fold_left cover arcs ∅)) < total_chapters).
  { destruct (py_max _) as [t|].
    - rewrite in_single_if, Z.ltb_lt. split.
      + intros [H ->]. eauto.
      + intros [-> (t' & [= <-] & H)]. auto.
    - cbn. split; [tauto | intros [_ (t & Ht & _)]; discriminate]. }
  assert (HC : In w (if nonempty ms then
                       (if 3 <? criticals then [warn_many_critical] else [])
                       ++ (if negb (existsb (str_eqb (u "High"))
                                            (List.map ms_impact ms))
                              && negb (existsb (str_eqb (u "Critical"))
                                               (List.map ms_impact ms))
                           then [warn_no_high] else [])
                     else [])
               <-> (w = warn_many_critical /\ ms <> [] /\ 3 < criticals)
                   \/ (w = warn_no_high /\ ms <> [] /\
                       forall m, In m ms ->
                         ms_impact m <> u "High" /\ ms_impact m <> u "Critical")).
  { rewrite <- Hcalm, <- Hne. destruct (nonempty ms).
    - rewrite in_app_iff, !in_single_if, Z.ltb_lt. tauto.
    - cbn. intuition discriminate. }
  rewrite HA, HB, HC. tauto.
Qed.

(** The five warning texts are pairwise different. *)
Ltac other_warning :=
  match goal with
  | H : ?a = ?b |- _ => vm_compute in H; discriminate H
  end.

(** C7.  [validate_story_structure] always returns; it suggests adding a
    Main Character exactly when no character has that role, gives the
    many-Main-Characters warning exactly when more than three have it, and,
    when there are milestones, warns about many Critical milestones exactly
    when more than three are Critical and suggests High or Critical ones
    exactly when no milestone has either impact. *)
Theorem validate_character_and_impact_warnings
    (cs : list Character) (arcs : list StoryArc) (ms : list Milestone) :
  let mains :=
    len (List.filter (fun c => bool_decide (char_role c = u "Main Character")) cs) in
  let criticals :=
    len (List.filter (fun m => bool_decide (ms_impact m = u "Critical")) ms) in
  exists warnings : list pystr,
    validate_story_structure cs arcs ms = Some warnings
    /\ (In (u "Consider adding a Main Character to your story.") warnings
        <-> mains = 0)
    /\ (In (u "You have many Main Characters - consider if some should be Supporting characters.")
           warnings
        <-> mains > 3)
    /\ (ms <> [] ->
        (In (u "You have many Critical milestones - consider varying the impact levels.")
            warnings
         <-> criticals > 3)
        /\ (In (u "Consider adding some High or Critical impact milestones for dramatic tension.")
               warnings
            <-> forall m, In m ms ->
                  ms_impact m <> u "High" /\ ms_impact m <> u "Critical")).
Proof.
  intros mains criticals.
  destruct (validate_story_structure_warns cs arcs ms) as (ws & Hws & Hin).
  exists ws. split; [exact Hws |].
  change (List.filter is_main cs)
    with (List.filter (fun c => bool_decide (char_role c = u "Main Character")) cs)
    in Hin.
  fold mains criticals in Hin.
  split; [| split; [| intros Hms; split]].
  - rewrite Hin. split.
    + intros [[_ H] | [[H _] | [[H _] | [[H _] | [H _]]]]];
        [exact H | other_warning ..].
    + intros H. left. split; [reflexivity | exact H].
  - rewrite Hin. split.
    + intros [[H _] | [[_ H] | [[H _] | [[H _] | [H _]]]]];
        [other_warning | lia | other_warning ..].
    + intros H. right; left. split; [reflexivity | lia].
  - rewrite Hin. split.
    + intros [[H _] | [[H _] | [[H _] | [[_ [_ H]] | [H _]]]]];
        [other_warning | other_warning | other_warning | lia | other_warning].
    + intros H. do 3 right; left. split; [reflexivity | split; [exact Hms | lia]].
  - rewrite Hin. split.
    + intros [[H _] | [[H _] | [[H _] | [[H _] | [_ [_ H]]]]]];
        [other_warning | other_warning | other_warning | other_warning | exact H].
    + intros H. do 4 right. split; [reflexivity | split; [exact Hms | exact H]].
Qed.

(** ** Arc coverage *)

Lemma elem_of_py_range (a b c : Z) : c ∈ py_range a b <-> a <= c < b.
Proof. unfold py_range. rewrite elem_of_seqZ. lia. Qed.

Lemma elem_of_fold_cover (arcs : list StoryArc) (X : gset Z) (c : Z) :
  c ∈ fold_left cover arcs X <-> c ∈ X \/ exists a, In a arcs /\ covers a c.
Proof.
  revert X. induction arcs as [|a arcs IH]; intros X; cbn [fold_left].
  - split; [auto | intros [H | (a & [] & _)]; exact H].
  - rewrite IH. unfold cover.
    rewrite elem_of_union, elem_of_list_to_set, elem_of_py_range.
    unfold covers. split.
    + intros [[H | H] | (b & Hb & Hc)]; [now left | right | right].
      * exists a. split; [now left | lia].
      * exists b. split; [now right | exact Hc].
    + intros [H | (b & [<- | Hb] & Hc)]; [now left; left | left; right; lia |].
      right. exists b. split; assumption.
Qed.

(** C8.  With no arcs the coverage check is silent.  With arcs, the
    chapters-not-covered warning is returned exactly when the number of
    distinct chapters lying in some arc's range from start to end, both
    included, is smaller than the largest end chapter. *)
Theorem coverage_warning
    (cs : list Character) (arcs : list StoryArc) (ms : list Milestone) :
  exists warnings : list pystr,
    validate_story_structure cs arcs ms = Some warnings
    /\ (arcs = [] ->
        ~ In (u "Some chapters may not be covered by any story arc.") warnings)
    /\ (forall (covered : gset Z) (last : Z),
          (forall c : Z, c ∈ covered <-> exists a, In a arcs /\ covers a c) ->
          is_max last (List.map arc_end_chapter arcs) ->
          (In (u "Some chapters may not be covered by any story arc.") warnings
           <-> Z.of_nat (size covered) < last)).
Proof.
  destruct (validate_story_structure_warns cs arcs ms) as (ws & Hws & Hin).
  exists ws. split; [exact Hws |]. split.
  - intros ->. rewrite Hin.
    intros [[H _] | [[H _] | [[_ (t & Ht & _)] | [[H _] | [H _]]]]];
      [other_warning | other_warning | discriminate Ht | other_warning ..].
  - intros covered last Hcov Hlast.
    assert (covered = fold_left cover arcs ∅) as ->.
    { apply set_eq. intros c. rewrite Hcov, elem_of_fold_cover.
      rewrite elem_of_empty. tauto. }
    assert (py_max (List.map arc_end_chapter arcs) = Some last) as Hmax.
    { destruct (py_max_nonempty (List.map arc_end_chapter arcs))
        as (m & Hm & Hmm).
      - destruct Hlast as [Hl _]. intros E. rewrite E in Hl. destruct Hl.
      - rewrite Hm. f_equal. eapply is_max_unique; eassumption. }
    rewrite Hin, Hmax. split.
    + intros [[H _] | [[H _] | [[_ (t & [= <-] & Ht)] | [[H _] | [H _]]]]];
        [other_warning | other_warning | exact Ht | other_warning ..].
    + intros H. do 2 right; left. split; [reflexivity |]. eauto.
Qed.

(** ** JSON round trip *)


Lemma hex_val_hex_digit (d : N) :
  (d < 16)%N -> hex_val (hex_digit d) = Some d.
Proof.
  intros H. unfold hex_val, hex_digit.
  destruct (N.ltb_spec d 10).
  - replace ((48 <=? 48 + d) && (48 + d <=? 57))%N with true.
    + f_equal. lia.
    + symmetry. apply andb_true_iff. split; apply N.leb_le; lia.
  - replace ((48 <=? 87 + d) && (87 + d <=? 57))%N with false.
    + replace ((97 <=? 87 + d) && (87 + d <=? 102))%N with true.
      * f_equal. lia.
      * symmetry. apply andb_true_iff. split; apply N.leb_le; lia.
    + symmetry. apply andb_false_iff. right. apply N.leb_gt. lia.
Qed.

Lemma decode_hex4_hex4 (n : N) :
  (n < 65536)%N ->
  decode_hex4 (hex_digit (n / 4096 mod 16)) (hex_digit (n / 256 mod 16))
              (hex_digit (n / 16 mod 16)) (hex_digit (n mod 16)) = Some n.
Proof.
  intros H. unfold decode_hex4.
  rewrite !hex_val_hex_digit by (apply N.mod_lt; discriminate).
  cbn [mbind option_bind]. f_equal.
  change 4096%N with (16 * 16 * 16)%N. change 256%N with (16 * 16)%N.
  rewrite <- !N.Div0.div_div.
  set (a := (n / 16)%N). set (b := (a / 16)%N). set (c := (b / 16)%N).
  assert (Hn := N.div_mod n 16). assert (Ha := N.div_mod a 16).
  assert (Hb := N.div_mod b 16).
  fold a in Hn. fold b in Ha. fold c in Hb.
  assert (c < 16)%N.
  { unfold c, b, a. rewrite !N.Div0.div_div.
    apply N.Div0.div_lt_upper_bound. exact H. }
  rewrite (N.mod_small c 16) by assumption.
  lia.
Qed.


Lemma lor_shifted (b a k : N) :
  (a < 2 ^ k)%N -> N.lor (b * 2 ^ k) a = (b * 2 ^ k + a)%N.
Proof.
  intros Ha.
  assert (Hland : N.land (b * 2 ^ k) a = 0%N).
  { apply N.bits_inj_0. intros i. rewrite N.land_spec.
    destruct (N.lt_ge_cases i k) as [Hi | Hi].
    - rewrite N.mul_pow2_bits_low by exact Hi. reflexivity.
    - destruct (N.eq_dec a 0%N) as [-> | Hne];
        [rewrite N.bits_0; apply andb_false_r |].
      rewrite (N.bits_above_log2 a i); [apply andb_false_r |].
      apply N.log2_lt_pow2 in Ha; lia. }
  rewrite <- N.lxor_lor by exact Hland.
  symmetry. apply N.add_nocarry_lxor. exact Hland.
Qed.

Lemma surrogate_halves (c : N) :
  (65536 <= c < 1114112)%N ->
  let n := (c - 65536)%N in
  let hi := N.lor 55296 (N.land (N.shiftr n 10) 1023) in
  let lo := N.lor 56320 (N.land n 1023) in
  is_high_surrogate hi = true /\ is_low_surrogate lo = true
  /\ join_pair hi lo = c.
Proof.
  intros Hc n hi lo.
  assert (Hn : (n < 1048576)%N) by (unfold n; lia).
  assert (Hhi : hi = (55296 + n / 1024)%N).
  { unfold hi. change 1023%N with (N.ones 10).
    rewrite N.land_ones, N.shiftr_div_pow2. change (2 ^ 10)%N with 1024%N.
    rewrite N.mod_small by (apply N.Div0.div_lt_upper_bound; exact Hn).
    change 55296%N with (54 * 2 ^ 10)%N. apply lor_shifted.
    change (2 ^ 10)%N with 1024%N.
    apply N.Div0.div_lt_upper_bound; exact Hn. }
  assert (Hlo : lo = (56320 + n mod 1024)%N).
  { unfold lo. change 1023%N with (N.ones 10).
    rewrite N.land_ones. change (2 ^ 10)%N with 1024%N.
    change 56320%N with (55 * 2 ^ 10)%N. apply lor_shifted.
    apply N.mod_lt. discriminate. }
  assert (Hq : (n / 1024 < 1024)%N)
    by (apply N.Div0.div_lt_upper_bound; exact Hn).
  assert (Hr : (n mod 1024 < 1024)%N) by (apply N.mod_lt; discriminate).
  assert (Hcn : c = (65536 + n)%N) by (unfold n; lia).
  assert (Hdm := N.div_mod n 1024 ltac:(discriminate)).
  clearbody hi lo n.
  set (q := (n / 1024)%N) in *. set (r := (n mod 1024)%N) in *.
  clearbody q r.
  split; [| split].
  - unfold is_high_surrogate. rewrite Hhi.
    apply andb_true_iff; split; apply N.leb_le; lia.
  - unfold is_low_surrogate. rewrite Hlo.
    apply andb_true_iff; split; apply N.leb_le; lia.
  - unfold join_pair. rewrite Hhi, Hlo.
    replace (55296 + q - 55296)%N with q by lia.
    replace (56320 + r - 56320)%N with r by lia.
    rewrite N.shiftl_mul_pow2, lor_shifted by exact Hr.
    change (2 ^ 10)%N with 1024%N. lia.
Qed.

Lemma scan_plain (c : N) (r : pystr) :
  c <> 34%N -> c <> 92%N -> (32 <= c)%N ->
  scanstring (c :: r) = cons_text c (scanstring r).
Proof.
  intros H1 H2 H3. cbn [scanstring].
  apply N.eqb_neq in H1, H2. rewrite H1, H2.
  destruct (N.ltb_spec c 32); [lia | reflexivity].
Qed.

Lemma scan_short (e c : N) (r : pystr) :
  e <> 117%N -> backslash e = Some c ->
  scanstring (92%N :: e :: r) = cons_text c (scanstring r).
Proof.
  intros H1 H2. cbn [scanstring]. cbn [N.eqb Pos.eqb].
  apply N.eqb_neq in H1. rewrite H1, H2. reflexivity.
Qed.

Lemma scan_u_single (uni : N) (tail : pystr) :
  (uni < 65536)%N ->
  (is_high_surrogate uni = true -> no_low_ahead tail) ->
  scanstring (u_escape uni ++ tail) = cons_text uni (scanstring tail).
Proof.
  intros Hu Hhigh. unfold u_escape, hex4. cbn [app scanstring N.eqb Pos.eqb].
  rewrite decode_hex4_hex4 by exact Hu.
  destruct (is_high_surrogate uni); [| reflexivity].
  specialize (Hhigh eq_refl). unfold no_low_ahead in Hhigh.
  destruct tail as [|bs [|uu r]]; try reflexivity.
  destruct ((bs =? 92) && (uu =? 117))%N; [| reflexivity].
  destruct r as [|x1 [|x2 [|x3 [|x4 r]]]]; try contradiction.
  destruct (decode_hex4 x1 x2 x3 x4) as [uni2|]; [| contradiction].
  rewrite Hhigh. reflexivity.
Qed.

Lemma scan_u_pair (hi lo : N) (tail : pystr) :
  (hi < 65536)%N -> (lo < 65536)%N ->
  is_high_surrogate hi = true -> is_low_surrogate lo = true ->
  scanstring (u_escape hi ++ u_escape lo ++ tail)
  = cons_text (join_pair hi lo) (scanstring tail).
Proof.
  intros Hh Hl Hhi Hlo. unfold u_escape, hex4.
  cbn [app scanstring N.eqb Pos.eqb andb].
  rewrite !decode_hex4_hex4 by assumption.
  rewrite Hhi, Hlo. reflexivity.
Qed.

Lemma surrogate_bounds (c : N) :
  is_high_surrogate c = true \/ is_low_surrogate c = true -> (c < 65536)%N.
Proof.
  unfold is_high_surrogate, is_low_surrogate.
  rewrite !andb_true_iff, !N.leb_le. lia.
Qed.

Lemma high_not_low (c : N) :
  is_high_surrogate c = true -> is_low_surrogate c = false.
Proof.
  unfold is_high_surrogate, is_low_surrogate.
  rewrite andb_true_iff, andb_false_iff, !N.leb_le, !N.leb_gt. lia.
Qed.

Ltac escape_cases c :=
  unfold escape_cp;
  destruct (N.eqb_spec c 34) as [-> | ?];
  [| destruct (N.eqb_spec c 92) as [-> | ?];
  [| destruct (N.eqb_spec c 10) as [-> | ?];
  [| destruct (N.eqb_spec c 13) as [-> | ?];
  [| destruct (N.eqb_spec c 9) as [-> | ?];
  [| destruct (N.eqb_spec c 8) as [-> | ?];
  [| destruct (N.eqb_spec c 12) as [-> | ?];
  [| destruct ((32 <=? c) && (c <=? 126))%N eqn:?;
  [| destruct (N.ltb_spec c 65536)]]]]]]]].

Lemma scan_escape_cp (c : N) (tail : pystr) :
  is_code_point c = true ->
  (is_high_surrogate c = true -> no_low_ahead tail) ->
  scanstring (escape_cp c ++ tail) = cons_text c (scanstring tail).
Proof.
  intros Hc Hhigh. apply N.ltb_lt in Hc.
  escape_cases c; try (apply scan_short; [discriminate | reflexivity]).
  - apply andb_true_iff in Heqb as [H1 H2]. apply N.leb_le in H1, H2.
    apply scan_plain; assumption.
  - apply scan_u_single; assumption.
  - destruct (surrogate_halves c ltac:(lia)) as (Hhi & Hlo & Hjoin).
    cbv zeta. rewrite <- app_assoc, scan_u_pair; try assumption.
    + now rewrite Hjoin.
    + apply surrogate_bounds. now left.
    + apply surrogate_bounds. now right.
Qed.

Lemma no_low_ahead_escape (c : N) (tail : pystr) :
  is_code_point c = true -> is_low_surrogate c = false ->
  no_low_ahead (escape_cp c ++ tail).
Proof.
  intros Hc Hlow. apply N.ltb_lt in Hc.
  escape_cases c; try exact I.
  - cbn [app]. unfold no_low_ahead. destruct tail as [|uu r]; [exact I |].
    apply N.eqb_neq in n0. rewrite n0. exact I.
  - unfold u_escape, hex4, no_low_ahead. cbn [app N.eqb Pos.eqb andb].
    rewrite decode_hex4_hex4 by assumption. exact Hlow.
  - destruct (surrogate_halves c ltac:(lia)) as (Hhi & Hlo & Hjoin).
    cbv zeta. unfold u_escape at 1, hex4, no_low_ahead.
    cbn [app N.eqb Pos.eqb andb].
    rewrite decode_hex4_hex4 by (apply surrogate_bounds; now left).
    now apply high_not_low.
Qed.

Lemma no_low_ahead_quote (rest : pystr) : no_low_ahead (34%N :: rest).
Proof. destruct rest; exact I. Qed.

Lemma escape_cp_surrogate (c : N) :
  is_high_surrogate c = true \/ is_low_surrogate c = true ->
  escape_cp c = u_escape c.
Proof.
  intros H. pose proof (surrogate_bounds c H) as Hb.
  assert (55296 <= c)%N.
  { unfold is_high_surrogate, is_low_surrogate in H.
    rewrite !andb_true_iff, !N.leb_le in H. lia. }
  escape_cases c; try lia; try reflexivity.
  apply andb_true_iff in Heqb as [_ H2]. apply N.leb_le in H2. lia.
Qed.

Lemma join_surrogates_not_high (c : N) (r : pystr) :
  is_high_surrogate c = false ->
  join_surrogates (c :: r) = c :: join_surrogates r.
Proof. intros H. cbn [join_surrogates]. rewrite H. now destruct r. Qed.

Lemma scan_encoded (s rest : pystr) :
  forallb is_code_point s = true ->
  scanstring (List.concat (List.map escape_cp s) ++ 34%N :: rest)
  = Some (join_surrogates s, rest).
Proof.
  remember (length s) as n eqn:Hn. revert s Hn.
  induction n as [n IH] using lt_wf_ind. intros s Hn Hs.
  destruct s as [|c r]; [reflexivity |].
  cbn [forallb] in Hs. apply andb_true_iff in Hs as [Hc Hr].
  cbn [List.map List.concat]. rewrite <- app_assoc.
  destruct (is_high_surrogate c) eqn:Hh.
  - destruct r as [|l r'].
    + cbn [List.map List.concat app].
      rewrite scan_escape_cp by (auto using no_low_ahead_quote). reflexivity.
    + cbn [forallb] in Hr. apply andb_true_iff in Hr as [Hl Hr'].
      destruct (is_low_surrogate l) eqn:Hlow.
      * cbn [List.map List.concat]. rewrite <- app_assoc.
        rewrite (escape_cp_surrogate c), (escape_cp_surrogate l) by auto.
        rewrite scan_u_pair by (auto using surrogate_bounds).
        rewrite (IH (length r')) by (subst n; cbn; auto with arith).
        cbn [cons_text join_surrogates]. now rewrite Hh, Hlow.
      * rewrite scan_escape_cp.
        -- rewrite (IH (length (l :: r')))
             by (subst n; cbn [length forallb]; auto with arith;
                 now rewrite Hl, Hr').
           cbn [cons_text]. cbn [join_surrogates]. rewrite Hh, Hlow. reflexivity.
        -- exact Hc.
        -- intros _. cbn [List.map List.concat]. rewrite <- app_assoc.
           now apply no_low_ahead_escape.
  - rewrite scan_escape_cp by (auto; congruence).
    rewrite (IH (length r)) by (subst n; cbn; auto with arith).
    cbn [cons_text]. now rewrite join_surrogates_not_high.
Qed.

Lemma join_surrogates_free (s : pystr) :
  surrogate_pair_free s = true -> join_surrogates s = s.
Proof.
  induction s as [|c r IH]; [reflexivity |].
  cbn [surrogate_pair_free join_surrogates]. destruct r as [|l r']; [reflexivity |].
  intros H. apply andb_true_iff in H as [H1 H2]. apply negb_true_iff in H1.
  rewrite H1. f_equal. now apply IH.
Qed.

Lemma ends_value_no_digit (rest : pystr) :
  ends_value rest ->
  match rest with [] => True | c :: _ => is_digit c = false end
  /\ float_follows rest = false.
Proof.
  destruct rest as [|c r]; [now split |].
  intros [-> | ->]; now split.
Qed.

Lemma read_digits_uint (d : Decimal.uint) (rest : pystr) :
  match rest with [] => True | c :: _ => is_digit c = false end ->
  read_digits (uint_cps d ++ rest) = (d, rest).
Proof.
  intros Hrest.
  induction d; cbn [uint_cps app read_digits];
    try (change (is_digit (digit_cp _)) with true; cbv iota; rewrite IHd;
         reflexivity).
  destruct rest as [|c r]; [reflexivity |].
  cbn [read_digits]. now rewrite Hrest.
Qed.

Lemma to_uint_normal (p : positive) :
  Decimal.unorm (Pos.to_uint p) = Pos.to_uint p.
Proof.
  rewrite <- (DecimalPos.Unsigned.to_of (Pos.to_uint p)).
  rewrite DecimalPos.Unsigned.of_to. reflexivity.
Qed.

Lemma to_uint_head (p : positive) :
  match Pos.to_uint p with
  | Decimal.Nil | Decimal.D0 _ => False
  | _ => True
  end.
Proof.
  pose proof (to_uint_normal p) as Hn.
  pose proof (DecimalPos.Unsigned.to_uint_nonzero p) as Hz.
  pose proof (DecimalPos.Unsigned.to_uint_nonnil p) as Hnil.
  destruct (Pos.to_uint p) as [|d'| | | | | | | | |]; try exact I;
    [congruence |].
  unfold Decimal.unorm in Hn. cbn [Decimal.nzhead] in Hn.
  pose proof (DecimalFacts.nb_digits_nzhead d') as Hlen.
  destruct (Decimal.nzhead d') eqn:E.
  - injection Hn as <-. now apply Hz.
  - rewrite Hn in Hlen. cbn [Decimal.nb_digits] in Hlen. lia.
  - discriminate Hn.
  - discriminate Hn.
  - discriminate Hn.
  - discriminate Hn.
  - discriminate Hn.
  - discriminate Hn.
  - discriminate Hn.
  - discriminate Hn.
  - discriminate Hn.
Qed.

Lemma match_number_digits (p : positive) (rest : pystr) :
  ends_value rest ->
  match_integer (uint_cps (Pos.to_uint p) ++ rest) = Some (Pos.to_uint p, rest)
  /\ match uint_cps (Pos.to_uint p) ++ rest with
     | [] => False
     | c :: _ => (c =? 45)%N = false
     end.
Proof.
  intros Hrest. apply ends_value_no_digit in Hrest as [Hd _].
  pose proof (read_digits_uint (Pos.to_uint p) rest Hd) as Hread.
  pose proof (to_uint_head p) as Hhead.
  destruct (Pos.to_uint p) as [|d'|d'|d'|d'|d'|d'|d'|d'|d'|d'];
    try contradiction;
    (split; [| reflexivity]);
    unfold match_integer; rewrite <- Hread; reflexivity.
Qed.

Lemma match_number_str (z : Z) (rest : pystr) :
  ends_value rest ->
  match_number (str_of_Z z ++ rest) = Some (JInt z, rest).
Proof.
  intros Hrest. pose proof (ends_value_no_digit rest Hrest) as [_ Hfl].
  destruct z as [|p|p].
  - change (str_of_Z 0 ++ rest) with (48%N :: rest).
    unfold match_number, match_integer. cbn [N.eqb Pos.eqb].
    rewrite Hfl. reflexivity.
  - destruct (match_number_digits p rest Hrest) as [Hint Hsign].
    change (str_of_Z (Z.pos p)) with (uint_cps (Pos.to_uint p)).
    unfold match_number.
    destruct (uint_cps (Pos.to_uint p) ++ rest) as [|c r] eqn:E;
      [contradiction |].
    rewrite Hsign, Hint, Hfl.
    do 3 f_equal. exact (DecimalZ.of_to (Z.pos p)).
  - destruct (match_number_digits p rest Hrest) as [Hint _].
    change (str_of_Z (Z.neg p)) with (45%N :: uint_cps (Pos.to_uint p)).
    cbn [app]. unfold match_number. cbn [N.eqb Pos.eqb].
    rewrite Hint, Hfl. do 3 f_equal. exact (DecimalZ.of_to (Z.neg p)).
Qed.

(** *** Structure of an encoded document *)

Lemma json_nested_ind (P : json -> Prop) :
  P JNull ->
  (forall z, P (JInt z)) ->
  (forall s, P (JStr s)) ->
  (forall items, List.Forall P items -> P (JArr items)) ->
  (forall members, List.Forall (fun kv => P (snd kv)) members -> P (JObj members)) ->
  forall v, P v.
Proof.
  intros Hnull Hint Hstr Harr Hobj.
  fix IH 1. intros [| z | s | items | members].
  - exact Hnull.
  - apply Hint.
  - apply Hstr.
  - apply Harr. induction items as [|x items IHitems]; constructor.
    + apply IH.
    + exact IHitems.
  - apply Hobj. induction members as [|[k x] members IHmembers]; constructor.
    + apply IH.
    + exact IHmembers.
Qed.

Lemma str_of_Z_head (z : Z) :
  exists c r, str_of_Z z = c :: r /\ (c = 45%N \/ is_digit c = true).
Proof.
  destruct z as [|p|p].
  - exists 48%N, []. split; [reflexivity | now right].
  - change (str_of_Z (Z.pos p)) with (uint_cps (Pos.to_uint p)).
    pose proof (to_uint_head p) as H.
    destruct (Pos.to_uint p); try contradiction;
      eexists _, _; (split; [reflexivity | now right]).
  - exists 45%N, (uint_cps (Pos.to_uint p)). split; [reflexivity | now left].
Qed.

Lemma dumps_head (level : nat) (v : json) :
  exists c r, dumps_at level v = c :: r /\ starts_value c.
Proof.
  unfold starts_value.
  destruct v as [| z | s | [|x items] | [|kv members]];
    try (eexists _, _; split; [reflexivity | tauto]).
  destruct (str_of_Z_head z) as (c & r & E & H).
  exists c, r. split; [exact E | tauto].
Qed.

Lemma starts_value_spec (c : N) :
  starts_value c ->
  is_ws c = false /\ (c =? 93)%N = false /\ (c =? 125)%N = false
  /\ (c =? 44)%N = false.
Proof.
  unfold starts_value, is_digit.
  intros [-> | [-> | [-> | [-> | [-> | H]]]]]; try (repeat split; reflexivity).
  apply andb_true_iff in H as [H1 H2]. apply N.leb_le in H1, H2.
  unfold is_ws.
  repeat split;
    repeat match goal with
    | |- context [(c =? ?k)%N] =>
        let E := fresh in destruct (N.eqb_spec c k) as [E | E]; [lia |]
    end; reflexivity.
Qed.

Lemma skip_ws_indent (level : nat) (c : N) (r : pystr) :
  is_ws c = false -> skip_ws (newline_indent level ++ c :: r) = c :: r.
Proof.
  intros Hc. unfold newline_indent. cbn [app skip_ws].
  change (is_ws LF) with true. cbv iota.
  induction (2 * level)%nat as [|n IH]; cbn [repeat app skip_ws].
  - now rewrite Hc.
  - exact IH.
Qed.

Lemma scan_once_number (fuel : nat) (c : N) (r : pystr) :
  c = 45%N \/ is_digit c = true ->
  scan_once (S fuel) (c :: r) = match_number (c :: r).
Proof.
  intros H. cbn [scan_once].
  assert (c <> 34 /\ c <> 123 /\ c <> 91 /\ c <> 110)%N as (H1 & H2 & H3 & H4).
  { destruct H as [-> | H]; [repeat split; discriminate |].
    unfold is_digit in H. apply andb_true_iff in H as [Ha Hb].
    apply N.leb_le in Ha, Hb. lia. }
  apply N.eqb_neq in H1, H2, H3, H4. rewrite H1, H2, H3.
  replace (is_prefix (u "null") (c :: r)) with false; [reflexivity |].
  symmetry. change (u "null") with [110; 117; 108; 108]%N.
  cbn [is_prefix]. rewrite N.eqb_sym, H4. reflexivity.
Qed.

Arguments newline_indent : simpl never.

Lemma ends_value_comma (r : pystr) : ends_value (44%N :: r).
Proof. now left. Qed.

Lemma ends_value_indent (level : nat) (r : pystr) :
  ends_value (newline_indent level ++ r).
Proof. now right. Qed.

Lemma parse_values_round (items : list json) :
  items <> [] ->
  List.Forall round_trips items ->
  forallb well_formed items = true ->
  forall (level : nat) (rest : pystr) (fuel : nat),
    (length (join (u "," ++ newline_indent (S level))
                  (List.map (dumps_at (S level)) items)) < fuel)%nat ->
    parse_values fuel
      (join (u "," ++ newline_indent (S level))
            (List.map (dumps_at (S level)) items)
       ++ newline_indent level ++ 93%N :: rest)
    = Some (List.map decoded items, rest).
Proof.
  intros Hne Hall Hwf level rest.
  induction items as [|v items IH]; [congruence |]. clear Hne.
  apply List.Forall_cons_iff in Hall as [Hv Hall].
  cbn [forallb] in Hwf. apply andb_true_iff in Hwf as [Hwv Hwf].
  intros fuel Hfuel. destruct fuel as [|fuel]; [lia |].
  destruct items as [|v' items'].
  - cbn [List.map join] in *. cbn [parse_values].
    rewrite (Hv Hwv (S level) _ fuel (ends_value_indent level _)) by lia.
    rewrite skip_ws_indent by reflexivity. reflexivity.
  - change (u ",") with [44%N] in *.
    assert (Hlen :
      (length (dumps_at (S level) v) <= fuel
       /\ length (join ([44%N] ++ newline_indent (S level))
                    (List.map (dumps_at (S level)) (v' :: items'))) < fuel)%nat).
    { change (join ([44%N] ++ newline_indent (S level))
                (List.map (dumps_at (S level)) (v :: v' :: items')))
        with (dumps_at (S level) v ++ ([44%N] ++ newline_indent (S level))
              ++ join ([44%N] ++ newline_indent (S level))
                   (List.map (dumps_at (S level)) (v' :: items'))) in Hfuel.
      rewrite !length_app in Hfuel. cbn [length] in Hfuel. lia. }
    destruct Hlen as [Hlen1 Hlen2].
    change (join ([44%N] ++ newline_indent (S level))
              (List.map (dumps_at (S level)) (v :: v' :: items')))
      with (dumps_at (S level) v ++ ([44%N] ++ newline_indent (S level))
            ++ join ([44%N] ++ newline_indent (S level))
                 (List.map (dumps_at (S level)) (v' :: items'))).
    cbn [parse_values]. rewrite <- !app_assoc. cbn [app].
    rewrite (Hv Hwv (S level) _ fuel (ends_value_comma _)) by exact Hlen1.
    cbn [skip_ws]. change (is_ws 44) with false. cbv iota.
    change (44 =? 93)%N with false. change (44 =? 44)%N with true. cbv iota.
    destruct (dumps_head (S level) v') as (c & r & E & Hc).
    apply starts_value_spec in Hc as (Hws & _).
    assert (Hskip : forall tail,
      skip_ws (newline_indent (S level)
               ++ join ([44%N] ++ newline_indent (S level))
                    (List.map (dumps_at (S level)) (v' :: items')) ++ tail)
      = join ([44%N] ++ newline_indent (S level))
             (List.map (dumps_at (S level)) (v' :: items')) ++ tail).
    { intros tail. destruct items'; cbn [List.map join]; rewrite E;
        cbn [app]; now rewrite skip_ws_indent. }
    rewrite Hskip.
    rewrite IH; [reflexivity | discriminate | exact Hall | exact Hwf |].
    exact Hlen2.
Qed.

Lemma member_text_eq (level : nat) (k : pystr) (v : json) :
  member_text level (k, v)
  = 34%N :: List.concat (List.map escape_cp k)
    ++ 34%N :: 58%N :: 32%N :: dumps_at (S level) v.
Proof.
  unfold member_text, encode_basestring_ascii. cbn [fst snd app].
  rewrite <- app_assoc. reflexivity.
Qed.

Lemma members_head (level : nat) (sep : pystr) (kv : pystr * json)
    (members : list (pystr * json)) :
  exists body,
    join sep (List.map (member_text level) (kv :: members)) = 34%N :: body.
Proof.
  destruct kv as [k v]. cbn [List.map]. rewrite member_text_eq.
  destruct members; cbn [List.map join app]; eexists; reflexivity.
Qed.

Lemma skip_ws_space_value (level : nat) (v : json) (tail : pystr) :
  skip_ws (32%N :: dumps_at level v ++ tail) = dumps_at level v ++ tail.
Proof.
  destruct (dumps_head level v) as (c & r & E & Hc).
  apply starts_value_spec in Hc as (Hws & _).
  rewrite E. cbn [skip_ws app]. change (is_ws 32) with true. cbv iota.
  now rewrite Hws.
Qed.

Lemma parse_pairs_round (members : list (pystr * json)) :
  members <> [] ->
  List.Forall (fun kv => round_trips (snd kv)) members ->
  forallb (fun kv => forallb is_code_point (fst kv) && well_formed (snd kv))
          members = true ->
  forall (level : nat) (rest : pystr) (fuel : nat) (body : pystr),
    join (u "," ++ newline_indent (S level))
         (List.map (member_text level) members) = 34%N :: body ->
    (length body < fuel)%nat ->
    parse_pairs fuel (body ++ newline_indent level ++ 125%N :: rest)
    = Some (List.map (fun kv => (join_surrogates (fst kv), decoded (snd kv)))
                     members, rest).
Proof.
  intros Hne Hall Hwf level rest.
  assert (Hs1 := skip_ws_indent (S level)).
  assert (Hs0 := skip_ws_indent level).
  assert (He0 := ends_value_indent level).
  set (nl1 := newline_indent (S level)) in *.
  set (nl0 := newline_indent level) in *. clearbody nl1 nl0.
  induction members as [|[k v] members IH]; [congruence |]. clear Hne.
  apply List.Forall_cons_iff in Hall as [Hv Hall]. cbn [snd] in Hv.
  cbn [forallb fst snd] in Hwf.
  apply andb_true_iff in Hwf as [Hwkv Hwf].
  apply andb_true_iff in Hwkv as [Hwk Hwv].
  intros fuel body Hbody Hfuel. destruct fuel as [|fuel]; [lia |].
  change (u ",") with [44%N] in *.
  destruct members as [|kv' members'].
  - cbn [List.map join] in Hbody. rewrite member_text_eq in Hbody.
    injection Hbody as <-.
    rewrite length_app in Hfuel. cbn [length] in Hfuel.
    cbn [parse_pairs]. rewrite <- app_assoc. cbn [app].
    rewrite scan_encoded by exact Hwk.
    cbn [skip_ws]. change (is_ws 58) with false. cbv iota.
    change (58 =? 58)%N with true. cbv iota.
    rewrite skip_ws_space_value.
    rewrite (Hv Hwv (S level) _ fuel (He0 _)) by lia.
    rewrite Hs0 by reflexivity. reflexivity.
  - destruct (members_head level ([44%N] ++ nl1)
                kv' members') as (body' & Hbody').
    change (join ([44%N] ++ nl1)
              (List.map (member_text level) ((k, v) :: kv' :: members')))
      with (member_text level (k, v) ++ ([44%N] ++ nl1)
            ++ join ([44%N] ++ nl1)
                 (List.map (member_text level) (kv' :: members'))) in Hbody.
    rewrite Hbody', member_text_eq in Hbody. cbn [app] in Hbody.
    injection Hbody as <-.
    rewrite !length_app in Hfuel. cbn [length] in Hfuel.
    rewrite !length_app in Hfuel. cbn [length] in Hfuel.
    cbn [parse_pairs]. rewrite <- !app_assoc. cbn [app].
    rewrite scan_encoded by exact Hwk.
    cbn [skip_ws]. change (is_ws 58) with false. cbv iota.
    change (58 =? 58)%N with true. cbv iota.
    rewrite <- !app_assoc. cbn [app].
    rewrite skip_ws_space_value.
    rewrite (Hv Hwv (S level) _ fuel (ends_value_comma _)) by lia.
    cbn [skip_ws]. change (is_ws 44) with false. cbv iota.
    change (44 =? 125)%N with false. change (44 =? 44)%N with true. cbv iota.
    rewrite Hs1 by reflexivity.
    change (34 =? 34)%N with true. cbv iota.
    rewrite (IH ltac:(discriminate) Hall Hwf fuel body' Hbody') by lia.
    reflexivity.
Qed.

Lemma values_head (level : nat) (sep : pystr) (v : json) (items : list json) :
  exists c r,
    join sep (List.map (dumps_at level) (v :: items)) = c :: r
    /\ starts_value c.
Proof.
  destruct (dumps_head level v) as (c & r & E & Hc).
  destruct items; cbn [List.map join]; rewrite E; cbn [app];
    eexists _, _; (split; [reflexivity | exact Hc]).
Qed.

Lemma dumps_at_arr (level : nat) (v : json) (items : list json) :
  dumps_at level (JArr (v :: items))
  = 91%N :: newline_indent (S level)
    ++ join (u "," ++ newline_indent (S level))
            (List.map (dumps_at (S level)) (v :: items))
    ++ newline_indent level ++ [93%N].
Proof. reflexivity. Qed.

Lemma dumps_at_obj (level : nat) (kv : pystr * json)
    (members : list (pystr * json)) :
  dumps_at level (JObj (kv :: members))
  = 123%N :: newline_indent (S level)
    ++ join (u "," ++ newline_indent (S level))
            (List.map (member_text level) (kv :: members))
    ++ newline_indent level ++ [125%N].
Proof. reflexivity. Qed.

Lemma length_newline_indent (level : nat) :
  (1 <= length (newline_indent level))%nat.
Proof. unfold newline_indent. cbn [length]. lia. Qed.

Lemma scan_once_round (v : json) : round_trips v.
Proof.
  induction v as [| z | s | items IH | members IH] using json_nested_ind;
    intros Hwf level rest fuel Hrest Hfuel.
  - destruct fuel as [|fuel]; [cbn in Hfuel; lia |]. reflexivity.
  - destruct (str_of_Z_head z) as (c & r & E & Hc).
    destruct fuel as [|fuel]; [cbn in Hfuel; rewrite E in Hfuel; cbn in Hfuel; lia |].
    cbn [dumps_at decoded]. rewrite E. cbn [app].
    rewrite scan_once_number by exact Hc.
    change (c :: r ++ rest) with ((c :: r) ++ rest). rewrite <- E.
    now apply match_number_str.
  - destruct fuel as [|fuel]; [cbn in Hfuel; lia |].
    cbn [dumps_at decoded well_formed] in *. unfold encode_basestring_ascii.
    cbn [app scan_once]. change (34 =? 34)%N with true. cbv iota.
    rewrite <- app_assoc. cbn [app]. now rewrite scan_encoded.
  - destruct items as [|x items].
    + destruct fuel as [|fuel]; [cbn in Hfuel; lia |]. reflexivity.
    + cbn [well_formed decoded] in *.
      rewrite dumps_at_arr in *.
      destruct (values_head (S level) (u "," ++ newline_indent (S level)) x items)
        as (c & r & E & Hc).
      apply starts_value_spec in Hc as (Hws & Hc93 & _).
      pose proof (length_newline_indent (S level)) as Hl1.
      pose proof (length_newline_indent level) as Hl0.
      cbn [length] in Hfuel. rewrite !length_app in Hfuel. cbn [length] in Hfuel.
      destruct fuel as [|fuel]; [lia |].
      cbn [app scan_once].
      change (91 =? 34)%N with false. change (91 =? 123)%N with false.
      change (91 =? 91)%N with true. cbv iota.
      rewrite <- !app_assoc. cbn [app].
      rewrite E at 1. cbn [app]. rewrite skip_ws_indent by exact Hws.
      rewrite Hc93.
      change (c :: r ++ newline_indent level ++ 93%N :: rest)
        with ((c :: r) ++ newline_indent level ++ 93%N :: rest).
      rewrite <- E.
      rewrite parse_values_round; [reflexivity | discriminate | exact IH
                                  | exact Hwf | lia].
  - destruct members as [|kv members].
    + destruct fuel as [|fuel]; [cbn in Hfuel; lia |]. reflexivity.
    + cbn [well_formed decoded] in *.
      rewrite dumps_at_obj in *.
      destruct (members_head level (u "," ++ newline_indent (S level)) kv members)
        as (body & E).
      pose proof (length_newline_indent (S level)) as Hl1.
      pose proof (length_newline_indent level) as Hl0.
      cbn [length] in Hfuel. rewrite !length_app in Hfuel. cbn [length] in Hfuel.
      rewrite E in Hfuel. cbn [length] in Hfuel.
      destruct fuel as [|fuel]; [lia |].
      cbn [app scan_once].
      change (123 =? 34)%N with false. change (123 =? 123)%N with true.
      cbv iota.
      rewrite <- !app_assoc. cbn [app].
      rewrite E at 1. cbn [app]. rewrite skip_ws_indent by reflexivity.
      change (34 =? 125)%N with false. change (34 =? 34)%N with true. cbv iota.
      rewrite (parse_pairs_round (kv :: members) ltac:(discriminate) IH Hwf
                 level rest fuel body E) by lia.
      reflexivity.
Qed.

(** [json.loads(json.dumps(v, indent=2))] succeeds and returns [decoded v]. *)
Lemma loads_dumps (v : json) :
  well_formed v = true -> loads (dumps v) = Some (decoded v).
Proof.
  intros Hwf. unfold loads, dumps.
  destruct (dumps_head 0 v) as (c & r & E & Hc).
  apply starts_value_spec in Hc as (Hws & _).
  assert (Hskip : skip_ws (dumps_at 0 v) = dumps_at 0 v)
    by (rewrite E; cbn [skip_ws]; now rewrite Hws).
  rewrite Hskip. rewrite <- (app_nil_r (dumps_at 0 v)) at 2.
  rewrite (scan_once_round v Hwf 0%nat [] _ I) by lia.
  reflexivity.
Qed.

Lemma bundle_lookup (a b c d e f : json) :
  let obj :=
    JObj [(u "story_concept", a); (u "characters", b); (u "story_arcs", c);
          (u "milestones", d); (u "dialogue_scenes", e); (u "export_date", f)] in
  getitem obj (u "story_concept") = Some a
  /\ getitem obj (u "characters") = Some b
  /\ getitem obj (u "story_arcs") = Some c
  /\ getitem obj (u "milestones") = Some d
  /\ getitem obj (u "dialogue_scenes") = Some e.
Proof. vm_compute. repeat split; reflexivity. Qed.

Lemma decoded_bundle_fields (data : ExportBundle) :
  let obj := decoded (json_of_bundle data) in
  getitem obj (u "story_concept")
  = Some (JStr (join_surrogates (story_concept data)))
  /\ array_len obj (u "characters") = Some (len (characters data))
  /\ array_len obj (u "story_arcs") = Some (len (story_arcs data))
  /\ array_len obj (u "milestones") = Some (len (milestones data))
  /\ array_len obj (u "dialogue_scenes") = Some (len (dialogue_scenes data)).
Proof.
  cbv zeta.
  change (decoded (json_of_bundle data))
    with (JObj [(u "story_concept", JStr (join_surrogates (story_concept data)));
                (u "characters",
                   JArr (List.map decoded
                           (List.map json_of_character (characters data))));
                (u "story_arcs",
                   JArr (List.map decoded (List.map json_of_arc (story_arcs data))));
                (u "milestones",
                   JArr (List.map decoded
                           (List.map json_of_milestone (milestones data))));
                (u "dialogue_scenes",
                   JArr (List.map decoded
                           (List.map json_of_scene (dialogue_scenes data))));
                (u "export_date", JStr (join_surrogates (export_date data)))]).
  match goal with
  | |- context [JObj [(_, ?a); (_, ?b); (_, ?c); (_, ?d); (_, ?e); (_, ?f)]] =>
      destruct (bundle_lookup a b c d e f) as (H1 & H2 & H3 & H4 & H5)
  end.
  unfold array_len. rewrite H1, H2, H3, H4, H5. unfold len.
  rewrite !length_map. repeat split; reflexivity.
Qed.

Lemma join_surrogates_length (s : pystr) :
  (length (join_surrogates s) <= length s)%nat.
Proof.
  remember (length s) as n eqn:Hn. revert s Hn.
  induction n as [n IH] using lt_wf_ind. intros s Hn.
  destruct s as [|c [|l r]]; subst n;
    [apply Nat.le_refl | apply Nat.le_refl |].
  change (join_surrogates (c :: l :: r))
    with (if is_high_surrogate c && is_low_surrogate l
          then join_pair c l :: join_surrogates r
          else c :: join_surrogates (l :: r)).
  destruct (is_high_surrogate c && is_low_surrogate l); cbn [length] in *.
  - specialize (IH (length r) ltac:(lia) r eq_refl). lia.
  - specialize (IH (length (l :: r)) ltac:(cbn [length]; lia) (l :: r) eq_refl).
    cbn [length] in IH. lia.
Qed.

Lemma join_surrogates_fixed (s : pystr) :
  join_surrogates s = s <-> surrogate_pair_free s = true.
Proof.
  split; [| apply join_surrogates_free].
  induction s as [|c r IH]; [reflexivity |].
  cbn [surrogate_pair_free join_surrogates]. destruct r as [|l r']; [reflexivity |].
  destruct (is_high_surrogate c && is_low_surrogate l).
  - intros H. apply (f_equal (@length N)) in H. cbn [length] in H.
    pose proof (join_surrogates_length r'). lia.
  - intros [= H]. cbn [negb andb]. now apply IH.
Qed.

(** C3 (as amended).  For a bundle whose strings are sequences of Unicode
    code points, the JSON export parses back to an object whose four lists
    have the lengths of the inputs and whose story_concept is the concept
    with every high surrogate that is immediately followed by a low
    surrogate joined to it: it is the concept itself exactly when the
    concept has no such pair, as every well-formed Unicode text does. *)
Theorem json_export_round_trip (linesep now concept : pystr)
    (cs : list Character) (arcs : list StoryArc) (ms : list Milestone)
    (scenes : list DialogueScene) :
  well_formed
    (json_of_bundle
       {| story_concept := concept; characters := cs; story_arcs := arcs;
          milestones := ms; dialogue_scenes := scenes; export_date := now |})
  = true ->
  exists (text : pystr) (obj : json),
    export_script_format linesep now concept cs arcs ms scenes (u "JSON")
    = Some text
    /\ loads text = Some obj
    /\ getitem obj (u "story_concept") = Some (JStr (join_surrogates concept))
    /\ (getitem obj (u "story_concept") = Some (JStr concept)
        <-> surrogate_pair_free concept = true)
    /\ array_len obj (u "characters") = Some (len cs)
    /\ array_len obj (u "story_arcs") = Some (len arcs)
    /\ array_len obj (u "milestones") = Some (len ms)
    /\ array_len obj (u "dialogue_scenes") = Some (len scenes).
Proof.
  intros Hwf.
  set (data := {| story_concept := concept; characters := cs;
                  story_arcs := arcs; milestones := ms;
                  dialogue_scenes := scenes; export_date := now |}) in *.
  exists (dumps (json_of_bundle data)), (decoded (json_of_bundle data)).
  split; [reflexivity |]. split; [now apply loads_dumps |].
  destruct (decoded_bundle_fields data) as (H1 & H2 & H3 & H4 & H5).
  cbn [story_concept characters story_arcs milestones dialogue_scenes data]
    in H1, H2, H3, H4, H5.
  split; [exact H1 |]. split; [| repeat split; assumption].
  rewrite H1, <- join_surrogates_fixed. split; congruence.
Qed.

Lemma json_export_round_trip_witness :
  exists (text : pystr) (obj : json),
    export_script_format [LF] (u "2024-01-02T00:00:00") (u "A seaside mystery")
      [ava] [] [reveal] [] (u "JSON") = Some text
    /\ loads text = Some obj
    /\ getitem obj (u "story_concept")
       = Some (JStr (join_surrogates (u "A seaside mystery")))
    /\ (getitem obj (u "story_concept") = Some (JStr (u "A seaside mystery"))
        <-> surrogate_pair_free (u "A seaside mystery") = true)
    /\ array_len obj (u "characters") = Some (len [ava])
    /\ array_len obj (u "story_arcs") = Some (len (@nil StoryArc))
    /\ array_len obj (u "milestones") = Some (len [reveal])
    /\ array_len obj (u "dialogue_scenes") = Some (len (@nil DialogueScene)).
Proof.
  apply (json_export_round_trip [LF] (u "2024-01-02T00:00:00")
           (u "A seaside mystery") [ava] [] [reveal] []).
  vm_compute. reflexivity.
Defined.

(** C3 for every concept string does not hold: a concept made of a high
    surrogate followed by a low surrogate is written as two escapes, which
    the parser reads back as the single code point U+1F600. *)
Lemma json_round_trip_joins_surrogates :
  let concept := [55357%N; 56832%N] in
  exists (text : pystr) (obj : json),
    export_script_format [LF] (u "2024-01-02T00:00:00") concept [] [] [] []
      (u "JSON") = Some text
    /\ loads text = Some obj
    /\ getitem obj (u "story_concept") = Some (JStr [128512%N])
    /\ getitem obj (u "story_concept") <> Some (JStr concept).
Proof.
  cbv zeta. eexists _, _. split; [reflexivity |].
  split; [vm_compute; reflexivity |].
  split; [vm_compute; reflexivity | vm_compute; discriminate].
Qed.

(** ** The limit on the conversion of integers to text *)

Arguments Limit.fits : simpl never.

Lemma mapM_guard {A B} (f : A -> option B) (g : A -> B) (ok : A -> bool)
    (l : list A) :
  List.Forall (fun x => f x = if ok x then Some (g x) else None) l ->
  mapM f l = if forallb ok l then Some (List.map g l) else None.
Proof.
  induction 1 as [|x l Hx _ IH]; [reflexivity |].
  cbn [mapM forallb List.map]. change (mapM f l) with (mapM f l) in IH.
  rewrite Hx. destruct (ok x); [| reflexivity]. cbn [mbind option_bind andb].
  rewrite IH. destruct (forallb ok l); reflexivity.
Qed.

Lemma dumps_at_limit (v : json) (level : nat) :
  Limit.dumps_at level v
  = if ints_fit v then Some (dumps_at level v) else None.
Proof.
  revert level. induction v as [| z | s | items IH | members IH]
    using json_nested_ind; intros level.
  - reflexivity.
  - reflexivity.
  - reflexivity.
  - destruct items as [|x items]; [reflexivity |].
    change (Limit.dumps_at level (JArr (x :: items)))
      with (chunks ← mapM (Limit.dumps_at (S level)) (x :: items);
            Some (u "[" ++ newline_indent (S level)
                  ++ join (u "," ++ newline_indent (S level)) chunks
                  ++ newline_indent level ++ u "]")).
    rewrite (mapM_guard _ (dumps_at (S level)) ints_fit).
    + change (ints_fit (JArr (x :: items))) with (forallb ints_fit (x :: items)).
      destruct (forallb ints_fit (x :: items)); reflexivity.
    + eapply List.Forall_impl; [| exact IH]. intros y Hy. apply Hy.
  - destruct members as [|kv members]; [reflexivity |].
    change (Limit.dumps_at level (JObj (kv :: members)))
      with (chunks ← mapM (fun kv =>
                             value ← Limit.dumps_at (S level) (snd kv);
                             Some (encode_basestring_ascii (fst kv) ++ u ": "
                                   ++ value))
                          (kv :: members);
            Some (u "{" ++ newline_indent (S level)
                  ++ join (u "," ++ newline_indent (S level)) chunks
                  ++ newline_indent level ++ u "}")).
    rewrite (mapM_guard _ (member_text level) (fun kv => ints_fit (snd kv))).
    + change (ints_fit (JObj (kv :: members)))
        with (forallb (fun kv => ints_fit (snd kv)) (kv :: members)).
      destruct (forallb _ (kv :: members)); reflexivity.
    + eapply List.Forall_impl; [| exact IH]. intros y Hy. cbv beta.
      rewrite Hy. destruct (ints_fit (snd y)); reflexivity.
Qed.

Lemma forallb_map {A B} (f : A -> B) (p : B -> bool) (l : list A) :
  forallb p (List.map f l) = forallb (fun x => p (f x)) l.
Proof. induction l as [|x l IH]; [reflexivity |]. cbn. now rewrite IH. Qed.

Lemma forallb_same {A} (p q : A -> bool) (l : list A) :
  (forall x, p x = q x) -> forallb p l = forallb q l.
Proof.
  intros H. induction l as [|x l IH]; [reflexivity |]. cbn. now rewrite H, IH.
Qed.

Lemma ints_fit_bundle (data : ExportBundle) :
  ints_fit (json_of_bundle data) = bundle_fits data.
Proof.
  unfold json_of_bundle, bundle_fits.
  cbn [ints_fit forallb snd]. rewrite !forallb_map.
  rewrite !andb_true_r.
  assert (Hc : forallb (fun c => ints_fit (json_of_character c)) (characters data)
               = forallb character_fits (characters data)).
  { apply forallb_same. intros c. unfold json_of_character, character_fits.
    cbn [ints_fit forallb snd]. now rewrite andb_true_r. }
  assert (Ha : forallb (fun a => ints_fit (json_of_arc a)) (story_arcs data)
               = forallb arc_fits (story_arcs data)).
  { apply forallb_same. intros a. unfold json_of_arc, arc_fits, json_of_strs.
    cbn [ints_fit forallb snd]. rewrite forallb_map. cbn [ints_fit].
    assert (forallb (fun _ : pystr => true) (arc_characters a) = true) as ->
      by (induction (arc_characters a); [reflexivity | assumption]).
    now rewrite !andb_true_r. }
  assert (Hm : forallb (fun m => ints_fit (json_of_milestone m)) (milestones data)
               = forallb milestone_fits (milestones data)).
  { apply forallb_same. intros m. unfold json_of_milestone, milestone_fits.
    cbn [ints_fit forallb snd].
    destruct (ms_related_arc m); cbn [ints_fit]; now rewrite !andb_true_r. }
  assert (Hs : forallb (fun s => ints_fit (json_of_scene s)) (dialogue_scenes data)
               = forallb scene_fits (dialogue_scenes data)).
  { apply forallb_same. intros s. unfold json_of_scene, scene_fits, json_of_strs.
    cbn [ints_fit forallb snd]. rewrite !forallb_map. cbn [ints_fit].
    assert (Htrue : forall l : list pystr, forallb (fun _ => true) l = true)
      by (intros l; induction l; [reflexivity | assumption]).
    now rewrite !Htrue, !andb_true_r. }
  rewrite Hc, Ha, Hm, Hs. now rewrite !andb_assoc.
Qed.

Lemma dumps_limit (data : ExportBundle) :
  Limit.dumps (json_of_bundle data)
  = if bundle_fits data then Some (dumps (json_of_bundle data)) else None.
Proof. unfold Limit.dumps. now rewrite dumps_at_limit, ints_fit_bundle. Qed.

Lemma str_limit (z : Z) :
  Limit.str z = if Limit.fits z then Some (str_of_Z z) else None.
Proof. reflexivity. Qed.

Lemma md_character_limit (c : Character) :
  Limit.md_character c
  = if character_fits c then Some (md_character c) else None.
Proof.
  unfold Limit.md_character, character_fits. rewrite str_limit.
  destruct (Limit.fits (char_age c)); reflexivity.
Qed.

Lemma md_arc_limit (a : StoryArc) :
  Limit.md_arc a = if arc_fits a then Some (md_arc a) else None.
Proof.
  unfold Limit.md_arc, arc_fits. rewrite !str_limit.
  destruct (Limit.fits (arc_start_chapter a)),
    (Limit.fits (arc_end_chapter a)); reflexivity.
Qed.

Lemma md_milestone_limit (m : Milestone) :
  Limit.md_milestone m
  = if milestone_fits m then Some (md_milestone m) else None.
Proof.
  unfold Limit.md_milestone, milestone_fits. rewrite str_limit.
  destruct (Limit.fits (ms_chapter m)); reflexivity.
Qed.

Lemma md_branches_limit (i : Z) (branches : list pystr) :
  Limit.md_branches i branches
  = if numbers_fit i branches then Some (md_branches i branches) else None.
Proof.
  revert i. induction branches as [|b r IH]; intros i; [reflexivity |].
  cbn [Limit.md_branches numbers_fit md_branches]. rewrite str_limit, IH.
  destruct (Limit.fits i), (numbers_fit (i + 1) r); reflexivity.
Qed.

Lemma md_scene_limit (s : DialogueScene) :
  Limit.md_scene s
  = if scene_fits s && numbers_fit 1 (scene_branches s)
    then Some (md_scene s) else None.
Proof.
  unfold Limit.md_scene, md_scene, scene_fits.
  rewrite str_limit, md_branches_limit.
  destruct (Limit.fits (scene_chapter s)); [| reflexivity].
  destruct (scene_branches s) as [|b r]; [reflexivity |].
  cbn [nonempty andb]. destruct (numbers_fit 1 (b :: r)); reflexivity.
Qed.

Lemma md_section_limit {A} (heading : pystr)
    (entry : A -> option (list pystr)) (lines : A -> list pystr)
    (ok : A -> bool) (records : list A) :
  (forall x, entry x = if ok x then Some (lines x) else None) ->
  Limit.md_section heading entry records
  = if forallb ok records
    then Some (if nonempty records
               then (LF :: heading) :: flat_map lines records else [])
    else None.
Proof.
  intros Hentry. unfold Limit.md_section.
  destruct records as [|x records]; [reflexivity |]. cbn [nonempty].
  rewrite (mapM_guard entry lines ok)
    by (apply List.Forall_forall; intros y _; apply Hentry).
  destruct (forallb ok (x :: records)); [| reflexivity].
  cbn [mbind option_bind]. now rewrite <- flat_map_concat_map.
Qed.

Lemma forallb_perm {A} (p : A -> bool) (l l' : list A) :
  Permutation l l' -> forallb p l = forallb p l'.
Proof.
  induction 1 as [|x l l' _ IH|x y l|l l' l'' _ IH1 _ IH2]; cbn [forallb].
  - reflexivity.
  - now rewrite IH.
  - destruct (p x), (p y); reflexivity.
  - congruence.
Qed.

Lemma nonempty_sorted_by {A} (key : A -> Z) (l : list A) :
  nonempty (sorted_by key l) = nonempty l.
Proof.
  pose proof (Permutation_length (sorted_by_perm key l)) as H.
  now destruct (sorted_by key l), l.
Qed.

Lemma generate_markdown_export_limit (data : ExportBundle) :
  Limit.generate_markdown_export data
  = if markdown_fits data then Some (generate_markdown_export data) else None.
Proof.
  unfold Limit.generate_markdown_export, markdown_fits.
  rewrite (md_section_limit _ _ md_character character_fits)
    by apply md_character_limit.
  destruct (forallb character_fits (characters data)); [| reflexivity].
  cbn [mbind option_bind andb].
  rewrite (md_section_limit _ _ md_arc arc_fits) by apply md_arc_limit.
  destruct (forallb arc_fits (story_arcs data)); [| reflexivity].
  cbn [mbind option_bind andb].
  rewrite (md_section_limit _ _ md_milestone milestone_fits)
    by apply md_milestone_limit.
  rewrite (forallb_perm _ _ _ (sorted_by_perm ms_chapter (milestones data))).
  destruct (forallb milestone_fits (milestones data)); [| reflexivity].
  cbn [mbind option_bind andb].
  rewrite (md_section_limit _ _ md_scene
             (fun s => scene_fits s && numbers_fit 1 (scene_branches s)))
    by apply md_scene_limit.
  destruct (forallb _ (dialogue_scenes data)); [| reflexivity].
  cbn [mbind option_bind].
  unfold generate_markdown_export, md_characters, md_story_arcs, md_milestones,
    md_dialogue_scenes. cbv zeta.
  rewrite (nonempty_sorted_by ms_chapter). reflexivity.
Qed.

Lemma to_csv_limit (linesep : pystr) (columns : pystr * pystr)
    (rows : list (pystr * Z)) :
  Limit.to_csv linesep columns rows
  = if forallb (fun r => Limit.fits (snd r)) rows
    then Some (to_csv linesep columns rows) else None.
Proof.
  unfold Limit.to_csv, to_csv.
  rewrite (mapM_guard _
             (fun r => fst r ++ u "," ++ str_of_Z (snd r) ++ linesep)
             (fun r => Limit.fits (snd r))).
  - destruct (forallb _ rows); reflexivity.
  - apply List.Forall_forall. intros r _. cbv beta. rewrite str_limit.
    destruct (Limit.fits (snd r)); reflexivity.
Qed.

Lemma generate_csv_summary_limit (linesep : pystr) (data : ExportBundle) :
  Limit.generate_csv_summary linesep data
  = if csv_fits data then generate_csv_summary linesep data else None.
Proof.
  unfold Limit.generate_csv_summary, generate_csv_summary, csv_fits.
  destruct (summary_data data) as [rows|]; [| reflexivity].
  cbn [mbind option_bind]. rewrite to_csv_limit.
  destruct (forallb _ rows); reflexivity.
Qed.

(** With the check, an export is the export computed above when the
    integers it writes have at most 4300 digits, and a [ValueError]
    otherwise. *)
Lemma export_script_format_limit (linesep now concept : pystr)
    (cs : list Character) (arcs : list StoryArc) (ms : list Milestone)
    (scenes : list DialogueScene) (format_type : pystr) :
  Limit.export_script_format linesep now concept cs arcs ms scenes format_type
  = if export_fits format_type (bundle_of now concept cs arcs ms scenes)
    then export_script_format linesep now concept cs arcs ms scenes format_type
    else None.
Proof.
  unfold Limit.export_script_format, export_script_format, export_fits.
  fold (bundle_of now concept cs arcs ms scenes).
  rewrite dumps_limit, generate_markdown_export_limit,
    generate_csv_summary_limit.
  unfold str_eqb.
  destruct (bool_decide_reflect (format_type = u "JSON")) as [-> | Hj].
  - change (bool_decide (u "JSON" = u "Markdown")) with false.
    change (bool_decide (u "JSON" = u "CSV Summary")) with false.
    reflexivity.
  - destruct (bool_decide (format_type = u "Markdown")); [reflexivity |].
    destruct (bool_decide (format_type = u "CSV Summary")); reflexivity.
Qed.

Lemma pacing_fold_limit_none (mc : list Z) (idx : list nat) :
  fold_left (Limit.pacing_step mc) idx None = None.
Proof. induction idx; [reflexivity | exact IHidx]. Qed.

Lemma pacing_fold_limit (mc pre : list Z) (acc : list pystr) :
  fold_left (Limit.pacing_step (pre ++ mc))
            (seq (length pre) (length mc - 1)) (Some acc)
  = if forallb (fun p => Limit.fits (fst p) && Limit.fits (snd p))
               (List.filter wide (adjacent_pairs mc))
    then Some (acc ++ List.map gap_text (List.filter wide (adjacent_pairs mc)))
    else None.
Proof.
  revert pre acc. induction mc as [|a mc IH]; intros pre acc.
  - cbn. now rewrite app_nil_r.
  - destruct mc as [|b r].
    + cbn. now rewrite app_nil_r.
    + replace (length (a :: b :: r) - 1)%nat with (S (length (b :: r) - 1))
        by (cbn; lia).
      cbn [seq fold_left]. unfold Limit.pacing_step at 2.
      cbn [mbind option_bind].
      rewrite (list_lookup_middle pre (b :: r) a (length pre) eq_refl).
      cbn [mbind option_bind].
      replace (pre ++ a :: b :: r) with ((pre ++ [a]) ++ b :: r)
        by now rewrite <- app_assoc.
      rewrite (list_lookup_middle (pre ++ [a]) r b (S (length pre)))
        by (rewrite length_app; cbn; lia).
      cbn [mbind option_bind].
      replace (S (length pre)) with (length (pre ++ [a]))
        by (rewrite length_app; cbn; lia).
      change (adjacent_pairs (a :: b :: r))
        with ((a, b) :: adjacent_pairs (b :: r)).
      cbn [List.filter].
      change (wide (a, b)) with (3 <? b - a).
      destruct (3 <? b - a).
      * unfold Limit.gap_message. rewrite !str_limit. cbn [forallb fst snd].
        destruct (Limit.fits a); cbn [mbind option_bind andb];
          [| apply pacing_fold_limit_none].
        destruct (Limit.fits b); cbn [mbind option_bind andb];
          [| apply pacing_fold_limit_none].
        rewrite IH. cbn [List.map]. rewrite <- app_assoc. reflexivity.
      * apply IH.
Qed.

Lemma pacing_loop_limit (mc : list Z) :
  Limit.pacing_loop mc
  = if forallb (fun p => Limit.fits (fst p) && Limit.fits (snd p))
               (List.filter wide (adjacent_pairs mc))
    then pacing_loop mc else None.
Proof.
  rewrite pacing_loop_spec. exact (pacing_fold_limit mc [] []).
Qed.

Lemma analyze_story_structure_limit
    (cs : list Character) (arcs : list StoryArc) (ms : list Milestone) :
  Limit.analyze_story_structure cs arcs ms
  = if pacing_fits ms then analyze_story_structure cs arcs ms else None.
Proof.
  unfold Limit.analyze_story_structure, analyze_story_structure, pacing_fits.
  destruct (if nonempty ms then py_max (List.map ms_chapter ms)
            else if nonempty arcs then py_max (List.map arc_end_chapter arcs)
            else Some 0) as [est|]; cbn [mbind option_bind].
  - destruct ms as [|m ms]; [reflexivity |]. cbn [nonempty].
    rewrite pacing_loop_limit. destruct (forallb _ _); reflexivity.
  - destruct (forallb _ _); reflexivity.
Qed.

(** ** Unknown export formats *)

(** C4 (as amended).  A format string other than "JSON", "Markdown" and
    "CSV Summary" makes [export_script_format] do exactly what it does for
    "JSON" on the same inputs: when every age and chapter has at most 4300
    digits it raises nothing and returns the JSON export; when one has more,
    both calls raise the [ValueError] of the conversion of that integer. *)
Theorem unknown_format_is_json (linesep now concept : pystr)
    (cs : list Character) (arcs : list StoryArc) (ms : list Milestone)
    (scenes : list DialogueScene) (format_type : pystr) :
  format_type <> u "JSON" ->
  format_type <> u "Markdown" ->
  format_type <> u "CSV Summary" ->
  Limit.export_script_format linesep now concept cs arcs ms scenes format_type
  = Limit.export_script_format linesep now concept cs arcs ms scenes (u "JSON")
  /\ (bundle_fits (bundle_of now concept cs arcs ms scenes) = true ->
      exists out : pystr,
        Limit.export_script_format linesep now concept cs arcs ms scenes
          format_type = Some out
        /\ Limit.export_script_format linesep now concept cs arcs ms scenes
             (u "JSON") = Some out
        /\ out <> [])
  /\ (bundle_fits (bundle_of now concept cs arcs ms scenes) = false ->
      Limit.export_script_format linesep now concept cs arcs ms scenes
        format_type = None).
Proof.
  intros Hj Hm Hc.
  assert (Hsame :
    Limit.export_script_format linesep now concept cs arcs ms scenes format_type
    = Limit.export_script_format linesep now concept cs arcs ms scenes
        (u "JSON")).
  { unfold Limit.export_script_format, str_eqb.
    rewrite !bool_decide_eq_false_2 by assumption.
    now rewrite bool_decide_eq_true_2 by reflexivity. }
  assert (Hjson :
    Limit.export_script_format linesep now concept cs arcs ms scenes (u "JSON")
    = if bundle_fits (bundle_of now concept cs arcs ms scenes)
      then Some (dumps (json_of_bundle
                          (bundle_of now concept cs arcs ms scenes)))
      else None).
  { rewrite <- dumps_limit. reflexivity. }
  split; [exact Hsame |]. rewrite Hsame, Hjson. split.
  - intros ->. eexists. split; [reflexivity |]. split; [reflexivity |].
    destruct (dumps_head 0 (json_of_bundle
                              (bundle_of now concept cs arcs ms scenes)))
      as (c & r & E & _).
    unfold dumps. rewrite E. discriminate.
  - intros ->. reflexivity.
Qed.

Lemma unknown_format_is_json_witness :
  bundle_fits (bundle_of (u "2024-01-02T00:00:00") (u "A seaside mystery")
                 [ava] [] [reveal] []) = true
  /\ Limit.export_script_format [LF] (u "2024-01-02T00:00:00")
       (u "A seaside mystery") [ava] [] [reveal] [] (u "XML")
     = Limit.export_script_format [LF] (u "2024-01-02T00:00:00")
         (u "A seaside mystery") [ava] [] [reveal] [] (u "JSON")
  /\ (bundle_fits (bundle_of (u "2024-01-02T00:00:00") (u "A seaside mystery")
                     [ava] [] [reveal] []) = true ->
      exists out : pystr,
        Limit.export_script_format [LF] (u "2024-01-02T00:00:00")
          (u "A seaside mystery") [ava] [] [reveal] [] (u "XML") = Some out
        /\ Limit.export_script_format [LF] (u "2024-01-02T00:00:00")
             (u "A seaside mystery") [ava] [] [reveal] [] (u "JSON") = Some out
        /\ out <> [])
  /\ (bundle_fits (bundle_of (u "2024-01-02T00:00:00") (u "A seaside mystery")
                     [ava] [] [reveal] []) = false ->
      Limit.export_script_format [LF] (u "2024-01-02T00:00:00")
        (u "A seaside mystery") [ava] [] [reveal] [] (u "XML") = None).
Proof.
  split; [vm_compute; reflexivity |].
  apply (unknown_format_is_json [LF] (u "2024-01-02T00:00:00")
           (u "A seaside mystery") [ava] [] [reveal] [] (u "XML"));
    vm_compute; discriminate.
Defined.

(** C4 with "raises no error for every input" does not hold: with a
    milestone whose chapter has 4301 digits, the export in the unknown
    format "XML" raises, as the export in the format "JSON" does. *)
Lemma unknown_format_raises_on_long_int :
  u "XML" <> u "JSON" /\ u "XML" <> u "Markdown" /\ u "XML" <> u "CSV Summary"
  /\ Limit.fits (ms_chapter far_milestone) = false
  /\ Limit.export_script_format [LF] (u "2024-01-02T00:00:00")
       (u "A seaside mystery") [ava] [] [far_milestone] [] (u "XML") = None
  /\ Limit.export_script_format [LF] (u "2024-01-02T00:00:00")
       (u "A seaside mystery") [ava] [] [far_milestone] [] (u "JSON") = None.
Proof.
  split; [vm_compute; discriminate |]. split; [vm_compute; discriminate |].
  split; [vm_compute; discriminate |]. split; [vm_compute; reflexivity |].
  split; vm_compute; reflexivity.
Qed.


(** ** The store: rules for running computations *)

Import Heap.


Lemma wp_ret {A} (x : A) (h : heap) (Q : A -> heap -> Prop) :
  Q x h -> wp (mret x) h Q.
Proof. intros H. exact H. Qed.

Lemma wp_bind {A B} (m : M A) (k : A -> M B) (h : heap)
    (Q : B -> heap -> Prop) :
  wp m h (fun x h' => wp (k x) h' Q) -> wp (m ≫= k) h Q.
Proof.
  unfold wp, mbind, M_bind. destruct (m h) as [[x h']|]; [auto | tauto].
Qed.

Lemma wp_mono {A} (m : M A) (h : heap) (Q Q' : A -> heap -> Prop) :
  wp m h Q -> (forall x h', Q x h' -> Q' x h') -> wp m h Q'.
Proof. unfold wp. destruct (m h) as [[x h']|]; [auto | tauto]. Qed.


Lemma wp_reads {A} (m : M A) (h : heap) (x : A) (Q : A -> heap -> Prop) :
  reads m h x -> Q x h -> wp m h Q.
Proof. unfold reads, wp. now intros ->. Qed.

Lemma reads_ret {A} (x : A) (h : heap) : reads (mret x) h x.
Proof. reflexivity. Qed.

Lemma reads_bind {A B} (m : M A) (k : A -> M B) (h : heap) (x : A) (y : B) :
  reads m h x -> reads (k x) h y -> reads (m ≫= k) h y.
Proof. unfold reads, mbind, M_bind. now intros ->. Qed.

Lemma reads_lift {A} (o : option A) (x : A) (h : heap) :
  o = Some x -> reads (lift o) h x.
Proof. now intros ->. Qed.

Lemma reads_load (l : loc) (o : pyobj) (h : heap) :
  h !! l = Some o -> reads (load l) h o.
Proof. unfold reads, load. now intros ->. Qed.

Lemma reads_load_list (l : loc) (items : list val) (h : heap) :
  h !! l = Some (OList items) -> reads (load_list (VRef l)) h items.
Proof.
  intros H. unfold load_list. eapply reads_bind; [apply reads_load; eassumption | apply reads_ret].
Qed.

Lemma reads_load_dict (l : loc) (entries : list (pystr * val)) (h : heap) :
  h !! l = Some (ODict entries) -> reads (load_dict (VRef l)) h entries.
Proof.
  intros H. unfold load_dict. eapply reads_bind; [apply reads_load; eassumption | apply reads_ret].
Qed.

Lemma reads_dict_getitem (l : loc) (entries : list (pystr * val))
    (key : pystr) (v : val) (h : heap) :
  h !! l = Some (ODict entries) -> dict_lookup key entries = Some v ->
  reads (dict_getitem (VRef l) key) h v.
Proof.
  intros H E. unfold dict_getitem. eapply reads_bind; [apply reads_load_dict; eassumption |].
  now apply reads_lift.
Qed.

Lemma reads_str_item (l : loc) (entries : list (pystr * val))
    (key : pystr) (s : pystr) (h : heap) :
  h !! l = Some (ODict entries) -> dict_lookup key entries = Some (VStr s) ->
  reads (str_item (VRef l) key) h s.
Proof.
  intros H E. unfold str_item. eapply reads_bind; [eapply reads_dict_getitem; eassumption |].
  apply reads_ret.
Qed.

Lemma reads_int_item (l : loc) (entries : list (pystr * val))
    (key : pystr) (z : Z) (h : heap) :
  h !! l = Some (ODict entries) -> dict_lookup key entries = Some (VInt z) ->
  reads (int_item (VRef l) key) h z.
Proof.
  intros H E. unfold int_item. eapply reads_bind; [eapply reads_dict_getitem; eassumption |].
  apply reads_ret.
Qed.

Lemma reads_mapM {A B} (f : A -> M B) (xs : list A) (ys : list B) (h : heap) :
  Forall2 (fun x y => reads (f x) h y) xs ys -> reads (mapM f xs) h ys.
Proof.
  induction 1 as [|x y xs ys Hxy Hall IH]; [apply reads_ret |].
  cbn [mapM]. eapply reads_bind; [exact Hxy |].
  eapply reads_bind; [exact IH | apply reads_ret].
Qed.

Lemma reads_strs (l : loc) (ss : list pystr) (h : heap) :
  h !! l = Some (OList (List.map VStr ss)) -> reads (strs (VRef l)) h ss.
Proof.
  intros H. unfold strs. eapply reads_bind; [apply reads_load_list; eassumption |].
  apply reads_mapM. clear. induction ss; constructor; [apply reads_ret | auto].
Qed.

Lemma reads_ints (l : loc) (zs : list Z) (h : heap) :
  h !! l = Some (OList (List.map VInt zs)) -> reads (ints (VRef l)) h zs.
Proof.
  intros H. unfold ints. eapply reads_bind; [apply reads_load_list; eassumption |].
  apply reads_mapM. clear. induction zs; constructor; [apply reads_ret | auto].
Qed.

Lemma reads_list_len (l : loc) (items : list val) (h : heap) :
  h !! l = Some (OList items) -> reads (list_len (VRef l)) h (len items).
Proof.
  intros H. unfold list_len. eapply reads_bind; [apply reads_load_list; eassumption | apply reads_ret].
Qed.

Lemma reads_list_getitem (l : loc) (items : list val) (i : nat) (v : val)
    (h : heap) :
  h !! l = Some (OList items) -> items !! i = Some v ->
  reads (list_getitem (VRef l) i) h v.
Proof.
  intros H E. unfold list_getitem. eapply reads_bind; [apply reads_load_list; eassumption |].
  now apply reads_lift.
Qed.

(** Writes. *)
Lemma wp_alloc (o : pyobj) (h : heap) (Q : loc -> heap -> Prop) :
  (forall l, h !! l = None -> Q l (<[l := o]> h)) -> wp (alloc o) h Q.
Proof.
  intros H. unfold wp, alloc. apply H.
  apply not_elem_of_dom. apply is_fresh.
Qed.

Lemma wp_store (l : loc) (o o' : pyobj) (h : heap) (Q : unit -> heap -> Prop) :
  h !! l = Some o' -> Q tt (<[l := o]> h) -> wp (store l o) h Q.
Proof. intros H HQ. unfold wp, store. now rewrite H. Qed.

Lemma wp_list_new (items : list val) (h : heap) (Q : val -> heap -> Prop) :
  (forall l, h !! l = None -> Q (VRef l) (<[l := OList items]> h)) ->
  wp (list_new items) h Q.
Proof. intros H. unfold list_new. apply wp_bind, wp_alloc. intros l Hl. now apply H. Qed.

Lemma wp_dict_new (entries : list (pystr * val)) (h : heap)
    (Q : val -> heap -> Prop) :
  (forall l, h !! l = None -> Q (VRef l) (<[l := ODict entries]> h)) ->
  wp (dict_new entries) h Q.
Proof. intros H. unfold dict_new. apply wp_bind, wp_alloc. intros l Hl. now apply H. Qed.

Lemma wp_set_new (h : heap) (Q : val -> heap -> Prop) :
  (forall l, h !! l = None -> Q (VRef l) (<[l := OSet ∅]> h)) ->
  wp set_new h Q.
Proof. intros H. unfold set_new. apply wp_bind, wp_alloc. intros l Hl. now apply H. Qed.

Lemma wp_list_append (l : loc) (items : list val) (x : val) (h : heap)
    (Q : unit -> heap -> Prop) :
  h !! l = Some (OList items) ->
  Q tt (<[l := OList (items ++ [x])]> h) ->
  wp (list_append (VRef l) x) h Q.
Proof.
  intros H HQ. unfold list_append. apply wp_bind.
  eapply wp_reads; [apply reads_load_list; eassumption |].
  eapply wp_store; eassumption.
Qed.

Lemma wp_extend (l : loc) (lines : list pystr) (items : list val) (h : heap)
    (Q : unit -> heap -> Prop) :
  h !! l = Some (OList items) ->
  Q tt (<[l := OList (items ++ List.map VStr lines)]> h) ->
  wp (extend (VRef l) lines) h Q.
Proof.
  unfold extend. revert items h.
  induction lines as [|s lines IH]; intros items h H HQ.
  - cbn [List.map for_]. rewrite app_nil_r, insert_id in HQ by exact H.
    exact HQ.
  - cbn [List.map for_]. apply wp_bind.
    eapply wp_list_append; [exact H |].
    apply (IH (items ++ [VStr s])); [apply lookup_insert_eq |].
    rewrite insert_insert_eq, <- app_assoc. exact HQ.
Qed.

Lemma wp_dict_setitem (l : loc) (entries : list (pystr * val)) (key : pystr)
    (x : val) (h : heap) (Q : unit -> heap -> Prop) :
  h !! l = Some (ODict entries) ->
  Q tt (<[l := ODict (dict_set key x entries)]> h) ->
  wp (dict_setitem (VRef l) key x) h Q.
Proof.
  intros H HQ. unfold dict_setitem. apply wp_bind.
  eapply wp_reads; [apply reads_load_dict; eassumption |].
  eapply wp_store; eassumption.
Qed.

Lemma wp_list_sort (l : loc) (zs : list Z) (h : heap)
    (Q : unit -> heap -> Prop) :
  h !! l = Some (OList (List.map VInt zs)) ->
  Q tt (<[l := OList (List.map VInt (sort_ints zs))]> h) ->
  wp (list_sort (VRef l)) h Q.
Proof.
  intros H HQ. unfold list_sort. apply wp_bind.
  eapply wp_reads; [apply reads_ints; eassumption |].
  eapply wp_store; eassumption.
Qed.

Lemma wp_set_update (l : loc) (elems : gset Z) (zs : list Z) (h : heap)
    (Q : unit -> heap -> Prop) :
  h !! l = Some (OSet elems) ->
  Q tt (<[l := OSet (elems ∪ list_to_set zs)]> h) ->
  wp (set_update (VRef l) zs) h Q.
Proof.
  intros H HQ. unfold set_update. apply wp_bind.
  eapply wp_reads; [apply reads_load; eassumption |].
  eapply wp_store; eassumption.
Qed.

Lemma reads_set_len (l : loc) (elems : gset Z) (h : heap) :
  h !! l = Some (OSet elems) ->
  reads (set_len (VRef l)) h (Z.of_nat (size elems)).
Proof.
  intros H. unfold set_len. eapply reads_bind; [apply reads_load; eassumption | apply reads_ret].
Qed.

(** ** The store: representation of the inputs *)

Lemma is_strs_mono (h h' : heap) (v : val) (ss : list pystr) :
  h ⊆ h' -> is_strs h v ss -> is_strs h' v ss.
Proof.
  intros Hsub (l & -> & Hl). exists l. split; [reflexivity |].
  eapply lookup_weaken; eassumption.
Qed.

Lemma is_character_mono (h h' : heap) (v : val) (c : Character) :
  h ⊆ h' -> is_character h v c -> is_character h' v c.
Proof.
  intros Hsub (l & -> & Hl). exists l. split; [reflexivity |].
  eapply lookup_weaken; eassumption.
Qed.

Lemma is_milestone_mono (h h' : heap) (v : val) (m : Milestone) :
  h ⊆ h' -> is_milestone h v m -> is_milestone h' v m.
Proof.
  intros Hsub (l & -> & Hl). exists l. split; [reflexivity |].
  eapply lookup_weaken; eassumption.
Qed.

Lemma is_arc_mono (h h' : heap) (v : val) (a : StoryArc) :
  h ⊆ h' -> is_arc h v a -> is_arc h' v a.
Proof.
  intros Hsub (l & chars & -> & Hl & Hc). exists l, chars.
  split; [reflexivity |]. split; [eapply lookup_weaken; eassumption |].
  eapply is_strs_mono; eassumption.
Qed.

Lemma is_scene_mono (h h' : heap) (v : val) (s : DialogueScene) :
  h ⊆ h' -> is_scene h v s -> is_scene h' v s.
Proof.
  intros Hsub (l & chars & branches & -> & Hl & Hc & Hb).
  exists l, chars, branches.
  split; [reflexivity |]. split; [eapply lookup_weaken; eassumption |].
  split; eapply is_strs_mono; eassumption.
Qed.

Lemma Forall2_mono_heap {A} (R : heap -> val -> A -> Prop) (h h' : heap)
    (items : list val) (xs : list A) :
  (forall v x, R h v x -> R h' v x) ->
  Forall2 (R h) items xs -> Forall2 (R h') items xs.
Proof. intros HR. induction 1; constructor; auto. Qed.

Lemma reads_strs_item (l : loc) (entries : list (pystr * val)) (key : pystr)
    (v : val) (ss : list pystr) (h : heap) :
  h !! l = Some (ODict entries) -> dict_lookup key entries = Some v ->
  is_strs h v ss -> reads (strs_item (VRef l) key) h ss.
Proof.
  intros H E (l' & -> & Hl'). unfold strs_item.
  eapply reads_bind; [eapply reads_dict_getitem; eassumption |].
  now apply reads_strs.
Qed.

Lemma reads_character (h : heap) (v : val) (c : Character) :
  is_character h v c -> reads (read_character v) h c.
Proof.
  intros (l & -> & Hl). destruct c. unfold read_character.
  repeat (eapply reads_bind;
          [first [eapply reads_str_item | eapply reads_int_item];
           [exact Hl | reflexivity] |]).
  apply reads_ret.
Qed.

Lemma reads_milestone (h : heap) (v : val) (m : Milestone) :
  is_milestone h v m -> reads (read_milestone v) h m.
Proof.
  intros (l & -> & Hl). destruct m as [n d c t i r ca]. unfold read_milestone.
  do 5 (eapply reads_bind;
        [first [eapply reads_str_item | eapply reads_int_item];
         [exact Hl | reflexivity] |]).
  eapply reads_bind.
  { eapply reads_bind; [eapply reads_dict_getitem; [exact Hl | reflexivity] |].
    cbn [ms_related_arc]. instantiate (1 := r). destruct r; apply reads_ret. }
  eapply reads_bind; [eapply reads_str_item; [exact Hl | reflexivity] |].
  apply reads_ret.
Qed.

Lemma reads_arc (h : heap) (v : val) (a : StoryArc) :
  is_arc h v a -> reads (read_arc v) h a.
Proof.
  intros (l & chars & -> & Hl & Hc). destruct a. unfold read_arc.
  do 5 (eapply reads_bind;
        [first [eapply reads_str_item | eapply reads_int_item];
         [exact Hl | reflexivity] |]).
  eapply reads_bind; [eapply reads_strs_item; [exact Hl | reflexivity | exact Hc] |].
  eapply reads_bind; [eapply reads_str_item; [exact Hl | reflexivity] |].
  apply reads_ret.
Qed.

Lemma reads_scene (h : heap) (v : val) (s : DialogueScene) :
  is_scene h v s -> reads (read_scene v) h s.
Proof.
  intros (l & chars & branches & -> & Hl & Hc & Hb). destruct s.
  unfold read_scene.
  do 2 (eapply reads_bind;
        [first [eapply reads_str_item | eapply reads_int_item];
         [exact Hl | reflexivity] |]).
  eapply reads_bind; [eapply reads_strs_item; [exact Hl | reflexivity | exact Hc] |].
  eapply reads_bind; [eapply reads_str_item; [exact Hl | reflexivity] |].
  eapply reads_bind; [eapply reads_strs_item; [exact Hl | reflexivity | exact Hb] |].
  apply reads_ret.
Qed.

(** Reading one field of every record of a list. *)
Lemma reads_fields {A B} (R : heap -> val -> A -> Prop) (f : val -> M B)
    (g : A -> B) (h : heap) (items : list val) (xs : list A) :
  (forall v x, R h v x -> reads (f v) h (g x)) ->
  Forall2 (R h) items xs -> reads (mapM f items) h (List.map g xs).
Proof.
  intros Hf Hall. apply reads_mapM.
  induction Hall; cbn [List.map]; constructor; auto.
Qed.

Lemma reads_role (h : heap) (v : val) (c : Character) :
  is_character h v c -> reads (str_item v (u "role")) h (char_role c).
Proof. intros (l & -> & Hl). eapply reads_str_item; [exact Hl | reflexivity]. Qed.

Lemma reads_chapter (h : heap) (v : val) (m : Milestone) :
  is_milestone h v m -> reads (int_item v (u "chapter")) h (ms_chapter m).
Proof. intros (l & -> & Hl). eapply reads_int_item; [exact Hl | reflexivity]. Qed.

Lemma reads_impact (h : heap) (v : val) (m : Milestone) :
  is_milestone h v m -> reads (str_item v (u "impact")) h (ms_impact m).
Proof. intros (l & -> & Hl). eapply reads_str_item; [exact Hl | reflexivity]. Qed.

Lemma reads_start_chapter (h : heap) (v : val) (a : StoryArc) :
  is_arc h v a -> reads (int_item v (u "start_chapter")) h (arc_start_chapter a).
Proof.
  intros (l & ch & -> & Hl & _). eapply reads_int_item; [exact Hl | reflexivity].
Qed.

Lemma reads_end_chapter (h : heap) (v : val) (a : StoryArc) :
  is_arc h v a -> reads (int_item v (u "end_chapter")) h (arc_end_chapter a).
Proof.
  intros (l & ch & -> & Hl & _). eapply reads_int_item; [exact Hl | reflexivity].
Qed.

(** ** The store: [sorted] and comprehensions *)

Lemma insert_by_related {A B} (R : A -> B -> Prop) (ka : A -> Z) (kb : B -> Z)
    (x : A) (y : B) (l : list A) (l' : list B) :
  ka x = kb y -> R x y ->
  Forall2 (fun a b => ka a = kb b /\ R a b) l l' ->
  Forall2 (fun a b => ka a = kb b /\ R a b) (insert_by ka x l) (insert_by kb y l').
Proof.
  intros Hk Hxy. induction 1 as [|a b l l' [Hab Hr] Hall IH]; cbn [insert_by].
  - constructor; [split; assumption | constructor].
  - rewrite Hk, Hab. destruct (kb y <=? kb b).
    + constructor; [split; assumption |]. constructor; [split; assumption | exact Hall].
    + constructor; [split; assumption | exact IH].
Qed.

Lemma sorted_by_related {A B} (R : A -> B -> Prop) (ka : A -> Z) (kb : B -> Z)
    (l : list A) (l' : list B) :
  Forall2 (fun a b => ka a = kb b /\ R a b) l l' ->
  Forall2 (fun a b => ka a = kb b /\ R a b) (sorted_by ka l) (sorted_by kb l').
Proof.
  induction 1 as [|a b l l' [Hab Hr] Hall IH]; cbn [sorted_by]; [constructor |].
  now apply insert_by_related.
Qed.

Lemma wp_sorted_by_chapter (h0 h : heap) (l : loc) (items : list val)
    (ms : list Milestone) (Q : val -> heap -> Prop) :
  h0 ⊆ h ->
  h !! l = Some (OList items) ->
  Forall2 (is_milestone h0) items ms ->
  (forall l' items',
     h !! l' = None ->
     Forall2 (is_milestone h0) items' (sorted_by ms_chapter ms) ->
     Q (VRef l') (<[l' := OList items']> h)) ->
  wp (sorted_key (VRef l) (fun x => int_item x (u "chapter"))) h Q.
Proof.
  intros Hsub Hl Hall HQ. unfold sorted_key.
  apply wp_bind. eapply wp_reads; [apply reads_load_list; exact Hl |].
  assert (Hkeyed : exists keyed,
    reads (mapM (fun x => k ← int_item x (u "chapter"); mret (k, x)) items) h keyed
    /\ Forall2 (fun kv m => fst kv = ms_chapter m /\ is_milestone h0 (snd kv) m)
               keyed ms).
  { clear Hl HQ. induction Hall as [|v m items ms Hvm Hall (keyed & Hr & Hk)].
    - exists []. split; [apply reads_ret | constructor].
    - exists ((ms_chapter m, v) :: keyed). split.
      + cbn [mapM]. eapply reads_bind.
        { eapply reads_bind; [| apply reads_ret].
          apply reads_chapter. eapply is_milestone_mono; eassumption. }
        eapply reads_bind; [exact Hr | apply reads_ret].
      + constructor; [split; [reflexivity | exact Hvm] | exact Hk]. }
  destruct Hkeyed as (keyed & Hr & Hk).
  apply wp_bind. eapply wp_reads; [exact Hr |].
  apply wp_list_new. intros l' Hl'. apply HQ; [exact Hl' |].
  apply (sorted_by_related _ fst ms_chapter) in Hk.
  clear -Hk. induction Hk as [|kv m l1 l2 [_ H] _ IH]; cbn [List.map];
    constructor; assumption.
Qed.

Lemma wp_filter_by {A} (R : heap -> val -> A -> Prop) (test : val -> M bool)
    (keep : A -> bool) (l : loc) (items : list val) (xs : list A) (h : heap)
    (Q : val -> heap -> Prop) :
  h !! l = Some (OList items) ->
  Forall2 (R h) items xs ->
  (forall v x, R h v x -> reads (test v) h (keep x)) ->
  (forall l' kept,
     h !! l' = None ->
     Forall2 (R h) kept (List.filter keep xs) ->
     Q (VRef l') (<[l' := OList kept]> h)) ->
  wp (filter_by (VRef l) test) h Q.
Proof.
  intros Hl Hall Htest HQ. unfold filter_by.
  apply wp_bind. eapply wp_reads; [apply reads_load_list; exact Hl |].
  apply wp_bind.
  eapply wp_reads; [eapply (reads_fields R test keep); eassumption |].
  apply wp_list_new. intros l' Hl'. apply HQ; [exact Hl' |].
  clear -Hall. induction Hall as [|v x items xs Hvx Hall IH]; [constructor |].
  cbn [List.map combine List.filter snd].
  destruct (keep x); cbn [List.map fst]; [constructor; assumption | exact IH].
Qed.

Lemma reads_role_is (r : pystr) (h : heap) (v : val) (c : Character) :
  is_character h v c ->
  reads (Store.role_is r v) h (str_eqb (char_role c) r).
Proof.
  intros H. unfold Store.role_is.
  eapply reads_bind; [apply reads_role; eassumption | apply reads_ret].
Qed.

Lemma reads_role_not_in (rs : list pystr) (h : heap) (v : val) (c : Character) :
  is_character h v c ->
  reads (Store.role_not_in rs v) h (negb (existsb (str_eqb (char_role c)) rs)).
Proof.
  intros H. unfold Store.role_not_in.
  eapply reads_bind; [apply reads_role; eassumption | apply reads_ret].
Qed.

Lemma Forall2_len {A B} (R : A -> B -> Prop) (l : list A) (l' : list B) :
  Forall2 R l l' -> len l = len l'.
Proof. intros H. unfold len. f_equal. eapply Forall2_length, H. Qed.

Lemma Forall2_nonempty {A B} (R : A -> B -> Prop) (l : list A) (l' : list B) :
  Forall2 R l l' -> nonempty l = nonempty l'.
Proof. now destruct 1. Qed.

(** ** The store: validate_story_structure *)

Ltac fresh_loc H :=
  repeat (apply lookup_insert_None in H as [H ?]).

Ltac heap_lookup :=
  repeat first [ rewrite lookup_insert_eq
               | rewrite lookup_insert_ne by congruence ];
  first [ reflexivity | eassumption
        | eapply lookup_weaken; [eassumption | eassumption] ].

Ltac heap_sub :=
  repeat (apply insert_subseteq_r;
          [first [assumption | eapply lookup_weaken_None; eassumption] |]);
  first [assumption | reflexivity].

Lemma wp_cover_loop (h0 h : heap) (ls : loc) (items : list val)
    (arcs : list StoryArc) (elems : gset Z) (Q : unit -> heap -> Prop) :
  h0 ⊆ h -> h0 !! ls = None -> h !! ls = Some (OSet elems) ->
  Forall2 (is_arc h0) items arcs ->
  Q tt (<[ls := OSet (fold_left cover arcs elems)]> h) ->
  wp (for_ items (fun arc =>
        first ← int_item arc (u "start_chapter");
        last ← int_item arc (u "end_chapter");
        set_update (VRef ls) (py_range first (last + 1)))) h Q.
Proof.
  intros Hsub Hfresh Hls Hall. revert h elems Hsub Hls.
  induction Hall as [|v a items arcs Hva Hall IH]; intros h elems Hsub Hls HQ.
  - cbn [fold_left for_] in *. rewrite insert_id in HQ by exact Hls. exact HQ.
  - cbn [fold_left for_]. apply wp_bind.
    apply (is_arc_mono _ _ _ _ Hsub) in Hva.
    apply wp_bind. eapply wp_reads; [apply reads_start_chapter; exact Hva |].
    apply wp_bind. eapply wp_reads; [apply reads_end_chapter; exact Hva |].
    eapply wp_set_update; [exact Hls |].
    apply (IH _ (cover elems a)).
    + heap_sub.
    + apply lookup_insert_eq.
    + rewrite insert_insert_eq. exact HQ.
Qed.

Lemma store_validate (h0 : heap) (vc va vm : val)
    (cs : list Character) (arcs : list StoryArc) (ms : list Milestone) :
  is_list is_character h0 vc cs ->
  is_list is_arc h0 va arcs ->
  is_list is_milestone h0 vm ms ->
  wp (Store.validate_story_structure vc va vm) h0
     (fun r h' =>
        h0 ⊆ h'
        /\ exists warnings,
             validate_story_structure cs arcs ms = Some warnings
             /\ is_strs h' r warnings).
Proof.
  intros (lc & ic & -> & Hlc & Hcs) (la & ia & -> & Hla & Harcs)
         (lm & im & -> & Hlm & Hms).
  rewrite validate_story_structure_total.
  set (A := if len (List.filter is_main cs) =? 0 then [warn_no_main]
            else if 3 <? len (List.filter is_main cs) then [warn_many_main]
            else []).
  set (B := match py_max (List.map arc_end_chapter arcs) with
            | Some total_chapters =>
                if Z.of_nat (size (fold_left cover arcs ∅)) <? total_chapters
                then [warn_coverage] else []
            | None => []
            end).
  set (C := if nonempty ms then
              (if 3 <? count_str (u "Critical") (List.map ms_impact ms)
               then [warn_many_critical] else [])
              ++ (if negb (existsb (str_eqb (u "High")) (List.map ms_impact ms))
                     && negb (existsb (str_eqb (u "Critical"))
                                      (List.map ms_impact ms))
                  then [warn_no_high] else [])
            else []).
  unfold Store.validate_story_structure.
  apply wp_bind, wp_list_new. intros lw Hlw.
  (* main characters *)
  apply wp_bind.
  eapply (wp_filter_by is_character _ is_main).
  { heap_lookup. }
  { eapply Forall2_mono_heap; [| exact Hcs].
    intros v x. apply is_character_mono. heap_sub. }
  { intros v x. apply reads_role_is. }
  intros lk kept Hlk Hkept. fresh_loc Hlk.
  apply wp_bind. eapply wp_reads; [apply reads_list_len; heap_lookup |].
  rewrite (Forall2_len _ _ _ Hkept).
  apply wp_bind.
  apply (wp_mono _ _ (fun _ h' =>
           h0 ⊆ h' /\ h' !! lw = Some (OList (List.map VStr A)))).
  { subst A. destruct (len (List.filter is_main cs) =? 0);
      [| destruct (3 <? len (List.filter is_main cs))].
    - eapply wp_list_append; [heap_lookup |]. split; [heap_sub | heap_lookup].
    - eapply wp_list_append; [heap_lookup |]. split; [heap_sub | heap_lookup].
    - apply wp_ret. split; [heap_sub | heap_lookup]. }
  clear dependent lk. intros _ h1 (Hsub1 & Hw1).
  (* arc coverage *)
  apply wp_bind. eapply wp_reads; [apply reads_load_list; heap_lookup |].
  apply wp_bind.
  apply (wp_mono _ _ (fun _ h' =>
           h0 ⊆ h' /\ h' !! lw = Some (OList (List.map VStr (A ++ B))))).
  { rewrite (Forall2_nonempty _ _ _ Harcs). subst B.
    destruct arcs as [|a arcs'] eqn:Earcs.
    - cbn [nonempty List.map py_max]. apply wp_ret.
      rewrite app_nil_r. split; assumption.
    - rewrite <- Earcs in *. replace (nonempty arcs) with true by now subst.
      destruct (py_max_nonempty (List.map arc_end_chapter arcs))
        as (total & Htotal & _); [now subst |].
      rewrite Htotal.
      apply wp_bind.
      eapply wp_reads.
      { eapply (reads_fields is_arc _ arc_end_chapter).
        - intros v x. apply reads_end_chapter.
        - eapply Forall2_mono_heap; [| exact Harcs].
          intros v x. now apply is_arc_mono. }
      apply wp_bind. eapply wp_reads; [apply reads_lift; exact Htotal |].
      apply wp_bind, wp_set_new. intros ls Hls.
      apply wp_bind.
      eapply (wp_cover_loop h0); [heap_sub | eapply lookup_weaken_None; eassumption
                                 | heap_lookup | exact Harcs |].
      rewrite insert_insert_eq.
      apply wp_bind. eapply wp_reads; [apply reads_set_len; heap_lookup |].
      assert (ls <> lw) by congruence.
      destruct (Z.of_nat (size (fold_left cover arcs ∅)) <? total).
      + eapply wp_list_append; [heap_lookup |].
        split; [heap_sub |]. rewrite lookup_insert_eq, !List.map_app. reflexivity.
      + apply wp_ret. rewrite app_nil_r. split; [heap_sub | heap_lookup]. }
  intros _ h2 (Hsub2 & Hw2).
  (* milestone impacts *)
  apply wp_bind. eapply wp_reads; [apply reads_load_list; heap_lookup |].
  apply wp_bind.
  apply (wp_mono _ _ (fun _ h' =>
           h0 ⊆ h' /\ h' !! lw = Some (OList (List.map VStr ((A ++ B) ++ C))))).
  { rewrite (Forall2_nonempty _ _ _ Hms), (Forall2_len _ _ _ Hms). subst C.
    destruct ms as [|m ms'] eqn:Ems.
    - cbn [nonempty andb]. apply wp_ret. rewrite app_nil_r. split; assumption.
    - rewrite <- Ems in *. replace (nonempty ms) with true by now subst.
      replace (0 <? len ms) with true
        by (subst ms; unfold len; cbn [length]; symmetry; apply Z.ltb_lt; lia).
      cbn [andb].
      apply wp_bind.
      eapply wp_reads.
      { eapply (reads_fields is_milestone _ ms_impact).
        - intros v x. apply reads_impact.
        - eapply Forall2_mono_heap; [| exact Hms].
          intros v x. now apply is_milestone_mono. }
      apply wp_bind, wp_list_new. intros li Hli.
      assert (li <> lw) by congruence.
      apply wp_bind.
      apply (wp_mono _ _ (fun _ h' =>
               h0 ⊆ h'
               /\ h' !! li = Some (OList (List.map VStr (List.map ms_impact ms)))
               /\ h' !! lw
                  = Some (OList (List.map VStr
                            ((A ++ B)
                             ++ (if 3 <? count_str (u "Critical")
                                          (List.map ms_impact ms)
                                 then [warn_many_critical] else [])))))).
      { apply wp_bind. eapply wp_reads; [apply reads_strs; heap_lookup |].
        destruct (3 <? count_str (u "Critical") (List.map ms_impact ms)).
        - eapply wp_list_append; [heap_lookup |].
          split; [heap_sub |]. split; [heap_lookup |].
          rewrite lookup_insert_eq, !List.map_app. reflexivity.
        - apply wp_ret. rewrite app_nil_r.
          split; [heap_sub |]. split; heap_lookup. }
      intros _ h3 (Hsub3 & Hi3 & Hw3).
      apply wp_bind. eapply wp_reads; [apply reads_strs; exact Hi3 |].
      match goal with
      | |- context [if ?b then list_append _ _ else _] => destruct b
      end.
      + eapply wp_list_append; [exact Hw3 |].
        split; [heap_sub; eapply lookup_weaken_None; eassumption |].
        rewrite lookup_insert_eq. rewrite (app_assoc (A ++ B)), !List.map_app.
        reflexivity.
      + apply wp_ret. rewrite app_nil_r in *. split; assumption. }
  intros _ h3 (Hsub3 & Hw3).
  apply wp_ret. split; [exact Hsub3 |].
  exists (A ++ B ++ C). split; [reflexivity |].
  exists lw. split; [reflexivity |]. rewrite app_assoc. exact Hw3.
Qed.

(** ** The store: analyze_story_structure *)

Lemma dict_lookup_set (k k' : pystr) (x : val) (entries : list (pystr * val)) :
  dict_lookup k' (dict_set k x entries)
  = if str_eqb k k' then Some x else dict_lookup k' entries.
Proof.
  unfold str_eqb.
  induction entries as [|[k0 v0] entries IH]; cbn [dict_set dict_lookup];
    unfold str_eqb in *.
  - reflexivity.
  - destruct (bool_decide_reflect (k0 = k)) as [-> | E0];
      cbn [dict_lookup]; unfold str_eqb.
    + destruct (bool_decide (k = k')); reflexivity.
    + rewrite IH.
      destruct (bool_decide_reflect (k0 = k')) as [-> | E1]; [| reflexivity].
      now rewrite bool_decide_eq_false_2 by congruence.
Qed.

Lemma roles_rep_count (entries : list (pystr * val)) (m : gmap pystr Z)
    (c : Character) :
  roles_rep entries m ->
  roles_rep (dict_set (char_role c)
               (VInt (default 0 (m !! char_role c) + 1)) entries)
            (count_role m c).
Proof.
  intros Hrep role. rewrite dict_lookup_set. unfold count_role, str_eqb.
  case_bool_decide as E.
  - subst role. now rewrite lookup_insert_eq.
  - rewrite lookup_insert_ne by exact E. apply Hrep.
Qed.

Lemma wp_roles_loop (h0 h : heap) (la lr : loc) (D : list (pystr * val))
    (items : list val) (cs : list Character) (entries : list (pystr * val))
    (m : gmap pystr Z) (Q : unit -> heap -> Prop) :
  h0 ⊆ h -> h0 !! lr = None -> la <> lr ->
  h !! la = Some (ODict D) ->
  dict_lookup (u "character_roles") D = Some (VRef lr) ->
  h !! lr = Some (ODict entries) -> roles_rep entries m ->
  Forall2 (is_character h0) items cs ->
  (forall entries',
     roles_rep entries' (fold_left count_role cs m) ->
     Q tt (<[lr := ODict entries']> h)) ->
  wp (for_ items (fun char =>
        role ← str_item char (u "role");
        character_roles ← dict_getitem (VRef la) (u "character_roles");
        seen ← (x ← dict_get_default character_roles role (VInt 0); as_int x);
        dict_setitem character_roles role (VInt (seen + 1)))) h Q.
Proof.
  intros Hsub Hfresh Hne Hla HD Hlr Hrep Hall.
  revert h entries m Hsub Hla Hlr Hrep.
  induction Hall as [|v c items cs Hvc Hall IH];
    intros h entries m Hsub Hla Hlr Hrep HQ.
  - cbn [fold_left for_] in *.
    specialize (HQ entries Hrep). rewrite insert_id in HQ by exact Hlr. exact HQ.
  - cbn [fold_left for_]. apply wp_bind.
    apply (is_character_mono _ _ _ _ Hsub) in Hvc.
    apply wp_bind. eapply wp_reads; [apply reads_role; exact Hvc |].
    apply wp_bind.
    eapply wp_reads; [eapply reads_dict_getitem; [exact Hla | exact HD] |].
    apply wp_bind.
    eapply wp_reads.
    { eapply reads_bind.
      - unfold dict_get_default. eapply reads_bind;
          [apply reads_load_dict; exact Hlr | apply reads_ret].
      - rewrite (Hrep (char_role c)).
        instantiate (1 := default 0 (m !! char_role c)).
        destruct (m !! char_role c); apply reads_ret. }
    eapply wp_dict_setitem; [exact Hlr |].
    eapply (IH _ _ (count_role m c)).
    + heap_sub.
    + rewrite lookup_insert_ne by congruence. exact Hla.
    + apply lookup_insert_eq.
    + now apply roles_rep_count.
    + intros entries' Hrep'. rewrite insert_insert_eq. now apply HQ.
Qed.

Lemma pacing_fold_none (mc : list Z) (idx : list nat) :
  fold_left (pacing_step mc) idx None = None.
Proof. induction idx; [reflexivity | exact IHidx]. Qed.

Lemma wp_pacing_loop (h0 h : heap) (la lp lmc : loc) (D : list (pystr * val))
    (mc : list Z) (idx : list nat) (out out' : list pystr)
    (Q : unit -> heap -> Prop) :
  h0 ⊆ h -> h0 !! lp = None -> la <> lp -> lmc <> lp ->
  h !! la = Some (ODict D) ->
  dict_lookup (u "pacing_analysis") D = Some (VRef lp) ->
  h !! lmc = Some (OList (List.map VInt mc)) ->
  h !! lp = Some (OList (List.map VStr out)) ->
  fold_left (pacing_step mc) idx (Some out) = Some out' ->
  Q tt (<[lp := OList (List.map VStr out')]> h) ->
  wp (for_ idx (fun i =>
        a ← (x ← list_getitem (VRef lmc) i; as_int x);
        b ← (x ← list_getitem (VRef lmc) (S i); as_int x);
        let gap := b - a in
        if 3 <? gap then
          pacing_analysis ← dict_getitem (VRef la) (u "pacing_analysis");
          list_append pacing_analysis (VStr (gap_message a b))
        else mret tt)) h Q.
Proof.
  intros Hsub Hfresh Hne1 Hne2 Hla HD.
  revert h out Hsub Hla.
  induction idx as [|i idx IH]; intros h out Hsub Hla Hmc Hlp Hfold HQ.
  - cbn [fold_left for_] in *. injection Hfold as <-.
    rewrite insert_id in HQ by exact Hlp. exact HQ.
  - cbn [fold_left for_] in *.
    unfold pacing_step at 2 in Hfold. cbn [mbind option_bind] in Hfold.
    destruct (mc !! i) as [a|] eqn:Ea;
      [| cbn in Hfold; rewrite pacing_fold_none in Hfold; discriminate].
    destruct (mc !! S i) as [b|] eqn:Eb;
      [| cbn in Hfold; rewrite pacing_fold_none in Hfold; discriminate].
    cbn [mbind option_bind] in Hfold.
    apply wp_bind. apply wp_bind.
    eapply wp_reads.
    { eapply reads_bind.
      - eapply reads_list_getitem; [exact Hmc |].
        rewrite list_lookup_fmap, Ea. reflexivity.
      - apply reads_ret. }
    apply wp_bind.
    eapply wp_reads.
    { eapply reads_bind.
      - eapply reads_list_getitem; [exact Hmc |].
        rewrite list_lookup_fmap, Eb. reflexivity.
      - apply reads_ret. }
    cbv zeta. destruct (3 <? b - a).
    + apply wp_bind.
      eapply wp_reads; [eapply reads_dict_getitem; [exact Hla | exact HD] |].
      eapply wp_list_append; [exact Hlp |].
      eapply (IH _ (out ++ [gap_message a b])).
      * heap_sub.
      * rewrite lookup_insert_ne by congruence. exact Hla.
      * rewrite lookup_insert_ne by congruence. exact Hmc.
      * rewrite lookup_insert_eq, List.map_app. reflexivity.
      * exact Hfold.
      * rewrite insert_insert_eq. exact HQ.
    + apply wp_ret. eapply IH; eassumption.
Qed.

Lemma store_analyze (h0 : heap) (vc va vm : val)
    (cs : list Character) (arcs : list StoryArc) (ms : list Milestone) :
  is_list is_character h0 vc cs ->
  is_list is_arc h0 va arcs ->
  is_list is_milestone h0 vm ms ->
  wp (Store.analyze_story_structure vc va vm) h0
     (fun r h' =>
        h0 ⊆ h'
        /\ exists a,
             analyze_story_structure cs arcs ms = Some a
             /\ is_analysis h' r a).
Proof.
  intros (lc & ic & -> & Hlc & Hcs) (la & ia & -> & Hla & Harcs)
         (lm & im & -> & Hlm & Hms).
  destruct (analyze_story_structure_total cs arcs ms) as (est & Hest & ->).
  unfold Store.analyze_story_structure.
  apply wp_bind. eapply wp_reads; [apply reads_list_len; exact Hlc |].
  apply wp_bind. eapply wp_reads; [apply reads_list_len; exact Hla |].
  apply wp_bind. eapply wp_reads; [apply reads_list_len; exact Hlm |].
  rewrite (Forall2_len _ _ _ Hcs), (Forall2_len _ _ _ Harcs),
    (Forall2_len _ _ _ Hms).
  apply wp_bind, wp_dict_new. intros lr Hlr.
  apply wp_bind, wp_list_new. intros lp Hlp. fresh_loc Hlp.
  apply wp_bind, wp_dict_new. intros ld Hld. fresh_loc Hld.
  set (D := fun e => [ (u "character_count", VInt (len cs));
                       (u "arc_count", VInt (len arcs));
                       (u "milestone_count", VInt (len ms));
                       (u "estimated_length", VInt e);
                       (u "character_roles", VRef lr);
                       (u "pacing_analysis", VRef lp) ]).
  change (ODict _) with (ODict (D 0)) at 1.
  (* role histogram *)
  apply wp_bind. apply wp_bind.
  eapply wp_reads; [apply reads_load_list; heap_lookup |].
  eapply (wp_roles_loop h0 _ ld lr (D 0) _ cs [] ∅);
    [heap_sub | assumption | congruence | heap_lookup | reflexivity
    | heap_lookup | | exact Hcs |].
  { intros role. now rewrite lookup_empty. }
  intros entries Hrep.
  apply wp_bind. eapply wp_reads; [apply reads_load_list; heap_lookup |].
  apply wp_bind. eapply wp_reads; [apply reads_load_list; heap_lookup |].
  (* estimated length *)
  apply wp_bind.
  apply (wp_mono _ _ (fun _ h' =>
           h0 ⊆ h' /\ h' !! ld = Some (ODict (D est))
           /\ h' !! lr = Some (ODict entries)
           /\ h' !! lp = Some (OList []))).
  { rewrite (Forall2_nonempty _ _ _ Hms), (Forall2_nonempty _ _ _ Harcs).
    destruct (nonempty ms); [| destruct (nonempty arcs)].
    - apply wp_bind. eapply wp_reads.
      { eapply (reads_fields is_milestone _ ms_chapter).
        - intros v x. apply reads_chapter.
        - eapply Forall2_mono_heap; [| exact Hms].
          intros v x. apply is_milestone_mono. heap_sub. }
      apply wp_bind. eapply wp_reads; [apply reads_lift; exact Hest |].
      eapply wp_dict_setitem; [heap_lookup |].
      split; [heap_sub |]. split; [| split]; heap_lookup.
    - apply wp_bind. eapply wp_reads.
      { eapply (reads_fields is_arc _ arc_end_chapter).
        - intros v x. apply reads_end_chapter.
        - eapply Forall2_mono_heap; [| exact Harcs].
          intros v x. apply is_arc_mono. heap_sub. }
      apply wp_bind. eapply wp_reads; [apply reads_lift; exact Hest |].
      eapply wp_dict_setitem; [heap_lookup |].
      split; [heap_sub |]. split; [| split]; heap_lookup.
    - injection Hest as <-. apply wp_ret.
      split; [heap_sub |]. split; [| split]; heap_lookup. }
  intros _ h1 (Hsub1 & Hd1 & Hr1 & Hp1).
  (* pacing *)
  apply wp_bind.
  apply (wp_mono _ _ (fun _ h' =>
           h0 ⊆ h' /\ h' !! ld = Some (ODict (D est))
           /\ h' !! lr = Some (ODict entries)
           /\ h' !! lp
              = Some (OList (List.map VStr
                        (List.map gap_text
                           (List.filter wide
                              (adjacent_pairs
                                 (sort_ints (List.map ms_chapter ms))))))))).
  { rewrite (Forall2_nonempty _ _ _ Hms).
    destruct ms as [|m ms'] eqn:Ems.
    - apply wp_ret. repeat split; assumption.
    - rewrite <- Ems in *. replace (nonempty ms) with true by now subst.
      apply wp_bind. eapply wp_reads.
      { eapply (reads_fields is_milestone _ ms_chapter).
        - intros v x. apply reads_chapter.
        - eapply Forall2_mono_heap; [| exact Hms].
          intros v x. now apply is_milestone_mono. }
      apply wp_bind, wp_list_new. intros lmc Hlmc.
      apply wp_bind. eapply wp_list_sort; [heap_lookup |].
      rewrite insert_insert_eq.
      apply wp_bind. eapply wp_reads; [apply reads_list_len; heap_lookup |].
      set (mc := sort_ints (List.map ms_chapter ms)).
      replace (Z.to_nat (len (List.map VInt mc) - 1)) with (length mc - 1)%nat
        by (unfold len; rewrite length_map; lia).
      assert (lmc <> lp) by congruence.
      assert (lmc <> ld) by congruence.
      assert (lmc <> lr) by congruence.
      eapply (wp_pacing_loop h0 _ ld lp lmc (D est) mc _ []);
        [heap_sub | assumption | congruence | congruence | heap_lookup
        | reflexivity | heap_lookup | heap_lookup
        | exact (pacing_loop_spec mc) |].
      split; [heap_sub; eapply lookup_weaken_None; eassumption |].
      split; [| split]; heap_lookup. }
  intros _ h2 (Hsub2 & Hd2 & Hr2 & Hp2).
  apply wp_ret. split; [exact Hsub2 |].
  eexists. split; [reflexivity |].
  exists ld, lr, lp, entries. cbn [character_count arc_count milestone_count
    estimated_length character_roles pacing_analysis].
  repeat split; assumption.
Qed.

(** ** The store: the exports *)

Lemma reads_records {A} (R : heap -> val -> A -> Prop) (read : val -> M A)
    (h : heap) (ld : loc) (D : list (pystr * val)) (key : pystr) (v : val)
    (xs : list A) :
  h !! ld = Some (ODict D) -> dict_lookup key D = Some v ->
  is_list R h v xs ->
  (forall v x, R h v x -> reads (read v) h x) ->
  reads (records read (VRef ld) key) h xs.
Proof.
  intros Hld HD (l & items & -> & Hl & Hall) Hread. unfold records.
  eapply reads_bind; [eapply reads_dict_getitem; eassumption |].
  eapply reads_bind; [apply reads_load_list; exact Hl |].
  apply reads_mapM. clear -Hall Hread. induction Hall; constructor; auto.
Qed.

Lemma store_json (h : heap) (v : val) (d : ExportBundle) :
  is_bundle h v d ->
  reads (Store.json_dumps v) h (dumps (json_of_bundle d)).
Proof.
  intros (l & vc & va & vm & vs & -> & Hl & Hc & Ha & Hm & Hs).
  destruct d as [concept cs arcs ms scenes date].
  cbn [story_concept characters story_arcs milestones dialogue_scenes
       export_date] in *.
  unfold Store.json_dumps.
  eapply reads_bind; [eapply reads_str_item; [exact Hl | reflexivity] |].
  eapply reads_bind;
    [eapply (reads_records is_character); [exact Hl | reflexivity | exact Hc
     | apply reads_character] |].
  eapply reads_bind;
    [eapply (reads_records is_arc); [exact Hl | reflexivity | exact Ha
     | apply reads_arc] |].
  eapply reads_bind;
    [eapply (reads_records is_milestone); [exact Hl | reflexivity | exact Hm
     | apply reads_milestone] |].
  eapply reads_bind;
    [eapply (reads_records is_scene); [exact Hl | reflexivity | exact Hs
     | apply reads_scene] |].
  eapply reads_bind; [eapply reads_str_item; [exact Hl | reflexivity] |].
  apply reads_ret.
Qed.

Lemma wp_for_extend {A} (R : heap -> val -> A -> Prop) (read : val -> M A)
    (f : A -> list pystr) (h0 h : heap) (lmd : loc) (items : list val)
    (xs : list A) (lines : list pystr) (Q : unit -> heap -> Prop) :
  (forall h h' v x, h ⊆ h' -> R h v x -> R h' v x) ->
  (forall h v x, R h v x -> reads (read v) h x) ->
  h0 ⊆ h -> h0 !! lmd = None ->
  h !! lmd = Some (OList (List.map VStr lines)) ->
  Forall2 (R h0) items xs ->
  Q tt (<[lmd := OList (List.map VStr (lines ++ flat_map f xs))]> h) ->
  wp (for_ items (fun v => x ← read v; extend (VRef lmd) (f x))) h Q.
Proof.
  intros Hmono Hread Hsub Hfresh Hl Hall. revert h lines Hsub Hl.
  induction Hall as [|v x items xs Hvx Hall IH]; intros h lines Hsub Hl HQ.
  - cbn [flat_map for_] in *. rewrite app_nil_r, insert_id in HQ by exact Hl.
    exact HQ.
  - cbn [flat_map for_]. apply wp_bind. apply wp_bind.
    eapply wp_reads; [apply Hread; eapply Hmono; eassumption |].
    eapply wp_extend; [exact Hl |].
    rewrite <- List.map_app.
    apply (IH _ (lines ++ f x)).
    + heap_sub.
    + apply lookup_insert_eq.
    + rewrite insert_insert_eq, <- app_assoc. exact HQ.
Qed.

Lemma wp_md_section {A} (R : heap -> val -> A -> Prop) (read : val -> M A)
    (f : A -> list pystr) (header : pystr) (hb h : heap) (ld lmd : loc)
    (D : list (pystr * val)) (key : pystr) (vl : val) (xs : list A)
    (lines : list pystr) :
  (forall h h' v x, h ⊆ h' -> R h v x -> R h' v x) ->
  (forall h v x, R h v x -> reads (read v) h x) ->
  hb ⊆ h -> hb !! lmd = None ->
  h !! lmd = Some (OList (List.map VStr lines)) ->
  hb !! ld = Some (ODict D) -> dict_lookup key D = Some vl ->
  is_list R hb vl xs ->
  wp (lst ← dict_getitem (VRef ld) key;
      items ← load_list lst;
      if nonempty items then
        list_append (VRef lmd) (VStr header);;
        for_ items (fun v => x ← read v; extend (VRef lmd) (f x))
      else mret tt) h
     (fun _ h' =>
        hb ⊆ h'
        /\ h' !! lmd
           = Some (OList (List.map VStr
                     (lines ++ (if nonempty xs then header :: flat_map f xs
                                else []))))).
Proof.
  intros Hmono Hread Hsub Hfresh Hlmd Hld HD (l & items & -> & Hl & Hall).
  apply wp_bind.
  eapply wp_reads; [eapply reads_dict_getitem; [heap_lookup | exact HD] |].
  apply wp_bind. eapply wp_reads; [apply reads_load_list; heap_lookup |].
  rewrite (Forall2_nonempty _ _ _ Hall).
  destruct (nonempty xs).
  - apply wp_bind. eapply wp_list_append; [exact Hlmd |].
    change (List.map VStr lines ++ [VStr header])
      with (List.map VStr lines ++ List.map VStr [header]).
    rewrite <- List.map_app.
    eapply (wp_for_extend R read f hb); try eassumption.
    + heap_sub.
    + apply lookup_insert_eq.
    + rewrite insert_insert_eq. split; [heap_sub | ].
      rewrite lookup_insert_eq, <- app_assoc. reflexivity.
  - apply wp_ret. rewrite app_nil_r. split; assumption.
Qed.

Lemma store_markdown (hb : heap) (v : val) (d : ExportBundle) :
  is_bundle hb v d ->
  wp (Store.generate_markdown_export v) hb
     (fun r h' => hb ⊆ h' /\ r = generate_markdown_export d).
Proof.
  intros (ld & vc & va & vm & vs & -> & Hld & Hc & Ha & Hm & Hs).
  unfold Store.generate_markdown_export.
  apply wp_bind, wp_list_new. intros lmd Hlmd.
  assert (Hne : lmd <> ld) by congruence.
  apply wp_bind. eapply wp_list_append; [heap_lookup |].
  rewrite insert_insert_eq.
  apply wp_bind.
  eapply wp_reads; [eapply reads_str_item; [heap_lookup | reflexivity] |].
  apply wp_bind. eapply wp_list_append; [heap_lookup |].
  rewrite insert_insert_eq.
  apply wp_bind. eapply wp_list_append; [heap_lookup |].
  rewrite insert_insert_eq.
  apply wp_bind.
  eapply wp_reads; [eapply reads_str_item; [heap_lookup | reflexivity] |].
  apply wp_bind. eapply wp_list_append; [heap_lookup |].
  rewrite insert_insert_eq.
  match goal with
  | |- context [OList ?x] => change x with (List.map VStr (md_title d))
  end.
  (* characters *)
  apply wp_bind.
  eapply wp_mono.
  { eapply (wp_md_section is_character read_character md_character _ hb);
      [apply is_character_mono | apply reads_character | heap_sub | exact Hlmd
      | heap_lookup | exact Hld | reflexivity | exact Hc]. }
  intros _ h1 (Hsub1 & Hmd1).
  (* story arcs *)
  apply wp_bind.
  eapply wp_mono.
  { eapply (wp_md_section is_arc read_arc md_arc _ hb);
      [apply is_arc_mono | apply reads_arc | exact Hsub1 | exact Hlmd
      | exact Hmd1 | exact Hld | reflexivity | exact Ha]. }
  intros _ h2 (Hsub2 & Hmd2).
  (* milestones *)
  apply wp_bind.
  apply (wp_mono _ _ (fun _ h' =>
           hb ⊆ h'
           /\ h' !! lmd
              = Some (OList (List.map VStr
                        ((md_title d ++ md_characters d ++ md_story_arcs d)
                         ++ md_milestones d))))).
  { destruct Hm as (lm & items & -> & Hlm & Hall).
    apply wp_bind.
    eapply wp_reads; [eapply reads_dict_getitem; [heap_lookup | reflexivity] |].
    apply wp_bind. eapply wp_reads; [apply reads_load_list; heap_lookup |].
    rewrite (Forall2_nonempty _ _ _ Hall). unfold md_milestones.
    destruct (nonempty (milestones d)).
    - apply wp_bind. eapply wp_list_append; [exact Hmd2 |].
      apply wp_bind.
      eapply (wp_sorted_by_chapter hb); [heap_sub | heap_lookup | exact Hall |].
      intros ls sorted Hls Hsorted. fresh_loc Hls.
      apply wp_bind. eapply wp_reads; [apply reads_load_list; heap_lookup |].
      eapply (wp_for_extend is_milestone read_milestone md_milestone hb);
        [apply is_milestone_mono | apply reads_milestone
        | heap_sub; eapply lookup_weaken_None; eassumption | exact Hlmd
        | | exact Hsorted |].
      + rewrite lookup_insert_ne by congruence. rewrite lookup_insert_eq.
        change [VStr (LF :: u "## Story Milestones")]
          with (List.map VStr [LF :: u "## Story Milestones"]).
        rewrite <- List.map_app. reflexivity.
      + split; [heap_sub; eapply lookup_weaken_None; eassumption |].
        rewrite lookup_insert_eq. unfold md_characters, md_story_arcs.
        rewrite <- !app_assoc. reflexivity.
    - apply wp_ret. rewrite app_nil_r. rewrite <- app_assoc in Hmd2.
      split; assumption. }
  intros _ h3 (Hsub3 & Hmd3).
  (* dialogue scenes *)
  apply wp_bind.
  eapply wp_mono.
  { eapply (wp_md_section is_scene read_scene md_scene _ hb);
      [apply is_scene_mono | apply reads_scene | exact Hsub3 | exact Hlmd
      | exact Hmd3 | exact Hld | reflexivity | exact Hs]. }
  intros _ h4 (Hsub4 & Hmd4).
  apply wp_bind. eapply wp_reads; [apply reads_strs; exact Hmd4 |].
  apply wp_ret. split; [exact Hsub4 |].
  unfold generate_markdown_export, md_characters, md_story_arcs,
    md_dialogue_scenes. rewrite <- !app_assoc. reflexivity.
Qed.

Lemma reads_len_of {A} (R : heap -> val -> A -> Prop) (hb h : heap) (ld : loc)
    (D : list (pystr * val)) (key : pystr) (vl : val) (xs : list A) :
  hb ⊆ h -> hb !! ld = Some (ODict D) -> dict_lookup key D = Some vl ->
  is_list R hb vl xs ->
  reads (lst ← dict_getitem (VRef ld) key; list_len lst) h (len xs).
Proof.
  intros Hsub Hld HD (l & items & -> & Hl & Hall).
  eapply reads_bind; [eapply reads_dict_getitem; [heap_lookup | exact HD] |].
  rewrite <- (Forall2_len _ _ _ Hall). apply reads_list_len. heap_lookup.
Qed.

Lemma wp_count_kept (keep : Character -> bool) (test : val -> M bool)
    (hb h : heap) (ld : loc) (D : list (pystr * val)) (vc : val)
    (cs : list Character) :
  (forall h v c, is_character h v c -> reads (test v) h (keep c)) ->
  hb ⊆ h -> hb !! ld = Some (ODict D) ->
  dict_lookup (u "characters") D = Some vc ->
  is_list is_character hb vc cs ->
  wp (chars ← dict_getitem (VRef ld) (u "characters");
      kept ← filter_by chars test;
      list_len kept) h
     (fun n h' => n = len (List.filter keep cs) /\ hb ⊆ h').
Proof.
  intros Htest Hsub Hld HD (l & items & -> & Hl & Hall).
  apply wp_bind.
  eapply wp_reads; [eapply reads_dict_getitem; [heap_lookup | exact HD] |].
  apply wp_bind.
  eapply (wp_filter_by is_character test keep); [heap_lookup | | |].
  { eapply Forall2_mono_heap; [| exact Hall].
    intros v x. now apply is_character_mono. }
  { intros v x. apply Htest. }
  intros lk kept Hlk Hkept.
  eapply wp_reads; [apply reads_list_len; apply lookup_insert_eq |].
  split; [now apply Forall2_len in Hkept |].
  heap_sub; eapply lookup_weaken_None; eassumption.
Qed.

Lemma store_csv (linesep : pystr) (hb : heap) (v : val) (d : ExportBundle) :
  is_bundle hb v d ->
  wp (Store.generate_csv_summary linesep v) hb
     (fun r h' => hb ⊆ h' /\ generate_csv_summary linesep d = Some r).
Proof.
  intros (ld & vc & va & vm & vs & -> & Hld & Hc & Ha & Hm & Hs).
  unfold Store.generate_csv_summary.
  apply wp_bind.
  eapply wp_reads;
    [eapply (reads_len_of is_character hb);
     [reflexivity | exact Hld | reflexivity | exact Hc] |].
  apply wp_bind.
  eapply wp_reads;
    [eapply (reads_len_of is_arc hb);
     [reflexivity | exact Hld | reflexivity | exact Ha] |].
  apply wp_bind.
  eapply wp_reads;
    [eapply (reads_len_of is_milestone hb);
     [reflexivity | exact Hld | reflexivity | exact Hm] |].
  apply wp_bind.
  eapply wp_reads;
    [eapply (reads_len_of is_scene hb);
     [reflexivity | exact Hld | reflexivity | exact Hs] |].
  (* estimated chapters *)
  apply wp_bind.
  apply (wp_mono _ _ (fun est h' =>
           estimated_chapters (milestones d) = Some est /\ hb ⊆ h')).
  { destruct Hm as (lm & items & -> & Hlm & Hall).
    apply wp_bind.
    eapply wp_reads; [eapply reads_dict_getitem; [exact Hld | reflexivity] |].
    apply wp_bind. eapply wp_reads; [apply reads_load_list; exact Hlm |].
    rewrite (Forall2_nonempty _ _ _ Hall). unfold estimated_chapters.
    destruct (nonempty (milestones d)) eqn:Ene.
    - apply wp_bind.
      eapply wp_reads.
      { eapply (reads_fields is_milestone _ ms_chapter);
          [intros v x; apply reads_chapter | exact Hall]. }
      apply wp_bind, wp_list_new. intros l1 Hl1.
      apply wp_bind, wp_list_new. intros l2 Hl2. fresh_loc Hl2.
      apply wp_bind. unfold list_concat.
      apply wp_bind. eapply wp_reads; [apply reads_load_list; heap_lookup |].
      apply wp_bind. eapply wp_reads; [apply reads_load_list; heap_lookup |].
      apply wp_list_new. intros l3 Hl3. fresh_loc Hl3.
      change [VInt 0] with (List.map VInt [0]). rewrite <- List.map_app.
      apply wp_bind. eapply wp_reads; [apply reads_ints; heap_lookup |].
      destruct (py_max_nonempty (List.map ms_chapter (milestones d) ++ [0]))
        as (m0 & Hm0 & _); [now destruct (List.map ms_chapter (milestones d)) |].
      eapply wp_reads; [apply reads_lift; exact Hm0 |].
      split; [exact Hm0 | heap_sub].
    - apply wp_ret. split; reflexivity. }
  intros est h1 (Hest & Hsub1).
  (* main and supporting characters *)
  apply wp_bind.
  eapply wp_mono.
  { eapply (wp_count_kept is_main _ hb);
      [intros h v c; apply reads_role_is | exact Hsub1 | exact Hld
      | reflexivity | exact Hc]. }
  intros n_main h2 (-> & Hsub2).
  apply wp_bind.
  eapply wp_mono.
  { eapply (wp_count_kept is_supporting _ hb);
      [intros h v c; apply reads_role_not_in | exact Hsub2 | exact Hld
      | reflexivity | exact Hc]. }
  intros n_supporting h3 (-> & Hsub3).
  (* the frame and its text *)
  apply wp_bind, wp_list_new. intros lmetric Hmetric.
  apply wp_bind, wp_list_new. intros lcount Hcount. fresh_loc Hcount.
  apply wp_bind, wp_dict_new. intros lsum Hsum. fresh_loc Hsum.
  apply wp_bind.
  eapply wp_reads.
  { eapply reads_strs_item; [apply lookup_insert_eq | reflexivity |].
    exists lmetric. split; [reflexivity |].
    rewrite lookup_insert_ne by congruence.
    rewrite lookup_insert_ne by congruence.
    rewrite lookup_insert_eq.
    instantiate (1 := [ u "Total Characters"; u "Total Story Arcs";
                        u "Total Milestones"; u "Total Dialogue Scenes";
                        u "Estimated Chapters"; u "Main Characters";
                        u "Supporting Characters" ]).
    reflexivity. }
  apply wp_bind.
  eapply wp_reads.
  { eapply reads_bind;
      [eapply reads_dict_getitem; [apply lookup_insert_eq | reflexivity] |].
    apply reads_ints.
    rewrite lookup_insert_ne by congruence.
    rewrite lookup_insert_eq.
    instantiate (1 := [ len (characters d); len (story_arcs d);
                        len (milestones d); len (dialogue_scenes d); est;
                        len (List.filter is_main (characters d));
                        len (List.filter is_supporting (characters d)) ]).
    reflexivity. }
  apply wp_ret. split.
  - heap_sub; eapply lookup_weaken_None; eassumption.
  - unfold generate_csv_summary, summary_data. rewrite Hest. reflexivity.
Qed.

Lemma is_list_mono {A} (R : heap -> val -> A -> Prop) (h h' : heap) (v : val)
    (xs : list A) :
  (forall h h' v x, h ⊆ h' -> R h v x -> R h' v x) ->
  h ⊆ h' -> is_list R h v xs -> is_list R h' v xs.
Proof.
  intros Hmono Hsub (l & items & -> & Hl & Hall). exists l, items.
  split; [reflexivity |]. split; [eapply lookup_weaken; eassumption |].
  eapply Forall2_mono_heap; [| exact Hall]. intros v x. now apply Hmono.
Qed.

Lemma store_export (linesep now concept : pystr) (h0 : heap)
    (vc va vm vs : val) (cs : list Character) (arcs : list StoryArc)
    (ms : list Milestone) (scenes : list DialogueScene) (format_type : pystr) :
  is_list is_character h0 vc cs ->
  is_list is_arc h0 va arcs ->
  is_list is_milestone h0 vm ms ->
  is_list is_scene h0 vs scenes ->
  wp (Store.export_script_format linesep now concept vc va vm vs format_type) h0
     (fun r h' =>
        h0 ⊆ h'
        /\ export_script_format linesep now concept cs arcs ms scenes format_type
           = Some r).
Proof.
  intros Hc Ha Hm Hs. unfold Store.export_script_format, export_script_format.
  apply wp_bind, wp_dict_new. intros ld Hld.
  set (d := {| story_concept := concept; characters := cs; story_arcs := arcs;
               milestones := ms; dialogue_scenes := scenes;
               export_date := now |}).
  set (hb := <[ld := _]> h0).
  assert (Hsub : h0 ⊆ hb) by now apply insert_subseteq.
  assert (Hb : is_bundle hb (VRef ld) d).
  { exists ld, vc, va, vm, vs. split; [reflexivity |].
    split; [apply lookup_insert_eq |].
    split; [eapply is_list_mono; [apply is_character_mono | exact Hsub | exact Hc] |].
    split; [eapply is_list_mono; [apply is_arc_mono | exact Hsub | exact Ha] |].
    split; [eapply is_list_mono; [apply is_milestone_mono | exact Hsub | exact Hm] |].
    eapply is_list_mono; [apply is_scene_mono | exact Hsub | exact Hs]. }
  clearbody hb.
  destruct (str_eqb format_type (u "JSON")).
  { eapply wp_reads; [apply store_json; exact Hb |]. now split. }
  destruct (str_eqb format_type (u "Markdown")).
  { eapply wp_mono; [apply store_markdown; exact Hb |].
    intros r h' (Hsub' & ->). split; [now transitivity hb | reflexivity]. }
  destruct (str_eqb format_type (u "CSV Summary")).
  { eapply wp_mono; [apply store_csv; exact Hb |].
    intros r h' (Hsub' & Hr). split; [now transitivity hb | exact Hr]. }
  eapply wp_reads; [apply store_json; exact Hb |]. now split.
Qed.

Lemma wp_run {A} (m : M A) (h : heap) (Q : A -> heap -> Prop) :
  wp m h Q -> exists x h', m h = Some (x, h') /\ Q x h'.
Proof.
  unfold wp. destruct (m h) as [[x h']|]; [eauto | tauto].
Qed.

(** C9.  Run on a store that holds the four input lists and their records,
    [export_script_format] (in every format), [analyze_story_structure] and
    [validate_story_structure] return, every object that was in the store
    before the call is unchanged after it, so each input list holds the same
    records in the same order, and the results are those of the functions
    on values: sorting happens in lists the functions build themselves. *)
Theorem inputs_unchanged (h : heap) (vc va vm vs : val)
    (cs : list Character) (arcs : list StoryArc) (ms : list Milestone)
    (scenes : list DialogueScene) :
  is_list is_character h vc cs ->
  is_list is_arc h va arcs ->
  is_list is_milestone h vm ms ->
  is_list is_scene h vs scenes ->
  (forall linesep now concept format_type,
     exists text h',
       Store.export_script_format linesep now concept vc va vm vs format_type h
       = Some (text, h')
       /\ unchanged h h'
       /\ is_list is_character h' vc cs /\ is_list is_arc h' va arcs
       /\ is_list is_milestone h' vm ms /\ is_list is_scene h' vs scenes
       /\ export_script_format linesep now concept cs arcs ms scenes
            format_type = Some text)
  /\ (exists r h',
        Store.analyze_story_structure vc va vm h = Some (r, h')
        /\ unchanged h h'
        /\ is_list is_character h' vc cs /\ is_list is_arc h' va arcs
        /\ is_list is_milestone h' vm ms
        /\ exists a, analyze_story_structure cs arcs ms = Some a
                     /\ is_analysis h' r a)
  /\ (exists r h',
        Store.validate_story_structure vc va vm h = Some (r, h')
        /\ unchanged h h'
        /\ is_list is_character h' vc cs /\ is_list is_arc h' va arcs
        /\ is_list is_milestone h' vm ms
        /\ exists warnings,
             validate_story_structure cs arcs ms = Some warnings
             /\ is_strs h' r warnings).
Proof.
  intros Hc Ha Hm Hs.
  assert (Hkeep : forall h', h ⊆ h' ->
    unchanged h h'
    /\ is_list is_character h' vc cs /\ is_list is_arc h' va arcs
    /\ is_list is_milestone h' vm ms /\ is_list is_scene h' vs scenes).
  { intros h' Hsub. split; [intros l o Hl; eapply lookup_weaken; eassumption |].
    split; [eapply is_list_mono; [apply is_character_mono | exact Hsub | exact Hc] |].
    split; [eapply is_list_mono; [apply is_arc_mono | exact Hsub | exact Ha] |].
    split; [eapply is_list_mono; [apply is_milestone_mono | exact Hsub | exact Hm] |].
    eapply is_list_mono; [apply is_scene_mono | exact Hsub | exact Hs]. }
  split; [| split].
  - intros linesep now concept format_type.
    destruct (wp_run _ _ _ (store_export linesep now concept h vc va vm vs
                              cs arcs ms scenes format_type Hc Ha Hm Hs))
      as (text & h' & Hrun & Hsub & Hpure).
    exists text, h'. split; [exact Hrun |].
    destruct (Hkeep h' Hsub) as (H1 & H2 & H3 & H4 & H5).
    repeat split; assumption.
  - destruct (wp_run _ _ _ (store_analyze h vc va vm cs arcs ms Hc Ha Hm))
      as (r & h' & Hrun & Hsub & Hpure).
    exists r, h'. split; [exact Hrun |].
    destruct (Hkeep h' Hsub) as (H1 & H2 & H3 & H4 & H5).
    repeat split; assumption.
  - destruct (wp_run _ _ _ (store_validate h vc va vm cs arcs ms Hc Ha Hm))
      as (r & h' & Hrun & Hsub & Hpure).
    exists r, h'. split; [exact Hrun |].
    destruct (Hkeep h' Hsub) as (H1 & H2 & H3 & H4 & H5).
    repeat split; assumption.
Qed.

Lemma inputs_unchanged_witness :
  (forall linesep now concept format_type,
     exists text h',
       Store.export_script_format linesep now concept
         (VRef 1%positive) (VRef 2%positive) (VRef 3%positive) (VRef 4%positive)
         format_type example_store
       = Some (text, h')
       /\ unchanged example_store h'
       /\ is_list is_character h' (VRef 1%positive) [ava]
       /\ is_list is_arc h' (VRef 2%positive) []
       /\ is_list is_milestone h' (VRef 3%positive) [reveal]
       /\ is_list is_scene h' (VRef 4%positive) []
       /\ export_script_format linesep now concept [ava] [] [reveal] []
            format_type = Some text)
  /\ (exists r h',
        Store.analyze_story_structure
          (VRef 1%positive) (VRef 2%positive) (VRef 3%positive) example_store
        = Some (r, h')
        /\ unchanged example_store h'
        /\ is_list is_character h' (VRef 1%positive) [ava]
        /\ is_list is_arc h' (VRef 2%positive) []
        /\ is_list is_milestone h' (VRef 3%positive) [reveal]
        /\ exists a, analyze_story_structure [ava] [] [reveal] = Some a
                     /\ is_analysis h' r a)
  /\ (exists r h',
        Store.validate_story_structure
          (VRef 1%positive) (VRef 2%positive) (VRef 3%positive) example_store
        = Some (r, h')
        /\ unchanged example_store h'
        /\ is_list is_character h' (VRef 1%positive) [ava]
        /\ is_list is_arc h' (VRef 2%positive) []
        /\ is_list is_milestone h' (VRef 3%positive) [reveal]
        /\ exists warnings,
             validate_story_structure [ava] [] [reveal] = Some warnings
             /\ is_strs h' r warnings).
Proof.
  apply (inputs_unchanged example_store
           (VRef 1%positive) (VRef 2%positive) (VRef 3%positive)
           (VRef 4%positive) [ava] [] [reveal] []).
  - exists 1%positive, [VRef 10%positive].
    split; [reflexivity |]. split; [vm_compute; reflexivity |].
    constructor; [| constructor].
    exists 10%positive. split; [reflexivity | vm_compute; reflexivity].
  - exists 2%positive, []. split; [reflexivity |].
    split; [vm_compute; reflexivity | constructor].
  - exists 3%positive, [VRef 20%positive].
    split; [reflexivity |]. split; [vm_compute; reflexivity |].
    constructor; [| constructor].
    exists 20%positive. split; [reflexivity | vm_compute; reflexivity].
  - exists 4%positive, []. split; [reflexivity |].
    split; [vm_compute; reflexivity | constructor].
Defined.

(** * Further properties of the functions *)

(** ** The role distribution of the analysis *)

Lemma count_role_lookup (cs : list Character) (roles : gmap pystr Z)
    (role : pystr) :
  fold_left count_role cs roles !! role
  = if bool_decide (with_role role cs = []) then roles !! role
    else Some (default 0 (roles !! role) + len (with_role role cs)).
Proof.
  revert roles. induction cs as [|c cs IH]; intros roles; [reflexivity |].
  cbn [fold_left]. rewrite IH. unfold with_role, count_role.
  cbn [List.filter]. set (rest := List.filter _ cs).
  destruct (bool_decide_reflect (char_role c = role)) as [Hc | Hc].
  - subst role. rewrite lookup_insert_eq. cbn [default].
    rewrite (bool_decide_eq_false_2 (c :: rest = [])) by discriminate.
    unfold len. cbn [length]. destruct rest as [|x rest].
    + rewrite bool_decide_eq_true_2 by reflexivity. apply f_equal.
      cbn [default length]. lia.
    + rewrite bool_decide_eq_false_2 by discriminate. apply f_equal.
      cbn [default length]. unfold id. lia.
  - rewrite lookup_insert_ne by exact Hc. reflexivity.
Qed.

Lemma total_count_insert (roles : gmap pystr Z) (role : pystr) (n : Z) :
  total_count (<[role := n]> roles)
  = n + total_count roles - default 0 (roles !! role).
Proof.
  unfold total_count.
  assert (Hcomm : forall (m : gmap pystr Z) j1 j2 z1 z2 y,
            j1 <> j2 -> m !! j1 = Some z1 -> m !! j2 = Some z2 ->
            z1 + (z2 + y) = z2 + (z1 + y)) by (intros; lia).
  destruct (roles !! role) as [v|] eqn:Hv; cbn [default from_option].
  - rewrite <- (insert_delete_eq roles role n).
    rewrite <- (insert_delete_id roles role v Hv) at 2.
    rewrite !map_fold_insert_L; try apply lookup_delete_eq;
      try (intros; lia).
    unfold id. lia.
  - rewrite map_fold_insert_L; try exact Hv; intros; lia.
Qed.

Lemma total_count_roles (cs : list Character) (roles : gmap pystr Z) :
  total_count (fold_left count_role cs roles) = total_count roles + len cs.
Proof.
  revert roles. induction cs as [|c cs IH]; intros roles.
  - cbn. unfold len. cbn. lia.
  - cbn [fold_left]. rewrite IH. unfold count_role.
    rewrite total_count_insert. unfold len. cbn [length]. lia.
Qed.

Lemma pacing_fits_chapters (ms : list Milestone) :
  (forall m, In m ms -> Limit.fits (ms_chapter m) = true) ->
  pacing_fits ms = true.
Proof.
  intros Hfit. unfold pacing_fits. apply forallb_forall. intros [x y] Hin.
  apply List.filter_In in Hin as [Hin _].
  assert (Hchap : forall z, In z (sort_ints (List.map ms_chapter ms)) ->
            Limit.fits z = true).
  { intros z Hz. apply (Permutation_in _ (sort_ints_perm _)) in Hz.
    apply List.in_map_iff in Hz as (m & <- & Hm). now apply Hfit. }
  unfold adjacent_pairs in Hin. cbn [fst snd].
  rewrite (Hchap x) by (eapply in_combine_l; exact Hin).
  apply Hchap. apply in_combine_r in Hin.
  destruct (sort_ints (List.map ms_chapter ms)); [destruct Hin | now right].
Qed.

Lemma fits_between (lo hi z : Z) :
  Limit.fits lo = true -> Limit.fits hi = true -> lo <= z <= hi ->
  Limit.fits z = true.
Proof.
  unfold Limit.fits. generalize (10 ^ Limit.int_max_str_digits). intros bound.
  rewrite !Z.ltb_lt. lia.
Qed.

(** X1.  Whenever [analyze_story_structure] returns, as it does when every
    milestone chapter has at most 4300 digits, its role distribution has one
    entry per role that occurs among the characters, holding the number of
    characters with that role; a role that does not occur has no entry, and
    the counts add up to the character count. *)
Theorem character_roles_distribution
    (cs : list Character) (arcs : list StoryArc) (ms : list Milestone) :
  ((forall m, In m ms -> Limit.fits (ms_chapter m) = true) ->
   exists a : Analysis, Limit.analyze_story_structure cs arcs ms = Some a)
  /\ forall a : Analysis,
       Limit.analyze_story_structure cs arcs ms = Some a ->
       (forall role : pystr,
          character_roles a !! role
          = if bool_decide (with_role role cs = []) then None
            else Some (len (with_role role cs)))
       /\ (forall (role : pystr) (n : Z),
             character_roles a !! role = Some n ->
             1 <= n /\ exists c, In c cs /\ char_role c = role)
       /\ total_count (character_roles a) = character_count a.
Proof.
  rewrite analyze_story_structure_limit.
  destruct (analyze_story_structure_total cs arcs ms) as (est & _ & ->).
  split.
  - intros Hfit. rewrite (pacing_fits_chapters ms Hfit). eauto.
  - intros a Ha. destruct (pacing_fits ms); [| discriminate].
    injection Ha as <-. cbn [character_roles character_count].
    assert (Hlook : forall role : pystr,
              fold_left count_role cs ∅ !! role
              = if bool_decide (with_role role cs = []) then None
                else Some (len (with_role role cs))).
    { intros role. rewrite count_role_lookup, lookup_empty. cbn [default].
      case_bool_decide; [reflexivity | f_equal; lia]. }
    split; [exact Hlook |]. split.
    + intros role n. rewrite Hlook. case_bool_decide as He; [discriminate |].
      intros [= <-].
      destruct (with_role role cs) as [|c r] eqn:Hr; [congruence |].
      split; [unfold len; cbn [length]; lia |].
      exists c. assert (Hin : In c (with_role role cs)) by (rewrite Hr; now left).
      unfold with_role in Hin. apply List.filter_In in Hin as [Hin Hrole].
      apply bool_decide_eq_true in Hrole. auto.
    + rewrite total_count_roles. unfold total_count. now rewrite map_fold_empty.
Qed.

(** ** The analysis does not depend on the order of its inputs *)

Lemma py_max_perm (l l' : list Z) : Permutation l l' -> py_max l = py_max l'.
Proof.
  intros Hp. destruct l as [|x l].
  - apply Permutation_nil in Hp. now subst.
  - destruct l' as [|y l'];
      [apply Permutation_sym, Permutation_nil in Hp; discriminate |].
    destruct (py_max_cons x l) as (m & -> & Hin & Hle).
    destruct (py_max_cons y l') as (m' & -> & Hin' & Hle').
    f_equal. apply Z.le_antisymm.
    + apply Hle'. eapply Permutation_in; eassumption.
    + apply Hle. eapply Permutation_in; [symmetry|]; eassumption.
Qed.

Lemma nonempty_perm {A} (l l' : list A) :
  Permutation l l' -> nonempty l = nonempty l'.
Proof.
  intros Hp. apply Permutation_length in Hp. now destruct l, l'.
Qed.

Lemma len_perm {A} (l l' : list A) : Permutation l l' -> len l = len l'.
Proof. intros Hp. unfold len. now rewrite (Permutation_length Hp). Qed.

Lemma filter_perm {A} (f : A -> bool) (l l' : list A) :
  Permutation l l' -> Permutation (List.filter f l) (List.filter f l').
Proof.
  induction 1 as [|x l l' _ IH|x y l|l l' l'' _ IH1 _ IH2]; cbn [List.filter].
  - constructor.
  - destruct (f x); [now constructor | exact IH].
  - destruct (f x), (f y); try reflexivity. apply perm_swap.
  - now transitivity (List.filter f l').
Qed.

Lemma sort_ints_of_perm (l l' : list Z) :
  Permutation l l' -> sort_ints l = sort_ints l'.
Proof.
  intros Hp. apply sorted_perm_unique; try apply sort_ints_sorted.
  now rewrite !sort_ints_perm.
Qed.

Lemma count_roles_perm (cs cs' : list Character) :
  Permutation cs cs' -> fold_left count_role cs ∅ = fold_left count_role cs' ∅.
Proof.
  intros Hp. apply map_eq. intros role. rewrite !count_role_lookup.
  assert (Hf : Permutation (with_role role cs) (with_role role cs'))
    by now apply filter_perm.
  rewrite (len_perm _ _ Hf).
  destruct (with_role role cs) as [|x r], (with_role role cs') as [|x' r'];
    try reflexivity.
  - apply Permutation_nil in Hf. discriminate.
  - apply Permutation_sym, Permutation_nil in Hf. discriminate.
Qed.

(** X2.  The analysis is the same for every order of the characters, of the
    arcs and of the milestones: counts, estimated length, role distribution
    and pacing messages depend only on which records are present. *)
Theorem analysis_order_independent
    (cs cs' : list Character) (arcs arcs' : list StoryArc)
    (ms ms' : list Milestone) :
  Permutation cs cs' -> Permutation arcs arcs' -> Permutation ms ms' ->
  analyze_story_structure cs arcs ms = analyze_story_structure cs' arcs' ms'.
Proof.
  intros Hc Ha Hm.
  destruct (analyze_story_structure_total cs arcs ms) as (est & Hest & ->).
  destruct (analyze_story_structure_total cs' arcs' ms') as (est' & Hest' & ->).
  rewrite <- (nonempty_perm _ _ Hm), <- (nonempty_perm _ _ Ha) in Hest'.
  rewrite <- (py_max_perm _ _ (Permutation_map ms_chapter Hm)) in Hest'.
  rewrite <- (py_max_perm _ _ (Permutation_map arc_end_chapter Ha)) in Hest'.
  rewrite Hest in Hest'. injection Hest' as <-.
  rewrite (len_perm _ _ Hc), (len_perm _ _ Ha), (len_perm _ _ Hm).
  rewrite (count_roles_perm _ _ Hc).
  now rewrite (sort_ints_of_perm _ _ (Permutation_map ms_chapter Hm)).
Qed.

Lemma analysis_order_independent_witness :
  analyze_story_structure [ava; ava] [] [reveal; create_milestone [] [] [] 9 [] [] None]
  = analyze_story_structure [ava; ava] []
      [create_milestone [] [] [] 9 [] [] None; reveal].
Proof.
  apply analysis_order_independent;
    [reflexivity | reflexivity | apply perm_swap].
Defined.

(** ** How many pacing messages there can be *)

Lemma wide_pairs_bound (l : list Z) (hi : Z) :
  StronglySorted Z.le l -> Forall (fun x => x <= hi) l ->
  match l with
  | [] => True
  | a :: _ => 4 * len (List.filter wide (adjacent_pairs l)) <= hi - a
  end.
Proof.
  induction 1 as [|a l Hs IH Hall]; intros Hhi; [exact I |].
  apply Forall_cons in Hhi as [Ha Hhi]. specialize (IH Hhi).
  destruct l as [|b r]; [unfold len; cbn in *; lia |].
  change (adjacent_pairs (a :: b :: r)) with ((a, b) :: adjacent_pairs (b :: r)).
  apply Forall_cons in Hall as [Hab _].
  cbn [List.filter]. unfold wide at 1. cbn [fst snd].
  destruct (Z.ltb_spec 3 (b - a)); unfold len in *; cbn [length]; lia.
Qed.

(** X3.  When every milestone chapter lies between [lo] and [hi], the
    analysis returns if [lo] and [hi] have at most 4300 digits, and whenever
    it returns it holds at most [(hi - lo) / 4] pacing messages and at most
    one message less than there are milestones (none when there is no
    milestone); in particular milestones that span at most three chapters
    never produce a pacing message. *)
Theorem pacing_message_count
    (cs : list Character) (arcs : list StoryArc) (ms : list Milestone)
    (lo hi : Z) :
  lo <= hi ->
  (forall m, In m ms -> lo <= ms_chapter m <= hi) ->
  (Limit.fits lo = true -> Limit.fits hi = true ->
   exists a : Analysis, Limit.analyze_story_structure cs arcs ms = Some a)
  /\ forall a : Analysis,
       Limit.analyze_story_structure cs arcs ms = Some a ->
       4 * len (pacing_analysis a) <= hi - lo
       /\ len (pacing_analysis a) <= Z.max 0 (len ms - 1)
       /\ (hi - lo <= 3 -> pacing_analysis a = []).
Proof.
  intros Hlohi Hrange. rewrite analyze_story_structure_limit.
  destruct (analyze_story_structure_total cs arcs ms) as (est & _ & ->).
  split.
  { intros Hlo Hhi. rewrite pacing_fits_chapters; [eauto |].
    intros m Hm. exact (fits_between lo hi _ Hlo Hhi (Hrange m Hm)). }
  intros a Ha. destruct (pacing_fits ms); [| discriminate].
  injection Ha as <-. cbn [pacing_analysis].
  set (mc := sort_ints (List.map ms_chapter ms)).
  assert (Hin : forall x, In x mc -> lo <= x <= hi).
  { intros x Hx. apply (Permutation_in _ (sort_ints_perm _)) in Hx.
    apply List.in_map_iff in Hx as (m & <- & Hm). now apply Hrange. }
  assert (Hbound : 4 * len (List.map gap_text
                              (List.filter wide (adjacent_pairs mc)))
                   <= hi - lo).
  { unfold len. rewrite length_map.
    pose proof (wide_pairs_bound mc hi (sort_ints_sorted _)) as Hb.
    destruct mc as [|x r] eqn:Hmc; [cbn; lia |].
    assert (lo <= x) by (apply Hin; now left).
    unfold len in Hb. etransitivity; [apply Hb |]; [| lia].
    apply List.Forall_forall. intros y Hy. now apply Hin. }
  split; [exact Hbound |]. split.
  - unfold len. rewrite length_map.
    assert (Hlen : length mc = length ms).
    { unfold mc. rewrite (Permutation_length (sort_ints_perm _)).
      apply length_map. }
    rewrite <- Hlen.
    assert (Hpairs : (length (List.filter wide (adjacent_pairs mc))
                      <= length (adjacent_pairs mc))%nat)
      by apply List.filter_length_le.
    unfold adjacent_pairs in Hpairs at 2. rewrite length_combine in Hpairs.
    destruct mc as [|x r]; cbn [tl length] in *; lia.
  - intros Hspan.
    destruct (List.map gap_text _) as [|x r]; [reflexivity |].
    unfold len in Hbound. cbn [length] in Hbound. lia.
Qed.

Lemma pacing_message_count_witness :
  (Limit.fits 5 = true -> Limit.fits 9 = true ->
   exists a : Analysis,
     Limit.analyze_story_structure [ava] [] (st_milestones sample_session)
     = Some a)
  /\ forall a : Analysis,
       Limit.analyze_story_structure [ava] [] (st_milestones sample_session)
       = Some a ->
       4 * len (pacing_analysis a) <= 9 - 5
       /\ len (pacing_analysis a)
          <= Z.max 0 (len (st_milestones sample_session) - 1)
       /\ (9 - 5 <= 3 -> pacing_analysis a = []).
Proof.
  apply (pacing_message_count [ava] [] (st_milestones sample_session) 5 9);
    [lia |].
  intros m [<- | [<- | []]]; vm_compute; split; discriminate.
Defined.

(** The two milestones of that session, at chapters 9 and 5, give exactly one
    pacing message. *)
Example pacing_message_sample :
  exists a : Analysis,
    Limit.analyze_story_structure [ava] [] (st_milestones sample_session)
    = Some a
    /\ pacing_analysis a = [u "Large gap between chapters 5 and 9"].
Proof. eexists. split; vm_compute; reflexivity. Qed.

(** ** The shape of the list of warnings *)

Lemma count_str_positive (x : pystr) (l : list pystr) :
  0 < count_str x l -> existsb (str_eqb x) l = true.
Proof.
  unfold count_str, len. induction l as [|y l IH]; cbn [List.filter length existsb].
  - cbn. lia.
  - destruct (str_eqb x y); [reflexivity | exact IH].
Qed.

(** X4.  [validate_story_structure] returns at most three warnings, always
    in the same relative order (main characters, coverage, milestones), none
    of them twice; the two warnings about main characters exclude each
    other, and so do the two about milestone impacts. *)
Theorem validate_warning_shape
    (cs : list Character) (arcs : list StoryArc) (ms : list Milestone) :
  exists warnings : list pystr,
    validate_story_structure cs arcs ms = Some warnings
    /\ sublist warnings
         [warn_no_main; warn_many_main; warn_coverage; warn_many_critical;
          warn_no_high]
    /\ ~ (In warn_no_main warnings /\ In warn_many_main warnings)
    /\ ~ (In warn_many_critical warnings /\ In warn_no_high warnings)
    /\ (length warnings <= 3)%nat.
Proof.
  rewrite validate_story_structure_total. eexists; split; [reflexivity |].
  set (A := if len (List.filter is_main cs) =? 0 then [warn_no_main]
            else if 3 <? len (List.filter is_main cs) then [warn_many_main]
            else []).
  set (B := match py_max (List.map arc_end_chapter arcs) with
            | Some total_chapters =>
                if Z.of_nat (size (fold_left cover arcs ∅)) <? total_chapters
                then [warn_coverage] else []
            | None => []
            end).
  set (C := if nonempty ms then _ else []).
  assert (HA : A = [warn_no_main] \/ A = [warn_many_main] \/ A = []).
  { unfold A. destruct (_ =? 0); [now left |].
    destruct (3 <? _); [right; now left | right; now right]. }
  assert (HB : B = [warn_coverage] \/ B = []).
  { unfold B. destruct (py_max _) as [t|]; [| now right].
    destruct (_ <? t); [now left | now right]. }
  assert (HC : C = [warn_many_critical] \/ C = [warn_no_high] \/ C = []).
  { unfold C. destruct (nonempty ms); [| auto].
    destruct (Z.ltb_spec 3 (count_str (u "Critical") (List.map ms_impact ms)))
      as [Hcrit | _].
    - rewrite (count_str_positive (u "Critical")) by lia.
      rewrite andb_false_r, app_nil_r. now left.
    - destruct (_ && _); [right; now left | right; now right]. }
  clearbody A B C.
  destruct HA as [-> | [-> | ->]], HB as [-> | ->], HC as [-> | [-> | ->]];
    cbn [app];
    (split; [repeat first [apply sublist_nil_l | apply sublist_skip
                          | apply sublist_cons] |]);
    (split; [intros [H1 H2]; vm_compute in H1, H2; intuition discriminate |]);
    (split; [intros [H1 H2]; vm_compute in H1, H2; intuition discriminate |]);
    cbn; lia.
Qed.

(** ** What the coverage warning means for arcs that start at chapter 1 or
       later *)

Lemma size_chapters (last : Z) :
  0 <= last ->
  Z.of_nat (size (list_to_set (seqZ 1 last) : gset Z)) = last.
Proof.
  intros Hlast. rewrite size_list_to_set by apply NoDup_seqZ.
  rewrite length_seqZ. lia.
Qed.

(** X5.  When every arc starts at chapter 1 or later, as the arcs made with
    the page's form do, the chapters-not-covered warning is returned exactly
    when some chapter between 1 and the largest end chapter lies in no
    arc. *)
Theorem coverage_warning_meaning
    (cs : list Character) (arcs : list StoryArc) (ms : list Milestone)
    (last : Z) :
  (forall a, In a arcs -> 1 <= arc_start_chapter a) ->
  is_max last (List.map arc_end_chapter arcs) ->
  exists warnings : list pystr,
    validate_story_structure cs arcs ms = Some warnings
    /\ (In warn_coverage warnings
        <-> exists c : Z,
              1 <= c <= last /\ forall a, In a arcs -> ~ covers a c).
Proof.
  intros Hstart Hlast.
  destruct (validate_story_structure_warns cs arcs ms) as (ws & Hws & Hin).
  exists ws. split; [exact Hws |].
  assert (Hmax : py_max (List.map arc_end_chapter arcs) = Some last).
  { destruct (py_max_nonempty (List.map arc_end_chapter arcs))
      as (m & Hm & Hmm).
    - destruct Hlast as [Hl _]. intros E. rewrite E in Hl. destruct Hl.
    - rewrite Hm. f_equal. eapply is_max_unique; eassumption. }
  set (covered := fold_left cover arcs ∅) in *.
  set (full := list_to_set (seqZ 1 last) : gset Z).
  assert (Hcov : forall c, c ∈ covered <-> exists a, In a arcs /\ covers a c).
  { intros c. unfold covered. rewrite elem_of_fold_cover, elem_of_empty. tauto. }
  assert (Hfull : forall c, c ∈ full <-> 1 <= c <= last).
  { intros c. unfold full. rewrite elem_of_list_to_set, elem_of_seqZ. lia. }
  assert (Hsub : covered ⊆ full).
  { intros c. rewrite Hcov, Hfull. intros (a & Ha & Hs & He).
    split; [specialize (Hstart a Ha); lia |].
    destruct Hlast as [_ Hle].
    specialize (Hle (arc_end_chapter a) (List.in_map arc_end_chapter _ _ Ha)).
    lia. }
  assert (Hiff : In warn_coverage ws <-> Z.of_nat (size covered) < last).
  { rewrite Hin, Hmax. split.
    - intros [[H _] | [[H _] | [[_ (t & [= <-] & Ht)] | [[H _] | [H _]]]]];
        [other_warning | other_warning | exact Ht | other_warning ..].
    - intros H. do 2 right; left. split; [reflexivity |]. eauto. }
  rewrite Hiff. split.
  - intros Hlt.
    assert (0 <= last) by lia.
    assert (Hdiff : size (full ∖ covered) <> 0%nat).
    { rewrite size_difference by exact Hsub.
      pose proof (size_chapters last ltac:(assumption)) as Hsz.
      fold full in Hsz. lia. }
    apply size_non_empty_iff in Hdiff. apply set_choose in Hdiff as [c Hc].
    apply elem_of_difference in Hc as [Hc1 Hc2].
    exists c. split; [now apply Hfull |].
    intros a Ha Hcv. apply Hc2, Hcov. eauto.
  - intros (c & Hc & Hnone).
    assert (covered ⊂ full) as Hstrict.
    { split; [exact Hsub |]. intros Hrev.
      assert (c ∈ covered) as Hcc by (apply Hrev, Hfull, Hc).
      apply Hcov in Hcc as (a & Ha & Hcv). exact (Hnone a Ha Hcv). }
    apply subset_size in Hstrict.
    pose proof (size_chapters last ltac:(lia)) as Hsz. fold full in Hsz. lia.
Qed.

Lemma coverage_warning_meaning_witness :
  exists warnings : list pystr,
    validate_story_structure []
      [create_story_arc [] (u "Arrival") [] 1 2 [] [];
       create_story_arc [] (u "Return") [] 4 6 [] []] []
    = Some warnings
    /\ (In warn_coverage warnings
        <-> exists c : Z,
              1 <= c <= 6
              /\ forall a,
                   In a [create_story_arc [] (u "Arrival") [] 1 2 [] [];
                         create_story_arc [] (u "Return") [] 4 6 [] []] ->
                   ~ covers a c).
Proof.
  apply coverage_warning_meaning.
  - intros a [<- | [<- | []]]; vm_compute; discriminate.
  - split; [vm_compute; auto |].
    intros x [<- | [<- | []]]; vm_compute; discriminate.
Defined.

(** ** The warnings do not depend on the order of the inputs *)

Lemma fold_cover_perm (arcs arcs' : list StoryArc) :
  Permutation arcs arcs' -> fold_left cover arcs ∅ = fold_left cover arcs' ∅.
Proof.
  intros Hp. apply set_eq. intros c. rewrite !elem_of_fold_cover.
  split; (intros [H | (a & Ha & Hc)]; [now left | right; exists a]);
    (split; [eapply Permutation_in; [| exact Ha] | exact Hc]);
    [exact Hp | symmetry; exact Hp].
Qed.

Lemma existsb_str_perm (x : pystr) (l l' : list pystr) :
  Permutation l l' -> existsb (str_eqb x) l = existsb (str_eqb x) l'.
Proof.
  intros Hp. apply eq_true_iff_eq. rewrite !existsb_str_eqb.
  split; apply Permutation_in; [exact Hp | symmetry; exact Hp].
Qed.

(** X6.  The list of warnings is the same for every order of the
    characters, of the arcs and of the milestones. *)
Theorem validation_order_independent
    (cs cs' : list Character) (arcs arcs' : list StoryArc)
    (ms ms' : list Milestone) :
  Permutation cs cs' -> Permutation arcs arcs' -> Permutation ms ms' ->
  validate_story_structure cs arcs ms = validate_story_structure cs' arcs' ms'.
Proof.
  intros Hc Ha Hm. rewrite !validate_story_structure_total.
  rewrite (len_perm _ _ (filter_perm is_main _ _ Hc)).
  rewrite (py_max_perm _ _ (Permutation_map arc_end_chapter Ha)).
  rewrite (fold_cover_perm _ _ Ha).
  rewrite (nonempty_perm _ _ Hm).
  unfold count_str.
  rewrite (len_perm _ _ (filter_perm (str_eqb (u "Critical")) _ _
                           (Permutation_map ms_impact Hm))).
  rewrite (existsb_str_perm (u "High") _ _ (Permutation_map ms_impact Hm)).
  rewrite (existsb_str_perm (u "Critical") _ _ (Permutation_map ms_impact Hm)).
  reflexivity.
Qed.

Lemma validation_order_independent_witness :
  validate_story_structure [ava] []
    [reveal; create_milestone [] [] [] 9 [] (u "Critical") None]
  = validate_story_structure [ava] []
      [create_milestone [] [] [] 9 [] (u "Critical") None; reveal].
Proof.
  apply validation_order_independent;
    [reflexivity | reflexivity | apply perm_swap].
Defined.

(** ** The rows of the CSV summary *)

Lemma role_partition (cs : list Character) :
  len (List.filter is_main cs) + len (List.filter is_supporting cs)
  + len (with_role (u "Love Interest") cs) = len cs.
Proof.
  unfold len, with_role. induction cs as [|c cs IH]; [reflexivity |].
  cbn [List.filter length]. unfold is_main, is_supporting, str_eqb in *.
  cbn [existsb] in *.
  destruct (bool_decide_reflect (char_role c = u "Main Character")) as [E | E];
    destruct (bool_decide_reflect (char_role c = u "Love Interest")) as [E' | E'];
    cbn [orb negb length]; try lia.
  rewrite E in E'. vm_compute in E'. discriminate E'.
Qed.

(** X7.  In the CSV summary the rows Main Characters and Supporting
    Characters, together with the characters whose role is "Love Interest",
    account for every character exactly once: a Love Interest is counted in
    neither row.  No count of the summary is negative. *)
Theorem csv_counts_partition (linesep : pystr) (data : ExportBundle) :
  exists total n_arcs n_milestones n_scenes est main supporting : Z,
    generate_csv_summary linesep data
    = Some (to_csv linesep (u "Metric", u "Count")
              [ (u "Total Characters", total);
                (u "Total Story Arcs", n_arcs);
                (u "Total Milestones", n_milestones);
                (u "Total Dialogue Scenes", n_scenes);
                (u "Estimated Chapters", est);
                (u "Main Characters", main);
                (u "Supporting Characters", supporting) ])
    /\ main + supporting
       + len (with_role (u "Love Interest") (characters data)) = total
    /\ 0 <= main /\ 0 <= supporting /\ main + supporting <= total
    /\ 0 <= n_arcs /\ 0 <= n_milestones /\ 0 <= n_scenes /\ 0 <= est.
Proof.
  destruct (estimated_chapters_spec (milestones data)) as (est & He & H0 & Hm).
  exists (len (characters data)), (len (story_arcs data)),
    (len (milestones data)), (len (dialogue_scenes data)), est,
    (len (List.filter is_main (characters data))),
    (len (List.filter is_supporting (characters data))).
  split.
  { unfold generate_csv_summary, summary_data. rewrite He. reflexivity. }
  pose proof (role_partition (characters data)) as Hp.
  assert (0 <= est).
  { destruct (milestones data) as [|m r] eqn:Hms; [rewrite H0; [lia | reflexivity] |].
    destruct (py_max_cons (ms_chapter m) (List.map ms_chapter r))
      as (mx & _ & Hmx).
    rewrite (Hm mx Hmx). lia. }
  unfold len in *. repeat split; lia.
Qed.

(** X8.  For a non-empty list of milestones the Estimated Chapters row of
    the CSV summary is the estimated length of the analysis, raised to 0
    when that is negative.  With no milestones the row is 0, even when the
    analysis takes its estimate from the arcs. *)
Theorem csv_chapters_match_analysis (now concept : pystr)
    (cs : list Character) (arcs : list StoryArc) (ms : list Milestone)
    (scenes : list DialogueScene) :
  exists (a : Analysis) (rows : list (pystr * Z)) (est : Z),
    analyze_story_structure cs arcs ms = Some a
    /\ summary_data (bundle_of now concept cs arcs ms scenes) = Some rows
    /\ rows !! 4%nat = Some (u "Estimated Chapters", est)
    /\ (ms <> [] -> est = Z.max 0 (estimated_length a))
    /\ (ms = [] -> est = 0).
Proof.
  destruct (analyze_story_structure_total cs arcs ms) as (len_a & Hlen & ->).
  destruct (estimated_chapters_spec ms) as (est & He & H0 & Hm).
  eexists _, _, est. split; [reflexivity |].
  unfold summary_data, bundle_of. cbn [milestones]. rewrite He.
  split; [reflexivity |]. split; [reflexivity |]. split; [| exact H0].
  intros Hne. cbn [estimated_length].
  destruct ms as [|m r]; [congruence |]. cbn [nonempty] in Hlen.
  destruct (py_max_cons (ms_chapter m) (List.map ms_chapter r))
    as (mx & Hmx & Hmax).
  cbn [List.map] in Hlen. rewrite Hmx in Hlen. injection Hlen as <-.
  now apply Hm.
Qed.

(** ** Exports never fail *)


(** ** The JSON export is plain ASCII *)

Lemma hex_digit_plain (n : N) : (n < 16)%N -> is_plain (hex_digit n) = true.
Proof.
  intros Hn. unfold is_plain, hex_digit.
  destruct (N.ltb_spec n 10);
    repeat match goal with
           | |- context [(?a =? ?b)%N] => destruct (N.eqb_spec a b)
           | |- context [(?a <=? ?b)%N] => destruct (N.leb_spec a b)
           end; cbn; try reflexivity; lia.
Qed.

Lemma u_escape_plain (n : N) : forallb is_plain (u_escape n) = true.
Proof.
  unfold u_escape, hex4. cbn [forallb].
  rewrite !hex_digit_plain by (apply N.mod_lt; discriminate).
  reflexivity.
Qed.

Lemma escape_cp_plain (c : N) : forallb is_plain (escape_cp c) = true.
Proof.
  unfold escape_cp.
  repeat match goal with
         | |- context [if (?a =? ?b)%N then _ else _] =>
             destruct (N.eqb_spec a b); [reflexivity |]
         end.
  destruct (N.leb_spec 32 c), (N.leb_spec c 126); cbn [andb].
  - cbn [forallb]. unfold is_plain.
    destruct (N.leb_spec 32 c), (N.leb_spec c 126); lia.
  - destruct (c <? 65536)%N; [apply u_escape_plain |].
    rewrite forallb_app, !u_escape_plain. reflexivity.
  - destruct (c <? 65536)%N; [apply u_escape_plain |].
    rewrite forallb_app, !u_escape_plain. reflexivity.
  - destruct (c <? 65536)%N; [apply u_escape_plain |].
    rewrite forallb_app, !u_escape_plain. reflexivity.
Qed.

Lemma encode_plain (s : pystr) :
  forallb is_plain (encode_basestring_ascii s) = true.
Proof.
  unfold encode_basestring_ascii. cbn [forallb].
  rewrite forallb_app. cbn [forallb].
  replace (is_plain 34) with true by reflexivity. cbn [andb].
  rewrite andb_true_r.
  induction s as [|c s IH]; [reflexivity |].
  cbn [List.map List.concat]. rewrite forallb_app, escape_cp_plain. exact IH.
Qed.

Lemma uint_cps_plain (d : Decimal.uint) : forallb is_plain (uint_cps d) = true.
Proof. induction d; cbn [uint_cps forallb]; try reflexivity; exact IHd. Qed.

Lemma str_of_Z_plain (z : Z) : forallb is_plain (str_of_Z z) = true.
Proof.
  unfold str_of_Z. destruct (Z.to_int z); cbn [forallb];
    rewrite uint_cps_plain; reflexivity.
Qed.

Lemma newline_indent_plain (level : nat) :
  forallb is_plain (newline_indent level) = true.
Proof.
  unfold newline_indent. cbn [forallb].
  replace (is_plain LF) with true by reflexivity. cbn [andb].
  induction (2 * level)%nat as [|n IH]; [reflexivity | exact IH].
Qed.

Lemma join_plain (sep : pystr) (parts : list pystr) :
  forallb is_plain sep = true ->
  List.Forall (fun p => forallb is_plain p = true) parts ->
  forallb is_plain (join sep parts) = true.
Proof.
  intros Hsep. induction 1 as [|p parts Hp Hall IH]; [reflexivity |].
  destruct parts as [|q parts]; [exact Hp |].
  change (join sep (p :: q :: parts)) with (p ++ sep ++ join sep (q :: parts)).
  now rewrite !forallb_app, Hp, Hsep, IH.
Qed.

Lemma dumps_at_plain (v : json) (level : nat) :
  forallb is_plain (dumps_at level v) = true.
Proof.
  revert level. induction v as [| z | s | items IH | members IH]
    using json_nested_ind; intros level.
  - reflexivity.
  - apply str_of_Z_plain.
  - apply encode_plain.
  - destruct items as [|x items]; [reflexivity |].
    rewrite dumps_at_arr. cbn [forallb].
    rewrite !forallb_app, !newline_indent_plain, join_plain; [reflexivity | |].
    + rewrite forallb_app, newline_indent_plain. reflexivity.
    + apply List.Forall_forall. intros p Hp.
      apply List.in_map_iff in Hp as (y & <- & Hy).
      rewrite List.Forall_forall in IH. now apply IH.
  - destruct members as [|kv members]; [reflexivity |].
    rewrite dumps_at_obj. cbn [forallb].
    rewrite !forallb_app, !newline_indent_plain, join_plain; [reflexivity | |].
    + rewrite forallb_app, newline_indent_plain. reflexivity.
    + apply List.Forall_forall. intros p Hp.
      apply List.in_map_iff in Hp as (y & <- & Hy).
      unfold member_text. rewrite !forallb_app, encode_plain.
      rewrite List.Forall_forall in IH. now rewrite (IH y Hy).
Qed.

(** X10.  Whatever text the project holds, the JSON export consists of
    line feeds and printable ASCII characters only: every other character
    is written as an escape. *)
Theorem json_export_is_ascii (linesep now concept : pystr)
    (cs : list Character) (arcs : list StoryArc) (ms : list Milestone)
    (scenes : list DialogueScene) :
  exists text : pystr,
    export_script_format linesep now concept cs arcs ms scenes (u "JSON")
    = Some text
    /\ forall c : N, In c text -> c = 10%N \/ (32 <= c <= 126)%N.
Proof.
  eexists; split; [reflexivity |]. intros c Hc.
  pose proof (dumps_at_plain
                (json_of_bundle (bundle_of now concept cs arcs ms scenes)) 0)
    as Hplain.
  rewrite forallb_forall in Hplain. specialize (Hplain c Hc).
  unfold is_plain in Hplain.
  destruct (N.eqb_spec c 10); [now left |]. right.
  destruct (N.leb_spec 32 c), (N.leb_spec c 126); try discriminate. lia.
Qed.

(** ** The JSON export loses nothing *)

Lemma decoded_pair_free (v : json) : pair_free v = true -> decoded v = v.
Proof.
  induction v as [| z | s | items IH | members IH] using json_nested_ind;
    cbn [pair_free decoded]; intros Hfree.
  - reflexivity.
  - reflexivity.
  - f_equal. now apply join_surrogates_fixed.
  - f_equal. induction IH as [|x items Hx _ IHitems]; [reflexivity |].
    cbn [forallb List.map] in *. apply andb_prop in Hfree as [H1 H2].
    now rewrite Hx, IHitems.
  - f_equal. induction IH as [|[k x] members Hx _ IHmembers]; [reflexivity |].
    cbn [forallb List.map fst snd] in *.
    apply andb_prop in Hfree as [H1 H2]. apply andb_prop in H1 as [Hk H1].
    apply join_surrogates_fixed in Hk. now rewrite Hk, Hx, IHmembers.
Qed.

Lemma map_injective {A B} (f : A -> B) (l l' : list A) :
  (forall x y, f x = f y -> x = y) ->
  List.map f l = List.map f l' -> l = l'.
Proof.
  intros Hf. revert l'. induction l as [|x l IH]; intros [|y l'] H;
    try discriminate; [reflexivity |].
  cbn [List.map] in H. injection H as Hxy Hl.
  f_equal; [now apply Hf | now apply IH].
Qed.

Lemma json_of_strs_inj (l l' : list pystr) :
  List.map JStr l = List.map JStr l' -> l = l'.
Proof. apply map_injective. now intros x y [= ->]. Qed.

Lemma json_of_character_inj (c c' : Character) :
  json_of_character c = json_of_character c' -> c = c'.
Proof.
  destruct c as [n r a p b g ca], c' as [n' r' a' p' b' g' ca'].
  unfold json_of_character.
  cbn [char_name char_role char_age char_personality char_background
       char_goals char_created_at].
  intros H. injection H as -> -> -> -> -> -> ->. reflexivity.
Qed.

Lemma json_of_arc_inj (a a' : StoryArc) :
  json_of_arc a = json_of_arc a' -> a = a'.
Proof.
  destruct a as [n d s e t c ca], a' as [n' d' s' e' t' c' ca'].
  unfold json_of_arc.
  cbn [arc_name arc_description arc_start_chapter arc_end_chapter arc_themes
       arc_characters arc_created_at].
  intros H. injection H as -> -> -> -> -> Hc ->.
  apply json_of_strs_inj in Hc as ->. reflexivity.
Qed.

Lemma json_of_milestone_inj (m m' : Milestone) :
  json_of_milestone m = json_of_milestone m' -> m = m'.
Proof.
  destruct m as [n d c t i r ca], m' as [n' d' c' t' i' r' ca'].
  unfold json_of_milestone.
  cbn [ms_name ms_description ms_chapter ms_type ms_impact ms_related_arc
       ms_created_at].
  intros H. injection H as -> -> -> -> -> Hr ->.
  destruct r, r'; try discriminate; [injection Hr as -> |]; reflexivity.
Qed.

Lemma json_of_scene_inj (s s' : DialogueScene) :
  json_of_scene s = json_of_scene s' -> s = s'.
Proof.
  destruct s as [n c cs d b], s' as [n' c' cs' d' b']. unfold json_of_scene.
  cbn [scene_name scene_chapter scene_characters scene_dialogue scene_branches].
  intros H. injection H as -> -> Hc -> Hb.
  apply json_of_strs_inj in Hc as ->. apply json_of_strs_inj in Hb as ->.
  reflexivity.
Qed.

Lemma json_of_bundle_inj (d d' : ExportBundle) :
  json_of_bundle d = json_of_bundle d' -> d = d'.
Proof.
  destruct d as [sc cs arcs ms scenes date],
    d' as [sc' cs' arcs' ms' scenes' date'].
  unfold json_of_bundle.
  cbn [story_concept characters story_arcs milestones dialogue_scenes
       export_date].
  intros H. injection H as -> Hc Ha Hm Hs ->.
  apply (map_injective _ _ _ json_of_character_inj) in Hc as ->.
  apply (map_injective _ _ _ json_of_arc_inj) in Ha as ->.
  apply (map_injective _ _ _ json_of_milestone_inj) in Hm as ->.
  apply (map_injective _ _ _ json_of_scene_inj) in Hs as ->.
  reflexivity.
Qed.

(** X11.  When the strings of a project are sequences of code points with
    no high surrogate immediately followed by a low surrogate, parsing the
    JSON export gives back the whole export dictionary: the concept, the
    date, and every field of every character, arc, milestone and scene, in
    the order of the lists. *)
Theorem json_export_parses_back (linesep now concept : pystr)
    (cs : list Character) (arcs : list StoryArc) (ms : list Milestone)
    (scenes : list DialogueScene) :
  well_formed (json_of_bundle (bundle_of now concept cs arcs ms scenes)) = true ->
  pair_free (json_of_bundle (bundle_of now concept cs arcs ms scenes)) = true ->
  exists text : pystr,
    export_script_format linesep now concept cs arcs ms scenes (u "JSON")
    = Some text
    /\ loads text
       = Some (json_of_bundle (bundle_of now concept cs arcs ms scenes)).
Proof.
  intros Hwf Hfree. eexists; split; [reflexivity |].
  change (loads (dumps (json_of_bundle
                          (bundle_of now concept cs arcs ms scenes)))
          = Some (json_of_bundle (bundle_of now concept cs arcs ms scenes))).
  rewrite loads_dumps by exact Hwf. now rewrite decoded_pair_free.
Qed.

Lemma json_export_parses_back_witness :
  exists text : pystr,
    export_script_format [LF] (u "2024-01-02T00:00:00") (u "A seaside mystery")
      [ava] [] [reveal] [] (u "JSON") = Some text
    /\ loads text
       = Some (json_of_bundle
                 (bundle_of (u "2024-01-02T00:00:00") (u "A seaside mystery")
                    [ava] [] [reveal] [])).
Proof.
  apply (json_export_parses_back [LF] (u "2024-01-02T00:00:00")
           (u "A seaside mystery") [ava] [] [reveal] []);
    vm_compute; reflexivity.
Defined.

(** X12.  Two projects whose strings are as above and whose JSON exports
    are the same text are the same project: same concept, same date, same
    records in the same order. *)
Theorem json_export_injective (linesep : pystr) (d d' : ExportBundle) :
  well_formed (json_of_bundle d) = true -> pair_free (json_of_bundle d) = true ->
  well_formed (json_of_bundle d') = true -> pair_free (json_of_bundle d') = true ->
  export_script_format linesep (export_date d) (story_concept d) (characters d)
    (story_arcs d) (milestones d) (dialogue_scenes d) (u "JSON")
  = export_script_format linesep (export_date d') (story_concept d')
      (characters d') (story_arcs d') (milestones d') (dialogue_scenes d')
      (u "JSON") ->
  d = d'.
Proof.
  intros Hwf Hfree Hwf' Hfree' Heq.
  assert (Htext : dumps (json_of_bundle d) = dumps (json_of_bundle d')).
  { assert (Hexp : forall b : ExportBundle,
              export_script_format linesep (export_date b) (story_concept b)
                (characters b) (story_arcs b) (milestones b) (dialogue_scenes b)
                (u "JSON")
              = Some (dumps (json_of_bundle b))) by (intros []; reflexivity).
    rewrite !Hexp in Heq. exact (f_equal (default []) Heq). }
  apply json_of_bundle_inj.
  pose proof (loads_dumps _ Hwf) as H. pose proof (loads_dumps _ Hwf') as H'.
  rewrite decoded_pair_free in H, H' by assumption.
  rewrite Htext in H. congruence.
Qed.

Lemma json_export_injective_witness :
  bundle_of (u "2024-01-02T00:00:00") (u "A seaside mystery") [ava] [] [reveal] []
  = bundle_of (u "2024-01-02T00:00:00") (u "A seaside mystery") [ava] [] [reveal] [].
Proof.
  apply (json_export_injective [LF]); vm_compute; reflexivity.
Defined.

(** ** The Markdown export: title block and sections *)

Lemma join_cons_cons (sep p q : pystr) (parts : list pystr) :
  join sep (p :: q :: parts) = p ++ sep ++ join sep (q :: parts).
Proof. reflexivity. Qed.

Lemma join_heading (title : pystr) (lines : list pystr) :
  exists more : pystr,
    join [LF] ((LF :: u "## " ++ title) :: lines) = LF :: u "## " ++ more.
Proof.
  destruct lines as [|l lines].
  - exists title. reflexivity.
  - rewrite join_cons_cons. exists (title ++ [LF] ++ join [LF] (l :: lines)).
    cbn [app]. now rewrite <- !app_assoc.
Qed.

(** X13.  Every Markdown export begins with the title, the export date and
    the story concept.  For a project with no characters, arcs, milestones
    or scenes that is the whole export; otherwise a blank line and the
    heading of the first non-empty section follow. *)
Theorem markdown_title_block (data : ExportBundle) :
  exists rest : pystr,
    generate_markdown_export data
    = u "# Visual Novel Script" ++ [LF; LF]
      ++ u "**Export Date:** " ++ export_date data ++ [LF; LF]
      ++ u "## Story Concept" ++ [LF; LF]
      ++ story_concept data ++ rest
    /\ (characters data = [] -> story_arcs data = [] ->
        milestones data = [] -> dialogue_scenes data = [] -> rest = [])
    /\ (characters data <> [] \/ story_arcs data <> []
        \/ milestones data <> [] \/ dialogue_scenes data <> [] ->
        exists more : pystr, rest = [LF; LF] ++ u "## " ++ more).
Proof.
  unfold generate_markdown_export, md_title.
  set (sections := md_characters data ++ md_story_arcs data
                   ++ md_milestones data ++ md_dialogue_scenes data).
  exists (match sections with [] => [] | _ :: _ => LF :: join [LF] sections end).
  split; [| split].
  - cbn [app]. rewrite !join_cons_cons.
    assert (Hlast : join [LF] ((LF :: story_concept data) :: sections)
                    = (LF :: story_concept data)
                      ++ match sections with
                         | [] => []
                         | _ :: _ => LF :: join [LF] sections
                         end).
    { destruct sections; [cbn [join]; now rewrite app_nil_r | reflexivity]. }
    rewrite Hlast. cbn [app]. rewrite <- !app_assoc. cbn [app]. reflexivity.
  - intros Hc Ha Hm Hs. unfold sections, md_characters, md_story_arcs,
      md_milestones, md_dialogue_scenes. rewrite Hc, Ha, Hm, Hs. reflexivity.
  - intros Hsome.
    assert (Hhead : exists title lines,
              sections = (LF :: u "## " ++ title) :: lines).
    { unfold sections, md_characters, md_story_arcs, md_milestones,
        md_dialogue_scenes.
      destruct (characters data) as [|c cs];
        [| eexists (u "Characters"), _; reflexivity].
      destruct (story_arcs data) as [|a arcs];
        [| eexists (u "Story Arcs"), _; reflexivity].
      destruct (milestones data) as [|m ms];
        [| eexists (u "Story Milestones"), _; reflexivity].
      destruct (dialogue_scenes data) as [|s scenes];
        [| eexists (u "Dialogue Scenes"), _; reflexivity].
      destruct Hsome as [H | [H | [H | H]]]; congruence. }
    destruct Hhead as (title & lines & ->).
    destruct (join_heading title lines) as (more & ->).
    exists more. reflexivity.
Qed.

(** ** The Markdown export and the order of the milestones *)

Lemma key_injective {A} (key : A -> Z) (l : list A) (x y : A) :
  List.NoDup (List.map key l) -> In x l -> In y l -> key x = key y -> x = y.
Proof.
  induction l as [|a l IH]; [intros _ [] |].
  cbn [List.map]. intros Hnd Hx Hy Hk. apply List.NoDup_cons_iff in Hnd as [Ha Hnd].
  destruct Hx as [<- | Hx], Hy as [<- | Hy]; [reflexivity | | | now apply IH].
  - exfalso. apply Ha. rewrite Hk. now apply List.in_map.
  - exfalso. apply Ha. rewrite <- Hk. now apply List.in_map.
Qed.

Lemma sorted_by_key_unique {A} (key : A -> Z) (l l' : list A) :
  List.NoDup (List.map key l) ->
  StronglySorted (key_le key) l -> StronglySorted (key_le key) l' ->
  Permutation l l' -> l = l'.
Proof.
  intros Hnd Hl. revert l' Hnd.
  induction Hl as [|x l Hs IH Hall]; intros l' Hnd Hl' Hp.
  - now apply Permutation_nil in Hp.
  - destruct Hl' as [|y l' Hs' Hall'];
      [apply Permutation_sym, Permutation_nil in Hp; discriminate |].
    assert (x = y) as <-.
    { rewrite List.Forall_forall in Hall, Hall'.
      assert (In y (x :: l)) as Hy
        by (eapply Permutation_in; [symmetry; exact Hp | now left]).
      assert (In x (y :: l')) as Hx
        by (eapply Permutation_in; [exact Hp | now left]).
      apply (key_injective key (x :: l)); [exact Hnd | now left | exact Hy |].
      unfold key_le in *. apply Z.le_antisymm.
      - destruct Hy as [-> | Hy]; [lia | now apply Hall].
      - destruct Hx as [-> | Hx]; [lia | now apply Hall']. }
    f_equal. apply IH; [| exact Hs' | now apply Permutation_cons_inv in Hp].
    cbn [List.map] in Hnd. now apply List.NoDup_cons_iff in Hnd as [_ Hnd].
Qed.

(** X14.  When no two milestones share a chapter, the Markdown export is
    the same text for every order of the milestone list. *)
Theorem markdown_milestone_order_irrelevant (now concept : pystr)
    (cs : list Character) (arcs : list StoryArc) (ms ms' : list Milestone)
    (scenes : list DialogueScene) :
  List.NoDup (List.map ms_chapter ms) ->
  Permutation ms ms' ->
  generate_markdown_export (bundle_of now concept cs arcs ms scenes)
  = generate_markdown_export (bundle_of now concept cs arcs ms' scenes).
Proof.
  intros Hnd Hp. unfold generate_markdown_export. do 4 f_equal.
  unfold md_milestones, bundle_of. cbn [milestones].
  rewrite <- (nonempty_perm _ _ Hp).
  assert (sorted_by ms_chapter ms = sorted_by ms_chapter ms') as ->;
    [| reflexivity].
  apply (sorted_by_key_unique ms_chapter).
  - eapply Permutation_NoDup; [| exact Hnd].
    apply Permutation_map. symmetry. apply sorted_by_perm.
  - apply sorted_by_sorted.
  - apply sorted_by_sorted.
  - rewrite !sorted_by_perm. exact Hp.
Qed.

Lemma markdown_milestone_order_irrelevant_witness :
  generate_markdown_export
    (bundle_of (u "2024-01-02T00:00:00") (u "A seaside mystery") [ava] []
       [reveal; create_milestone [] (u "Finale") [] 9 [] (u "Critical") None] [])
  = generate_markdown_export
      (bundle_of (u "2024-01-02T00:00:00") (u "A seaside mystery") [ava] []
         [create_milestone [] (u "Finale") [] 9 [] (u "Critical") None; reveal] []).
Proof.
  apply markdown_milestone_order_irrelevant.
  - repeat constructor; cbn; intuition discriminate.
  - apply perm_swap.
Defined.

(** ** Response options are numbered from 1 *)

Lemma md_branches_text (i : Z) (branches : list pystr) :
  List.concat (List.map (cons LF) (md_branches i branches))
  = List.concat
      (imap (fun k b => [LF] ++ str_of_Z (Z.of_nat k + i) ++ u ". " ++ b)
            branches).
Proof.
  revert i. induction branches as [|b r IH]; intros i; [reflexivity |].
  cbn [md_branches List.map List.concat imap]. rewrite IH.
  change (Z.of_nat 0 + i) with i. f_equal. f_equal.
  apply imap_ext. intros k x _. unfold compose.
  replace (Z.of_nat (S k) + i) with (Z.of_nat k + (i + 1)) by lia.
  reflexivity.
Qed.

Lemma scene_entry_text (s : DialogueScene) :
  List.concat (List.map (cons LF) (md_scene s)) = scene_entry s.
Proof.
  unfold md_scene, scene_entry.
  destruct (scene_branches s) as [|b r]; cbn [nonempty].
  - cbn [app List.map List.concat]. rewrite <- ?app_assoc. cbn [app].
    rewrite ?app_nil_r. repeat (f_equal; rewrite <- ?app_assoc; cbn [app]).
  - rewrite List.map_app, List.concat_app.
    change (List.map (cons LF)
              (u "**Response Options:**" :: md_branches 1 (b :: r)))
      with ((LF :: u "**Response Options:**")
            :: List.map (cons LF) (md_branches 1 (b :: r))).
    cbn [List.concat]. rewrite md_branches_text.
    cbn [app List.map List.concat]. rewrite <- ?app_assoc. cbn [app].
    repeat (f_equal; rewrite <- ?app_assoc; cbn [app]).
Qed.

(** X15.  The text of the Markdown export ends with the Dialogue Scenes
    section, which is absent when there is no scene: a blank line, the
    heading, and one entry per scene in their stored order.  The entry of a
    scene is a blank line, the heading with name and chapter, the
    characters and the dialogue, each after a line break; when the scene
    has branches there follow, each after a line break, the text
    "**Response Options:**" and the options in the order of the branches,
    the option at position [k] (counted from 0) being numbered [k + 1];
    a scene without branches has neither that text nor options. *)
Theorem scene_options_numbered (data : ExportBundle) :
  generate_markdown_export data
  = generate_markdown_export (without_scenes data)
    ++ match dialogue_scenes data with
       | [] => []
       | _ :: _ =>
           [LF; LF] ++ u "## Dialogue Scenes"
           ++ List.concat (List.map scene_entry (dialogue_scenes data))
       end
  /\ (forall s : DialogueScene,
        scene_entry s
        = [LF; LF] ++ u "### " ++ scene_name s ++ u " (Chapter "
          ++ str_of_Z (scene_chapter s) ++ u ")"
          ++ [LF] ++ u "**Characters:** " ++ join (u ", ") (scene_characters s)
          ++ [LF] ++ u "**Dialogue:** " ++ scene_dialogue s
          ++ match scene_branches s with
             | [] => []
             | branches =>
                 [LF] ++ u "**Response Options:**"
                 ++ List.concat
                      (imap (fun k branch =>
                               [LF] ++ str_of_Z (Z.of_nat k + 1) ++ u ". "
                               ++ branch)
                            branches)
             end).
Proof.
  split; [| intros s; reflexivity].
  rewrite !markdown_text. cbn [List.map List.concat app].
  rewrite !app_nil_r, <- !app_assoc. do 4 f_equal.
  change (md_dialogue_scenes data)
    with (if nonempty (dialogue_scenes data)
          then (LF :: u "## Dialogue Scenes")
               :: flat_map md_scene (dialogue_scenes data)
          else []).
  destruct (dialogue_scenes data) as [|s scenes] eqn:Hs; [reflexivity |].
  cbn [nonempty]. cbn [List.map List.concat app].
  rewrite entries_text.
  rewrite (List.map_ext _ scene_entry scene_entry_text).
  reflexivity.
Qed.

(** A scene whose dialogue holds a line break: the options follow the
    dialogue text, whatever its lines. *)
Example scene_entry_sample :
  scene_entry {| scene_name := u "Meeting"; scene_chapter := 1;
                 scene_characters := [u "Ava"; u "Ben"];
                 scene_dialogue := u "Hello" ++ [LF] ++ u "there";
                 scene_branches := [u "Wave"; u "Leave"] |}
  = join [LF] [ []; []; u "### Meeting (Chapter 1)";
                u "**Characters:** Ava, Ben";
                u "**Dialogue:** Hello"; u "there"; u "**Response Options:**";
                u "1. Wave"; u "2. Leave" ].
Proof. vm_compute. reflexivity. Qed.

(** ** Data frames *)

Section FrameFacts.

Context {cell : Type}.
Variables (add sub : cell -> cell -> cell) (halve absolute : cell -> cell).

Implicit Types (df : DataFrame cell) (col : pystr) (cells : list cell).

Lemma has_column_in col df : has_column col df = true <-> In col (columns df).
Proof. apply existsb_str_eqb. Qed.

Lemma frame_get_some col df :
  has_column col df = true -> exists cells, frame_get df col = Some cells.
Proof.
  unfold has_column, columns, str_eqb.
  induction df as [|[label old] df IH]; cbn [List.map existsb frame_get fst];
    [discriminate |].
  unfold str_eqb. destruct (bool_decide_reflect (col = label)) as [-> | Hne].
  - rewrite bool_decide_eq_true_2 by reflexivity. eauto.
  - rewrite bool_decide_eq_false_2 by congruence. exact IH.
Qed.

Lemma frame_get_has col df cells :
  frame_get df col = Some cells -> has_column col df = true.
Proof.
  unfold has_column, columns, str_eqb.
  induction df as [|[label old] df IH]; cbn [List.map existsb frame_get fst];
    [discriminate |].
  unfold str_eqb. destruct (bool_decide_reflect (label = col)) as [-> | Hne].
  - now rewrite bool_decide_eq_true_2.
  - rewrite (bool_decide_eq_false_2 (col = label)) by congruence. exact IH.
Qed.

Lemma frame_get_set col col' df cells :
  frame_get (frame_set df col cells) col'
  = if str_eqb col col' then Some cells else frame_get df col'.
Proof.
  unfold str_eqb.
  induction df as [|[label old] df IH]; cbn [frame_set frame_get];
    unfold str_eqb in *.
  - reflexivity.
  - destruct (bool_decide_reflect (label = col)) as [-> | Hne];
      cbn [frame_get]; unfold str_eqb.
    + destruct (bool_decide (col = col')); reflexivity.
    + rewrite IH.
      destruct (bool_decide_reflect (label = col')) as [-> | Hne'];
        [| reflexivity].
      now rewrite bool_decide_eq_false_2 by congruence.
Qed.

Lemma columns_set col df cells :
  columns (frame_set df col cells)
  = if has_column col df then columns df else columns df ++ [col].
Proof.
  unfold has_column, columns.
  induction df as [|[label old] df IH]; cbn [frame_set List.map existsb fst];
    [reflexivity |].
  unfold str_eqb in *.
  destruct (bool_decide_reflect (label = col)) as [-> | Hne].
  - now rewrite bool_decide_eq_true_2.
  - rewrite (bool_decide_eq_false_2 (col = label)) by congruence.
    cbn [List.map fst orb]. rewrite IH.
    destruct (existsb _ _); reflexivity.
Qed.

Lemma has_column_set col col' df cells :
  has_column col (frame_set df col' cells)
  = str_eqb col col' || has_column col df.
Proof.
  unfold has_column at 1. rewrite columns_set.
  destruct (has_column col' df) eqn:Hc'.
  - fold (has_column col df). unfold str_eqb.
    destruct (bool_decide_reflect (col = col')) as [-> | Hne];
      [now rewrite Hc' | reflexivity].
  - rewrite existsb_app. cbn [existsb]. fold (has_column col df).
    rewrite orb_false_r. apply orb_comm.
Qed.

Lemma frame_set_same col df cells :
  frame_get df col = Some cells -> frame_set df col cells = df.
Proof.
  induction df as [|[label old] df IH]; cbn [frame_get frame_set];
    [discriminate |].
  destruct (str_eqb label col); [now intros [= ->] |].
  intros H. now rewrite IH.
Qed.

(** X16.  [validate_dataframe] returns [True] exactly when every required
    column (by default [value_a] and [value_b]; an empty list given by the
    caller requires nothing) is a column of the frame.  It never returns
    [False]: otherwise it raises [ValueError], and the message lists the
    required columns that are missing, in the order in which they were
    required. *)
Theorem validate_dataframe_spec df (required_columns : option (list pystr)) :
  let required := default [u "value_a"; u "value_b"] required_columns in
  (validate_dataframe df required_columns = Returns true
   <-> forall col, In col required -> In col (columns df))
  /\ validate_dataframe df required_columns <> Returns false
  /\ forall message : pystr,
       validate_dataframe df required_columns = ValueError message ->
       exists missing : list pystr,
         message = u "DataFrame is missing required columns: "
                   ++ join (u ", ") missing
         /\ missing <> []
         /\ sublist missing required
         /\ forall col, In col missing
                        <-> In col required /\ ~ In col (columns df).
Proof.
  cbv zeta. unfold validate_dataframe.
  replace (match required_columns with
           | Some given => given
           | None => [u "value_a"; u "value_b"]
           end)
    with (default [u "value_a"; u "value_b"] required_columns)
    by now destruct required_columns.
  set (required := default _ required_columns).
  set (missing := List.filter _ required).
  assert (Hmissing : forall col, In col missing
                                 <-> In col required /\ ~ In col (columns df)).
  { intros col. unfold missing. rewrite List.filter_In, negb_true_iff.
    rewrite <- not_true_iff_false, has_column_in. tauto. }
  destruct missing as [|m missing'] eqn:Hm; cbn [nonempty].
  - split; [| split; [discriminate | discriminate]].
    split; [| reflexivity]. intros _ col Hcol.
    destruct (has_column col df) eqn:Hc; [now apply has_column_in |].
    exfalso. apply (proj2 (Hmissing col)). split; [exact Hcol |].
    rewrite <- has_column_in. congruence.
  - split; [| split; [discriminate |]].
    + split; [discriminate |]. intros Hall. exfalso.
      destruct (proj1 (Hmissing m) ltac:(now left)) as [Hin Hout].
      now apply Hout, Hall.
    + intros message [= <-]. exists (m :: missing').
      split; [reflexivity |]. split; [discriminate |].
      split; [| exact Hmissing].
      rewrite <- Hm. unfold missing. clear.
      induction required as [|r required IH]; cbn [List.filter];
        [constructor |].
      destruct (negb _); [now apply sublist_skip | now apply sublist_cons].
Qed.

(** X17.  When the frame lacks [value_a] or [value_b], [process_data]
    returns it as it is: no column is added and none is changed. *)
Theorem process_data_without_values df :
  ~ In (u "value_a") (columns df) \/ ~ In (u "value_b") (columns df) ->
  process_data add sub halve absolute df = Some df.
Proof.
  intros Hmiss. unfold process_data.
  assert (has_column (u "value_a") df && has_column (u "value_b") df = false)
    as ->; [| reflexivity].
  apply andb_false_iff.
  destruct Hmiss as [H | H]; [left | right];
    apply not_true_iff_false; now rewrite has_column_in.
Qed.

Lemma process_data_run df a b :
  frame_get df (u "value_a") = Some a ->
  frame_get df (u "value_b") = Some b ->
  process_data add sub halve absolute df
  = Some (frame_set
            (frame_set
               (frame_set df (u "sum") (series_add add a b))
               (u "mean") (series_halve halve (series_add add a b)))
            (u "abs_diff") (series_abs absolute (series_sub sub a b))).
Proof.
  intros Ha Hb. unfold process_data.
  rewrite (frame_get_has _ _ _ Ha), (frame_get_has _ _ _ Hb). cbn [andb].
  do 3 (rewrite ?frame_get_set;
        change (str_eqb (u "sum") (u "value_a")) with false;
        change (str_eqb (u "sum") (u "value_b")) with false;
        change (str_eqb (u "mean") (u "value_a")) with false;
        change (str_eqb (u "mean") (u "value_b")) with false;
        cbv iota; rewrite ?Ha, ?Hb; cbn [mbind option_bind]).
  reflexivity.
Qed.

Lemma process_data_result df a b :
  frame_get df (u "value_a") = Some a ->
  frame_get df (u "value_b") = Some b ->
  exists out : DataFrame cell,
    process_data add sub halve absolute df = Some out
    /\ frame_get out (u "sum") = Some (zip_with add a b)
    /\ frame_get out (u "mean") = Some (List.map halve (zip_with add a b))
    /\ frame_get out (u "abs_diff")
       = Some (List.map absolute (zip_with sub a b))
    /\ (forall col,
          col <> u "sum" -> col <> u "mean" -> col <> u "abs_diff" ->
          frame_get out col = frame_get df col)
    /\ columns out
       = columns df
         ++ List.filter (fun col => negb (has_column col df))
              [u "sum"; u "mean"; u "abs_diff"].
Proof.
  intros Ha Hb. eexists. split; [exact (process_data_run df a b Ha Hb) |].
  rewrite !frame_get_set.
  change (str_eqb (u "abs_diff") (u "sum")) with false.
  change (str_eqb (u "abs_diff") (u "mean")) with false.
  change (str_eqb (u "mean") (u "sum")) with false.
  change (str_eqb (u "sum") (u "sum")) with true.
  change (str_eqb (u "mean") (u "mean")) with true.
  change (str_eqb (u "abs_diff") (u "abs_diff")) with true.
  cbv iota. repeat (split; [reflexivity |]). split.
  - intros col H1 H2 H3. rewrite !frame_get_set. unfold str_eqb.
    now rewrite !bool_decide_eq_false_2 by congruence.
  - rewrite !columns_set, !has_column_set.
    change (str_eqb (u "abs_diff") (u "mean")) with false.
    change (str_eqb (u "abs_diff") (u "sum")) with false.
    change (str_eqb (u "mean") (u "sum")) with false.
    cbn [orb List.filter].
    destruct (has_column (u "sum") df), (has_column (u "mean") df),
      (has_column (u "abs_diff") df);
      cbn [negb app]; rewrite <- ?app_assoc; cbn [app];
      rewrite ?app_nil_r; reflexivity.
Qed.

(** X18.  When the frame has the columns [value_a] and [value_b],
    [process_data] returns a frame in which [sum], [mean] and [abs_diff]
    hold, row by row, the sum, the half of the sum and the absolute
    difference of the two value columns of the input; every other column
    keeps its cells; the columns stay in their order, those of the three
    that are new being added at the end, [sum] before [mean] before
    [abs_diff]. *)
Theorem process_data_computes df a b :
  frame_get df (u "value_a") = Some a ->
  frame_get df (u "value_b") = Some b ->
  exists out : DataFrame cell,
    process_data add sub halve absolute df = Some out
    /\ frame_get out (u "sum") = Some (zip_with add a b)
    /\ frame_get out (u "mean") = Some (List.map halve (zip_with add a b))
    /\ frame_get out (u "abs_diff")
       = Some (List.map absolute (zip_with sub a b))
    /\ (forall col,
          col <> u "sum" -> col <> u "mean" -> col <> u "abs_diff" ->
          frame_get out col = frame_get df col)
    /\ columns out
       = columns df
         ++ List.filter (fun col => negb (has_column col df))
              [u "sum"; u "mean"; u "abs_diff"].
Proof. exact (process_data_result df a b). Qed.

(** X19.  [process_data] is idempotent: processing a processed frame
    returns it unchanged. *)
Theorem process_data_idempotent df out :
  process_data add sub halve absolute df = Some out ->
  process_data add sub halve absolute out = Some out.
Proof.
  intros Hrun.
  destruct (has_column (u "value_a") df && has_column (u "value_b") df) eqn:Hv.
  - apply andb_prop in Hv as [Hva Hvb].
    destruct (frame_get_some _ _ Hva) as (a & Ha).
    destruct (frame_get_some _ _ Hvb) as (b & Hb).
    destruct (process_data_result df a b Ha Hb)
      as (out' & Hout & Hsum & Hmean & Hdiff & Hkeep & _).
    rewrite Hrun in Hout. injection Hout as <-.
    assert (Ha' : frame_get out (u "value_a") = Some a)
      by (rewrite Hkeep; [exact Ha | vm_compute; discriminate ..]).
    assert (Hb' : frame_get out (u "value_b") = Some b)
      by (rewrite Hkeep; [exact Hb | vm_compute; discriminate ..]).
    rewrite (process_data_run out a b Ha' Hb').
    rewrite (frame_set_same (u "sum")) by exact Hsum.
    rewrite (frame_set_same (u "mean")) by exact Hmean.
    now rewrite (frame_set_same (u "abs_diff")) by exact Hdiff.
  - unfold process_data in Hrun. rewrite Hv in Hrun. injection Hrun as <-.
    unfold process_data. now rewrite Hv.
Qed.

End FrameFacts.

Lemma process_data_without_values_witness :
  process_data Z.add Z.sub (fun x => x / 2) Z.abs [(u "weight", [1; 1])]
  = Some [(u "weight", [1; 1])].
Proof.
  apply process_data_without_values. left. vm_compute.
  intros [H | []]. discriminate H.
Defined.

Lemma process_data_computes_witness :
  exists out : DataFrame Z,
    process_data Z.add Z.sub (fun x => x / 2) Z.abs sample_frame = Some out
    /\ frame_get out (u "sum") = Some (zip_with Z.add [3; -1] [5; 4])
    /\ frame_get out (u "mean")
       = Some (List.map (fun x => x / 2) (zip_with Z.add [3; -1] [5; 4]))
    /\ frame_get out (u "abs_diff")
       = Some (List.map Z.abs (zip_with Z.sub [3; -1] [5; 4]))
    /\ (forall col,
          col <> u "sum" -> col <> u "mean" -> col <> u "abs_diff" ->
          frame_get out col = frame_get sample_frame col)
    /\ columns out
       = columns sample_frame
         ++ List.filter (fun col => negb (has_column col sample_frame))
              [u "sum"; u "mean"; u "abs_diff"].
Proof.
  apply (process_data_computes Z.add Z.sub (fun x => x / 2) Z.abs sample_frame);
    reflexivity.
Defined.

Lemma process_data_idempotent_witness :
  process_data Z.add Z.sub (fun x => x / 2) Z.abs
    (sample_frame
     ++ [(u "sum", [8; 3]); (u "mean", [4; 1]); (u "abs_diff", [2; 5])])
  = Some (sample_frame
          ++ [(u "sum", [8; 3]); (u "mean", [4; 1]); (u "abs_diff", [2; 5])]).
Proof.
  apply (process_data_idempotent Z.add Z.sub (fun x => x / 2) Z.abs
           sample_frame).
  vm_compute. reflexivity.
Defined.

(** ** Cells whose arithmetic can raise *)

Section CellFacts.

Context {cell : Type}.
Variables (add sub : cell -> cell -> option cell).
Variables (halve absolute : cell -> option cell).

Implicit Types (df : DataFrame cell) (col : pystr) (cells : list cell).

Lemma cells_process_data_run df a b :
  frame_get df (u "value_a") = Some a ->
  frame_get df (u "value_b") = Some b ->
  Cells.process_data add sub halve absolute df
  = total ← Cells.series_add add a b;
    mean ← Cells.series_halve halve total;
    difference ← Cells.series_sub sub a b;
    abs_diff ← Cells.series_abs absolute difference;
    Some (frame_set
            (frame_set (frame_set df (u "sum") total) (u "mean") mean)
            (u "abs_diff") abs_diff).
Proof.
  intros Ha Hb. unfold Cells.process_data.
  rewrite (frame_get_has _ _ _ Ha), (frame_get_has _ _ _ Hb). cbn [andb].
  cbv zeta. rewrite Ha, Hb. cbn [mbind option_bind].
  destruct (Cells.series_add add a b) as [total|] eqn:Htotal;
    cbn [mbind option_bind]; [| reflexivity].
  rewrite !frame_get_set.
  change (str_eqb (u "sum") (u "value_a")) with false.
  change (str_eqb (u "sum") (u "value_b")) with false.
  cbv iota. rewrite Ha, Hb. cbn [mbind option_bind].
  rewrite Htotal. cbn [mbind option_bind].
  destruct (Cells.series_halve halve total) as [mean|];
    cbn [mbind option_bind]; [| reflexivity].
  rewrite !frame_get_set.
  change (str_eqb (u "sum") (u "value_a")) with false.
  change (str_eqb (u "sum") (u "value_b")) with false.
  change (str_eqb (u "mean") (u "value_a")) with false.
  change (str_eqb (u "mean") (u "value_b")) with false.
  cbv iota. rewrite Ha, Hb. cbn [mbind option_bind].
  reflexivity.
Qed.

(** On operations that never fail, [Cells.process_data] is the
    [process_data] of the total operations. *)
Lemma mapM_total {A B} (f : A -> B) (l : list A) :
  list.mapM (fun x => Some (f x)) l = Some (List.map f l).
Proof.
  induction l as [|x l IH]; [reflexivity |].
  cbn [list.mapM List.map]. rewrite IH. reflexivity.
Qed.

Lemma zip_with_map_zip {A B C} (f : A -> B -> C) (a : list A) (b : list B) :
  List.map (fun p => f (fst p) (snd p)) (zip a b) = zip_with f a b.
Proof.
  revert b. induction a as [|x a IH]; intros [|y b]; cbn; [reflexivity .. |].
  now rewrite IH.
Qed.

End CellFacts.

Lemma cells_process_data_total {cell : Type}
    (add sub : cell -> cell -> cell) (halve absolute : cell -> cell)
    (df : DataFrame cell) :
  Cells.process_data (fun x y => Some (add x y)) (fun x y => Some (sub x y))
    (fun x => Some (halve x)) (fun x => Some (absolute x)) df
  = process_data add sub halve absolute df.
Proof.
  destruct (has_column (u "value_a") df && has_column (u "value_b") df) eqn:Hv.
  - apply andb_prop in Hv as [Hva Hvb].
    destruct (frame_get_some _ _ Hva) as (a & Ha).
    destruct (frame_get_some _ _ Hvb) as (b & Hb).
    rewrite (cells_process_data_run _ _ _ _ df a b Ha Hb).
    rewrite (process_data_run add sub halve absolute df a b Ha Hb).
    unfold Cells.series_add, Cells.series_sub, Cells.series_halve,
      Cells.series_abs, series_add, series_sub, series_halve, series_abs.
    rewrite (mapM_total (fun p => add (fst p) (snd p))),
      (mapM_total (fun p => sub (fst p) (snd p))), !zip_with_map_zip.
    cbn [mbind option_bind]. rewrite !mapM_total. reflexivity.
  - unfold Cells.process_data, process_data. now rewrite Hv.
Qed.

Section ValidatedFrames.

Context {cell : Type}.
Variables (add sub : cell -> cell -> option cell).
Variables (halve absolute : cell -> option cell).

(** X20.  For a frame with pairwise different labels that passes
    [validate_dataframe] with the default columns: when [process_data]
    returns, the processed frame passes the validation that also requires
    [sum], [mean] and [abs_diff], and its columns are those of the input
    followed by those of the three that are new; [process_data] raises
    exactly when an operation on the cells of the two value columns raises:
    the sum, the half of the sum, the difference or the absolute value of
    the difference; so it returns when the four operations are defined on
    all cells. *)
Theorem validated_frame_is_processed (df : DataFrame cell) :
  NoDup (columns df) ->
  validate_dataframe df None = Returns true ->
  exists a b : list cell,
    frame_get df (u "value_a") = Some a
    /\ frame_get df (u "value_b") = Some b
    /\ (forall out : DataFrame cell,
          Cells.process_data add sub halve absolute df = Some out ->
          validate_dataframe out
            (Some [u "value_a"; u "value_b"; u "sum"; u "mean"; u "abs_diff"])
          = Returns true
          /\ columns out
             = columns df
               ++ List.filter (fun col => negb (has_column col df))
                    [u "sum"; u "mean"; u "abs_diff"])
    /\ (Cells.process_data add sub halve absolute df = None <->
        Cells.series_add add a b = None
        \/ (exists total, Cells.series_add add a b = Some total
                          /\ Cells.series_halve halve total = None)
        \/ Cells.series_sub sub a b = None
        \/ (exists difference, Cells.series_sub sub a b = Some difference
                               /\ Cells.series_abs absolute difference = None))
    /\ ((forall x y, is_Some (add x y)) -> (forall x y, is_Some (sub x y)) ->
        (forall x, is_Some (halve x)) -> (forall x, is_Some (absolute x)) ->
        is_Some (Cells.process_data add sub halve absolute df)).
Proof.
  intros _ Hok.
  assert (Hva : has_column (u "value_a") df = true
                /\ has_column (u "value_b") df = true).
  { unfold validate_dataframe in Hok. cbn [List.filter] in Hok.
    destruct (has_column (u "value_a") df), (has_column (u "value_b") df);
      cbn in Hok; try discriminate Hok. now split. }
  destruct Hva as [Hva Hvb].
  destruct (frame_get_some _ _ Hva) as (a & Ha).
  destruct (frame_get_some _ _ Hvb) as (b & Hb).
  exists a, b. split; [exact Ha |]. split; [exact Hb |].
  rewrite (cells_process_data_run add sub halve absolute df a b Ha Hb).
  split; [| split].
  - intros out Hout.
    destruct (Cells.series_add add a b) as [total|]; [| discriminate].
    cbn [mbind option_bind] in Hout.
    destruct (Cells.series_halve halve total) as [mean|]; [| discriminate].
    cbn [mbind option_bind] in Hout.
    destruct (Cells.series_sub sub a b) as [difference|]; [| discriminate].
    cbn [mbind option_bind] in Hout.
    destruct (Cells.series_abs absolute difference) as [abs_diff|];
      [| discriminate].
    cbn [mbind option_bind] in Hout. injection Hout as <-. split.
    + unfold validate_dataframe. cbn [List.filter].
      rewrite !has_column_set, Hva, Hvb.
      change (str_eqb (u "sum") (u "sum")) with true.
      change (str_eqb (u "mean") (u "mean")) with true.
      change (str_eqb (u "abs_diff") (u "abs_diff")) with true.
      rewrite ?orb_true_r. cbn [orb negb nonempty]. reflexivity.
    + rewrite !columns_set, !has_column_set.
      change (str_eqb (u "abs_diff") (u "mean")) with false.
      change (str_eqb (u "abs_diff") (u "sum")) with false.
      change (str_eqb (u "mean") (u "sum")) with false.
      cbn [orb List.filter].
      destruct (has_column (u "sum") df), (has_column (u "mean") df),
        (has_column (u "abs_diff") df);
        cbn [negb app]; rewrite <- ?app_assoc; cbn [app];
        rewrite ?app_nil_r; reflexivity.
  - destruct (Cells.series_add add a b) as [total|];
      cbn [mbind option_bind]; [| intuition].
    destruct (Cells.series_halve halve total) as [mean|] eqn:Hmean;
      cbn [mbind option_bind];
      [| split; [intros _; right; left; eauto | reflexivity]].
    destruct (Cells.series_sub sub a b) as [difference|];
      cbn [mbind option_bind]; [| intuition].
    destruct (Cells.series_abs absolute difference) as [abs_diff|] eqn:Habs;
      cbn [mbind option_bind].
    + split; [discriminate |].
      intros [H | [(t & [= <-] & H) | [H | (d & [= <-] & H)]]]; congruence.
    + split; [| reflexivity]. intros _. do 3 right. eauto.
  - intros Hadd Hsub Hhalve Habs.
    assert (Hall : forall {A} (f : A -> option cell) (l : list A),
              (forall x, is_Some (f x)) -> is_Some (list.mapM f l)).
    { intros A f l Hf. apply mapM_is_Some. apply Forall_forall. auto. }
    destruct (Hall _ (fun p => add (fst p) (snd p)) (zip a b)) as [total Ht];
      [auto |].
    unfold Cells.series_add. rewrite Ht. cbn [mbind option_bind].
    destruct (Hall _ halve total Hhalve) as [mean Hm].
    unfold Cells.series_halve. rewrite Hm. cbn [mbind option_bind].
    destruct (Hall _ (fun p => sub (fst p) (snd p)) (zip a b))
      as [difference Hd]; [auto |].
    unfold Cells.series_sub. rewrite Hd. cbn [mbind option_bind].
    destruct (Hall _ absolute difference Habs) as [abs_diff Hab].
    unfold Cells.series_abs. rewrite Hab. cbn [mbind option_bind]. eauto.
Qed.

End ValidatedFrames.

Lemma validated_frame_is_processed_witness :
  NoDup (columns number_frame)
  /\ validate_dataframe number_frame None = Returns true
  /\ exists a b : list mixed_cell,
       frame_get number_frame (u "value_a") = Some a
       /\ frame_get number_frame (u "value_b") = Some b
       /\ (forall out : DataFrame mixed_cell,
             Cells.process_data mixed_add mixed_sub mixed_halve mixed_abs
               number_frame = Some out ->
             validate_dataframe out
               (Some [u "value_a"; u "value_b"; u "sum"; u "mean";
                      u "abs_diff"])
             = Returns true
             /\ columns out
                = columns number_frame
                  ++ List.filter
                       (fun col => negb (has_column col number_frame))
                       [u "sum"; u "mean"; u "abs_diff"])
       /\ (Cells.process_data mixed_add mixed_sub mixed_halve mixed_abs
             number_frame = None <->
           Cells.series_add mixed_add a b = None
           \/ (exists total, Cells.series_add mixed_add a b = Some total
                             /\ Cells.series_halve mixed_halve total = None)
           \/ Cells.series_sub mixed_sub a b = None
           \/ (exists difference,
                 Cells.series_sub mixed_sub a b = Some difference
                 /\ Cells.series_abs mixed_abs difference = None))
       /\ ((forall x y, is_Some (mixed_add x y)) ->
           (forall x y, is_Some (mixed_sub x y)) ->
           (forall x, is_Some (mixed_halve x)) ->
           (forall x, is_Some (mixed_abs x)) ->
           is_Some (Cells.process_data mixed_add mixed_sub mixed_halve
                      mixed_abs number_frame)).
Proof.
  assert (Hnd : NoDup (columns number_frame))
    by (apply (bool_decide_unpack _); vm_compute; exact I).
  assert (Hok : validate_dataframe number_frame None = Returns true)
    by reflexivity.
  split; [exact Hnd |]. split; [exact Hok |].
  exact (validated_frame_is_processed mixed_add mixed_sub mixed_halve mixed_abs
           number_frame Hnd Hok).
Defined.

(** A frame of numbers is processed; a frame that passes the validation
    with texts in its value columns is not: the texts are joined, and
    halving the joined text raises. *)
Example process_data_number_frame :
  Cells.process_data mixed_add mixed_sub mixed_halve mixed_abs number_frame
  = Some (number_frame
          ++ [ (u "sum", [Number 8; Number 4]);
               (u "mean", [Number 4; Number 2]);
               (u "abs_diff", [Number 2; Number 6]) ]).
Proof. reflexivity. Qed.

Example process_data_text_frame :
  validate_dataframe text_frame None = Returns true
  /\ Cells.series_add mixed_add [Text (u "x")] [Text (u "y")]
     = Some [Text (u "xy")]
  /\ Cells.process_data mixed_add mixed_sub mixed_halve mixed_abs text_frame
     = None.
Proof. repeat split. Qed.

(** ** The pages of the application *)

Lemma index_first {A} `{EqDecision A} (x : A) (l : list A) :
  In x l ->
  exists before after,
    l = before ++ x :: after /\ ~ In x before
    /\ index x l = Some (length before).
Proof.
  induction l as [|y l IH]; [intros [] |].
  intros Hin. cbn [index]. destruct (decide (y = x)) as [-> | Hne].
  - exists [], l. split; [reflexivity |]. split; [intros [] | reflexivity].
  - destruct Hin as [-> | Hin]; [congruence |].
    destruct (IH Hin) as (before & after & -> & Hout & ->).
    exists (y :: before), after. split; [reflexivity |].
    split; [| reflexivity]. intros [-> | H]; [congruence | exact (Hout H)].
Qed.

Lemma pop_middle {A} (before after : list A) (x : A) :
  pop (length before) (before ++ x :: after) = Some (before ++ after).
Proof.
  unfold pop. rewrite list_lookup_middle by reflexivity. f_equal.
  apply delete_middle.
Qed.

Lemma pop_in_range {A} (i : nat) (l : list A) :
  (i < length l)%nat -> exists x, l !! i = Some x /\ pop i l = Some (delete i l).
Proof.
  intros Hi. destruct (lookup_lt_is_Some_2 l i Hi) as [x Hx].
  exists x. split; [exact Hx |]. unfold pop. now rewrite Hx.
Qed.

Lemma index_lookup {A} `{EqDecision A} (x : A) (l : list A) (k : nat) :
  index x l = Some k -> l !! k = Some x.
Proof.
  revert k. induction l as [|y l IH]; intros k; cbn [index]; [discriminate |].
  destruct (decide (y = x)) as [-> | Hne].
  - now intros [= <-].
  - destruct (index x l) as [n|]; cbn; [| discriminate].
    intros [= <-]. now apply IH.
Qed.

(** The loop reaches the pressed button and removes its milestone when the
    keys up to it are new. *)
Lemma press_delete_run (stored : list Milestone) :
  forall (shown : list Milestone) (pressed : nat) (used : list nat),
    (pressed < length shown)%nat ->
    (forall m, m ∈ take (S pressed) shown -> In m stored) ->
    NoDup (take (S pressed) shown) ->
    (forall m k, m ∈ take (S pressed) shown -> index m stored = Some k ->
                 k ∉ used) ->
    exists (m : Milestone) (before after : list Milestone),
      shown !! pressed = Some m
      /\ stored = before ++ m :: after
      /\ ~ In m before
      /\ press_delete pressed shown used stored = Some (before ++ after).
Proof.
  induction shown as [|x later IH]; intros pressed used Hlen Hin Hnd Hnew;
    [cbn in Hlen; lia |].
  cbn [take] in Hin, Hnd, Hnew. apply NoDup_cons in Hnd as [Hx Hnd].
  destruct (index_first x stored (Hin x ltac:(left)))
    as (before & after & Hsplit & Hout & Hidx).
  assert (Hstep : press_delete pressed (x :: later) used stored
                  = match pressed with
                    | O => pop (length before) stored
                    | S earlier =>
                        press_delete earlier later (length before :: used)
                          stored
                    end).
  { cbn [press_delete]. rewrite Hidx. cbn [mbind option_bind].
    destruct (bool_decide_reflect (length before ∈ used)) as [Hused | _];
      [| reflexivity].
    exfalso. exact (Hnew x _ ltac:(left) Hidx Hused). }
  rewrite Hstep. clear Hstep. destruct pressed as [|earlier].
  - exists x, before, after. split; [reflexivity |]. split; [exact Hsplit |].
    split; [exact Hout |]. rewrite Hsplit at 1. apply pop_middle.
  - cbn [lookup list_lookup]. apply IH.
    + cbn in Hlen. lia.
    + intros m Hm. apply Hin. now right.
    + exact Hnd.
    + intros m k Hm Hk [-> | Hused]%elem_of_cons.
      * apply Hx. apply index_lookup in Hk, Hidx.
        rewrite Hidx in Hk. injection Hk as <-. exact Hm.
      * exact (Hnew m k ltac:(now right) Hk Hused).
Qed.

(** The loop stops with the error of a key used twice when two of the
    milestones up to the pressed button are equal. *)
Lemma press_delete_repeated (stored : list Milestone) :
  forall (shown : list Milestone) (pressed : nat) (used : list nat),
    (forall m, m ∈ take (S pressed) shown -> In m stored) ->
    (exists m k, m ∈ take (S pressed) shown /\ index m stored = Some k
                 /\ k ∈ used)
    \/ ~ NoDup (take (S pressed) shown) ->
    press_delete pressed shown used stored = None.
Proof.
  induction shown as [|x later IH]; intros pressed used Hin Hbad.
  { exfalso. destruct Hbad as [(m & k & Hm & _) | Hnd].
    - now apply elem_of_nil in Hm.
    - apply Hnd. constructor. }
  cbn [take] in Hin, Hbad.
  destruct (index_first x stored (Hin x ltac:(left)))
    as (before & after & Hsplit & Hout & Hidx).
  cbn [press_delete]. rewrite Hidx. cbn [mbind option_bind].
  destruct (bool_decide_reflect (length before ∈ used)) as [_ | Hfresh];
    [reflexivity |].
  assert (Hhead : forall m k, m = x -> index m stored = Some k -> k ∉ used).
  { intros m k -> Hk. rewrite Hidx in Hk. now injection Hk as <-. }
  destruct pressed as [|earlier].
  - exfalso. cbn [take] in Hbad. destruct Hbad as [(m & k & Hm & Hk & Hu) | Hnd].
    + apply list_elem_of_singleton in Hm. exact (Hhead m k Hm Hk Hu).
    + apply Hnd. apply NoDup_singleton.
  - apply IH; [intros m Hm; apply Hin; now right |].
    destruct Hbad as [(m & k & Hm & Hk & Hu) | Hnd].
    + apply elem_of_cons in Hm as [Hm | Hm];
        [destruct (Hhead m k Hm Hk Hu) |].
      left. exists m, k. split; [exact Hm |]. split; [exact Hk |]. now right.
    + destruct (decide (x ∈ take (S earlier) later)) as [Hx | Hx].
      * left. exists x, (length before). split; [exact Hx |].
        split; [exact Hidx | now left].
      * right. intros Hl. apply Hnd. now apply NoDup_cons.
Qed.

Lemma shown_milestones_stored (st : Session) (i : nat) (m : Milestone) :
  m ∈ take i (shown_milestones st) -> In m (st_milestones st).
Proof.
  intros Hm. eapply Permutation_in; [apply (sorted_by_perm ms_chapter) |].
  apply elem_of_take in Hm as (k & Hk & _).
  apply list_elem_of_In. eapply list_elem_of_lookup_2. exact Hk.
Qed.

Lemma delete_milestone_run (st : Session) (i : nat) :
  (i < length (st_milestones st))%nat ->
  NoDup (take (S i) (shown_milestones st)) ->
  exists (m : Milestone) (before after : list Milestone),
    shown_milestones st !! i = Some m
    /\ st_milestones st = before ++ m :: after
    /\ ~ In m before
    /\ delete_milestone i st
       = Some {| st_characters := st_characters st;
                 st_story_arcs := st_story_arcs st;
                 st_milestones := before ++ after;
                 st_dialogue_scenes := st_dialogue_scenes st;
                 st_story_concept := st_story_concept st |}.
Proof.
  intros Hi Hnd.
  assert (Hshown : (i < length (shown_milestones st))%nat).
  { unfold shown_milestones.
    now rewrite (Permutation_length (sorted_by_perm ms_chapter _)). }
  destruct (press_delete_run (st_milestones st) (shown_milestones st) i []
              Hshown (shown_milestones_stored st (S i)) Hnd)
    as (m & before & after & Hm & Hsplit & Hout & Hrun).
  { intros m k _ _ Hk. now apply elem_of_nil in Hk. }
  exists m, before, after. split; [exact Hm |]. split; [exact Hsplit |].
  split; [exact Hout |].
  unfold delete_milestone. cbn zeta. rewrite Hrun. reflexivity.
Qed.

Lemma delete_milestone_repeated (st : Session) (i : nat) :
  ~ NoDup (take (S i) (shown_milestones st)) -> delete_milestone i st = None.
Proof.
  intros Hnd. unfold delete_milestone. cbn zeta.
  rewrite (press_delete_repeated (st_milestones st) (shown_milestones st) i []
             (shown_milestones_stored st (S i)) (or_intror Hnd)).
  reflexivity.
Qed.

(** X21.  The Delete button of the milestone shown at position [i] of the
    chapter-sorted list.  When the milestones shown up to and including
    position [i] are pairwise different, the press succeeds: the milestone
    is found in the stored list, the first stored milestone equal to it is
    removed, and all other milestones stay, in their stored order; the
    other lists and the concept are not touched.  When two of the
    milestones shown up to position [i] are equal, their Delete buttons get
    the same key and the page raises before anything is removed. *)
Theorem delete_milestone_removes_shown (st : Session) (i : nat) :
  (i < length (st_milestones st))%nat ->
  (NoDup (take (S i) (shown_milestones st)) ->
   exists (st' : Session) (m : Milestone) (before after : list Milestone),
     delete_milestone i st = Some st'
     /\ shown_milestones st !! i = Some m
     /\ st_milestones st = before ++ m :: after
     /\ ~ In m before
     /\ st_milestones st' = before ++ after
     /\ Permutation (shown_milestones st) (m :: shown_milestones st')
     /\ st_characters st' = st_characters st
     /\ st_story_arcs st' = st_story_arcs st
     /\ st_dialogue_scenes st' = st_dialogue_scenes st
     /\ st_story_concept st' = st_story_concept st)
  /\ (~ NoDup (take (S i) (shown_milestones st)) ->
      delete_milestone i st = None).
Proof.
  intros Hi. split; [| apply delete_milestone_repeated].
  intros Hnd.
  destruct (delete_milestone_run st i Hi Hnd)
    as (m & before & after & Hm & Hsplit & Hout & Hrun).
  eexists _, m, before, after. split; [exact Hrun |].
  split; [exact Hm |]. split; [exact Hsplit |]. split; [exact Hout |].
  cbn [st_milestones st_characters st_story_arcs st_dialogue_scenes
       st_story_concept].
  split; [reflexivity |]. split; [| repeat split; reflexivity].
  unfold shown_milestones. cbn [st_milestones].
  rewrite !sorted_by_perm, Hsplit. symmetry. apply Permutation_middle.
Qed.

Lemma delete_milestone_removes_shown_witness :
  (1 < length (st_milestones sample_session))%nat
  /\ (NoDup (take 2 (shown_milestones sample_session)) ->
      exists (st' : Session) (m : Milestone) (before after : list Milestone),
        delete_milestone 1 sample_session = Some st'
        /\ shown_milestones sample_session !! 1%nat = Some m
        /\ st_milestones sample_session = before ++ m :: after
        /\ ~ In m before
        /\ st_milestones st' = before ++ after
        /\ Permutation (shown_milestones sample_session)
             (m :: shown_milestones st')
        /\ st_characters st' = st_characters sample_session
        /\ st_story_arcs st' = st_story_arcs sample_session
        /\ st_dialogue_scenes st' = st_dialogue_scenes sample_session
        /\ st_story_concept st' = st_story_concept sample_session)
  /\ (~ NoDup (take 2 (shown_milestones sample_session)) ->
      delete_milestone 1 sample_session = None).
Proof.
  assert (Hi : (1 < length (st_milestones sample_session))%nat)
    by (vm_compute; lia).
  split; [exact Hi |].
  exact (delete_milestone_removes_shown sample_session 1 Hi).
Defined.

(** After the same milestone was added twice, the first Delete button still
    works and the second one raises. *)
Example delete_repeated_milestone :
  delete_milestone 1 repeated_session = None
  /\ exists st' : Session,
       delete_milestone 0 repeated_session = Some st'
       /\ length (st_milestones st') = 1%nat.
Proof. split; [reflexivity |]. eexists. split; reflexivity. Qed.

(** X22.  No handler of the pages raises on a press that the page allows:
    the values are those its widgets can deliver, a Delete button of a
    character or an arc belongs to an entry that is shown, and the Delete
    button of a milestone is one whose key and the keys of the buttons
    before it are all different.  The handler then runs to its end and
    gives the next session state. *)
Theorem handlers_never_raise (st : Session) (e : event) :
  widgets_allow st e -> exists st' : Session, handle e st = Some st'.
Proof.
  destruct e as [concept | now name role age personality background goals | i
               | now name description arc_start arc_end themes involved | i
               | now name description chapter type impact related | i
               | name chapter chars dialogue branch_texts];
    cbn [handle widgets_allow]; intros Hw; try (eexists; reflexivity).
  - destruct (pop_in_range _ _ Hw) as (x & _ & Hpop).
    unfold delete_character. rewrite Hpop. eexists; reflexivity.
  - destruct (pop_in_range _ _ Hw) as (x & _ & Hpop).
    unfold delete_arc. rewrite Hpop. eexists; reflexivity.
  - destruct Hw as [Hi Hnd].
    destruct (delete_milestone_run st i Hi Hnd) as (m & b & a & _ & _ & _ & ->).
    eexists; reflexivity.
Qed.

Lemma handlers_never_raise_witness :
  widgets_allow sample_session (DeleteMilestone 1)
  /\ exists st' : Session, handle (DeleteMilestone 1) sample_session = Some st'.
Proof.
  assert (Hw : widgets_allow sample_session (DeleteMilestone 1)).
  { split; [vm_compute; lia |]. apply (bool_decide_unpack _).
    vm_compute. exact I. }
  split; [exact Hw |]. exact (handlers_never_raise sample_session _ Hw).
Defined.

Lemma Forall_snoc {A} (P : A -> Prop) (l : list A) (x : A) :
  Forall P l -> P x -> Forall P (l ++ [x]).
Proof. intros Hl Hx. apply Forall_app. split; [exact Hl | now constructor]. Qed.

Lemma Forall_pop {A} (P : A -> Prop) (l l' : list A) (i : nat) :
  Forall P l -> pop i l = Some l' -> Forall P l'.
Proof.
  unfold pop. intros Hl. destruct (l !! i); [| discriminate].
  intros [= <-]. now apply Forall_delete.
Qed.

Lemma handle_keeps_ok (st st' : Session) (e : event) :
  session_ok st -> widgets_allow st e -> handle e st = Some st' ->
  session_ok st'.
Proof.
  intros (Hc & Ha & Hm & Hs) Hw Hrun. unfold session_ok.
  destruct e as [concept | now name role age personality background goals | i
               | now name description arc_start arc_end themes involved | i
               | now name description chapter type impact related | i
               | name chapter chars dialogue branch_texts];
    cbn [handle widgets_allow] in Hw, Hrun.
  - injection Hrun as <-. cbn. auto.
  - injection Hrun as <-. unfold submit_character.
    destruct name as [|c name]; cbn [nonempty]; [auto |].
    cbn [st_characters st_story_arcs st_milestones st_dialogue_scenes].
    repeat split; try assumption. apply Forall_snoc; [exact Hc |].
    unfold character_ok, create_character. cbn. intuition discriminate.
  - unfold delete_character in Hrun.
    destruct (pop i (st_characters st)) as [rest|] eqn:Hpop; [| discriminate].
    injection Hrun as <-. cbn. repeat split; try assumption.
    eapply Forall_pop; eassumption.
  - injection Hrun as <-. unfold submit_arc.
    destruct name as [|c name]; cbn [nonempty]; [auto |].
    cbn [st_characters st_story_arcs st_milestones st_dialogue_scenes].
    repeat split; try assumption. apply Forall_snoc; [exact Ha |].
    unfold arc_ok, create_story_arc. cbn. intuition discriminate.
  - unfold delete_arc in Hrun.
    destruct (pop i (st_story_arcs st)) as [rest|] eqn:Hpop; [| discriminate].
    injection Hrun as <-. cbn. repeat split; try assumption.
    eapply Forall_pop; eassumption.
  - injection Hrun as <-. unfold submit_milestone.
    destruct name as [|c name]; cbn [nonempty]; [auto |].
    cbn [st_characters st_story_arcs st_milestones st_dialogue_scenes].
    repeat split; try assumption. apply Forall_snoc; [exact Hm |].
    unfold milestone_ok, create_milestone. cbn.
    destruct Hw as (H1 & H2 & H3 & H4).
    repeat split; try assumption; [discriminate |].
    unfold str_eqb. case_bool_decide as Hnone; cbn [negb];
      [discriminate | congruence].
  - destruct Hw as [Hi Hnd].
    destruct (delete_milestone_run st i Hi Hnd)
      as (m & before & after & _ & Hsplit & _ & Hdel).
    rewrite Hdel in Hrun. injection Hrun as <-. cbn.
    repeat split; try assumption.
    rewrite Hsplit in Hm. apply Forall_app in Hm as [Hb Hm].
    apply Forall_cons in Hm as [_ Hm]. apply Forall_app. now split.
  - injection Hrun as <-. unfold add_scene.
    destruct (nonempty (st_characters st)); [| auto].
    destruct chars as [|c chars]; cbn [nonempty]; [auto |].
    cbn [st_characters st_story_arcs st_milestones st_dialogue_scenes].
    repeat split; try assumption. apply Forall_snoc; [exact Hs |].
    destruct Hw as (H1 & H2 & H3). unfold scene_ok. cbn.
    repeat split; [exact H1 | discriminate | |].
    + pose proof (List.filter_length_le nonempty branch_texts). lia.
    + apply Forall_forall. intros b Hb. apply list_elem_of_In in Hb.
      apply List.filter_In in Hb as [_ Hb]. now destruct b.
Qed.

Lemma reachable_session_ok (st : Session) : reachable st -> session_ok st.
Proof.
  induction 1 as [|st st' e _ IH Hw Hrun].
  - repeat split; constructor.
  - eapply handle_keeps_ok; eassumption.
Qed.

(** X23.  In every session state that the pages can produce, a character
    has a name, one of the seven roles and an age from 10 to 100; an arc
    has a name and start and end chapters of at least 1; a milestone has a
    name, a chapter of at least 1, one of the five types and of the four
    impact levels, and its related arc is never the text "None"; a scene
    has a chapter of at least 1, at least one character and at most four
    branches, none of them empty. *)
Theorem sessions_keep_widget_bounds (st : Session) :
  reachable st ->
  (forall c, In c (st_characters st) ->
     char_name c <> [] /\ In (char_role c) role_options
     /\ 10 <= char_age c <= 100)
  /\ (forall a, In a (st_story_arcs st) ->
        arc_name a <> [] /\ 1 <= arc_start_chapter a /\ 1 <= arc_end_chapter a)
  /\ (forall m, In m (st_milestones st) ->
        ms_name m <> [] /\ 1 <= ms_chapter m
        /\ In (ms_type m) milestone_type_options
        /\ In (ms_impact m) impact_options
        /\ ms_related_arc m <> Some (u "None"))
  /\ (forall s, In s (st_dialogue_scenes st) ->
        1 <= scene_chapter s /\ scene_characters s <> []
        /\ (length (scene_branches s) <= 4)%nat
        /\ forall b, In b (scene_branches s) -> b <> []).
Proof.
  intros Hreach.
  destruct (reachable_session_ok st Hreach) as (Hc & Ha & Hm & Hs).
  rewrite List.Forall_forall in Hc, Ha, Hm, Hs.
  split; [exact Hc |]. split; [exact Ha |]. split; [exact Hm |].
  intros s Hin. destruct (Hs s Hin) as (H1 & H2 & H3 & H4).
  rewrite List.Forall_forall in H4. auto.
Qed.

Lemma sessions_keep_widget_bounds_witness :
  (forall c, In c (st_characters sample_session) ->
     char_name c <> [] /\ In (char_role c) role_options
     /\ 10 <= char_age c <= 100)
  /\ (forall a, In a (st_story_arcs sample_session) ->
        arc_name a <> [] /\ 1 <= arc_start_chapter a /\ 1 <= arc_end_chapter a)
  /\ (forall m, In m (st_milestones sample_session) ->
        ms_name m <> [] /\ 1 <= ms_chapter m
        /\ In (ms_type m) milestone_type_options
        /\ In (ms_impact m) impact_options
        /\ ms_related_arc m <> Some (u "None"))
  /\ (forall s, In s (st_dialogue_scenes sample_session) ->
        1 <= scene_chapter s /\ scene_characters s <> []
        /\ (length (scene_branches s) <= 4)%nat
        /\ forall b, In b (scene_branches s) -> b <> []).
Proof.
  apply sessions_keep_widget_bounds. unfold sample_session.
  eapply (reachable_step _ _
            (AddScene (u "Meeting") 1 [u "Ava"] (u "Hello") [u "Wave"; []]));
    [| | reflexivity].
  eapply (reachable_step _ _
            (SubmitMilestone [] (u "Reveal") [] 5 (u "Plot Point") (u "High")
               (u "None")));
    [| | reflexivity].
  eapply (reachable_step _ _
            (SubmitMilestone [] (u "Finale") [] 9 (u "Plot Point")
               (u "Critical") (u "Main")));
    [| | reflexivity].
  eapply (reachable_step _ _
            (SubmitArc [] (u "Main") [] 1 5 [] [u "Ava"]));
    [| | reflexivity].
  eapply (reachable_step _ _
            (SubmitCharacter [] (u "Ava") (u "Main Character") 18 [] [] []));
    [apply reachable_initial | | reflexivity].
  - cbn. split; [auto 10 | lia].
  - cbn. repeat split; try lia. intros x [<- | []]. now left.
  - cbn. repeat split; try lia; auto 10.
  - cbn. repeat split; try lia; auto 10.
  - cbn. repeat split; try lia. intros x [<- | []]. now left.
Defined.



(** ** The session state in the store *)

Lemma fresh_not_in (h : heap) (l : loc) (o : pyobj) :
  h !! l = Some o -> fresh (dom h) <> l /\ h !! fresh (dom h) = None.
Proof.
  intros Hl. pose proof (is_fresh (dom h)) as Hf. split.
  - intros E. apply Hf. rewrite E. apply elem_of_dom. eauto.
  - now apply not_elem_of_dom.
Qed.

Lemma list_block_run (h : heap) (l : loc) (entries : list (pystr * val))
    (key : pystr) :
  h !! l = Some (ODict entries) ->
  (present ← Pages.dict_contains (VRef l) key;
   if negb present then
     new ← list_new []; dict_setitem (VRef l) key new
   else mret tt) h
  = Some (tt, fst (Pages.list_step l key (h, entries)))
  /\ fst (Pages.list_step l key (h, entries)) !! l
     = Some (ODict (snd (Pages.list_step l key (h, entries)))).
Proof.
  intros Hl. unfold Pages.list_step.
  unfold mbind, M_bind, Pages.dict_contains, load_dict, load, mret, M_ret.
  unfold mbind, M_bind, mret, M_ret. rewrite Hl.
  destruct (dict_lookup key entries) as [x|]; cbn [negb fst snd];
    [split; [reflexivity | exact Hl] |].
  destruct (fresh_not_in h l _ Hl) as [Hne Hnew].
  unfold list_new, alloc, dict_setitem, load_dict, load, store.
  unfold mbind, M_bind, mret, M_ret.
  rewrite lookup_insert_ne by exact Hne. rewrite Hl.
  rewrite lookup_insert_ne by exact Hne. rewrite Hl.
  split; [reflexivity | apply lookup_insert_eq].
Qed.

Lemma concept_block_run (h : heap) (l : loc) (entries : list (pystr * val)) :
  h !! l = Some (ODict entries) ->
  (present ← Pages.dict_contains (VRef l) (u "story_concept");
   if negb present then dict_setitem (VRef l) (u "story_concept") (VStr [])
   else mret tt) h
  = Some (tt, fst (Pages.concept_step l (h, entries)))
  /\ fst (Pages.concept_step l (h, entries)) !! l
     = Some (ODict (snd (Pages.concept_step l (h, entries)))).
Proof.
  intros Hl. unfold Pages.concept_step.
  unfold mbind, M_bind, Pages.dict_contains, load_dict, load, mret, M_ret.
  unfold mbind, M_bind, mret, M_ret. rewrite Hl.
  destruct (dict_lookup (u "story_concept") entries) as [x|];
    cbn [negb fst snd]; [split; [reflexivity | exact Hl] |].
  unfold dict_setitem, load_dict, load, store.
  unfold mbind, M_bind, mret, M_ret. rewrite Hl. rewrite Hl.
  split; [reflexivity | apply lookup_insert_eq].
Qed.

(** The whole function, as the five steps in a row. *)
Lemma initialize_session_state_run (h : heap) (l : loc)
    (entries : list (pystr * val)) :
  h !! l = Some (ODict entries) ->
  Pages.initialize_session_state (VRef l) h
  = Some (tt,
          fst (Pages.concept_step l
                 (Pages.list_step l (u "dialogue_scenes")
                    (Pages.list_step l (u "milestones")
                       (Pages.list_step l (u "story_arcs")
                          (Pages.list_step l (u "characters") (h, entries))))))).
Proof.
  intros Hl. unfold Pages.initialize_session_state.
  set (s1 := Pages.list_step l (u "characters") (h, entries)).
  set (s2 := Pages.list_step l (u "story_arcs") s1).
  set (s3 := Pages.list_step l (u "milestones") s2).
  set (s4 := Pages.list_step l (u "dialogue_scenes") s3).
  destruct (list_block_run h l entries (u "characters") Hl) as [R1 L1].
  fold s1 in R1, L1.
  destruct s1 as [h1 e1] eqn:E1. cbn [fst snd] in R1, L1.
  destruct (list_block_run h1 l e1 (u "story_arcs") L1) as [R2 L2].
  fold s2 in R2, L2.
  destruct s2 as [h2 e2] eqn:E2. cbn [fst snd] in R2, L2.
  destruct (list_block_run h2 l e2 (u "milestones") L2) as [R3 L3].
  fold s3 in R3, L3.
  destruct s3 as [h3 e3] eqn:E3. cbn [fst snd] in R3, L3.
  destruct (list_block_run h3 l e3 (u "dialogue_scenes") L3) as [R4 L4].
  fold s4 in R4, L4.
  destruct s4 as [h4 e4] eqn:E4. cbn [fst snd] in R4, L4.
  destruct (concept_block_run h4 l e4 L4) as [R5 _].
  unfold mbind at 1. unfold M_bind at 1. rewrite R1.
  unfold mbind at 1. unfold M_bind at 1. rewrite R2.
  unfold mbind at 1. unfold M_bind at 1. rewrite R3.
  unfold mbind at 1. unfold M_bind at 1. rewrite R4.
  exact R5.
Qed.

Lemma key_in_or_not (key : pystr) (keys : list pystr) :
  In key keys \/ ~ In key keys.
Proof.
  destruct (decide (key ∈ keys)) as [H | H]; rewrite list_elem_of_In in H; auto.
Qed.

Lemma initialized_start (h : heap) (l : loc) (entries : list (pystr * val)) :
  h !! l = Some (ODict entries) -> Pages.initialized l h entries [] (h, entries).
Proof.
  intros Hl. unfold Pages.initialized.
  split; [exact Hl |]. split; [auto |]. split; [auto |]. split; [auto |].
  split; [intros key [] |].
  intros k1 k2 new H1 _ H1'. congruence.
Qed.

Lemma initialized_list_step (l : loc) (h0 : heap) (entries0 : list (pystr * val))
    (done : list pystr) (key : pystr) (s : heap * list (pystr * val)) :
  Pages.initialized l h0 entries0 done s ->
  Pages.initialized l h0 entries0 (key :: done) (Pages.list_step l key s).
Proof.
  destruct s as [h entries]. unfold Pages.initialized, Pages.list_step.
  intros (Hl & Hframe & Hkeep & Hrest & Hnew & Hinj).
  destruct (dict_lookup key entries) as [x|] eqn:Hkey.
  - split; [exact Hl |]. split; [exact Hframe |]. split; [exact Hkeep |].
    split; [intros k Hk; apply Hrest; intros Hin; apply Hk; now right |].
    split; [| exact Hinj].
    intros k [<- | Hk] Hnone; [| now apply Hnew].
    apply Hnew; [| exact Hnone].
    destruct (key_in_or_not key done) as [Hin | Hout]; [exact Hin |].
    rewrite (Hrest key Hout) in Hkey. congruence.
  - destruct (fresh_not_in h l _ Hl) as [Hne Hfresh].
    set (new := fresh (dom h)) in *.
    assert (Hother : forall k, k <> key ->
              dict_lookup k (dict_set key (VRef new) entries)
              = dict_lookup k entries).
    { intros k Hk. rewrite dict_lookup_set. unfold str_eqb.
      now rewrite bool_decide_eq_false_2 by congruence. }
    assert (Hself : dict_lookup key (dict_set key (VRef new) entries)
                    = Some (VRef new)).
    { rewrite dict_lookup_set. unfold str_eqb.
      now rewrite bool_decide_eq_true_2. }
    assert (Hnew0 : h0 !! new = None).
    { destruct (h0 !! new) as [o|] eqn:E; [| reflexivity].
      rewrite (Hframe new o Hne E) in Hfresh. discriminate. }
    assert (Hdone : forall k, dict_lookup k entries0 = None ->
              forall n, dict_lookup k entries = Some n ->
              exists new', n = VRef new' /\ h !! new' = Some (OList [])).
    { intros k Hnone n Hn.
      destruct (key_in_or_not k done) as [Hin | Hout].
      - destruct (Hnew k Hin Hnone) as (new' & Hk & _ & Hh).
        exists new'. split; [congruence | exact Hh].
      - rewrite (Hrest k Hout) in Hn. congruence. }
    split; [apply lookup_insert_eq |]. split; [| split; [| split; [| split]]].
    + intros l' o Hl' Ho. rewrite lookup_insert_ne by congruence.
      rewrite lookup_insert_ne; [now apply Hframe |].
      intros <-. rewrite Hnew0 in Ho. discriminate.
    + intros k x Hk. rewrite Hother; [now apply Hkeep |].
      intros ->. apply Hkeep in Hk. congruence.
    + intros k Hk. rewrite Hother by (intros ->; apply Hk; now left).
      apply Hrest. intros Hin. apply Hk. now right.
    + intros k Hk Hnone.
      destruct (decide (k = key)) as [-> | Hkk].
      * exists new. split; [exact Hself |]. split; [exact Hnew0 |].
        rewrite lookup_insert_ne by congruence. apply lookup_insert_eq.
      * destruct Hk as [-> | Hk]; [congruence |].
        destruct (Hnew k Hk Hnone) as (new' & Hk' & H0' & Hh').
        exists new'. rewrite Hother by exact Hkk.
        split; [exact Hk' |]. split; [exact H0' |].
        rewrite lookup_insert_ne by congruence.
        rewrite lookup_insert_ne by congruence. exact Hh'.
    + intros k1 k2 n H1 H2 H1' H2'.
      destruct (decide (k1 = key)) as [-> | Hk1],
               (decide (k2 = key)) as [-> | Hk2]; [reflexivity | | |].
      * rewrite Hself in H1'. injection H1' as <-.
        rewrite Hother in H2' by exact Hk2.
        destruct (Hdone k2 H2 _ H2') as (new' & [= <-] & Hh). congruence.
      * rewrite Hself in H2'. injection H2' as <-.
        rewrite Hother in H1' by exact Hk1.
        destruct (Hdone k1 H1 _ H1') as (new' & [= <-] & Hh). congruence.
      * rewrite Hother in H1', H2' by assumption. eapply Hinj; eassumption.
Qed.


Lemma initialize_session_state_spec (h : heap) (l : loc)
    (entries : list (pystr * val)) :
  h !! l = Some (ODict entries) ->
  exists (h' : heap) (entries' : list (pystr * val)),
    Pages.initialize_session_state (VRef l) h = Some (tt, h')
    /\ h' !! l = Some (ODict entries')
    /\ (forall l' o, l' <> l -> h !! l' = Some o -> h' !! l' = Some o)
    /\ (forall key x,
          dict_lookup key entries = Some x -> dict_lookup key entries' = Some x)
    /\ (forall key,
          ~ In key Pages.session_keys ->
          dict_lookup key entries' = dict_lookup key entries)
    /\ (forall key,
          In key Pages.list_keys -> dict_lookup key entries = None ->
          exists new,
            dict_lookup key entries' = Some (VRef new)
            /\ h !! new = None /\ h' !! new = Some (OList []))
    /\ (forall k1 k2 new,
          In k1 Pages.list_keys -> In k2 Pages.list_keys ->
          dict_lookup k1 entries = None -> dict_lookup k2 entries = None ->
          dict_lookup k1 entries' = Some (VRef new) ->
          dict_lookup k2 entries' = Some (VRef new) -> k1 = k2)
    /\ (dict_lookup (u "story_concept") entries = None ->
        dict_lookup (u "story_concept") entries' = Some (VStr [])).
Proof.
  intros Hl. rewrite (initialize_session_state_run h l entries Hl).
  pose proof (initialized_list_step l h entries _ (u "dialogue_scenes") _
                (initialized_list_step l h entries _ (u "milestones") _
                   (initialized_list_step l h entries _ (u "story_arcs") _
                      (initialized_list_step l h entries _ (u "characters") _
                         (initialized_start h l entries Hl))))) as Hinit.
  set (s4 := Pages.list_step l (u "dialogue_scenes") _) in *.
  destruct s4 as [h4 e4]. unfold Pages.initialized in Hinit.
  destruct Hinit as (Hl4 & Hframe & Hkeep & Hrest & Hnew & Hinj).
  assert (Hlist : forall key, In key Pages.list_keys ->
            In key [u "dialogue_scenes"; u "milestones"; u "story_arcs";
                    u "characters"]).
  { intros key Hk. cbn in Hk |- *. tauto. }
  assert (Hconcept : ~ In (u "story_concept")
                       [u "dialogue_scenes"; u "milestones"; u "story_arcs";
                        u "characters"]).
  { cbn. intros [H | [H | [H | [H | []]]]]; vm_compute in H; discriminate H. }
  assert (Hlist' : forall key, In key Pages.list_keys -> key <> u "story_concept").
  { intros key Hk ->. apply Hconcept, Hlist, Hk. }
  unfold Pages.concept_step.
  destruct (dict_lookup (u "story_concept") e4) as [x|] eqn:Hsc; cbn [fst].
  - exists h4, e4. split; [reflexivity |]. split; [exact Hl4 |].
    split; [exact Hframe |]. split; [exact Hkeep |].
    split; [| split; [| split; [| ]]].
    + intros key Hk. apply Hrest. intros Hin. apply Hk.
      unfold Pages.session_keys. apply in_or_app. left.
      cbn in Hin |- *. tauto.
    + intros key Hk Hnone. now apply Hnew; [apply Hlist |].
    + intros k1 k2 new _ _. apply Hinj.
    + intros Hnone. rewrite (Hrest _ Hconcept) in Hsc. congruence.
  - set (e5 := dict_set (u "story_concept") (VStr []) e4).
    assert (Hother : forall k, k <> u "story_concept" ->
              dict_lookup k e5 = dict_lookup k e4).
    { intros k Hk. unfold e5. rewrite dict_lookup_set. unfold str_eqb.
      now rewrite bool_decide_eq_false_2 by congruence. }
    assert (Hself : dict_lookup (u "story_concept") e5 = Some (VStr [])).
    { unfold e5. rewrite dict_lookup_set. unfold str_eqb.
      now rewrite bool_decide_eq_true_2. }
    exists (<[l := ODict e5]> h4), e5. split; [reflexivity |].
    split; [apply lookup_insert_eq |].
    split; [| split; [| split; [| split; [| split]]]].
    + intros l' o Hl' Ho. rewrite lookup_insert_ne by congruence.
      now apply Hframe.
    + intros key x Hk. rewrite Hother; [now apply Hkeep |].
      intros ->. apply Hkeep in Hk. congruence.
    + intros key Hk. rewrite Hother.
      * apply Hrest. intros Hin. apply Hk.
        unfold Pages.session_keys. apply in_or_app. left.
        cbn in Hin |- *. tauto.
      * intros ->. apply Hk. unfold Pages.session_keys.
        apply in_or_app. right. now left.
    + intros key Hk Hnone.
      destruct (Hnew key (Hlist key Hk) Hnone) as (new & H1 & H2 & H3).
      exists new. rewrite Hother by now apply Hlist'.
      split; [exact H1 |]. split; [exact H2 |].
      rewrite lookup_insert_ne; [exact H3 |].
      intros <-. rewrite Hl4 in H3. discriminate.
    + intros k1 k2 new Hk1 Hk2 H1 H2.
      rewrite !Hother by now apply Hlist'. now apply Hinj.
    + intros _. exact Hself.
Qed.

(** X25.  Run on a store in which the session state is a dict,
    [initialize_session_state] returns and leaves every other object of the
    store as it was; every key the dict had keeps its value, and no key
    other than the five session keys is added; each of the four list keys
    that was missing now refers to an empty list that is a new object, a
    different one for each key; a missing [story_concept] is now the empty
    string. *)
Theorem session_state_initialized (h : heap) (l : loc)
    (entries : list (pystr * val)) :
  h !! l = Some (ODict entries) ->
  exists (h' : heap) (entries' : list (pystr * val)),
    Pages.initialize_session_state (VRef l) h = Some (tt, h')
    /\ h' !! l = Some (ODict entries')
    /\ (forall l' o, l' <> l -> h !! l' = Some o -> h' !! l' = Some o)
    /\ (forall key x,
          dict_lookup key entries = Some x -> dict_lookup key entries' = Some x)
    /\ (forall key,
          ~ In key [u "characters"; u "story_arcs"; u "milestones";
                    u "dialogue_scenes"; u "story_concept"] ->
          dict_lookup key entries' = dict_lookup key entries)
    /\ (forall key,
          In key [u "characters"; u "story_arcs"; u "milestones";
                  u "dialogue_scenes"] ->
          dict_lookup key entries = None ->
          exists new,
            dict_lookup key entries' = Some (VRef new)
            /\ h !! new = None /\ h' !! new = Some (OList []))
    /\ (forall k1 k2 new,
          In k1 [u "characters"; u "story_arcs"; u "milestones";
                 u "dialogue_scenes"] ->
          In k2 [u "characters"; u "story_arcs"; u "milestones";
                 u "dialogue_scenes"] ->
          dict_lookup k1 entries = None -> dict_lookup k2 entries = None ->
          dict_lookup k1 entries' = Some (VRef new) ->
          dict_lookup k2 entries' = Some (VRef new) -> k1 = k2)
    /\ (dict_lookup (u "story_concept") entries = None ->
        dict_lookup (u "story_concept") entries' = Some (VStr [])).
Proof. exact (initialize_session_state_spec h l entries). Qed.

Lemma session_state_initialized_witness :
  exists (h' : heap) (entries' : list (pystr * val)),
    Pages.initialize_session_state (VRef 1%positive)
      (<[1%positive := ODict []]> ∅) = Some (tt, h')
    /\ h' !! 1%positive = Some (ODict entries')
    /\ (forall l' o, l' <> 1%positive ->
          (<[1%positive := ODict []]> ∅ : heap) !! l' = Some o ->
          h' !! l' = Some o)
    /\ (forall key x,
          dict_lookup key [] = Some x -> dict_lookup key entries' = Some x)
    /\ (forall key,
          ~ In key [u "characters"; u "story_arcs"; u "milestones";
                    u "dialogue_scenes"; u "story_concept"] ->
          dict_lookup key entries' = dict_lookup key [])
    /\ (forall key,
          In key [u "characters"; u "story_arcs"; u "milestones";
                  u "dialogue_scenes"] ->
          dict_lookup key [] = None ->
          exists new,
            dict_lookup key entries' = Some (VRef new)
            /\ (<[1%positive := ODict []]> ∅ : heap) !! new = None
            /\ h' !! new = Some (OList []))
    /\ (forall k1 k2 new,
          In k1 [u "characters"; u "story_arcs"; u "milestones";
                 u "dialogue_scenes"] ->
          In k2 [u "characters"; u "story_arcs"; u "milestones";
                 u "dialogue_scenes"] ->
          dict_lookup k1 [] = None -> dict_lookup k2 [] = None ->
          dict_lookup k1 entries' = Some (VRef new) ->
          dict_lookup k2 entries' = Some (VRef new) -> k1 = k2)
    /\ (dict_lookup (u "story_concept") [] = None ->
        dict_lookup (u "story_concept") entries' = Some (VStr [])).
Proof.
  apply (session_state_initialized (<[1%positive := ODict []]> ∅) 1%positive []).
  reflexivity.
Defined.

Lemma initialize_session_state_noop (h : heap) (l : loc)
    (entries : list (pystr * val)) :
  h !! l = Some (ODict entries) ->
  (forall key, In key Pages.session_keys -> dict_lookup key entries <> None) ->
  Pages.initialize_session_state (VRef l) h = Some (tt, h).
Proof.
  intros Hl Hall. rewrite (initialize_session_state_run h l entries Hl).
  assert (Hstep : forall key, In key Pages.session_keys ->
            Pages.list_step l key (h, entries) = (h, entries)).
  { intros key Hk. unfold Pages.list_step.
    destruct (dict_lookup key entries) eqn:E; [reflexivity |].
    now apply Hall in Hk. }
  rewrite !Hstep by (cbn; tauto).
  unfold Pages.concept_step.
  destruct (dict_lookup (u "story_concept") entries) eqn:E; [reflexivity |].
  exfalso. apply (Hall (u "story_concept")); [cbn; tauto | exact E].
Qed.

(** X26.  [initialize_session_state] is idempotent: a second call, as made
    when the page runs again, returns and leaves the whole store, session
    state included, as the first call left it; on a session state that
    holds the five keys the call changes nothing. *)
Theorem initialize_session_state_idempotent (h : heap) (l : loc)
    (entries : list (pystr * val)) :
  h !! l = Some (ODict entries) ->
  exists h' : heap,
    Pages.initialize_session_state (VRef l) h = Some (tt, h')
    /\ Pages.initialize_session_state (VRef l) h' = Some (tt, h')
    /\ ((forall key,
           In key [u "characters"; u "story_arcs"; u "milestones";
                   u "dialogue_scenes"; u "story_concept"] ->
           dict_lookup key entries <> None) ->
        h' = h).
Proof.
  intros Hl.
  destruct (initialize_session_state_spec h l entries Hl)
    as (h' & entries' & Hrun & Hl' & _ & Hkeep & _ & Hnew & _ & Hsc).
  exists h'. split; [exact Hrun |]. split.
  - apply (initialize_session_state_noop h' l entries' Hl').
    intros key Hk.
    destruct (dict_lookup key entries) as [x|] eqn:E.
    + rewrite (Hkeep key x E). discriminate.
    + unfold Pages.session_keys in Hk. apply in_app_or in Hk as [Hk | Hk].
      * destruct (Hnew key Hk E) as (new & -> & _). discriminate.
      * destruct Hk as [<- | []]. rewrite (Hsc E). discriminate.
  - intros Hall.
    rewrite (initialize_session_state_noop h l entries Hl Hall) in Hrun.
    congruence.
Qed.

Lemma initialize_session_state_idempotent_witness :
  exists h' : heap,
    Pages.initialize_session_state (VRef 1%positive)
      (<[1%positive := ODict []]> ∅) = Some (tt, h')
    /\ Pages.initialize_session_state (VRef 1%positive) h' = Some (tt, h')
    /\ ((forall key,
           In key [u "characters"; u "story_arcs"; u "milestones";
                   u "dialogue_scenes"; u "story_concept"] ->
           dict_lookup key [] <> None) ->
        h' = <[1%positive := ODict []]> ∅).
Proof.
  apply (initialize_session_state_idempotent
           (<[1%positive := ODict []]> ∅) 1%positive []).
  reflexivity.
Defined.

(** ** The genres detected on the concept page *)

Lemma is_prefix_spec (p s : pystr) :
  is_prefix p s = true <-> exists after, s = p ++ after.
Proof.
  revert s. induction p as [|a p IH]; intros s; cbn [is_prefix].
  - split; [intros _; now exists s | reflexivity].
  - destruct s as [|b s].
    + split; [discriminate | intros (after & H); discriminate H].
    + rewrite andb_true_iff, N.eqb_eq, IH. split.
      * intros (-> & after & ->). now exists after.
      * intros (after & [= -> ->]). split; [reflexivity | now exists after].
Qed.

Lemma contains_spec (s sub : pystr) :
  contains s sub = true <-> occurs_in sub s.
Proof.
  unfold occurs_in. induction s as [|c s IH]; cbn [contains].
  - rewrite orb_false_r, is_prefix_spec. split.
    + intros (after & H). now exists [], after.
    + intros (before & after & H). destruct before; [now exists after |].
      discriminate H.
  - rewrite orb_true_iff, is_prefix_spec, IH. split.
    + intros [(after & H) | (before & after & H)].
      * now exists [], after.
      * exists (c :: before), after. now rewrite H.
    + intros (before & after & H). destruct before as [|b before].
      * left. now exists after.
      * right. injection H as -> ->. now exists before, after.
Qed.

Lemma mentions_spec (lower : pystr -> pystr) (concept : pystr)
    (words : list pystr) :
  mentions lower concept words = true
  <-> exists word, In word words /\ occurs_in word (lower concept).
Proof.
  unfold mentions. rewrite existsb_exists.
  split; intros (word & Hin & H); exists word; (split; [exact Hin |]);
    now apply contains_spec.
Qed.

(** X27.  The genres detected for a concept are listed in the fixed order
    Romance, Mystery, Fantasy, Slice of Life, each at most once, and a genre
    is listed exactly when one of its three keywords occurs somewhere in
    the lower-cased concept, inside a longer word or not. *)
Theorem detected_genres_spec (lower : pystr -> pystr) (concept : pystr) :
  sublist (detect_genres lower concept)
    [u "Romance"; u "Mystery"; u "Fantasy"; u "Slice of Life"]
  /\ forall (genre : pystr) (words : list pystr),
       In (genre, words) genre_keywords ->
       (In genre (detect_genres lower concept)
        <-> exists word, In word words /\ occurs_in word (lower concept)).
Proof.
  unfold detect_genres.
  pose proof (mentions_spec lower concept [u "love"; u "romance"; u "heart"])
    as H1.
  pose proof (mentions_spec lower concept
                [u "mystery"; u "detective"; u "crime"]) as H2.
  pose proof (mentions_spec lower concept [u "magic"; u "fantasy"; u "dragon"])
    as H3.
  pose proof (mentions_spec lower concept [u "school"; u "student"; u "class"])
    as H4.
  destruct (mentions lower concept [u "love"; u "romance"; u "heart"]),
    (mentions lower concept [u "mystery"; u "detective"; u "crime"]),
    (mentions lower concept [u "magic"; u "fantasy"; u "dragon"]),
    (mentions lower concept [u "school"; u "student"; u "class"]);
    cbn [app];
    (split;
     [repeat first [apply sublist_nil_l | apply sublist_skip
                   | apply sublist_cons]
     | intros genre words [[= <- <-] | [[= <- <-] | [[= <- <-]
                          | [[= <- <-] | []]]]];
       (split;
        [intros Hin;
         first [ now apply H1 | now apply H2 | now apply H3 | now apply H4
               | exfalso; vm_compute in Hin; intuition discriminate ]
        | intros Hw;
          first [ apply H1 in Hw | apply H2 in Hw | apply H3 in Hw
                | apply H4 in Hw ];
          first [ discriminate Hw | cbn; auto 6 ] ]) ]).
Qed.
